(* ===== verification/_CoqProject ===== *)
-Q . S2P
Prelude.v
GoString.v
Json.v
Indent.v
Time.v
Names.v
Cache.v
World.v
Evolve.v
Counter.v
CounterSpec.v
Markers.v
UserPolicy.v
Status.v
NetIP.v
PkiIndex.v
Pki.v
PkiDemo.v
PkiProps.v
Mgmt.v
Hooks.v
HookProps.v
Usage.v
Accounting.v
UsageProps.v
Disconnect.v
Users.v
UsersProps.v
Node.v
RateLimit.v
RateProps.v
Pairing.v
Auth.v
Config.v
Policy.v
PolicyProps.v
Float.v
Ring.v
Sysinfo.v
Perms.v
Migrate.v
Nat.v
NatProps.v
Control.v
ConfText.v
ControlProps.v
Events.v
Diag.v
DiagProps.v
EventProps.v
Expiry.v
ServerConf.v
ServerConfProps.v
Updater.v
UpdaterProps.v
Body.v
Api.v
ApiDemo.v
ApiProps.v
ApiMemory.v
ApiGate.v
ApiBulk.v
PushProps.v
Init.v
InitProps.v
Installer.v
Paths.v
InstallerProps.v
InstallerDemo.v
RestoreProps.v
TamperProps.v
Assets.v
Serve.v
ServeProps.v
Main.v
MainProps.v
AssetsProps.v
Fs.v
FsProps.v
AtomicProps.v
