(* ===== verification/Prelude.v ===== *)
(** * The OVNode agent, modelled and verified

    OVNode is the agent of one OpenVPN server.  It runs as the
    client-connect and client-disconnect hooks of OpenVPN (internal/hooks), as
    a daemon a panel talks to over HTTPS (internal/httpapi) that also keeps
    OpenVPN running (internal/ovpn), and as the commands its installer calls
    (cmd/ovnode).  It keeps everything it knows in small files: a folder per
    user (policy, name), a marker per session, a usage counter per user, the
    lease of the panel, the pushed network settings, the certificates.  This
    library translates the program into functions and proves what makes it
    correct.

    ** How the program is modelled

    An operation is a function of type [World.M A]: it takes the state of the
    node ([World.World]: the files by location, the folders, the logs, the
    clock, the entropy still to come, the caches) and returns an error or a
    value together with the state it leaves, so an operation that fails half
    way keeps what it has already done.  [w_fault] says which file operation
    fails; every theorem that does not assume [faultless] holds for every
    choice of failures.  A panic is an error value of its own ([Panic]).
    Below that, [Fs.K] are the operations on inodes, for the code that opens
    the tree call by call; [AtomicProps] connects the two: the atomic write
    of World is what the calls of fsx/atomic.go implement.
    Integers are [Z] with the wrap-around of [uint64], [int] and [int64]
    written where the code adds and subtracts.  Strings are byte strings.

    ** The files, by the code they model (paths under src/internal)

    - Prelude, GoString, Json, Indent, NetIP, Time, Float, Paths: machine
      integers, the parts of [strings], [strconv], [encoding/json], [net],
      [time] and [path/filepath] the agent uses; Indent is the JSON printed
      over several lines, Float the binary64 of the Standard Library.
    - Names (fsx/name.go, hooks/validate.go), Cache (store/cache.go),
      World (the file tree, [store.Lock], the logs); Evolve: what an operation
      may change, proved rule by rule.
    - Fs, FsProps, AtomicProps (fsx/permissions.go, fsx/atomic.go,
      logging/logging.go): folders, files, owners and modes as inodes and
      system calls.  Perms: the runtime user and group of permissions.go.
    - Counter (store/counter.go, store/usage.go); CounterSpec states the ledger
      a counter stands for and that every operation refines it.
    - Markers (store/sessions.go); UserPolicy (store/store.go, state.go,
      users.go); Migrate (the layout, the repair and the migration of
      store/users.go); Status (ovpn/status.go); Mgmt (ovpn/mgmt.go).
    - Hooks (hooks/connect.go, disconnect.go, purge.go), HookProps.
    - PkiIndex, Pki (pki/ca.go, client.go, certs.go, validate.go, paths.go):
      the certificate index, serials, issuing, revocation and the CRL;
      PkiProps, and PkiDemo, an instance of the interface to the cryptography;
      Expiry: the dates the API shows.
    - Init, InitProps (ovpn/pki.go, pki/easyrsa.go, setup.go): the first start.
    - Users (ovpn/users.go, lifecycle.go, profile.go), UsersProps: creating,
      deleting and replacing users and rendering their profiles; PushProps:
      the identity the panel pushes.
    - Usage (ovpn/usage.go and the markers of ovpn/sessions.go), Accounting,
      UsageProps; Disconnect (ovpn/disconnect.go); Events, EventProps
      (ovpn/events.go); Diag, DiagProps (the diagnostics of ovpn/sessions.go).
    - Node: all of the stores and hooks as one transition system, in any
      interleaving.
    - RateLimit, RateProps (ratelimit/ratelimit.go); Pairing
      (pairing/pairing.go); Auth (httpapi/auth.go, contract_version.go); Ring
      (logging/ring.go); Sysinfo (httpapi/sysinfo.go).
    - Body, Api (httpapi/server.go, handlers.go, users.go, stats.go,
      envelope.go): the bodies, the routes and every handler; ApiDemo, a node
      to run them on; ApiProps, ApiMemory, ApiGate, ApiBulk.
    - Config (fsx/paths.go, config/config.go, ovpn/settings.go); Policy,
      PolicyProps (policy/policy.go); Nat, NatProps (nat/nat.go).
    - Control (ovpn/control.go, process.go, node.go): the settings the panel
      pushes, with ConfText and ControlProps; ServerConf (ovpn/serverconf.go),
      ServerConfProps: server.conf and the client template.
    - Updater, UpdaterProps (updater/updater.go); Installer
      (installer/installer.go, state.go) with InstallerProps, InstallerDemo,
      RestoreProps and TamperProps; Assets, AssetsProps (assets.go at the top
      of src).
    - Serve, ServeProps (the start of httpapi/server.go, ovpn/daemon.go); Main,
      MainProps (cmd/ovnode/main.go under src).

    ** What the theorems show

    - Accounting: [Node.traffic_is_never_lost] is the statement for the whole
      node; [CounterSpec] proves that traffic is counted once and that
      recording, pruning and resetting are the ledger operations;
      [UsageProps] that a report shows the persisted totals and nothing else.
    - Admission: the connect hook implements the login limit and the takeover
      exactly ([HookProps.connect_implements_policy]) and never admits without
      a reason ([HookProps.admission_is_justified]); takeovers end and follow
      the protocol ([Mgmt]).
    - Sessions: markers and status files round trip; delayed disconnects, the
      purge and the stale sweep remove only what is proved dead.
    - Users: a policy write merges, a corrupt policy is never overwritten; a
      delete that reaches the user's state leaves no access, or the user is
      disabled ([UsersProps.delete_never_leaves_access]), and never touches a
      folder that replaced the one it waited for; credentials are only stored
      after they were checked, and as a whole
      ([PushProps.pushed_identity_is_all_or_nothing]); the profile carries the
      stored certificate.
    - Certificates: a revoked serial stays revoked through every operation
      ([PkiProps.revoked_forever]), removing a user's material revokes each of
      its certificates, fresh serials are fresh, the index stays readable; the
      first start never harms an authority that is there and fails closed
      ([InitProps]).
    - The API: a caller that is refused changes nothing
      ([ApiGate.refused_caller_changes_nothing]), every request is answered,
      what the process remembers is bounded, at most ten guesses of the key in
      five minutes, the limits hold over every sliding window, one panel owns
      the node, a sweep is its single requests; the agent never serves without
      TLS and a key of its own ([ServeProps]).
    - Settings: what the panel pushes is what is read back and redirected.  A
      pushed configuration is applied as a whole
      ([ControlProps.accepted_config_is_applied]) or leaves the tree as it was
      ([ControlProps.refused_config_changes_nothing]), whichever write fails;
      [ConfText] is about the text it computes.  Keeping server.conf ends
      ([ServerConfProps.server_conf_settles]) and keeps the lines of the
      operator.
    - Updates: a run refines five phases ([UpdaterProps]); what a snapshot was
      taken of is what a restore brings back
      ([RestoreProps.restore_brings_back]) and a snapshot that fails a check
      changes nothing ([TamperProps]); the journal is read back; a script the
      binary writes is the old one or the new one ([AssetsProps]).
    - The file system: a file is written whole or not at all wherever the
      process stops ([AtomicProps.a_file_is_written_whole]), which is the
      atomic write of World ([AtomicProps.atomic_write_is_refined]); folders
      are reached without links and made only where nobody else writes, no
      owner sees a file with more than it should have, and an event is never
      more than one line ([FsProps]).

    ** Fuel and bounds

    The status polls of a takeover use [verify_fuel] = 14, all the 7 s budget
    allows ([Mgmt.takeover_terminates] shows that more fuel gives the same
    run); the JSON reader uses the length of its input, which every call
    shortens (the limit of [encoding/json] on the depth of nesting is not
    modelled); the loops of the socket are bounded by the bytes of the script
    and their deadlines.  [Fs.namei_fuel] = 4096 steps bound the walk of a path, which is
    no longer than that and has at most 40 links; [Fs.temp_tries] are the
    ten thousand names [os.CreateTemp] tries.

    ** What is abstracted

    The socket is a script of timed answers; the order in which Go visits a
    map is a parameter; SHA-256, the process table, iptables, easy-rsa, openvpn,
    openssl, tar and gzip are parameters, with their documented behaviour as
    hypotheses where a theorem relies on it ([NatProps.NetfilterSpec]).  X.509,
    PEM and keys are the class [Pki.Crypto] with the laws [CryptoSpec], of which
    PkiDemo gives an instance; generated material is a function of the entropy
    still to come.  Files of the PKI are regular files and its folders always
    exist.  [Users.waiting] is what other processes do while the lifecycle lock
    is waited for, with the answer of [os.SameFile]; [RemoveAll] removes all or
    nothing.  The dates of the index have two-digit years, which fit until 2061
    ([PkiIndex.century]).
    A temporary file of World has the first free name of its pattern; a write
    with [os.WriteFile] that fails leaves what the parameter [torn] says.
    [Control.Host] and [Perms.HostId] are the processes, addresses and groups
    of the host; [any] is the decoded JSON of a pushed value, a float by what
    [int] makes of it.  The legacy trees and the trees of an update are files at
    absolute paths, where a file is never in the place of a folder; the folder
    of the backups is outside what a snapshot holds.
    Requests of the API are handled one at a time, with clean paths and a
    decoded query; behind the gate a panic is caught and answered, as the code
    does; [Api.site] is what the host answers.
    The calls of Fs follow one another, and a process that dies is one whose
    calls all fail from then on; what a change of owner leaves of a mode is a
    parameter, and the paths are clean.  In World, owners and modes are not part
    of the state (setting them may fail).
    Case mapping is the one of ASCII.  Error texts of the operating system are
    abbreviated, log lines of World carry no timestamps.  A hook, a poll or a
    request is one step of [Node], since each runs under its locks.

    ** Not modelled

    The shell scripts install.sh, ovnode.sh and lib.sh, which drive the commands
    of the binary; the helpers of the tests (internal/testenv and the program
    under internal/fsx/testdata); the listener, TLS and the gzip stream of the
    HTTP server; the text of the JSON of an answer, which is kept as a value;
    the interleaving of goroutines inside one process, whose mutexes make each
    operation one step. *)

From stdpp Require Export base gmap sets list strings sorting.
From Stdlib Require Export ZArith Lia.
From Stdlib Require Import Ascii.

#[export] Set Default Proof Using "Type".

(** ** Automation *)

(** Case analysis on the head match of the goal, keeping the equation. *)
Ltac case_goal :=
  match goal with
  | |- context [match ?x with _ => _ end] => destruct x eqn:?
  end.

(** The same on a hypothesis. *)
Ltac case_hyp H :=
  match type of H with
  | context [match ?x with _ => _ end] => destruct x eqn:?
  end.

(** Close a goal by splitting every match of a hypothesis. *)
Ltac crush_hyp H := repeat (case_hyp H; simplify_eq/=; try done).

(** Turn boolean tests into arithmetic facts. *)
Ltac boolify :=
  repeat match goal with
  | H : (_ && _) = true |- _ => apply andb_true_iff in H; destruct H
  | H : (_ || _) = false |- _ => apply orb_false_iff in H; destruct H
  | H : negb _ = true |- _ => apply negb_true_iff in H
  | H : negb _ = false |- _ => apply negb_false_iff in H
  | H : (_ <? _)%Z = true |- _ => apply Z.ltb_lt in H
  | H : (_ <? _)%Z = false |- _ => apply Z.ltb_ge in H
  | H : (_ <=? _)%Z = true |- _ => apply Z.leb_le in H
  | H : (_ <=? _)%Z = false |- _ => apply Z.leb_gt in H
  | H : (_ =? _)%Z = true |- _ => apply Z.eqb_eq in H
  | H : (_ =? _)%Z = false |- _ => apply Z.eqb_neq in H
  | H : (_ <? _)%N = true |- _ => apply N.ltb_lt in H
  | H : (_ <=? _)%N = true |- _ => apply N.leb_le in H
  | H : (_ <? _)%nat = true |- _ => apply Nat.ltb_lt in H
  | H : (_ <? _)%nat = false |- _ => apply Nat.ltb_ge in H
  | H : (_ <=? _)%nat = true |- _ => apply Nat.leb_le in H
  | H : (_ <=? _)%nat = false |- _ => apply Nat.leb_gt in H
  end.

(** A property of every element of a list written out. *)
Ltac forall_list := repeat (apply Forall_cons_2; [try done|]); try apply Forall_nil_2.

Create HintDb ovn.

(** ** Machine integers

    Go's [uint64], [int] and [int64] are kept as [Z] with the wrap-around
    written where the code adds or subtracts. *)

Definition two64 : Z := 18446744073709551616.
Definition two63 : Z := 9223372036854775808.

(** [uint64] addition. *)
Definition u64_add (a b : Z) : Z := (a + b) mod two64.

(** [uint64] subtraction. *)
Definition u64_sub (a b : Z) : Z := (a - b) mod two64.

Definition is_u64 (a : Z) : Prop := (0 <= a < two64)%Z.

(** The value of the 64-bit pattern of [a] read as [int64]. *)
Definition to_i64 (a : Z) : Z :=
  let m := (a mod two64)%Z in if (m <? two63)%Z then m else (m - two64)%Z.

(** [int64] subtraction. *)
Definition i64_sub (a b : Z) : Z := to_i64 (a - b).

Definition is_i64 (a : Z) : Prop := (- two63 <= a < two63)%Z.

Lemma u64_add_range a b : is_u64 (u64_add a b).
Proof. unfold is_u64, u64_add, two64. apply Z.mod_pos_bound. lia. Qed.

Lemma u64_add_small a b :
  (0 <= a)%Z -> (0 <= b)%Z -> (a + b < two64)%Z -> u64_add a b = (a + b)%Z.
Proof. intros. unfold u64_add. apply Z.mod_small. lia. Qed.

(** The test [total+delta < total] detects exactly the overflow. *)
Lemma u64_add_overflow a b :
  is_u64 a -> is_u64 b -> (u64_add a b < a <-> two64 <= a + b)%Z.
Proof.
  unfold is_u64, u64_add, two64. intros Ha Hb. split; intros H.
  - destruct (Z.le_gt_cases 18446744073709551616 (a + b)); [done|].
    rewrite Z.mod_small in H; lia.
  - replace ((a + b) mod 18446744073709551616)%Z
      with (a + b - 18446744073709551616)%Z; [lia|].
    apply (Z.mod_unique _ _ 1); lia.
Qed.

Lemma u64_sub_small a b :
  (0 <= b <= a)%Z -> (a < two64)%Z -> u64_sub a b = (a - b)%Z.
Proof. intros. unfold u64_sub. apply Z.mod_small. lia. Qed.

Lemma to_i64_id a : is_i64 a -> to_i64 a = a.
Proof.
  unfold is_i64, to_i64, two63, two64. intros [H1 H2]. cbv zeta.
  destruct (Z.le_gt_cases 0 a).
  - rewrite Z.mod_small by lia.
    destruct (Z.ltb_spec a 9223372036854775808); lia.
  - replace (a mod 18446744073709551616)%Z with (a + 18446744073709551616)%Z.
    + destruct (Z.ltb_spec (a + 18446744073709551616) 9223372036854775808); lia.
    + apply (Z.mod_unique _ _ (-1)); lia.
Qed.

Lemma i64_sub_id a b : is_i64 (a - b) -> i64_sub a b = (a - b)%Z.
Proof. apply to_i64_id. Qed.

(** ** Sorted string lists

    [os.ReadDir] and [encoding/json] present names in byte order. *)

Definition sort_strings (l : list string) : list string := merge_sort String.le l.

Lemma sort_strings_perm l : sort_strings l ≡ₚ l.
Proof. apply merge_sort_Permutation. Qed.

Lemma elem_of_sort_strings l x : x ∈ sort_strings l ↔ x ∈ l.
Proof. unfold sort_strings. by rewrite merge_sort_Permutation. Qed.

Lemma sort_strings_sorted l : Sorted String.le (sort_strings l).
Proof. apply Sorted_merge_sort. apply _. Qed.

(** ** Lists *)

Lemma elem_of_elements_dom {A} (m : gmap string A) k :
  k ∈ elements (dom m) ↔ is_Some (m !! k).
Proof. by rewrite elem_of_elements, elem_of_dom. Qed.

(** Summing a measure over a finite map. *)
Definition map_sum {A} (f : A -> Z) (m : gmap string A) : Z :=
  map_fold (fun _ a acc => f a + acc)%Z 0%Z m.

Lemma map_sum_empty {A} (f : A -> Z) : map_sum f ∅ = 0%Z.
Proof. unfold map_sum. apply map_fold_empty. Qed.

Lemma map_sum_insert {A} (f : A -> Z) m k a :
  m !! k = None -> map_sum f (<[k:=a]> m) = (f a + map_sum f m)%Z.
Proof.
  intros Hk. unfold map_sum.
  rewrite (map_fold_insert_L (fun _ a acc => (f a + acc)%Z)); [done| |done].
  intros. lia.
Qed.

Lemma map_sum_delete {A} (f : A -> Z) m k a :
  m !! k = Some a -> map_sum f m = (f a + map_sum f (delete k m))%Z.
Proof.
  intros Hk. rewrite <- (insert_id m k a Hk) at 1.
  rewrite <- insert_delete_eq. rewrite map_sum_insert; [done|].
  by rewrite lookup_delete_eq.
Qed.

(** Replacing one entry moves the sum by the difference. *)
Lemma map_sum_update {A} (f : A -> Z) m k a :
  map_sum f (<[k:=a]> m) =
  (map_sum f m + f a - from_option f 0 (m !! k))%Z.
Proof.
  destruct (m !! k) as [b|] eqn:Hk; simpl.
  - rewrite (map_sum_delete f m k b Hk).
    rewrite <- insert_delete_eq, map_sum_insert by apply lookup_delete_eq. lia.
  - rewrite map_sum_insert by done. lia.
Qed.

Lemma map_sum_nonneg {A} (f : A -> Z) m :
  (forall k a, m !! k = Some a -> 0 <= f a)%Z -> (0 <= map_sum f m)%Z.
Proof.
  induction m as [|k a m Hk IH] using map_ind.
  - intros _. by rewrite map_sum_empty.
  - intros H. rewrite map_sum_insert by done.
    assert (0 <= f a)%Z by (apply (H k); apply lookup_insert_eq).
    assert (0 <= map_sum f m)%Z; [|lia].
    apply IH. intros k' a' Hk'. apply (H k').
    rewrite lookup_insert_ne; [done|]. congruence.
Qed.

Lemma map_sum_ext {A} (f g : A -> Z) m :
  (forall k a, m !! k = Some a -> f a = g a) -> map_sum f m = map_sum g m.
Proof.
  induction m as [|k a m Hk IH] using map_ind.
  - intros _. by rewrite !map_sum_empty.
  - intros H. rewrite !map_sum_insert by done. f_equal.
    + apply (H k). apply lookup_insert_eq.
    + apply IH. intros k' a' Hk'. apply (H k').
      rewrite lookup_insert_ne; [done|]. congruence.
Qed.
