(* ===== verification/GoString.v ===== *)
(** * GoString: the part of Go's [strings] and [strconv] the agent uses.

    A Go string is a byte sequence; here it is a [string] of [ascii] bytes.
    The space functions follow [unicode.IsSpace] on the UTF-8 encoding.  The
    case functions map the ASCII letters only. *)

From S2P Require Import Prelude.
From Stdlib Require Import Ascii Decimal DecimalString DecimalN DecimalPos DecimalFacts.

(** ** Characters *)

Definition byte_in (lo hi : N) (c : ascii) : bool :=
  ((lo <=? N_of_ascii c) && (N_of_ascii c <=? hi))%N.

Definition is_digit : ascii -> bool := byte_in 48 57.
Definition is_upper : ascii -> bool := byte_in 65 90.
Definition is_lower : ascii -> bool := byte_in 97 122.
Definition is_hex_char (c : ascii) : bool :=
  is_digit c || byte_in 97 102 c || byte_in 65 70 c.

(** Printable ASCII without the space: no byte of such a string belongs to a
    white-space rune. *)
Definition is_graph : ascii -> bool := byte_in 33 126.

Fixpoint str_forall (p : ascii -> bool) (s : string) : bool :=
  match s with
  | "" => true
  | String c s' => p c && str_forall p s'
  end.

Definition no_char (c : ascii) : string -> bool :=
  str_forall (fun a => negb (Ascii.eqb a c)).

Fixpoint str_map (f : ascii -> ascii) (s : string) : string :=
  match s with
  | "" => ""
  | String c s' => String (f c) (str_map f s')
  end.

Definition str_empty (s : string) : bool :=
  match s with "" => true | _ => false end.

Definition nl : ascii := "010"%char.
Definition cr : ascii := "013"%char.
Definition tab : ascii := "009"%char.
Definition dquote : ascii := "034"%char.
Definition str1 (c : ascii) : string := String c "".

(** ** Searching and cutting *)

Definition has_prefix (s p : string) : bool := String.prefix p s.
Definition has_suffix (s p : string) : bool := String.prefix (String.rev p) (String.rev s).

Fixpoint contains (s sub : string) : bool :=
  has_prefix s sub ||
  match s with "" => false | String _ s' => contains s' sub end.

(** The last byte of a string. *)
Fixpoint last_is (c : ascii) (s : string) : bool :=
  match s with
  | "" => false
  | String a "" => Ascii.eqb a c
  | String _ s' => last_is c s'
  end.

(** [strings.Split(s, c)] for a one-byte separator. *)
Fixpoint split (c : ascii) (s : string) : list string :=
  match s with
  | "" => [""]
  | String a s' =>
      if Ascii.eqb a c then "" :: split c s'
      else match split c s' with
           | [] => [String a ""]
           | w :: ws => String a w :: ws
           end
  end.

Fixpoint join (sep : string) (l : list string) : string :=
  match l with
  | [] => ""
  | [x] => x
  | x :: l' => x +:+ sep +:+ join sep l'
  end.

(** [strings.Cut(s, c)]: before, after, found. *)
Fixpoint cut (c : ascii) (s : string) : string * string * bool :=
  match s with
  | "" => ("", "", false)
  | String a s' =>
      if Ascii.eqb a c then ("", s', true)
      else let '(b, r, ok) := cut c s' in (String a b, r, ok)
  end.

(** The slices around [strings.LastIndex(s, c)], when it is not [-1]. *)
Fixpoint rcut (c : ascii) (s : string) : option (string * string) :=
  match s with
  | "" => None
  | String a s' =>
      match rcut c s' with
      | Some (b, r) => Some (String a b, r)
      | None => if Ascii.eqb a c then Some ("", s') else None
      end
  end.

Definition str_take (n : nat) (s : string) : string := String.substring 0 n s.
Definition str_drop (n : nat) (s : string) : string :=
  String.substring n (String.length s - n) s.

Definition trim_suffix (s suf : string) : string :=
  if has_suffix s suf then str_take (String.length s - String.length suf) s else s.
Definition trim_prefix (s p : string) : string :=
  if has_prefix s p then str_drop (String.length p) s else s.

(** [strings.TrimLeft], [TrimRight] and [Trim] for a set of bytes. *)
Fixpoint trim_left_set (p : ascii -> bool) (s : string) : string :=
  match s with
  | "" => ""
  | String c s' => if p c then trim_left_set p s' else s
  end.

Fixpoint trim_right_set (p : ascii -> bool) (s : string) : string :=
  match s with
  | "" => ""
  | String c s' =>
      let r := trim_right_set p s' in
      if p c && str_empty r then "" else String c r
  end.

Definition trim_set (p : ascii -> bool) (s : string) : string :=
  trim_right_set p (trim_left_set p s).

(** The carriage return of [strings.TrimRight(line, CR)]. *)
Definition is_cr (c : ascii) : bool := byte_in 13 13 c.

(** ** White space ([unicode.IsSpace]) *)

Definition space1 (c : ascii) : bool := byte_in 9 13 c || byte_in 32 32 c.
(** U+0085 and U+00A0. *)
Definition space2 (c d : ascii) : bool :=
  byte_in 194 194 c && (byte_in 133 133 d || byte_in 160 160 d).
(** U+1680, U+2000 to U+200A, U+2028, U+2029, U+202F, U+205F and U+3000. *)
Definition space3 (c d e : ascii) : bool :=
  (byte_in 225 225 c && byte_in 154 154 d && byte_in 128 128 e)
  || (byte_in 226 226 c && byte_in 128 128 d
      && (byte_in 128 138 e || byte_in 168 169 e || byte_in 175 175 e))
  || (byte_in 226 226 c && byte_in 129 129 d && byte_in 159 159 e)
  || (byte_in 227 227 c && byte_in 128 128 d && byte_in 128 128 e).

Fixpoint trim_left (s : string) : string :=
  match s with
  | "" => ""
  | String c s1 =>
      if space1 c then trim_left s1
      else match s1 with
           | "" => s
           | String d s2 =>
               if space2 c d then trim_left s2
               else match s2 with
                    | "" => s
                    | String e s3 => if space3 c d e then trim_left s3 else s
                    end
           end
  end.

(** [trim_left] on a reversed string: the bytes of a rune come last first. *)
Fixpoint trim_left_rev (s : string) : string :=
  match s with
  | "" => ""
  | String c s1 =>
      if space1 c then trim_left_rev s1
      else match s1 with
           | "" => s
           | String d s2 =>
               if space2 d c then trim_left_rev s2
               else match s2 with
                    | "" => s
                    | String e s3 => if space3 e d c then trim_left_rev s3 else s
                    end
           end
  end.

Definition trim_right (s : string) : string := String.rev (trim_left_rev (String.rev s)).
Definition trim_space (s : string) : string := trim_right (trim_left s).

(** [strings.Fields]: [cur] is the word being read. *)
Fixpoint fields_go (cur : string) (s : string) : list string :=
  let flush l := if str_empty cur then l else cur :: l in
  match s with
  | "" => flush []
  | String c s1 =>
      if space1 c then flush (fields_go "" s1)
      else
        let keep := fields_go (cur +:+ str1 c) s1 in
        match s1 with
        | "" => keep
        | String d s2 =>
            if space2 c d then flush (fields_go "" s2)
            else match s2 with
                 | "" => keep
                 | String e s3 =>
                     if space3 c d e then flush (fields_go "" s3) else keep
                 end
        end
  end.
Definition fields (s : string) : list string := fields_go "" s.

(** ** Case *)

Definition lower_char (c : ascii) : ascii :=
  if is_upper c then ascii_of_N (N_of_ascii c + 32) else c.
Definition upper_char (c : ascii) : ascii :=
  if is_lower c then ascii_of_N (N_of_ascii c - 32) else c.
Definition to_lower : string -> string := str_map lower_char.
Definition to_upper : string -> string := str_map upper_char.
Definition equal_fold (a b : string) : bool := String.eqb (to_lower a) (to_lower b).

(** [strings.ReplaceAll] of one byte by one byte. *)
Definition replace_char (c d : ascii) : string -> string :=
  str_map (fun a => if Ascii.eqb a c then d else a).

(** ** Numbers ([strconv]) *)

(** A non-empty run of decimal digits. *)
Definition parse_digits (s : string) : option N :=
  match s with
  | "" => None
  | _ => option_map N.of_uint (NilEmpty.uint_of_string s)
  end.

(** [strconv.ParseUint(s, 10, 64)]. *)
Definition parse_uint (s : string) : option Z :=
  match parse_digits s with
  | Some n => let z := Z.of_N n in if (z <? two64)%Z then Some z else None
  | None => None
  end.

(** [strconv.ParseInt(s, 10, 64)] and [strconv.Atoi]. *)
Definition parse_int (s : string) : option Z :=
  match s with
  | String "-" s' =>
      match parse_digits s' with
      | Some n => let z := Z.of_N n in if (z <=? two63)%Z then Some (- z)%Z else None
      | None => None
      end
  | _ =>
      let s' := match s with String "+" s' => s' | _ => s end in
      match parse_digits s' with
      | Some n => let z := Z.of_N n in if (z <? two63)%Z then Some z else None
      | None => None
      end
  end.
Definition atoi : string -> option Z := parse_int.

Definition utoa (n : N) : string := NilEmpty.string_of_uint (N.to_uint n).

(** [strconv.Itoa], [fmt.Sprintf] with [%d]. *)
Definition itoa (z : Z) : string :=
  match z with
  | Zneg p => "-" +:+ utoa (Npos p)
  | _ => utoa (Z.to_N z)
  end.

(** ** Lemmas: append and predicates *)

Lemma app_nil_r_s s : s +:+ "" = s.
Proof. induction s; [done|]. change (String a s +:+ "") with (String a (s +:+ "")). by rewrite IHs. Qed.

Lemma app_cons_s c s t : String c s +:+ t = String c (s +:+ t).
Proof. done. Qed.

Lemma app_nil_l_s s : "" +:+ s = s.
Proof. done. Qed.

Lemma app_assoc_s a b c : (a +:+ b) +:+ c = a +:+ (b +:+ c).
Proof. induction a; [done|]. rewrite !app_cons_s. by rewrite IHa. Qed.

Lemma length_app_s a b : String.length (a +:+ b) = (String.length a + String.length b)%nat.
Proof. induction a; [done|]. rewrite app_cons_s. simpl. by rewrite IHa. Qed.

Create Rewrite HintDb gostr.
#[export] Hint Rewrite app_nil_r_s app_cons_s app_nil_l_s app_assoc_s : gostr.

Lemma str_forall_app p a b : str_forall p (a +:+ b) = str_forall p a && str_forall p b.
Proof.
  induction a; [done|]. rewrite app_cons_s. simpl. rewrite IHa. by rewrite andb_assoc.
Qed.

Lemma str_forall_impl p q s :
  (forall c, p c = true -> q c = true) -> str_forall p s = true -> str_forall q s = true.
Proof.
  intros Himp. induction s as [|c s IH]; [done|]. simpl. rewrite !andb_true_iff.
  intros [? ?]. auto.
Qed.

Lemma str_forall_true s : str_forall (fun _ => true) s = true.
Proof. by induction s. Qed.

Lemma no_char_app c a b : no_char c (a +:+ b) = no_char c a && no_char c b.
Proof. apply str_forall_app. Qed.

Lemma str_forall_no_char p c s :
  p c = false -> str_forall p s = true -> no_char c s = true.
Proof.
  intros Hc. apply str_forall_impl. intros a Ha.
  destruct (Ascii.eqb_spec a c); [congruence|done].
Qed.

Lemma str_empty_true s : str_empty s = true <-> s = "".
Proof. by destruct s. Qed.

(** ** Lemmas: cut, split and join *)

Lemma cut_found c a b : no_char c a = true -> cut c (a +:+ String c b) = (a, b, true).
Proof.
  induction a as [|x a IH]; intros H.
  - simpl. by rewrite Ascii.eqb_refl.
  - rewrite app_cons_s. simpl in *. apply andb_true_iff in H as [Hx Ha].
    apply negb_true_iff in Hx. rewrite Hx, (IH Ha). done.
Qed.

Lemma cut_not_found c s : no_char c s = true -> cut c s = (s, "", false).
Proof.
  induction s as [|x s IH]; intros H; [done|].
  simpl in *. apply andb_true_iff in H as [Hx Hs].
  apply negb_true_iff in Hx. rewrite Hx, (IH Hs). done.
Qed.

Lemma last_is_app c s : last_is c s = true -> exists a, s = a +:+ str1 c.
Proof.
  induction s as [|x s IH]; [done|]. destruct s as [|y s].
  - intros H. apply Ascii.eqb_eq in H as ->. by exists "".
  - intros H. destruct (IH H) as [a Ha]. exists (String x a). by rewrite app_cons_s, <- Ha.
Qed.

Lemma split_ne c s : split c s <> [].
Proof. destruct s; simpl; [done|]. repeat case_match; done. Qed.

Lemma split_app c a b :
  no_char c a = true -> split c (a +:+ String c b) = a :: split c b.
Proof.
  induction a as [|x a IH]; intros H.
  - simpl. by rewrite Ascii.eqb_refl.
  - rewrite app_cons_s. simpl in *. apply andb_true_iff in H as [Hx Ha].
    apply negb_true_iff in Hx. by rewrite Hx, (IH Ha).
Qed.

Lemma split_app_gen c a b : split c (a +:+ String c b) = split c a ++ split c b.
Proof.
  induction a as [|x a IH]; [simpl; by rewrite Ascii.eqb_refl|]. rewrite app_cons_s. cbn [split]. rewrite IH.
  destruct (Ascii.eqb_spec x c); [done|]. by destruct (split c a) eqn:Hs; [apply split_ne in Hs|].
Qed.

Lemma split_none c a : no_char c a = true -> split c a = [a].
Proof.
  induction a as [|x a IH]; intros H; [done|].
  simpl in *. apply andb_true_iff in H as [Hx Ha].
  apply negb_true_iff in Hx. by rewrite Hx, (IH Ha).
Qed.

Lemma split_join c l :
  l <> [] -> Forall (fun s => no_char c s = true) l -> split c (join (str1 c) l) = l.
Proof.
  intros Hne Hl. induction Hl as [|x l Hx Hl IH]; [done|].
  destruct l as [|y l]; [by apply split_none|].
  change (join (str1 c) (x :: y :: l)) with (x +:+ String c (join (str1 c) (y :: l))).
  rewrite split_app by done. by rewrite IH.
Qed.

Lemma join_cons sep x y l : join sep (x :: y :: l) = x +:+ sep +:+ join sep (y :: l).
Proof. done. Qed.

Lemma join_split c s : join (str1 c) (split c s) = s.
Proof.
  induction s as [|x s IH]; [done|]. simpl.
  destruct (split c s) as [|w ws] eqn:Hs; [by apply split_ne in Hs|].
  destruct (Ascii.eqb_spec x c) as [->|].
  - rewrite join_cons, IH. done.
  - destruct ws as [|w' ws]; simpl in *; [by rewrite IH|].
    rewrite app_cons_s. f_equal. done.
Qed.

Lemma split_no_char c s : Forall (fun w => no_char c w = true) (split c s).
Proof.
  induction s as [|x s IH]; simpl; [by repeat constructor|].
  destruct (Ascii.eqb_spec x c); [by constructor|].
  destruct (split c s) as [|w ws] eqn:Hs; [by apply split_ne in Hs|].
  inversion IH; subst. constructor; [|done]. simpl.
  apply andb_true_iff. split; [|done]. by destruct (Ascii.eqb_spec x c).
Qed.

Lemma split_forall p c s : str_forall p s = true -> Forall (fun w => str_forall p w = true) (split c s).
Proof.
  induction s as [|x s IH]; simpl; intros H; [by repeat constructor|].
  apply andb_true_iff in H as [Hx Hs]. specialize (IH Hs).
  destruct (Ascii.eqb_spec x c); [by constructor|].
  destruct (split c s) as [|w ws]; [constructor; [simpl; by rewrite Hx|constructor]|].
  inversion IH; subst. constructor; [simpl; by rewrite Hx|done].
Qed.

Lemma rcut_none c s : no_char c s = true -> rcut c s = None.
Proof.
  induction s as [|x s IH]; intros H; [done|]. simpl in *.
  apply andb_true_iff in H as [Hx Hs]. apply negb_true_iff in Hx.
  by rewrite (IH Hs), Hx.
Qed.

Lemma rcut_last c a b : no_char c b = true -> rcut c (a +:+ String c b) = Some (a, b).
Proof.
  intros Hb. induction a as [|x a IH].
  - simpl. by rewrite rcut_none, Ascii.eqb_refl.
  - rewrite app_cons_s. simpl. by rewrite IH.
Qed.

Lemma rcut_None_no_char c s : rcut c s = None -> no_char c s = true.
Proof.
  induction s as [|y s IH]; [done|]. simpl.
  destruct (rcut c s) as [[]|]; [done|].
  destruct (Ascii.eqb_spec y c) as [|Hn]; [done|]. intros _.
  unfold no_char in *. simpl. rewrite IH by done. by destruct (Ascii.eqb_spec y c).
Qed.

Lemma rcut_Some c s a b : rcut c s = Some (a, b) -> s = a +:+ String c b /\ no_char c b = true.
Proof.
  revert a b. induction s as [|x s IH]; intros a b; simpl; [done|].
  destruct (rcut c s) as [[a' b']|] eqn:Hr.
  - intros [= <- <-]. destruct (IH _ _ eq_refl) as [-> ?]. done.
  - destruct (Ascii.eqb_spec x c) as [->|]; [|done]. intros [= <- <-].
    split; [done|]. by apply rcut_None_no_char.
Qed.

(** ** Lemmas: prefixes *)

Lemma has_prefix_app p s : has_prefix (p +:+ s) p = true.
Proof.
  induction p as [|c p IH]; [by destruct s|]. rewrite app_cons_s. unfold has_prefix in *. simpl.
  by destruct (ascii_dec c c).
Qed.

Lemma has_prefix_spec s p : has_prefix s p = true <-> exists t, s = p +:+ t.
Proof.
  split; [|intros [t ->]; apply has_prefix_app].
  revert s. induction p as [|c p IH]; intros s H; [by exists s|].
  destruct s as [|d s]; [done|]. unfold has_prefix in *. simpl in H.
  destruct (ascii_dec c d) as [->|]; [|done].
  destruct (IH s H) as [t ->]. by exists t.
Qed.

Lemma has_prefix_cons c d a p : has_prefix (String c a) (String d p) = Ascii.eqb d c && has_prefix a p.
Proof. unfold has_prefix. simpl. destruct (ascii_dec d c) as [->|Hn]; [by rewrite Ascii.eqb_refl|]. by rewrite (proj2 (Ascii.eqb_neq d c) Hn). Qed.

(** A prefix without [c] ends before the first [c]. *)
Lemma has_prefix_before c p : forall a x, no_char c p = true -> has_prefix (a +:+ String c x) p = true -> has_prefix a p = true.
Proof.
  unfold no_char. induction p as [|d p IH]; intros a x Hp; [by destruct a|]. cbn [str_forall] in Hp. boolify.
  destruct a as [|e a].
  - rewrite app_nil_l_s, has_prefix_cons. by rewrite H.
  - rewrite app_cons_s, !has_prefix_cons. intros [-> Hx]%andb_true_iff. simpl. by apply (IH _ x).
Qed.

Lemma contains_skip a s sub : contains s sub = true -> contains (a +:+ s) sub = true.
Proof.
  intros Hs. induction a as [|c a IH]; [done|]. rewrite app_cons_s. cbn [contains]. by rewrite IH, orb_true_r.
Qed.

Lemma contains_prefix s b : contains (s +:+ b) s = true.
Proof.
  destruct s as [|c s]; [by destruct b|]. rewrite app_cons_s. cbn [contains].
  by rewrite <- app_cons_s, has_prefix_app.
Qed.

Lemma has_prefix_first s c p : has_prefix s (String c p) = true -> exists t, s = String c t.
Proof. intros [t ->]%has_prefix_spec. eauto. Qed.

Lemma substring_all s : String.substring 0 (String.length s) s = s.
Proof. induction s as [|c s IH]; [done|]. simpl. by rewrite IH. Qed.

Lemma str_drop_app p s : str_drop (String.length p) (p +:+ s) = s.
Proof.
  unfold str_drop. rewrite length_app_s.
  replace (String.length p + String.length s - String.length p)%nat
    with (String.length s) by lia.
  induction p as [|c p IH]; [apply substring_all|].
  rewrite app_cons_s. simpl. apply IH.
Qed.

Lemma str_take_app p s : str_take (String.length p) (p +:+ s) = p.
Proof.
  unfold str_take. induction p as [|c p IH]; [by destruct s|].
  rewrite app_cons_s. simpl. by rewrite IH.
Qed.

(** ** Lemmas: trimming *)

Lemma rev_app_spec a b : String.rev_app a b = String.rev a +:+ b.
Proof.
  unfold String.rev. revert b. induction a as [|c a IH]; intros b; [done|]. simpl.
  rewrite (IH (String c b)), (IH (String c "")), app_assoc_s. done.
Qed.

Lemma rev_cons_s c a : String.rev (String c a) = String.rev a +:+ str1 c.
Proof. unfold String.rev at 1. simpl. by rewrite rev_app_spec. Qed.

Lemma rev_append_s a b : String.rev (a +:+ b) = String.rev b +:+ String.rev a.
Proof.
  induction a as [|c a IH]; [by rewrite app_nil_r_s|].
  rewrite app_cons_s, !rev_cons_s, IH. by rewrite app_assoc_s.
Qed.

Lemma rev_involutive_s a : String.rev (String.rev a) = a.
Proof. induction a as [|c a IH]; [done|]. rewrite rev_cons_s, rev_append_s, IH. done. Qed.

Lemma str_forall_rev p s : str_forall p (String.rev s) = str_forall p s.
Proof.
  induction s as [|c s IH]; [done|].
  rewrite rev_cons_s, str_forall_app, IH. simpl. rewrite andb_true_r. apply andb_comm.
Qed.

Lemma byte_in_spec lo hi c : byte_in lo hi c = true <-> (lo <= N_of_ascii c <= hi)%N.
Proof. unfold byte_in. rewrite andb_true_iff, !N.leb_le. done. Qed.

Lemma byte_in_false lo hi c : byte_in lo hi c = false <-> ~ (lo <= N_of_ascii c <= hi)%N.
Proof. rewrite <- byte_in_spec. destruct (byte_in lo hi c); naive_solver. Qed.

Lemma graph_not_space1 c : is_graph c = true -> space1 c = false.
Proof.
  unfold is_graph, space1. rewrite byte_in_spec, orb_false_iff, !byte_in_false. lia.
Qed.

Lemma graph_not_space2_l c d : is_graph c = true -> space2 c d = false.
Proof.
  unfold is_graph, space2. rewrite byte_in_spec. intros H.
  apply andb_false_iff. left. apply byte_in_false. lia.
Qed.

Lemma graph_not_space2_r c d : is_graph d = true -> space2 c d = false.
Proof.
  unfold is_graph, space2. rewrite byte_in_spec. intros H.
  apply andb_false_iff. right. apply orb_false_iff. rewrite !byte_in_false. lia.
Qed.

Lemma graph_not_space3_l c d e : is_graph c = true -> space3 c d e = false.
Proof.
  unfold is_graph, space3. rewrite byte_in_spec. intros H.
  assert (byte_in 225 225 c = false) as -> by (apply byte_in_false; lia).
  assert (byte_in 226 226 c = false) as -> by (apply byte_in_false; lia).
  assert (byte_in 227 227 c = false) as -> by (apply byte_in_false; lia). done.
Qed.

Lemma graph_not_space3_r c d e : is_graph e = true -> space3 c d e = false.
Proof.
  unfold is_graph, space3. rewrite byte_in_spec. intros H.
  assert (byte_in 128 128 e = false) as -> by (apply byte_in_false; lia).
  assert (byte_in 128 138 e = false) as -> by (apply byte_in_false; lia).
  assert (byte_in 168 169 e = false) as -> by (apply byte_in_false; lia).
  assert (byte_in 175 175 e = false) as -> by (apply byte_in_false; lia).
  assert (byte_in 159 159 e = false) as -> by (apply byte_in_false; lia).
  by rewrite !andb_false_r.
Qed.

Lemma trim_left_graph c s : is_graph c = true -> trim_left (String c s) = String c s.
Proof.
  intros H. simpl. rewrite graph_not_space1 by done.
  destruct s as [|d s]; [done|]. rewrite graph_not_space2_l by done.
  destruct s as [|e s]; [done|]. by rewrite graph_not_space3_l.
Qed.

Lemma trim_left_rev_graph c s : is_graph c = true -> trim_left_rev (String c s) = String c s.
Proof.
  intros H. simpl. rewrite graph_not_space1 by done.
  destruct s as [|d s]; [done|]. rewrite graph_not_space2_r by done.
  destruct s as [|e s]; [done|]. by rewrite graph_not_space3_r.
Qed.

(** A string that begins and ends with a printable byte is left alone. *)
Lemma trim_space_bounded c m d :
  is_graph c = true -> is_graph d = true ->
  trim_space (String c m +:+ str1 d) = String c m +:+ str1 d.
Proof.
  intros Hc Hd. unfold trim_space, trim_right.
  rewrite app_cons_s, trim_left_graph by done.
  rewrite <- app_cons_s.
  assert (String.rev (String c m +:+ str1 d) = String d (String.rev (String c m))) as Hr
    by (by rewrite rev_append_s).
  rewrite Hr, trim_left_rev_graph by done. rewrite <- Hr. apply rev_involutive_s.
Qed.

Lemma str_snoc s : s = "" \/ exists t c, s = t +:+ str1 c.
Proof.
  destruct (String.rev s) as [|c t] eqn:H.
  - left. apply (f_equal String.rev) in H. by rewrite rev_involutive_s in H.
  - right. exists (String.rev t), c.
    apply (f_equal String.rev) in H. by rewrite rev_involutive_s, rev_cons_s in H.
Qed.

Lemma trim_space_graph s : str_forall is_graph s = true -> trim_space s = s.
Proof.
  intros H. destruct s as [|c s]; [done|]. simpl in H. apply andb_true_iff in H as [Hc Hs].
  destruct (str_snoc s) as [->|(t & d & ->)].
  - unfold trim_space, trim_right. rewrite trim_left_graph by done.
    change (String.rev (String c "")) with (String c ""). by rewrite trim_left_rev_graph.
  - rewrite <- app_cons_s. apply trim_space_bounded; [done|].
    rewrite str_forall_app in Hs. simpl in Hs. by boolify.
Qed.

Lemma trim_space_empty : trim_space "" = "".
Proof. done. Qed.

Lemma trim_right_set_id p s : str_forall (fun c => negb (p c)) s = true -> trim_right_set p s = s.
Proof.
  induction s as [|c s IH]; [done|]. simpl. intros H. boolify.
  by rewrite H, IH.
Qed.

Lemma trim_left_set_id p s : str_forall (fun c => negb (p c)) s = true -> trim_left_set p s = s.
Proof. destruct s; [done|]. simpl. intros H. boolify. by rewrite H. Qed.

(** ** Lemmas: numbers *)

Lemma utoa_ne n : utoa n <> "".
Proof.
  unfold utoa. destruct n as [|p]; [done|].
  assert (Pos.to_uint p <> Decimal.Nil) as H by apply DecimalPos.Unsigned.to_uint_nonnil.
  simpl. by destruct (Pos.to_uint p).
Qed.

Lemma parse_digits_utoa n : parse_digits (utoa n) = Some n.
Proof.
  unfold parse_digits. destruct (utoa n) eqn:H; [by apply utoa_ne in H|].
  rewrite <- H. unfold utoa. rewrite NilEmpty.usu. simpl.
  by rewrite DecimalN.Unsigned.of_to.
Qed.

Lemma digits_of_uint d : str_forall is_digit (NilEmpty.string_of_uint d) = true.
Proof. induction d; simpl; [done|..]; apply IHd. Qed.

Lemma utoa_digits n : str_forall is_digit (utoa n) = true.
Proof. apply digits_of_uint. Qed.

Lemma digit_graph c : is_digit c = true -> is_graph c = true.
Proof. unfold is_digit, is_graph. rewrite !byte_in_spec. lia. Qed.

Lemma utoa_graph n : str_forall is_graph (utoa n) = true.
Proof. eapply str_forall_impl; [apply digit_graph|apply utoa_digits]. Qed.

Lemma itoa_nonneg z : (0 <= z)%Z -> itoa z = utoa (Z.to_N z).
Proof. by destruct z. Qed.

Lemma itoa_graph z : str_forall is_graph (itoa z) = true.
Proof.
  destruct z; [by apply (utoa_graph 0)|by apply (utoa_graph (Npos p))|].
  simpl itoa. rewrite str_forall_app. by rewrite utoa_graph.
Qed.

Lemma itoa_no_char c z : is_graph c = false -> no_char c (itoa z) = true.
Proof. intros H. eapply str_forall_no_char; [exact H|apply itoa_graph]. Qed.

Lemma parse_uint_itoa z : is_u64 z -> parse_uint (itoa z) = Some z.
Proof.
  intros [H1 H2]. rewrite itoa_nonneg by done. unfold parse_uint.
  rewrite parse_digits_utoa, Z2N.id by done.
  by destruct (Z.ltb_spec z two64); [|lia].
Qed.

Lemma digit_first_not_sign s :
  str_forall is_digit s = true ->
  parse_int s = match parse_digits s with
                | Some n => if (Z.of_N n <? two63)%Z then Some (Z.of_N n) else None
                | None => None end.
Proof.
  intros H. destruct s as [|c s]; [done|]. simpl in H. boolify.
  destruct c as [[][][][][][][][]]; try done.
Qed.

Lemma parse_int_itoa z : is_i64 z -> parse_int (itoa z) = Some z.
Proof.
  intros [H1 H2]. destruct (Z.le_gt_cases 0 z).
  - rewrite itoa_nonneg by done.
    rewrite digit_first_not_sign by apply utoa_digits.
    rewrite parse_digits_utoa, Z2N.id by done.
    by destruct (Z.ltb_spec z two63); [|lia].
  - destruct z as [|p|p]; [lia|lia|]. simpl itoa.
    change (parse_int ("-" +:+ utoa (Npos p))) with
      (match parse_digits (utoa (Npos p)) with
       | Some n => if (Z.of_N n <=? two63)%Z then Some (- Z.of_N n)%Z else None
       | None => None end).
    rewrite parse_digits_utoa. simpl Z.of_N.
    destruct (Z.leb_spec (Z.pos p) two63); [done|lia].
Qed.

Lemma utoa_inj n m : utoa n = utoa m -> n = m.
Proof.
  intros H. assert (Some n = Some m) by (rewrite <- !parse_digits_utoa; by f_equal).
  by simplify_eq.
Qed.

Lemma parse_digits_Some s n : parse_digits s = Some n -> s <> "" /\ str_forall is_digit s = true.
Proof.
  intros H. split; [by destruct s|]. unfold parse_digits in H.
  destruct s as [|c s']; [done|]. revert H. generalize (String c s') as s. clear.
  intros s H. destruct (NilEmpty.uint_of_string s) as [d|] eqn:Hd; [|done].
  apply NilEmpty.sus in Hd. rewrite <- Hd. apply digits_of_uint.
Qed.

(** The length of a number's text. *)
Lemma size_nat_bound p : forall k, (Z.pos p < 2 ^ Z.of_nat k)%Z -> (Pos.size_nat p <= k)%nat.
Proof.
  induction p as [p IH|p IH|]; intros [|k] H; simpl; try lia.
  - rewrite Nat2Z.inj_succ, Z.pow_succ_r in H by lia. specialize (IH k). lia.
  - rewrite Nat2Z.inj_succ, Z.pow_succ_r in H by lia. specialize (IH k). lia.
Qed.

Lemma little_double_length d :
  (Decimal.nb_digits (Decimal.Little.double d) <= S (Decimal.nb_digits d))%nat /\
  (Decimal.nb_digits (Decimal.Little.succ_double d) <= S (Decimal.nb_digits d))%nat.
Proof. induction d as [|d [IH1 IH2]|d [IH1 IH2]
    |d [IH1 IH2]|d [IH1 IH2]|d [IH1 IH2]|d [IH1 IH2]|d [IH1 IH2]|d [IH1 IH2]|d [IH1 IH2]|d [IH1 IH2]]; simpl; lia. Qed.

Lemma little_uint_length p : (Decimal.nb_digits (Pos.to_little_uint p) <= Pos.size_nat p)%nat.
Proof.
  induction p as [p IH|p IH|]; simpl; [..|lia].
  - pose proof (proj2 (little_double_length (Pos.to_little_uint p))). lia.
  - pose proof (proj1 (little_double_length (Pos.to_little_uint p))). lia.
Qed.

Lemma string_of_uint_length d : String.length (NilEmpty.string_of_uint d) = Decimal.nb_digits d.
Proof. induction d; simpl; lia. Qed.

Lemma utoa_length n k : (Z.of_N n < 2 ^ Z.of_nat (S k))%Z -> (String.length (utoa n) <= S k)%nat.
Proof.
  intros H. unfold utoa. rewrite string_of_uint_length. destruct n as [|p]; [simpl; lia|].
  change (N.to_uint (N.pos p)) with (Decimal.rev (Pos.to_little_uint p)).
  rewrite DecimalFacts.nb_digits_rev. etransitivity; [apply little_uint_length|]. by apply size_nat_bound.
Qed.

(** ** Key=value lines

    The text of the small state files: one [key=value] line per field. *)

Fixpoint print_lines (kvs : list (string * string)) : string :=
  match kvs with
  | [] => ""
  | (k, v) :: kvs' => k +:+ "=" +:+ v +:+ String nl (print_lines kvs')
  end.

Lemma fields_graph c s cur : is_graph c = true -> fields_go cur (String c s) = fields_go (cur +:+ str1 c) s.
Proof.
  intros Hc. cbn [fields_go]. rewrite graph_not_space1 by done. destruct s as [|d s]; [done|].
  rewrite graph_not_space2_l by done. destruct s as [|e s]; [done|]. by rewrite graph_not_space3_l.
Qed.

Lemma fields_word w rest : forall cur,
  str_forall is_graph w = true -> cur +:+ w <> "" ->
  fields_go cur (w +:+ String " " rest) = (cur +:+ w) :: fields_go "" rest.
Proof.
  induction w as [|c w IH]; intros cur Hw Hne.
  - rewrite app_nil_r_s in Hne |- *. cbn [String.append]. simpl. destruct (str_empty cur) eqn:He; [|done].
    by apply str_empty_true in He.
  - simpl in Hw. apply andb_true_iff in Hw as [Hc Hw]. rewrite app_cons_s.
    assert (cur +:+ String c w = (cur +:+ str1 c) +:+ w) as -> by by rewrite app_assoc_s.
    assert ((cur +:+ str1 c) +:+ w <> "") as Hne' by (by destruct cur).
    rewrite <- (IH (cur +:+ str1 c)) by done. by apply fields_graph.
Qed.

Lemma fields_last w : forall cur,
  str_forall is_graph w = true -> cur +:+ w <> "" -> fields_go cur w = [cur +:+ w].
Proof.
  induction w as [|c w IH]; intros cur Hw Hne.
  - rewrite app_nil_r_s in Hne |- *. simpl. destruct (str_empty cur) eqn:He; [|done].
    by apply str_empty_true in He.
  - simpl in Hw. apply andb_true_iff in Hw as [Hc Hw]. rewrite fields_graph by done.
    rewrite IH; [by rewrite app_assoc_s|done|]. by destruct cur.
Qed.

Lemma split_print_lines kvs :
  Forall (fun kv => no_char nl kv.1 = true /\ no_char nl kv.2 = true) kvs ->
  split nl (print_lines kvs) = map (fun kv => kv.1 +:+ "=" +:+ kv.2) kvs ++ [""].
Proof.
  induction 1 as [|[k v] kvs [Hk Hv] _ IH]; [done|]. cbn [print_lines map fst snd app] in *.
  replace (k +:+ "=" +:+ v +:+ String nl (print_lines kvs))
    with ((k +:+ "=" +:+ v) +:+ String nl (print_lines kvs))
    by by autorewrite with gostr.
  rewrite split_app; [by rewrite IH|]. rewrite !no_char_app, Hk, Hv. done.
Qed.

(** Parsing such a text line by line is folding over the pairs. *)
Lemma foldl_print_lines {A} (f : A -> string -> A) (g : A -> string -> string -> A) kvs a :
  Forall (fun kv => no_char nl kv.1 = true /\ no_char nl kv.2 = true) kvs ->
  (forall x, f x "" = x) ->
  (forall x kv, kv ∈ kvs -> f x (kv.1 +:+ "=" +:+ kv.2) = g x kv.1 kv.2) ->
  foldl f a (split nl (print_lines kvs)) = foldl (fun x kv => g x kv.1 kv.2) a kvs.
Proof.
  intros Hn He Hg. rewrite split_print_lines by done. rewrite foldl_app. simpl. rewrite He.
  clear Hn. revert a Hg. induction kvs as [|kv kvs IH]; intros a Hg; [done|]. simpl.
  rewrite Hg by left. apply IH. intros. apply Hg. by right.
Qed.
