(* ===== verification/Json.v ===== *)
(** * Json: the part of [encoding/json] behind the persisted counter.

    A JSON syntax tree, the compact printer of [json.Marshal] and the reader of
    [json.Decoder].  Bytes from 0x80 on pass through both ways, which is what
    Go does for valid UTF-8. *)

From S2P Require Import Prelude GoString.
From Stdlib Require Import Ascii Decimal DecimalString DecimalN DecimalFacts.

#[warnings="-register-all"]
Inductive json : Type :=
| JNull
| JBool (b : bool)
| JNum (lit : string)
| JStr (s : string)
| JArr (l : list json)
| JObj (kvs : list (string * json)).

(** ** Printing *)

Definition hex_digit (n : N) : ascii :=
  if (n <? 10)%N then ascii_of_N (48 + n) else ascii_of_N (87 + n).

(** [hex.EncodeToString]. *)
Definition hex_encode (s : string) : string :=
  String.concat "" (map (fun c => let n := N_of_ascii c in
    String (hex_digit (N.div n 16)) (str1 (hex_digit (N.modulo n 16))))
    (String.list_ascii_of_string s)).

Definition esc_u (c : ascii) : string :=
  "\u00" +:+ str1 (hex_digit (N_of_ascii c / 16)) +:+ str1 (hex_digit (N_of_ascii c mod 16)).

(** [appendString] with HTML escaping, one byte at a time. *)
Definition esc_char (c : ascii) : string :=
  let n := N_of_ascii c in
  if (n =? 34)%N then String "\" (str1 dquote)
  else if (n =? 92)%N then "\\"
  else if (n =? 8)%N then "\b"
  else if (n =? 12)%N then "\f"
  else if (n =? 10)%N then "\n"
  else if (n =? 13)%N then "\r"
  else if (n =? 9)%N then "\t"
  else if (n <? 32)%N || (n =? 60)%N || (n =? 62)%N || (n =? 38)%N then esc_u c
  else str1 c.

Fixpoint esc (s : string) : string :=
  match s with
  | "" => ""
  | String c s' => esc_char c +:+ esc s'
  end.

Definition quote (s : string) : string := String dquote (esc s +:+ str1 dquote).

Fixpoint json_print (j : json) : string :=
  match j with
  | JNull => "null"
  | JBool true => "true"
  | JBool false => "false"
  | JNum lit => lit
  | JStr s => quote s
  | JArr l => "[" +:+ join "," (map json_print l) +:+ "]"
  | JObj kvs =>
      "{" +:+ join "," (map (fun kv => quote (fst kv) +:+ ":" +:+ json_print (snd kv)) kvs) +:+ "}"
  end.

(** ** Reading *)

Definition is_ws (c : ascii) : bool :=
  byte_in 32 32 c || byte_in 9 10 c || byte_in 13 13 c.

Fixpoint skip_ws (s : string) : string :=
  match s with
  | "" => ""
  | String c s' => if is_ws c then skip_ws s' else s
  end.

Definition hex_val (c : ascii) : option N :=
  let n := N_of_ascii c in
  if is_digit c then Some (n - 48)%N
  else if byte_in 97 102 c then Some (n - 87)%N
  else if byte_in 65 70 c then Some (n - 55)%N
  else None.

Definition hex4 (a b c d : ascii) : option N :=
  match hex_val a, hex_val b, hex_val c, hex_val d with
  | Some a, Some b, Some c, Some d => Some (((a * 16 + b) * 16 + c) * 16 + d)%N
  | _, _, _, _ => None
  end.

Definition utf8 (r : N) : string :=
  let b n := ascii_of_N n in
  if (r <? 128)%N then str1 (b r)
  else if (r <? 2048)%N then String (b (192 + r / 64)%N) (str1 (b (128 + r mod 64)%N))
  else if (r <? 65536)%N then
    String (b (224 + r / 4096)%N)
      (String (b (128 + (r / 64) mod 64)%N) (str1 (b (128 + r mod 64)%N)))
  else
    String (b (240 + r / 262144)%N)
      (String (b (128 + (r / 4096) mod 64)%N)
         (String (b (128 + (r / 64) mod 64)%N) (str1 (b (128 + r mod 64)%N)))).

Definition is_high (r : N) : bool := ((55296 <=? r) && (r <? 56320))%N.
Definition is_low (r : N) : bool := ((56320 <=? r) && (r <? 57344))%N.

Definition unescape (c : ascii) : option ascii :=
  let n := N_of_ascii c in
  if (n =? 34)%N then Some dquote
  else if (n =? 92)%N then Some c
  else if (n =? 47)%N then Some c
  else if (n =? 98)%N then Some "008"%char
  else if (n =? 102)%N then Some "012"%char
  else if (n =? 110)%N then Some "010"%char
  else if (n =? 114)%N then Some "013"%char
  else if (n =? 116)%N then Some "009"%char
  else None.

Definition prepend (p : string) (r : option (string * string)) : option (string * string) :=
  match r with Some (t, rest) => Some (p +:+ t, rest) | None => None end.

(** The body of a string literal, after its opening quote. *)
Fixpoint parse_str (s : string) : option (string * string) :=
  match s with
  | "" => None
  | String c s1 =>
      if Ascii.eqb c dquote then Some ("", s1)
      else if Ascii.eqb c "\" then
        match s1 with
        | "" => None
        | String e s2 =>
            if Ascii.eqb e "u" then
              match s2 with
              | String a (String b (String x (String d s6))) =>
                  match hex4 a b x d with
                  | None => None
                  | Some r =>
                      if is_high r || is_low r then
                        match s6 with
                        | String bs (String u (String a' (String b' (String x' (String d' s12))))) =>
                            match (if Ascii.eqb bs "\" && Ascii.eqb u "u"
                                   then hex4 a' b' x' d' else None) with
                            | Some r' =>
                                if is_high r && is_low r'
                                then prepend (utf8 (65536 + (r - 55296) * 1024 + (r' - 56320))%N)
                                       (parse_str s12)
                                else prepend (utf8 65533) (parse_str s6)
                            | None => prepend (utf8 65533) (parse_str s6)
                            end
                        | _ => prepend (utf8 65533) (parse_str s6)
                        end
                      else prepend (utf8 r) (parse_str s6)
                  end
              | _ => None
              end
            else match unescape e with
                 | Some x => prepend (str1 x) (parse_str s2)
                 | None => None
                 end
        end
      else if (N_of_ascii c <? 32)%N then None
      else prepend (str1 c) (parse_str s1)
  end.

Fixpoint take_digits (s : string) : string * string :=
  match s with
  | "" => ("", "")
  | String c s' =>
      if is_digit c then let '(d, r) := take_digits s' in (String c d, r) else ("", s)
  end.

(** The optional fraction and exponent of a number. *)
Definition parse_frac (s : string) : option (string * string) :=
  match s with
  | String "." s' =>
      let '(d, r) := take_digits s' in
      if str_empty d then None else Some ("." +:+ d, r)
  | _ => Some ("", s)
  end.

Definition parse_exp (s : string) : option (string * string) :=
  match s with
  | String c s' =>
      if Ascii.eqb c "e" || Ascii.eqb c "E" then
        let '(sg, s2) := match s' with
                         | String "+" t => ("+", t)
                         | String "-" t => ("-", t)
                         | _ => ("", s')
                         end in
        let '(d, r) := take_digits s2 in
        if str_empty d then None else Some (str1 c +:+ sg +:+ d, r)
      else Some ("", s)
  | "" => Some ("", s)
  end.

Definition parse_intpart (s : string) : option (string * string) :=
  match s with
  | String "0" s' => Some ("0", s')
  | _ => let '(d, r) := take_digits s in if str_empty d then None else Some (d, r)
  end.

Definition parse_num (s : string) : option (string * string) :=
  let '(sg, s0) := match s with String "-" t => ("-", t) | _ => ("", s) end in
  match parse_intpart s0 with
  | None => None
  | Some (i, s1) =>
      match parse_frac s1 with
      | None => None
      | Some (f, s2) =>
          match parse_exp s2 with
          | None => None
          | Some (e, r) => Some (sg +:+ i +:+ f +:+ e, r)
          end
      end
  end.

Definition keyword (s kw : string) (j : json) : option (json * string) :=
  if has_prefix s kw then Some (j, str_drop (String.length kw) s) else None.

(** One value; the fuel bounds the nesting and the members together. *)
Fixpoint parse_value (fuel : nat) (s : string) {struct fuel} : option (json * string) :=
  match fuel with
  | O => None
  | S f =>
      match skip_ws s with
      | "" => None
      | String c r as s0 =>
          if Ascii.eqb c "{" then
            match skip_ws r with
            | String "}" r2 => Some (JObj [], r2)
            | _ => match parse_members f r with
                   | Some (l, r2) => Some (JObj l, r2)
                   | None => None
                   end
            end
          else if Ascii.eqb c "[" then
            match skip_ws r with
            | String "]" r2 => Some (JArr [], r2)
            | _ => match parse_elems f r with
                   | Some (l, r2) => Some (JArr l, r2)
                   | None => None
                   end
            end
          else if Ascii.eqb c dquote then
            match parse_str r with
            | Some (t, r2) => Some (JStr t, r2)
            | None => None
            end
          else if Ascii.eqb c "n" then keyword s0 "null" JNull
          else if Ascii.eqb c "t" then keyword s0 "true" (JBool true)
          else if Ascii.eqb c "f" then keyword s0 "false" (JBool false)
          else match parse_num s0 with
               | Some (lit, r2) => Some (JNum lit, r2)
               | None => None
               end
      end
  end
with parse_members (fuel : nat) (s : string) {struct fuel} : option (list (string * json) * string) :=
  match fuel with
  | O => None
  | S f =>
      match skip_ws s with
      | String q r =>
          if Ascii.eqb q dquote then
            match parse_str r with
            | None => None
            | Some (k, r1) =>
                match skip_ws r1 with
                | String ":" r2 =>
                    match parse_value f r2 with
                    | None => None
                    | Some (v, r3) =>
                        match skip_ws r3 with
                        | String "," r4 =>
                            match parse_members f r4 with
                            | Some (l, r5) => Some ((k, v) :: l, r5)
                            | None => None
                            end
                        | String "}" r4 => Some ([(k, v)], r4)
                        | _ => None
                        end
                    end
                | _ => None
                end
            end
          else None
      | "" => None
      end
  end
with parse_elems (fuel : nat) (s : string) {struct fuel} : option (list json * string) :=
  match fuel with
  | O => None
  | S f =>
      match parse_value f s with
      | None => None
      | Some (v, r3) =>
          match skip_ws r3 with
          | String "," r4 =>
              match parse_elems f r4 with
              | Some (l, r5) => Some (v :: l, r5)
              | None => None
              end
          | String "]" r4 => Some ([v], r4)
          | _ => None
          end
      end
  end.

(** [dec.Decode]: the first value of the input and what follows it.  Every
    call of the reader consumes a byte, so the length of the input is fuel
    enough. *)
Definition json_decode (s : string) : option (json * string) :=
  parse_value (S (String.length s)) s.

(** [dec.More()] after a top-level value. *)
Definition dec_more (rest : string) : bool :=
  match skip_ws rest with
  | "" => false
  | String c _ => negb (Ascii.eqb c "]" || Ascii.eqb c "}")
  end.

(** ** Struct fields: the exact name first, then the case-folded one. *)
Definition field_of (names : list string) (k : string) : option string :=
  if bool_decide (k ∈ names) then Some k
  else match filter (fun n => equal_fold n k = true) names with
       | n :: _ => Some n
       | [] => None
       end.

(** ** The reader inverts the printer *)

(** The trees the agent prints: numbers are decimal naturals. *)
#[warnings="-register-all"]
Inductive printable : json -> Prop :=
| P_null : printable JNull
| P_bool b : printable (JBool b)
| P_num n : printable (JNum (utoa n))
| P_str s : printable (JStr s)
| P_obj kvs : Forall (fun kv => printable (snd kv)) kvs -> printable (JObj kvs).

(** What may follow a value without changing how it is read. *)
Definition delim (s : string) : Prop :=
  match s with
  | "" => True
  | String c _ => Ascii.eqb c "," || Ascii.eqb c "}" || Ascii.eqb c "]" || is_ws c = true
  end.

Lemma parse_str_esc_char c t : parse_str (esc_char c +:+ t) = prepend (str1 c) (parse_str t).
Proof. destruct c as [[][][][][][][][]]; reflexivity. Qed.

Lemma parse_str_esc s t : parse_str (esc s +:+ String dquote t) = Some (s, t).
Proof.
  induction s as [|c s IH]; [done|].
  cbn [esc]. rewrite app_assoc_s, parse_str_esc_char, IH. done.
Qed.

Lemma parse_str_quote s t : quote s +:+ t = String dquote (esc s +:+ String dquote t).
Proof. unfold quote. rewrite app_cons_s, app_assoc_s. done. Qed.

Lemma utoa_head n : n = 0%N \/ exists c s, utoa n = String c s /\ c <> "0"%char.
Proof.
  destruct (N.eq_dec n 0) as [->|Hn]; [by left|right].
  assert (N.to_uint n = unorm (N.to_uint n)) as Hu.
  { rewrite <- (DecimalN.Unsigned.to_of (N.to_uint n)).
    by rewrite DecimalN.Unsigned.of_to. }
  unfold utoa. rewrite Hu. unfold unorm.
  destruct (nzhead (N.to_uint n)) as [|d|d|d|d|d|d|d|d|d|d] eqn:Hz; simpl;
    [|by exfalso; eapply nzhead_nonzero; exact Hz|by eexists _, _..].
  exfalso. apply Hn. rewrite <- (DecimalN.Unsigned.of_to n), Hu.
  unfold unorm. by rewrite Hz.
Qed.

Lemma take_digits_app d r :
  str_forall is_digit d = true -> match r with String c _ => is_digit c = false | "" => True end ->
  take_digits (d +:+ r) = (d, r).
Proof.
  intros Hd Hr. induction d as [|c d IH].
  - rewrite app_nil_l_s. destruct r as [|c r]; [done|]. simpl. by rewrite Hr.
  - rewrite app_cons_s. simpl in *. boolify. rewrite H. by rewrite IH.
Qed.

Lemma delim_not_digit r : delim r -> match r with String c _ => is_digit c = false | "" => True end.
Proof. destruct r as [|c r]; [done|]. simpl. destruct c as [[][][][][][][][]]; done. Qed.

Lemma parse_tail r : delim r -> parse_frac r = Some ("", r) /\ parse_exp r = Some ("", r).
Proof. destruct r as [|c r]; [done|]. simpl. destruct c as [[][][][][][][][]]; done. Qed.

Lemma digit_cases c : is_digit c = true ->
  c ∈ ["0"; "1"; "2"; "3"; "4"; "5"; "6"; "7"; "8"; "9"]%char.
Proof. destruct c as [[][][][][][][][]]; try done; intros _; set_solver. Qed.

Lemma parse_intpart_utoa n r : delim r -> parse_intpart (utoa n +:+ r) = Some (utoa n, r).
Proof.
  intros Hr. pose proof (take_digits_app (utoa n) r (utoa_digits n) (delim_not_digit r Hr)) as Ht.
  destruct (utoa_head n) as [->|(c & s & Hs & Hc)]; [done|].
  pose proof (utoa_digits n) as Hd. rewrite Hs in *. simpl in Hd. boolify.
  rewrite app_cons_s in *. apply digit_cases in H. unfold parse_intpart.
  rewrite Ht. by set_unfold in H; destruct_or!; subst c.
Qed.

Lemma parse_num_utoa n r : delim r -> parse_num (utoa n +:+ r) = Some (utoa n, r).
Proof.
  intros Hr. unfold parse_num.
  assert (match utoa n +:+ r with String "-" t => ("-", t) | _ => ("", utoa n +:+ r) end
          = ("", utoa n +:+ r)) as ->.
  { pose proof (utoa_digits n) as Hd. pose proof (utoa_ne n) as Hne.
    destruct (utoa n) as [|c s]; [done|]. simpl in Hd. boolify.
    apply digit_cases in H. rewrite app_cons_s.
    by set_unfold in H; destruct_or!; subst c. }
  rewrite parse_intpart_utoa by done.
  destruct (parse_tail r Hr) as [-> ->]. by rewrite !app_nil_r_s.
Qed.

Lemma parse_value_utoa f n r : delim r -> parse_value (S f) (utoa n +:+ r) = Some (JNum (utoa n), r).
Proof.
  intros Hr. pose proof (parse_num_utoa n r Hr) as Hn.
  pose proof (utoa_digits n) as Hd. pose proof (utoa_ne n) as Hne.
  destruct (utoa n) as [|c s]; [done|]. simpl in Hd. boolify.
  apply digit_cases in H. rewrite app_cons_s in *. simpl.
  set_unfold in H. destruct_or!; subst c; simpl; by rewrite Hn.
Qed.

Lemma keyword_app kw j rest : keyword (kw +:+ rest) kw j = Some (j, rest).
Proof. unfold keyword. by rewrite has_prefix_app, str_drop_app. Qed.

Definition print_member (kv : string * json) : string :=
  quote (fst kv) +:+ ":" +:+ json_print (snd kv).
Definition print_members (kvs : list (string * json)) : string :=
  join "," (map print_member kvs).

Lemma json_print_obj kvs : json_print (JObj kvs) = "{" +:+ print_members kvs +:+ "}".
Proof. done. Qed.

Lemma skip_ws_cons c s : is_ws c = false -> skip_ws (String c s) = String c s.
Proof. intros H. simpl. by rewrite H. Qed.

Lemma length_member kv :
  (String.length (json_print (snd kv)) + 3 <= String.length (print_member kv))%nat.
Proof.
  unfold print_member, quote. rewrite app_cons_s. simpl. rewrite !length_app_s. simpl. lia.
Qed.

(** The members reader, given that the values are read back. *)
Lemma parse_members_print kvs :
  kvs <> [] ->
  (forall kv f rest, kv ∈ kvs -> delim rest ->
     (String.length (json_print (snd kv)) < f)%nat ->
     parse_value f (json_print (snd kv) +:+ rest) = Some (snd kv, rest)) ->
  forall f rest, (String.length (print_members kvs) < f)%nat ->
  parse_members f (print_members kvs +:+ String "}" rest) = Some (kvs, rest).
Proof.
  induction kvs as [|[k v] kvs IH]; intros Hne Hval f rest Hf; [done|].
  destruct f as [|f]; [lia|].
  pose proof (length_member (k, v)) as Hlen.
  pose proof (Hval (k, v)) as Hv. cbn [fst snd] in Hlen, Hv.
  destruct kvs as [|kv' kvs].
  - change (print_members [(k, v)]) with (print_member (k, v)) in *.
    unfold print_member at 1. simpl fst; simpl snd.
    rewrite app_assoc_s, parse_str_quote. cbn [parse_members].
    rewrite skip_ws_cons by done. rewrite Ascii.eqb_refl, parse_str_esc.
    rewrite app_assoc_s, app_cons_s, skip_ws_cons by done.
    rewrite app_nil_l_s, Hv; [done|set_solver|done|lia].
  - assert (print_members ((k, v) :: kv' :: kvs) =
      print_member (k, v) +:+ "," +:+ print_members (kv' :: kvs)) as Hp by done.
    rewrite Hp in *. rewrite !length_app_s in Hf. change (String.length ",") with 1%nat in Hf.
    unfold print_member at 1. simpl fst; simpl snd.
    rewrite !app_assoc_s, parse_str_quote. cbn [parse_members].
    rewrite skip_ws_cons by done. rewrite Ascii.eqb_refl, parse_str_esc.
    rewrite app_cons_s, skip_ws_cons by done.
    rewrite app_nil_l_s, Hv; [|set_solver|done|lia].
    rewrite app_cons_s, skip_ws_cons, app_nil_l_s by done.
    rewrite IH; [done|done| |lia].
    intros kv f' rest' Hin. apply Hval. by right.
Qed.

Lemma length_member_le kv kvs : kv ∈ kvs ->
  (String.length (json_print (snd kv)) < String.length (print_members kvs))%nat.
Proof.
  pose proof (length_member kv) as Hl.
  induction kvs as [|kv' kvs IH]; [set_solver|].
  intros [->|Hin]%elem_of_cons.
  - unfold print_members. destruct kvs; cbn [map join]; [lia|].
    rewrite length_app_s. lia.
  - specialize (IH Hin). destruct kvs as [|kv2 kvs]; [set_solver|].
    assert (print_members (kv' :: kv2 :: kvs) =
      print_member kv' +:+ "," +:+ print_members (kv2 :: kvs)) as -> by done.
    rewrite !length_app_s. simpl. lia.
Qed.

Lemma parse_value_print_aux n j :
  (String.length (json_print j) <= n)%nat -> printable j ->
  forall f rest, delim rest -> (String.length (json_print j) < f)%nat ->
  parse_value f (json_print j +:+ rest) = Some (j, rest).
Proof.
  revert j. induction n as [|n IHn]; intros j Hn Hj f rest Hrest Hf.
  { destruct Hj as [|[]|m| |]; simpl in Hn; try lia.
    pose proof (utoa_ne m). destruct (utoa m); simpl in *; [done|lia]. }
  destruct f as [|f]; [lia|]. destruct Hj as [|[]|m|s|kvs Hkvs].
  - apply (keyword_app "null").
  - apply (keyword_app "true").
  - apply (keyword_app "false").
  - by apply parse_value_utoa.
  - cbn [json_print]. rewrite parse_str_quote. cbn [parse_value].
    rewrite skip_ws_cons by done. simpl. by rewrite parse_str_esc.
  - rewrite json_print_obj in *. rewrite !length_app_s in Hn, Hf. simpl in Hn, Hf.
    destruct kvs as [|kv kvs]; [done|].
    assert (parse_members f (print_members (kv :: kvs) +:+ String "}" rest)
            = Some (kv :: kvs, rest)) as Hm.
    { apply parse_members_print; [done| |lia].
      intros kv' f' rest' Hin Hr Hf'. pose proof (length_member_le _ _ Hin).
      rewrite Forall_forall in Hkvs. apply IHn; auto. lia. }
    replace (("{" +:+ print_members (kv :: kvs) +:+ "}") +:+ rest)
      with (String "{" (print_members (kv :: kvs) +:+ String "}" rest))
      by (by rewrite !app_assoc_s).
    cbn [parse_value]. rewrite skip_ws_cons by done. cbn [Ascii.eqb].
    assert (exists t, print_members (kv :: kvs) +:+ String "}" rest = String dquote t) as [t Ht].
    { unfold print_members. simpl map. destruct kvs; simpl join; unfold print_member, quote;
        rewrite !app_cons_s; eauto. }
    rewrite Ht in *. rewrite skip_ws_cons by done. simpl. by rewrite Hm.
Qed.

Theorem parse_value_print j f rest :
  printable j -> delim rest -> (String.length (json_print j) < f)%nat ->
  parse_value f (json_print j +:+ rest) = Some (j, rest).
Proof. intros. by eapply parse_value_print_aux. Qed.

(** Reading back what was printed gives the tree and no trailing data. *)
Corollary json_decode_print j : printable j -> json_decode (json_print j) = Some (j, "").
Proof.
  intros Hj. unfold json_decode. rewrite <- (app_nil_r_s (json_print j)) at 2.
  apply parse_value_print; [done|done|lia].
Qed.
