(* ===== verification/Indent.v ===== *)
(** * Indent: [json.MarshalIndent], and reading any text that spells a tree.

    The files a person may look at are printed over several lines.  White
    space between the tokens does not change what the reader makes of a text:
    [spells] says which texts stand for a tree, and the reader finds the tree in
    each of them. *)

From S2P Require Import Prelude GoString Json.
From Stdlib Require Import Ascii.

(** ** Printing *)

Fixpoint pad (depth : nat) : string := match depth with O => "" | S d => "  " +:+ pad d end.
Definition break (depth : nat) : string := str1 nl +:+ pad depth.

Fixpoint json_indent (depth : nat) (j : json) : string :=
  match j with
  | JNull => "null"
  | JBool true => "true"
  | JBool false => "false"
  | JNum lit => lit
  | JStr s => quote s
  | JArr [] => "[]"
  | JArr l =>
      "[" +:+ break (S depth) +:+ join ("," +:+ break (S depth)) (map (json_indent (S depth)) l) +:+ break depth +:+ "]"
  | JObj [] => "{}"
  | JObj kvs =>
      "{" +:+ break (S depth) +:+
      join ("," +:+ break (S depth)) (map (fun kv => quote (fst kv) +:+ ": " +:+ json_indent (S depth) (snd kv)) kvs) +:+
      break depth +:+ "}"
  end.
(** [json.MarshalIndent(data, "", "  ")]. *)
Definition MarshalIndent (j : json) : string := json_indent 0 j.

(** ** The texts of a tree *)

Definition white (s : string) : Prop := str_forall is_ws s = true.

Inductive spells : json -> string -> Prop :=
| Sp_null : spells JNull "null"
| Sp_bool b : spells (JBool b) (if b then "true" else "false")
| Sp_num n : spells (JNum (utoa n)) (utoa n)
| Sp_str s : spells (JStr s) (quote s)
| Sp_none a : white a -> spells (JObj []) ("{" +:+ a +:+ "}")
| Sp_obj kvs t : spells_members kvs t -> spells (JObj kvs) ("{" +:+ t +:+ "}")
with spells_members : list (string * json) -> string -> Prop :=
| Sp_last a k b c v t d : white a -> white b -> white c -> white d -> spells v t ->
    spells_members [(k, v)] (a +:+ quote k +:+ b +:+ ":" +:+ c +:+ t +:+ d)
| Sp_more a k b c v t d kvs u : white a -> white b -> white c -> white d -> spells v t -> spells_members kvs u ->
    spells_members ((k, v) :: kvs) (a +:+ quote k +:+ b +:+ ":" +:+ c +:+ t +:+ d +:+ "," +:+ u).

Scheme spells_mut := Minimality for spells Sort Prop
  with members_mut := Minimality for spells_members Sort Prop.
Combined Scheme spells_mutual from spells_mut, members_mut.

(** ** Reading *)

Lemma skip_white a s : white a -> skip_ws (a +:+ s) = skip_ws s.
Proof. unfold white. induction a as [|c a IH]; [done|]. rewrite app_cons_s. simpl. intros H. boolify. rewrite H. by apply IH. Qed.

Lemma parse_value_white f a s : white a -> parse_value f (a +:+ s) = parse_value f s.
Proof. intros Ha. destruct f as [|f]; [done|]. cbn [parse_value]. by rewrite skip_white. Qed.

Lemma parse_members_white f a s : white a -> parse_members f (a +:+ s) = parse_members f s.
Proof. intros Ha. destruct f as [|f]; [done|]. cbn [parse_members]. by rewrite skip_white. Qed.

Lemma white_delim a s : white a -> delim s -> delim (a +:+ s).
Proof.
  destruct a as [|c a]; [done|]. unfold white. simpl. intros H _. boolify. rewrite H. by rewrite !orb_true_r.
Qed.

Lemma members_text kvs t : spells_members kvs t -> exists a u, white a /\ t = a +:+ String dquote u.
Proof. intros H. destruct H; exists a; eexists; (split; [done|]); by rewrite parse_str_quote. Qed.

Lemma spells_read :
  (forall j t, spells j t -> forall f rest, delim rest -> (String.length t < f)%nat -> parse_value f (t +:+ rest) = Some (j, rest)) /\
  (forall kvs t, spells_members kvs t -> forall f rest, (String.length t < f)%nat ->
     parse_members f (t +:+ String "}" rest) = Some (kvs, rest)).
Proof.
  apply spells_mutual.
  - intros [|f] rest _ Hf; [lia|]. apply (keyword_app "null").
  - intros [] [|f] rest _ Hf; try lia; [apply (keyword_app "true")|apply (keyword_app "false")].
  - intros n [|f] rest Hr Hf; [lia|]. by apply parse_value_utoa.
  - intros s [|f] rest _ Hf; [lia|]. rewrite parse_str_quote. cbn [parse_value].
    rewrite skip_ws_cons by done. simpl. by rewrite parse_str_esc.
  - intros a Ha [|f] rest _ Hf; [lia|]. rewrite !app_cons_s, app_nil_l_s, app_assoc_s. cbn [parse_value].
    rewrite skip_ws_cons by done. cbn [Ascii.eqb Bool.eqb]. by rewrite skip_white.
  - intros kvs t Hm IH [|f] rest _ Hf; [lia|]. rewrite !length_app_s in Hf. simpl in Hf.
    rewrite !app_cons_s, app_nil_l_s, app_assoc_s. cbn [parse_value].
    rewrite skip_ws_cons by done. cbn [Ascii.eqb Bool.eqb].
    destruct (members_text kvs t Hm) as (a & u & Ha & ->). rewrite app_assoc_s, skip_white by done.
    rewrite app_cons_s, skip_ws_cons by done.
    specialize (IH f rest ltac:(lia)). rewrite app_assoc_s, app_cons_s in IH.
    change ("}" +:+ rest) with (String "}" rest). by rewrite IH.
  - intros a k b c v t d Ha Hb Hc Hd _ IH f rest Hf. rewrite !length_app_s in Hf.
    rewrite app_assoc_s, parse_members_white by done. destruct f as [|f]; [lia|].
    rewrite app_assoc_s, parse_str_quote. cbn [parse_members]. rewrite skip_ws_cons by done. rewrite Ascii.eqb_refl, parse_str_esc.
    rewrite app_assoc_s, skip_white by done. rewrite app_assoc_s, app_cons_s, app_nil_l_s, skip_ws_cons by done.
    rewrite app_assoc_s, parse_value_white, app_assoc_s by done. rewrite IH; [|by apply white_delim|simpl in Hf; lia].
    rewrite skip_white by done. by rewrite skip_ws_cons.
  - intros a k b c v t d kvs u Ha Hb Hc Hd _ IH _ IHm f rest Hf. rewrite !length_app_s in Hf.
    rewrite app_assoc_s, parse_members_white by done. destruct f as [|f]; [lia|].
    rewrite app_assoc_s, parse_str_quote. cbn [parse_members]. rewrite skip_ws_cons by done. rewrite Ascii.eqb_refl, parse_str_esc.
    rewrite app_assoc_s, skip_white by done. rewrite app_assoc_s, app_cons_s, app_nil_l_s, skip_ws_cons by done.
    rewrite app_assoc_s, parse_value_white by done. rewrite !app_assoc_s. simpl in Hf.
    rewrite IH; [|by apply white_delim|lia].
    rewrite skip_white, app_cons_s, app_nil_l_s, skip_ws_cons by done. rewrite IHm; [done|lia].
Qed.

(** ** What is printed spells the tree *)

Lemma pad_white d : white (pad d).
Proof. unfold white. induction d as [|d IH]; [done|]. exact IH. Qed.

Lemma break_white d : white (break d).
Proof. apply (pad_white d). Qed.

Lemma white_one : white " ".
Proof. done. Qed.
Lemma white_nil : white "".
Proof. done. Qed.

#[local] Hint Resolve pad_white break_white white_one white_nil : core.

Definition member_text (depth : nat) (kv : string * json) : string := quote (fst kv) +:+ ": " +:+ json_indent depth (snd kv).

Lemma members_indent depth kvs end_ a : kvs <> [] -> white a -> white end_ ->
  Forall (fun kv => spells (snd kv) (json_indent depth (snd kv))) kvs ->
  spells_members kvs (a +:+ join ("," +:+ break depth) (map (member_text depth) kvs) +:+ end_).
Proof.
  revert a. induction kvs as [|[k v] kvs IH]; intros a Hne Ha He Hall; [done|].
  apply Forall_cons in Hall as [Hv Hall]. cbn [snd] in Hv. destruct kvs as [|kv kvs].
  - cbn [map join]. unfold member_text. cbn [fst snd]. rewrite !app_assoc_s.
    change (": " +:+ json_indent depth v +:+ end_) with ("" +:+ ":" +:+ " " +:+ json_indent depth v +:+ end_).
    by apply Sp_last.
  - change (join ("," +:+ break depth) (map (member_text depth) ((k, v) :: kv :: kvs))) with
      (member_text depth (k, v) +:+ ("," +:+ break depth) +:+ join ("," +:+ break depth) (map (member_text depth) (kv :: kvs))).
    unfold member_text at 1. cbn [fst snd]. rewrite !app_assoc_s.
    change (": " +:+ ?x) with ("" +:+ ":" +:+ " " +:+ x).
    pose proof (Sp_more a k "" " " v (json_indent depth v) "" (kv :: kvs)
      (break depth +:+ join ("," +:+ break depth) (map (member_text depth) (kv :: kvs)) +:+ end_)) as H.
    apply H; try done; by apply IH.
Qed.

Lemma printable_spells j : printable j -> forall depth, spells j (json_indent depth j).
Proof.
  revert j. fix IH 2. intros j [|b|n|s|kvs Hkvs] depth.
  - constructor.
  - destruct b; [apply (Sp_bool true)|apply (Sp_bool false)].
  - constructor.
  - constructor.
  - destruct kvs as [|kv kvs]; [by apply (Sp_none "")|].
    change (json_indent depth (JObj (kv :: kvs))) with
      ("{" +:+ break (S depth) +:+ join ("," +:+ break (S depth)) (map (member_text (S depth)) (kv :: kvs)) +:+ break depth +:+ "}").
    rewrite <- !(app_assoc_s _ _ "}"). apply Sp_obj, members_indent; [done..|].
    induction Hkvs as [|kv' kvs' Hv Hvs IHl]; constructor; [apply IH, Hv|apply IHl].
Qed.

(** Reading back an indented text, with the line break the code adds, gives
    the tree. *)
Theorem indented_is_read j : printable j -> json_decode (MarshalIndent j +:+ str1 nl) = Some (j, str1 nl).
Proof.
  intros Hj. unfold json_decode. rewrite length_app_s. apply (proj1 spells_read); [by apply printable_spells|done|]. simpl. lia.
Qed.
