(* ===== verification/Time.v ===== *)
(** * Time: the part of Go's [time] behind the certificate index.

    A moment is [time.Time.UnixNano()].  Dates are UTC; the index of the PKI
    writes them as [060102150405Z] and reads that and [20060102150405Z]. *)

From S2P Require Import Prelude GoString.
From Stdlib Require Import Ascii.

#[local] Open Scope Z_scope.

(** ** The calendar *)

Record civil : Type := mkCivil {
  cv_year : Z; cv_month : Z; cv_day : Z; cv_hour : Z; cv_min : Z; cv_sec : Z
}.

#[export] Instance civil_eq_dec : EqDecision civil.
Proof. solve_decision. Defined.

Definition is_leap (y : Z) : bool := (y mod 4 =? 0) && (negb (y mod 100 =? 0) || (y mod 400 =? 0)).

Definition days_in (y m : Z) : Z :=
  if m =? 2 then (if is_leap y then 29 else 28)
  else if (m =? 4) || (m =? 6) || (m =? 9) || (m =? 11) then 30 else 31.

(** The day of an era of 400 years that starts on the first of March: year of
    the era, month and day. *)
Definition era_date (doe : Z) : Z * Z * Z :=
  let yoe := (doe - doe / 1460 + doe / 36524 - doe / 146096) / 365 in
  let doy := doe - (365 * yoe + yoe / 4 - yoe / 100) in
  let mp := (5 * doy + 2) / 153 in
  let d := doy - (153 * mp + 2) / 5 + 1 in
  let m := if mp <? 10 then mp + 3 else mp - 9 in
  (if m <=? 2 then yoe + 1 else yoe, m, d).

(** The date of a day counted from the first of January 1970. *)
Definition civil_of_day (n : Z) : Z * Z * Z :=
  let z := n + 719468 in
  let '(y, m, d) := era_date (z mod 146097) in (400 * (z / 146097) + y, m, d).

(** The day of the era of a date. *)
Definition date_era (y m d : Z) : Z * Z :=
  let y := if m <=? 2 then y - 1 else y in
  let yoe := y mod 400 in
  let doy := (153 * (if 2 <? m then m - 3 else m + 9) + 2) / 5 + d - 1 in
  (y / 400, yoe * 365 + yoe / 4 - yoe / 100 + doy).

Definition day_of_civil (y m d : Z) : Z :=
  let '(era, doe) := date_era y m d in era * 146097 + doe - 719468.

Definition civil_of_unix (t : Z) : civil :=
  let '(y, m, d) := civil_of_day (t / 86400) in
  let s := t mod 86400 in
  mkCivil y m d (s / 3600) (s / 60 mod 60) (s mod 60).

(** [time.Date] for fields in range, in seconds. *)
Definition unix_of_civil (c : civil) : Z :=
  day_of_civil (cv_year c) (cv_month c) (cv_day c) * 86400 + cv_hour c * 3600 + cv_min c * 60 + cv_sec c.

Definition second : Z := 1000000000.

(** ** Formatting *)

Definition digit (n : Z) : ascii := ascii_of_N (Z.to_N (48 + n)).
Definition two_digits (n : Z) : string := String (digit (n / 10 mod 10)) (str1 (digit (n mod 10))).
Definition four_digits (n : Z) : string := two_digits (n / 100) +:+ two_digits (n mod 100).

(** [t.UTC().Format("060102150405Z")]. *)
Definition format_index (t : Z) : string :=
  let c := civil_of_unix (t / second) in
  two_digits (cv_year c mod 100) +:+ two_digits (cv_month c) +:+ two_digits (cv_day c) +:+
  two_digits (cv_hour c) +:+ two_digits (cv_min c) +:+ two_digits (cv_sec c) +:+ "Z".

(** [t.UTC().Format("2006-01-02")] for the years of four digits. *)
Definition format_date (t : Z) : string :=
  let c := civil_of_unix (t / second) in
  four_digits (cv_year c) +:+ "-" +:+ two_digits (cv_month c) +:+ "-" +:+ two_digits (cv_day c).

(** ** Parsing *)

Definition digit_val (c : ascii) : Z := Z.of_N (N_of_ascii c) - 48.

(** Two digits, as [getnum] reads them. *)
Definition get2 (s : string) : option (Z * string) :=
  match s with
  | String a (String b s') =>
      if is_digit a && is_digit b then Some (digit_val a * 10 + digit_val b, s') else None
  | _ => None
  end.

(** The year of two bytes goes through [atoi], which takes a sign. *)
Definition get_year2 (s : string) : option (Z * string) :=
  match s with
  | String a (String b s') =>
      match atoi (String a (str1 b)) with
      | Some y => Some (if 69 <=? y then y + 1900 else y + 2000, s')
      | None => None
      end
  | _ => None
  end.

Definition get_year4 (s : string) : option (Z * string) :=
  match s with
  | String a (String b (String c (String d s'))) =>
      if is_digit a then
        match atoi (String a (String b (String c (str1 d)))) with
        | Some y => Some (y, s')
        | None => None
        end
      else None
  | _ => None
  end.

Fixpoint skip_digits (s : string) : string :=
  match s with
  | String c s' => if is_digit c then skip_digits s' else s
  | "" => ""
  end.

(** The fraction of a second the layout does not ask for: the nanoseconds of
    at most nine digits and the rest. *)
Fixpoint frac_value (n : nat) (s : string) : Z :=
  match n with
  | O => 0
  | S n' => match s with
            | String c s' => if is_digit c then digit_val c * 10 ^ Z.of_nat n' + frac_value n' s' else 0
            | "" => 0
            end
  end.

Definition fraction (s : string) : Z * string :=
  match s with
  | String p (String d s' as t) =>
      if (Ascii.eqb p "." || Ascii.eqb p ",") && is_digit d then (frac_value 9 t, skip_digits s') else (0, s)
  | _ => (0, s)
  end.

Definition valid_civil (c : civil) : bool :=
  (1 <=? cv_month c) && (cv_month c <=? 12) &&
  (1 <=? cv_day c) && (cv_day c <=? days_in (cv_year c) (cv_month c)) &&
  (0 <=? cv_hour c) && (cv_hour c <? 24) && (0 <=? cv_min c) && (cv_min c <? 60) &&
  (0 <=? cv_sec c) && (cv_sec c <? 60).

(** [time.Parse] after the year. *)
Definition parse_rest (r : option (Z * string)) : option Z :=
  '(y, s) ← r; '(mo, s) ← get2 s; '(d, s) ← get2 s; '(h, s) ← get2 s; '(mi, s) ← get2 s; '(se, s) ← get2 s;
  let '(ns, s) := fraction s in
  let c := mkCivil y mo d h mi se in
  if String.eqb s "Z" && valid_civil c then Some (unix_of_civil c * second + ns) else None.

(** [time.Parse] of the two layouts of the index. *)
Definition parse_index_short (s : string) : option Z := parse_rest (get_year2 s).
Definition parse_index_long (s : string) : option Z := parse_rest (get_year4 s).

(** ** The calendar is exact *)

(** The first day of a year of the era. *)
Definition year_start (y : Z) : Z := 365 * y + y / 4 - y / 100 + y / 400.
Definition year_of_era (doe : Z) : Z := (doe - doe / 1460 + doe / 36524 - doe / 146096) / 365.

(** The month and the day of a day of the year. *)
Definition month_day (doy : Z) : Z * Z :=
  let mp := (5 * doy + 2) / 153 in
  (if mp <? 10 then mp + 3 else mp - 9, doy - (153 * mp + 2) / 5 + 1).

(** What is checked for each of the 400 years and of the 366 days. *)
Definition year_ok (n : nat) : bool :=
  let y := Z.of_nat n in
  (year_of_era (year_start y) =? y) && (year_of_era (year_start (y + 1) - 1) =? y) &&
  (year_start y =? 365 * y + y / 4 - y / 100) &&
  (year_start (y + 1) - year_start y =? if is_leap (y + 1) then 366 else 365).

Definition day_ok (n : nat) : bool :=
  let doy := Z.of_nat n in
  let '(m, d) := month_day doy in
  (1 <=? m) && (m <=? 12) && (1 <=? d) &&
  (d <=? (if m =? 2 then (if doy =? 365 then 29 else 28) else days_in 1 m)) &&
  ((153 * (if 2 <? m then m - 3 else m + 9) + 2) / 5 + d - 1 =? doy).

Lemma years_ok : forallb year_ok (seq 0 400) = true.
Proof. vm_compute. reflexivity. Qed.

Lemma days_ok : forallb day_ok (seq 0 366) = true.
Proof. vm_compute. reflexivity. Qed.

Lemma check_all (p : nat -> bool) n k : forallb p (seq 0 n) = true -> 0 <= k < Z.of_nat n -> p (Z.to_nat k) = true.
Proof. intros H Hk. rewrite forallb_forall in H. apply H, in_seq. lia. Qed.

Lemma year_of_era_mono a b : 0 <= a <= b -> year_of_era a <= year_of_era b.
Proof.
  intros H. apply Z.div_le_mono; [lia|].
  assert (forall x, x / 146096 = x / 36524 / 4) as Hc by (intros x; by rewrite Z.div_div).
  rewrite !Hc.
  assert (a / 36524 <= b / 36524) by (apply Z.div_le_mono; lia).
  assert (a / 36524 - a / 36524 / 4 <= b / 36524 - b / 36524 / 4) by (Z.to_euclidean_division_equations; lia).
  assert (a - a / 1460 <= b - b / 1460) by (Z.to_euclidean_division_equations; lia). lia.
Qed.

(** Every day lies in one year. *)
Lemma find_year n : forall doe, 0 <= doe < year_start (Z.of_nat n) ->
  exists y, 0 <= y < Z.of_nat n /\ year_start y <= doe < year_start (y + 1).
Proof.
  induction n as [|n IH]; intros doe H; [|].
  { assert (year_start (Z.of_nat 0) = 0) as E by reflexivity. rewrite E in H. lia. }
  destruct (Z.lt_ge_cases doe (year_start (Z.of_nat n))) as [Hlt|Hge].
  - destruct (IH doe) as (y & Hy & Hr); [lia|]. exists y. split; [lia|done].
  - exists (Z.of_nat n). replace (Z.of_nat n + 1) with (Z.of_nat (S n)) by lia. lia.
Qed.

Lemma year_of_era_spec doe : 0 <= doe < 146097 ->
  let y := year_of_era doe in
  0 <= y < 400 /\ 0 <= doe - (365 * y + y / 4 - y / 100) < (if is_leap (y + 1) then 366 else 365).
Proof.
  intros H. destruct (find_year 400 doe) as (y & Hy & Hr); [exact H|].
  pose proof (check_all year_ok 400 y years_ok ltac:(lia)) as Hok. unfold year_ok in Hok.
  rewrite Z2Nat.id in Hok by lia. boolify.
  assert (year_start y >= 0) by (unfold year_start; Z.to_euclidean_division_equations; lia).
  pose proof (year_of_era_mono (year_start y) doe ltac:(lia)).
  pose proof (year_of_era_mono doe (year_start (y + 1) - 1) ltac:(lia)).
  assert (year_of_era doe = y) as -> by lia. cbv zeta. split; [done|].
  destruct (is_leap (y + 1)); lia.
Qed.

Lemma era_date_spec doe : 0 <= doe < 146097 ->
  let '(y, m, d) := era_date doe in
  1 <= m <= 12 /\ 1 <= d <= days_in y m /\ 0 <= y <= 400 /\ date_era y m d = (0, doe).
Proof.
  intros H. destruct (year_of_era_spec doe H) as [Hy Hd]. unfold era_date. fold (year_of_era doe).
  set (y := year_of_era doe) in *. set (doy := doe - (365 * y + y / 4 - y / 100)) in *.
  assert (0 <= doy < 366) as Hdoy by (destruct (is_leap (y + 1)); lia).
  pose proof (check_all day_ok 366 doy days_ok ltac:(lia)) as Hok. unfold day_ok in Hok.
  rewrite Z2Nat.id in Hok by lia. unfold month_day in Hok.
  set (mp := (5 * doy + 2) / 153) in *. set (m := if mp <? 10 then mp + 3 else mp - 9) in *.
  set (d := doy - (153 * mp + 2) / 5 + 1) in *. boolify.
  split; [lia|]. split; [|split].
  - split; [lia|]. unfold days_in in *. destruct (Z.eqb_spec m 2) as [Hm|]; [|lia].
    rewrite Hm in *. replace (2 <=? 2) with true by reflexivity.
    destruct (is_leap (y + 1)); destruct (Z.eqb_spec doy 365); lia.
  - destruct (m <=? 2); lia.
  - unfold date_era. destruct (Z.leb_spec m 2).
    + replace (y + 1 - 1) with y by lia. rewrite Z.mod_small, Z.div_small by lia. f_equal. lia.
    + rewrite Z.mod_small, Z.div_small by lia. f_equal. lia.
Qed.

(** Shifting the year by whole eras. *)
Lemma date_era_shift e y m d : date_era (400 * e + y) m d = ((date_era y m d).1 + e, (date_era y m d).2).
Proof.
  unfold date_era. destruct (m <=? 2); simpl.
  - replace (400 * e + y - 1) with (y - 1 + e * 400) by lia. rewrite Z.div_add, Z.mod_add by lia. done.
  - replace (400 * e + y) with (y + e * 400) by lia. rewrite Z.div_add, Z.mod_add by lia. done.
Qed.

Lemma is_leap_shift e y : is_leap (400 * e + y) = is_leap y.
Proof.
  unfold is_leap.
  replace ((400 * e + y) mod 4) with (y mod 4) by (replace (400 * e + y) with (y + 100 * e * 4) by lia; by rewrite Z.mod_add).
  replace ((400 * e + y) mod 100) with (y mod 100) by (replace (400 * e + y) with (y + 4 * e * 100) by lia; by rewrite Z.mod_add).
  by replace ((400 * e + y) mod 400) with (y mod 400) by (replace (400 * e + y) with (y + e * 400) by lia; by rewrite Z.mod_add).
Qed.

Lemma days_in_shift e y m : days_in (400 * e + y) m = days_in y m.
Proof. unfold days_in. by rewrite is_leap_shift. Qed.

(** The date of a day is a date, and gives the day back. *)
Lemma civil_of_day_spec n :
  let '(y, m, d) := civil_of_day n in
  1 <= m <= 12 /\ 1 <= d <= days_in y m /\ day_of_civil y m d = n.
Proof.
  unfold civil_of_day. pose proof (Z.mod_pos_bound (n + 719468) 146097 ltac:(lia)) as Hm.
  pose proof (era_date_spec _ Hm) as Hs. destruct (era_date _) as [[y m] d]. destruct Hs as (H1 & H2 & H3 & H4).
  split; [done|]. rewrite days_in_shift. split; [done|]. unfold day_of_civil. rewrite date_era_shift, H4. simpl.
  pose proof (Z.div_mod (n + 719468) 146097). lia.
Qed.

Lemma civil_of_unix_spec t : valid_civil (civil_of_unix t) = true /\ unix_of_civil (civil_of_unix t) = t.
Proof.
  unfold civil_of_unix. pose proof (civil_of_day_spec (t / 86400)) as Hd.
  destruct (civil_of_day _) as [[y m] d]. destruct Hd as (H1 & H2 & H3).
  pose proof (Z.mod_pos_bound t 86400 ltac:(lia)). pose proof (Z.div_mod t 86400 ltac:(lia)).
  assert (0 <= t mod 86400 / 3600 < 24) by (Z.to_euclidean_division_equations; lia).
  pose proof (Z.mod_pos_bound (t mod 86400 / 60) 60 ltac:(lia)).
  pose proof (Z.mod_pos_bound (t mod 86400) 60 ltac:(lia)).
  split.
  - unfold valid_civil. cbn [cv_year cv_month cv_day cv_hour cv_min cv_sec].
    rewrite !andb_true_iff, !Z.leb_le, !Z.ltb_lt. lia.
  - unfold unix_of_civil. cbn [cv_year cv_month cv_day cv_hour cv_min cv_sec]. rewrite H3.
    assert (t mod 86400 = t mod 86400 / 3600 * 3600 + t mod 86400 / 60 mod 60 * 60 + t mod 86400 mod 60) as He
      by (Z.to_euclidean_division_equations; lia).
    lia.
Qed.

(** ** Reading what was written *)

Definition digit_pair_ok (n : nat) : bool :=
  match get2 (two_digits (Z.of_nat n) +:+ "Z") with
  | Some (v, s) => (v =? Z.of_nat n) && String.eqb s "Z"
  | None => false
  end.

Lemma digit_pairs : forallb digit_pair_ok (seq 0 100) = true.
Proof. vm_compute. reflexivity. Qed.

Lemma get2_cons a b s :
  get2 (String a (str1 b) +:+ s) =
  if is_digit a && is_digit b then Some (digit_val a * 10 + digit_val b, s) else None.
Proof. reflexivity. Qed.

Lemma get2_two_digits n s : 0 <= n < 100 -> get2 (two_digits n +:+ s) = Some (n, s).
Proof.
  intros H. pose proof (check_all digit_pair_ok 100 n digit_pairs ltac:(lia)) as Hok.
  unfold digit_pair_ok in Hok. rewrite Z2Nat.id in Hok by lia. unfold two_digits in *.
  rewrite get2_cons in Hok |- *. destruct (_ && _); [|done].
  apply andb_true_iff in Hok as [Hv _]. apply Z.eqb_eq in Hv. by rewrite Hv.
Qed.

Definition year_pair_ok (n : nat) : bool :=
  match get_year2 (two_digits (Z.of_nat n)) with
  | Some (y, "") => (y mod 100 =? Z.of_nat n) && (1969 <=? y) && (y <=? 2068)
  | _ => false
  end.

Lemma year_pairs : forallb year_pair_ok (seq 0 100) = true.
Proof. vm_compute. reflexivity. Qed.

Lemma get_year2_cons a b s :
  get_year2 (String a (str1 b) +:+ s) =
  match atoi (String a (str1 b)) with
  | Some y => Some (if 69 <=? y then y + 1900 else y + 2000, s)
  | None => None
  end.
Proof. reflexivity. Qed.

Lemma get_year2_two_digits y s :
  1969 <= y <= 2068 -> get_year2 (two_digits (y mod 100) +:+ s) = Some (y, s).
Proof.
  intros H. pose proof (Z.mod_pos_bound y 100 ltac:(lia)) as Hm.
  pose proof (check_all year_pair_ok 100 (y mod 100) year_pairs ltac:(lia)) as Hok.
  unfold year_pair_ok in Hok. rewrite Z2Nat.id in Hok by lia. unfold two_digits in *.
  rewrite get_year2_cons. rewrite <- (app_nil_r_s (String _ _)), get_year2_cons in Hok.
  destruct (atoi _) as [v|]; [|done]. boolify.
  set (w := if 69 <=? v then v + 1900 else v + 2000) in *. f_equal. f_equal.
  pose proof (Z.div_mod y 100 ltac:(lia)). pose proof (Z.div_mod w 100 ltac:(lia)). lia.
Qed.

(** A moment between 1969 and 2068 is read back to the second. *)
Lemma parse_format_index t :
  1969 <= cv_year (civil_of_unix (t / second)) <= 2068 ->
  parse_index_short (format_index t) = Some (t / second * second).
Proof.
  intros Hy. destruct (civil_of_unix_spec (t / second)) as [Hv Hu]. pose proof Hv as Hv'.
  unfold format_index, parse_index_short, parse_rest. destruct (civil_of_unix (t / second)) as [y m d h mi se] eqn:Hc.
  unfold valid_civil in Hv'. cbn [cv_year cv_month cv_day cv_hour cv_min cv_sec] in *. boolify.
  assert (d <= 31) by (unfold days_in in *; repeat case_match; lia).
  rewrite get_year2_two_digits by done. cbn [mbind option_bind].
  do 5 (rewrite get2_two_digits by lia; cbn [mbind option_bind]).
  change (fraction "Z") with (0, "Z"). cbv beta iota. rewrite String.eqb_refl, Hv, Hu. simpl. f_equal. lia.
Qed.
