(* ===== verification/Names.v ===== *)
(** * Names: internal/fsx/name.go.

    The two validators of a common name (the store's and the hook's) and the
    sanitizer of the hooks. *)

From S2P Require Import Prelude GoString.
From Stdlib Require Import Ascii.

(** [[A-Za-z0-9_]] and [[A-Za-z0-9._-]]. *)
Definition key_first (c : ascii) : bool :=
  is_upper c || is_lower c || is_digit c || byte_in 95 95 c.
Definition key_char (c : ascii) : bool :=
  key_first c || byte_in 46 46 c || byte_in 45 45 c.

(** [StoreKeyRe.MatchString]. *)
Definition StoreKeyRe (s : string) : bool :=
  match s with
  | "" => false
  | String c s' => key_first c && str_forall key_char s' && (String.length s' <=? 63)%nat
  end.

(** [HookCNRe.MatchString]. *)
Definition HookCNRe (s : string) : bool :=
  match s with
  | "" => false
  | String c s' => key_first c && str_forall key_char s'
  end.

Definition first_is (a : ascii) (s : string) : bool :=
  match s with "" => false | String c _ => Ascii.eqb c a end.

(** [SafeCN]: the trimmed name, or [None] for the error. *)
Definition SafeCN (cn : string) : option string :=
  let cn := trim_space cn in
  if str_empty cn || String.eqb cn "." || String.eqb cn ".." || first_is "." cn then None
  else if negb (StoreKeyRe cn) then None
  else if first_is "-" cn then None
  else Some cn.

Definition sanitize_char (c : ascii) : ascii :=
  if is_upper c || is_lower c || is_digit c || byte_in 95 95 c || byte_in 46 46 c || byte_in 45 45 c
  then c else "_"%char.

Definition Sanitize (s : string) : string := str_map sanitize_char s.

Definition HookCNValid (safe : string) : bool :=
  if str_empty safe || (64 <? String.length safe)%nat then false
  else if String.eqb safe "." || String.eqb safe ".." || first_is "." safe then false
  else HookCNRe safe.

(** ** Lemmas *)

Lemma key_char_graph c : key_char c = true -> is_graph c = true.
Proof.
  unfold key_char, key_first, is_upper, is_lower, is_digit, is_graph.
  rewrite !orb_true_iff, !byte_in_spec. lia.
Qed.

Lemma key_first_char c : key_first c = true -> key_char c = true.
Proof. unfold key_char. by intros ->. Qed.

Lemma StoreKeyRe_key s : StoreKeyRe s = true -> str_forall key_char s = true.
Proof.
  destruct s as [|c s]; [done|]. simpl. intros H. boolify.
  by rewrite (key_first_char _ H), H1.
Qed.

Lemma StoreKeyRe_graph s : StoreKeyRe s = true -> str_forall is_graph s = true.
Proof. intros H. eapply str_forall_impl; [apply key_char_graph|by apply StoreKeyRe_key]. Qed.

Lemma StoreKeyRe_first s : StoreKeyRe s = true -> first_is "." s = false /\ first_is "-" s = false.
Proof.
  destruct s as [|c s]; [done|]. simpl. intros H. boolify.
  destruct c as [[][][][][][][][]]; done.
Qed.

Lemma StoreKeyRe_not_dots s : StoreKeyRe s = true ->
  String.eqb s "." = false /\ String.eqb s ".." = false.
Proof.
  intros H. split; destruct (String.eqb_spec s "."), (String.eqb_spec s ".."); by subst.
Qed.

Lemma SafeCN_key s : StoreKeyRe s = true -> SafeCN s = Some s.
Proof.
  intros H. unfold SafeCN. rewrite trim_space_graph by by apply StoreKeyRe_graph.
  destruct (StoreKeyRe_first s H) as [-> ->], (StoreKeyRe_not_dots s H) as [-> ->].
  rewrite H. destruct s; done.
Qed.

Lemma SafeCN_Some cn s : SafeCN cn = Some s -> s = trim_space cn /\ StoreKeyRe s = true.
Proof.
  unfold SafeCN. intros H. destruct (_ || _ || _ || _); [done|].
  destruct (StoreKeyRe (trim_space cn)) eqn:Hk; simpl in H; [|done].
  destruct (first_is "-" _); simplify_eq. done.
Qed.

Lemma sanitize_char_key c : key_char (sanitize_char c) = true.
Proof. destruct c as [[][][][][][][][]]; reflexivity. Qed.

Lemma sanitize_char_id c : key_char c = true -> sanitize_char c = c.
Proof. destruct c as [[][][][][][][][]]; done. Qed.

Lemma Sanitize_cons c s : Sanitize (String c s) = String (sanitize_char c) (Sanitize s).
Proof. done. Qed.

Lemma Sanitize_key s : str_forall key_char (Sanitize s) = true.
Proof.
  induction s as [|c s IH]; [done|]. rewrite Sanitize_cons. cbn [str_forall].
  by rewrite sanitize_char_key.
Qed.

Lemma Sanitize_graph s : str_forall is_graph (Sanitize s) = true.
Proof. eapply str_forall_impl; [apply key_char_graph|apply Sanitize_key]. Qed.

Lemma Sanitize_id s : str_forall key_char s = true -> Sanitize s = s.
Proof.
  induction s as [|c s IH]; [done|]. cbn [str_forall]. intros H. boolify.
  rewrite Sanitize_cons. by rewrite sanitize_char_id, IH.
Qed.

Lemma Sanitize_length s : String.length (Sanitize s) = String.length s.
Proof. induction s as [|c s IH]; [done|]. rewrite Sanitize_cons. simpl. by rewrite IH. Qed.

Lemma HookCNValid_StoreKeyRe s : HookCNValid s = StoreKeyRe s.
Proof.
  destruct s as [|c s]; [done|]. unfold HookCNValid.
  destruct (StoreKeyRe (String c s)) eqn:Hk.
  - destruct (StoreKeyRe_first _ Hk) as [-> _], (StoreKeyRe_not_dots _ Hk) as [-> ->].
    simpl in *. boolify.
    destruct (Nat.ltb_spec 64 (S (String.length s))); [lia|]. by rewrite H, H1.
  - repeat case_match; try done. simpl in *.
    destruct (key_first c && str_forall key_char s); [|done]. simpl in *.
    apply Nat.leb_gt in Hk. apply Nat.ltb_ge in H. lia.
Qed.

#[export] Hint Resolve StoreKeyRe_graph StoreKeyRe_key Sanitize_graph Sanitize_key : ovn.
