(* ===== verification/Cache.v ===== *)
(** * Cache: internal/store/cache.go.

    A map value with a time to live, scoped to the directory it describes.
    Times are nanoseconds. *)

From S2P Require Import Prelude.

Record cache (T : Type) : Type := mkCache {
  c_at : Z;
  c_dir : string;
  c_data : option (gmap string T);
  c_ttl : Z
}.
Arguments mkCache {T} _ _ _ _.
Arguments c_at {T} _.
Arguments c_dir {T} _.
Arguments c_data {T} _.
Arguments c_ttl {T} _.

Definition newCache {T} (ttl : Z) : cache T := mkCache 0 "" None ttl.

Definition cache_get {T} (now : Z) (dir : string) (c : cache T) : option (gmap string T) :=
  match c_data c with
  | None => None
  | Some data =>
      if negb (String.eqb (c_dir c) dir) || (c_ttl c <? now - c_at c)%Z then None
      else Some data
  end.

Definition cache_set {T} (now : Z) (dir : string) (data : gmap string T) (c : cache T) : cache T :=
  mkCache now dir (Some data) (c_ttl c).

Definition cache_invalidate {T} (c : cache T) : cache T :=
  mkCache (c_at c) (c_dir c) None (c_ttl c).

(** [nameCacheInst] and [usageCacheInst]. *)
Definition nameCacheTTL : Z := 30000000000.
Definition usageCacheTTL : Z := 8000000000.

(** ** Lemmas *)

Lemma cache_get_invalidate {T} now dir (c : cache T) :
  cache_get now dir (cache_invalidate c) = None.
Proof. done. Qed.

(** A hit is the last value stored, for the same directory, within the TTL. *)
Lemma cache_get_set {T} now t dir dir' data (c : cache T) :
  cache_get now dir (cache_set t dir' data c) =
  if String.eqb dir' dir && (now - t <=? c_ttl c)%Z then Some data else None.
Proof.
  unfold cache_get, cache_set. simpl.
  destruct (String.eqb dir' dir); simpl; [|done].
  destruct (Z.ltb_spec (c_ttl c) (now - t)), (Z.leb_spec (now - t) (c_ttl c)); (done || lia).
Qed.
