(* ===== verification/World.v ===== *)
(** * World: the file tree and the effects of the agent.

    The state every component shares: the files of the node, the hook event
    log, the journal, the clock and the name cache.  An operation is a state
    and error monad; a failed operation keeps the changes it already made.
    [w_fault] says which file operations fail, so every error branch of the
    code can be taken. *)

From S2P Require Import Prelude GoString Cache.
From stdpp Require finite.
From Stdlib Require Import Ascii.

(** ** Locations *)

(** A file of the node, by the directory it lives in. *)
Inductive loc : Type :=
| LUser (cn f : string)    (** users directory, folder [cn] *)
| LUsersRoot (f : string)  (** users directory itself *)
| LSession (f : string)    (** sessions directory *)
| LUsage (f : string)      (** usage directory *)
| LData (f : string)       (** data directory: ports, dns, ipv6, state *)
| LConf (f : string)       (** server directory of the OpenVPN root *)
| LAbs (f : string).       (** an absolute path outside these trees *)

#[export] Instance loc_eq_dec : EqDecision loc.
Proof. solve_decision. Defined.

Definition loc_code (l : loc) : N * string * string :=
  match l with
  | LUser c f => (0%N, c, f) | LUsersRoot f => (1%N, "", f)
  | LSession f => (2%N, "", f) | LUsage f => (3%N, "", f)
  | LData f => (4%N, "", f) | LConf f => (5%N, "", f)
  | LAbs f => (6%N, "", f)
  end.

Definition loc_decode (t : N * string * string) : loc :=
  match t with
  | (0%N, c, f) => LUser c f | (1%N, _, f) => LUsersRoot f
  | (2%N, _, f) => LSession f | (3%N, _, f) => LUsage f
  | (4%N, _, f) => LData f | (5%N, _, f) => LConf f
  | (_, _, f) => LAbs f
  end.

#[export] Instance loc_countable : Countable loc.
Proof. refine (inj_countable' loc_code loc_decode _). by intros []. Defined.

(** The folder a file belongs to. *)
Definition user_of (l : loc) : option string :=
  match l with LUser cn _ => Some cn | _ => None end.

(** The file operations that can fail. *)
Inductive ioop : Type :=
| OpRead (l : loc)
| OpWrite (l : loc)
| OpRemove (l : loc)
| OpLock (l : loc)
| OpMkdir (d : string)
| OpReadDir (d : string)
| OpSync (d : string)
| OpStat (l : loc)
| OpChmod (d : string)
| OpRename (l : loc).       (** by the new name *)

#[export] Instance ioop_eq_dec : EqDecision ioop.
Proof. solve_decision. Defined.

(** ** Errors *)

Inductive goerr : Type :=
| ErrNotExist
| ErrIO
| Errorf (msg : string)
| Panic (msg : string).   (** a run-time panic: not an error value, it ends the process *)

(** [os.IsNotExist]. *)
Definition IsNotExist (e : goerr) : bool :=
  match e with ErrNotExist => true | _ => false end.

Definition err_text (e : goerr) : string :=
  match e with
  | ErrNotExist => "no such file or directory"
  | ErrIO => "input/output error"
  | Errorf m | Panic m => m
  end.

(** ** State *)

Record World : Type := mkWorld {
  w_files : gmap loc string;
  w_users_dir : bool;          (** the users directory exists *)
  w_user_dirs : gset string;   (** the folders in it *)
  w_log : list string;         (** the hook event log, oldest first *)
  w_sys : list string;         (** the journal lines of the hooks *)
  w_now : Z;                   (** [time.Now().UnixNano()] *)
  w_epochs : Z;                (** [epochCounter] *)
  w_gens : list string;        (** the random generations to come *)
  w_name_cache : cache string;
  w_usage_cache : cache Z;
  w_fault : ioop -> bool
}.

Definition set_files (f : gmap loc string) (w : World) : World :=
  mkWorld f (w_users_dir w) (w_user_dirs w) (w_log w) (w_sys w) (w_now w)
    (w_epochs w) (w_gens w) (w_name_cache w) (w_usage_cache w) (w_fault w).
Definition set_user_dirs (b : bool) (d : gset string) (w : World) : World :=
  mkWorld (w_files w) b d (w_log w) (w_sys w) (w_now w)
    (w_epochs w) (w_gens w) (w_name_cache w) (w_usage_cache w) (w_fault w).
Definition set_log (l : list string) (w : World) : World :=
  mkWorld (w_files w) (w_users_dir w) (w_user_dirs w) l (w_sys w) (w_now w)
    (w_epochs w) (w_gens w) (w_name_cache w) (w_usage_cache w) (w_fault w).
Definition set_sys (l : list string) (w : World) : World :=
  mkWorld (w_files w) (w_users_dir w) (w_user_dirs w) (w_log w) l (w_now w)
    (w_epochs w) (w_gens w) (w_name_cache w) (w_usage_cache w) (w_fault w).
Definition set_epochs (n : Z) (w : World) : World :=
  mkWorld (w_files w) (w_users_dir w) (w_user_dirs w) (w_log w) (w_sys w) (w_now w)
    n (w_gens w) (w_name_cache w) (w_usage_cache w) (w_fault w).
Definition set_gens (l : list string) (w : World) : World :=
  mkWorld (w_files w) (w_users_dir w) (w_user_dirs w) (w_log w) (w_sys w) (w_now w)
    (w_epochs w) l (w_name_cache w) (w_usage_cache w) (w_fault w).
Definition set_name_cache (c : cache string) (w : World) : World :=
  mkWorld (w_files w) (w_users_dir w) (w_user_dirs w) (w_log w) (w_sys w) (w_now w)
    (w_epochs w) (w_gens w) c (w_usage_cache w) (w_fault w).
Definition set_usage_cache (c : cache Z) (w : World) : World :=
  mkWorld (w_files w) (w_users_dir w) (w_user_dirs w) (w_log w) (w_sys w) (w_now w)
    (w_epochs w) (w_gens w) (w_name_cache w) c (w_fault w).
Definition set_now (t : Z) (w : World) : World :=
  mkWorld (w_files w) (w_users_dir w) (w_user_dirs w) (w_log w) (w_sys w) t
    (w_epochs w) (w_gens w) (w_name_cache w) (w_usage_cache w) (w_fault w).

(** ** The monad *)

Definition M (A : Type) : Type := World -> (goerr + A) * World.

#[export] Instance M_ret : MRet M := fun A a w => (inr a, w).
#[export] Instance M_bind : MBind M := fun A B k m w =>
  match m w with
  | (inl e, w') => (inl e, w')
  | (inr a, w') => k a w'
  end.

Definition throw {A} (e : goerr) : M A := fun w => (inl e, w).
(** Run [m] and hand its error to the caller as a value. *)
Definition try {A} (m : M A) : M (goerr + A) := fun w =>
  let '(r, w') := m w in (inr r, w').
(** The same around code that can panic: a panic is not caught. *)
Definition try_err {A} (m : M A) : M (goerr + A) := fun w =>
  match m w with
  | (inl (Panic p), w') => (inl (Panic p), w')
  | (r, w') => (inr r, w')
  end.
Definition gets {A} (f : World -> A) : M A := fun w => (inr (f w), w).
Definition modify (f : World -> World) : M unit := fun w => (inr tt, f w).

Declare Scope go_scope.
Delimit Scope go_scope with go.
Notation "x <- m ;; k" := (mbind (M:=M) (fun x => k) m)
  (at level 100, m at next level, right associativity) : go_scope.
Notation "m ;; k" := (mbind (M:=M) (fun _ => k) m)
  (at level 100, right associativity) : go_scope.
#[global] Open Scope go_scope.

Fixpoint for_each {A} (f : A -> M unit) (l : list A) : M unit :=
  match l with
  | [] => mret tt
  | a :: l' => f a ;; for_each f l'
  end.

(** Ignore the result and the error, the way [_ = f()] does. *)
Definition ignore {A} (m : M A) : M unit := try m ;; mret tt.

(** [InvalidateNameCache] and [InvalidateUsageCache]. *)
Definition InvalidateNameCache : M unit :=
  modify (fun w => set_name_cache (cache_invalidate (w_name_cache w)) w).
Definition InvalidateUsageCache : M unit :=
  modify (fun w => set_usage_cache (cache_invalidate (w_usage_cache w)) w).

(** ** File operations *)

(** The folder of a user file must exist before a file is created in it. *)
Definition parent_ok (w : World) (l : loc) : bool :=
  match l with
  | LUser cn _ => bool_decide (cn ∈ w_user_dirs w)
  | LUsersRoot _ => w_users_dir w
  | _ => true
  end.

Definition read_file (l : loc) : M string := fun w =>
  if w_fault w (OpRead l) then (inl ErrIO, w)
  else match w_files w !! l with
       | Some d => (inr d, w)
       | None => (inl ErrNotExist, w)
       end.

(** [fsx.WriteFileAtomic]: the new content or, on an error, the old one. *)
Definition WriteFileAtomic (l : loc) (data : string) : M unit := fun w =>
  if w_fault w (OpWrite l) then (inl ErrIO, w)
  else if parent_ok w l then (inr tt, set_files (<[l:=data]> (w_files w)) w)
  else (inl ErrNotExist, w).

(** [os.WriteFile], and creating a file and writing to it: a write that fails
    leaves the file as it was or, by [torn], with a part of the text. *)
Definition WriteFile (torn : string -> option string) (l : loc) (data : string) : M unit := fun w =>
  if w_fault w (OpWrite l) then
    (inl ErrIO, match torn data with Some part => set_files (<[l:=part]> (w_files w)) w | None => w end)
  else if parent_ok w l then (inr tt, set_files (<[l:=data]> (w_files w)) w)
  else (inl ErrNotExist, w).

(** [os.Remove]. *)
Definition remove_file (l : loc) : M unit := fun w =>
  if w_fault w (OpRemove l) then (inl ErrIO, w)
  else match w_files w !! l with
       | Some _ => (inr tt, set_files (delete l (w_files w)) w)
       | None => (inl ErrNotExist, w)
       end.

(** [os.Remove] where a missing file is not an error. *)
Definition remove_if_exists (l : loc) : M unit :=
  r <- try (remove_file l) ;;
  match r with
  | inl e => if IsNotExist e then mret tt else throw e
  | inr _ => mret tt
  end.

(** [os.Rename]. *)
Definition rename_file (src dst : loc) : M unit := fun w =>
  if w_fault w (OpRename dst) then (inl ErrIO, w)
  else match w_files w !! src with
       | Some d =>
           if parent_ok w dst then (inr tt, set_files (<[dst:=d]> (delete src (w_files w))) w)
           else (inl ErrNotExist, w)
       | None => (inl ErrNotExist, w)
       end.

(** The file of another name in the same folder. *)
Definition sibling (l : loc) (f : string) : loc :=
  match l with
  | LUser cn _ => LUser cn f
  | LUsersRoot _ => LUsersRoot f
  | LSession _ => LSession f
  | LUsage _ => LUsage f
  | LData _ => LData f
  | LConf _ => LConf f
  | LAbs p => LAbs (match rcut "/" p with Some (d, _) => d +:+ "/" +:+ f | None => f end)
  end.

(** The name [os.CreateTemp] finds: any that no file has; here the first one
    that is free. *)
Fixpoint temp_from (files : gmap loc string) (l : loc) (prefix : string) (fuel k : nat) : loc :=
  let t := sibling l (prefix +:+ itoa (Z.of_nat k)) in
  match fuel with
  | O => t
  | S fuel => if bool_decide (is_Some (files !! t)) then temp_from files l prefix fuel (S k) else t
  end.
Definition temp_name (files : gmap loc string) (l : loc) (prefix : string) : loc :=
  temp_from files l prefix (size files) 0.

(** [os.CreateTemp], the write of the content and the close: the whole file or
    none, since the code removes what it could not finish. *)
Definition create_temp (l : loc) (prefix data : string) : M loc := fun w =>
  let t := temp_name (w_files w) l prefix in
  if w_fault w (OpWrite t) then (inl ErrIO, w)
  else if parent_ok w t then (inr t, set_files (<[t:=data]> (w_files w)) w)
  else (inl ErrNotExist, w).

(** [os.Stat]: the file exists and can be looked at. *)
Definition stat_file (l : loc) : M bool := fun w =>
  (inr (negb (w_fault w (OpStat l)) && bool_decide (is_Some (w_files w !! l))), w).

(** [os.Lstat]: the error tells a missing file from one that cannot be looked
    at. *)
Definition lstat_file (l : loc) : M unit := fun w =>
  if w_fault w (OpStat l) then (inl ErrIO, w)
  else if bool_decide (is_Some (w_files w !! l)) then (inr tt, w) else (inl ErrNotExist, w).

(** Whether a file is there, for code that treats any other answer of
    [os.Lstat] as an error. *)
Definition present_file (l : loc) : M bool :=
  r <- try (lstat_file l) ;;
  match r with
  | inr _ => mret true
  | inl e => if IsNotExist e then mret false else throw e
  end.

(** Opening and flushing a directory outside the users tree. *)
Definition sync_dir (d : string) : M unit := fun w =>
  if w_fault w (OpSync d) then (inl ErrIO, w) else (inr tt, w).

(** The next random bytes of [crypto/rand]. *)
Definition entropy : M string := fun w =>
  match w_gens w with
  | g :: gs => (inr g, set_gens gs w)
  | [] => (inr "", w)
  end.

(** Creating a directory outside the users tree. *)
Definition mkdir (d : string) : M unit := fun w =>
  if w_fault w (OpMkdir d) then (inl ErrIO, w) else (inr tt, w).

(** [fsx.SetPermissions]: owner and mode are not part of the state. *)
Definition SetPermissions (d : string) : M unit := fun w =>
  if w_fault w (OpChmod d) then (inl ErrIO, w) else (inr tt, w).

(** [os.Chmod] of a file. *)
Definition chmod_file (l : loc) : M unit := fun w =>
  if w_fault w (OpStat l) then (inl ErrIO, w)
  else if bool_decide (is_Some (w_files w !! l)) then (inr tt, w) else (inl ErrNotExist, w).

(** Creating the users directory and a folder in it. *)
Definition mkdir_users : M unit := fun w =>
  if w_fault w (OpMkdir "users") then (inl ErrIO, w)
  else (inr tt, set_user_dirs true (w_user_dirs w) w).
Definition mkdir_user (cn : string) : M unit := fun w =>
  if w_fault w (OpMkdir cn) then (inl ErrIO, w)
  else (inr tt, set_user_dirs (w_users_dir w) ({[cn]} ∪ w_user_dirs w) w).

(** [os.ReadDir] of a user folder, read for its existence only. *)
Definition read_user_dir (cn : string) : M unit := fun w =>
  if w_fault w (OpReadDir cn) then (inl ErrIO, w)
  else if bool_decide (cn ∈ w_user_dirs w) then (inr tt, w) else (inl ErrNotExist, w).

(** [os.ReadDir] of the users directory: the folders in it. *)
Definition read_users_dir : M (list string) := fun w =>
  if w_fault w (OpReadDir "users") then (inl ErrIO, w)
  else if w_users_dir w then (inr (sort_strings (elements (w_user_dirs w))), w)
  else (inl ErrNotExist, w).

(** [os.RemoveAll] of a user folder. *)
Definition remove_user_dir (cn : string) : M unit := fun w =>
  if w_fault w (OpRemove (LUser cn "")) then (inl ErrIO, w)
  else (inr tt, set_user_dirs (w_users_dir w) (w_user_dirs w ∖ {[cn]})
                  (set_files (filter (fun kv => user_of kv.1 <> Some cn) (w_files w)) w)).

(** Opening a user folder and flushing it. *)
Definition sync_user_dir (cn : string) : M unit := fun w =>
  if w_fault w (OpSync cn) then (inl ErrIO, w)
  else if bool_decide (cn ∈ w_user_dirs w) then (inr tt, w) else (inl ErrNotExist, w).

(** [store.Lock]: the lock file is created, then [fn] runs under the lock. *)
Definition Lock {A} (l : loc) (fn : M A) : M A := fun w =>
  if w_fault w (OpLock l) then (inl ErrIO, w)
  else if parent_ok w l then
    fn (set_files (match w_files w !! l with
                   | Some _ => w_files w
                   | None => <[l:=""]> (w_files w)
                   end) w)
  else (inl ErrNotExist, w).

(** The names in the sessions or usage directory, in [os.ReadDir] order. *)
Definition session_names (w : World) : list string :=
  sort_strings (omap (fun l => match l with LSession f => Some f | _ => None end)
    (elements (dom (w_files w)))).
Definition usage_names (w : World) : list string :=
  sort_strings (omap (fun l => match l with LUsage f => Some f | _ => None end)
    (elements (dom (w_files w)))).

Definition read_sessions_dir : M (list string) := fun w =>
  if w_fault w (OpReadDir "sessions") then (inl ErrIO, w) else (inr (session_names w), w).
Definition read_usage_dir : M (list string) := fun w =>
  if w_fault w (OpReadDir "usage") then (inl ErrIO, w) else (inr (usage_names w), w).

(** [time.Now().Unix()]. *)
Definition now_unix (w : World) : Z := (w_now w / 1000000000)%Z.

(** [logging.Event] and [logging.Syslog]: losing a line is never an error. *)
Definition strip_crlf (s : string) : string :=
  String.string_of_list_ascii
    (filter (fun c => c <> nl /\ c <> cr) (String.list_ascii_of_string s)).
Definition Event (msg : string) : M unit := modify (fun w =>
  set_log (w_log w ++ [strip_crlf msg]) w).
Definition Syslog (msg : string) : M unit := modify (fun w =>
  set_sys (w_sys w ++ [trim_space msg]) w).

(** ** Lemmas *)

Lemma bind_run {A B} (m : M A) (k : A -> M B) w :
  (x <- m ;; k x) w = match m w with (inl e, w') => (inl e, w') | (inr a, w') => k a w' end.
Proof. done. Qed.

Lemma try_run {A} (m : M A) w : try m w = (inr (m w).1, (m w).2).
Proof. unfold try. by destruct (m w). Qed.

Lemma ignore_mkdir d w : ignore (mkdir d) w = (inr tt, w).
Proof. unfold ignore. rewrite bind_run, try_run. unfold mkdir. by case_match. Qed.

Lemma read_file_run w l :
  w_fault w (OpRead l) = false ->
  read_file l w = (match w_files w !! l with Some d => inr d | None => inl ErrNotExist end, w).
Proof. intros Hf. unfold read_file. rewrite Hf. by case_match. Qed.

Lemma read_file_ok w l d :
  w_fault w (OpRead l) = false -> w_files w !! l = Some d -> read_file l w = (inr d, w).
Proof. intros Hf Hl. unfold read_file. by rewrite Hf, Hl. Qed.

Lemma read_file_none w l :
  w_fault w (OpRead l) = false -> w_files w !! l = None -> read_file l w = (inl ErrNotExist, w).
Proof. intros Hf Hl. unfold read_file. by rewrite Hf, Hl. Qed.

(** Reading changes nothing. *)
Lemma read_file_state w l : (read_file l w).2 = w.
Proof. unfold read_file. by repeat case_match. Qed.

Lemma write_file_ok w l d :
  w_fault w (OpWrite l) = false -> parent_ok w l = true ->
  WriteFileAtomic l d w = (inr tt, set_files (<[l:=d]> (w_files w)) w).
Proof. intros Hf Hp. unfold WriteFileAtomic. by rewrite Hf, Hp. Qed.

Lemma elem_of_session_names w f : f ∈ session_names w ↔ is_Some (w_files w !! LSession f).
Proof.
  unfold session_names. rewrite elem_of_sort_strings, list_elem_of_omap.
  setoid_rewrite elem_of_elements. setoid_rewrite elem_of_dom. split.
  - intros (l & Hl & Heq). destruct l; simplify_eq. done.
  - intros H. by exists (LSession f).
Qed.

Lemma elem_of_usage_names w f : f ∈ usage_names w ↔ is_Some (w_files w !! LUsage f).
Proof.
  unfold usage_names. rewrite elem_of_sort_strings, list_elem_of_omap.
  setoid_rewrite elem_of_elements. setoid_rewrite elem_of_dom. split.
  - intros (l & Hl & Heq). destruct l; simplify_eq. done.
  - intros H. by exists (LUsage f).
Qed.

(** ** What an operation may touch

    [touches L m]: whatever [m] does and however it ends, a file outside [L]
    keeps its content. *)

Definition touches {A} (L : loc -> Prop) (m : M A) : Prop :=
  forall w l, ~ L l -> w_files (m w).2 !! l = w_files w !! l.

Section touches.
Context {A B : Type} (L : loc -> Prop).

Lemma touches_ret (a : A) : touches L (mret a : M A).
Proof. intros w l _. done. Qed.

Lemma touches_throw e : touches L (throw e : M A).
Proof. intros w l _. done. Qed.

Lemma touches_bind (m : M A) (k : A -> M B) :
  touches L m -> (forall a, touches L (k a)) -> touches L (x <- m ;; k x).
Proof.
  intros Hm Hk w l Hl. rewrite bind_run. specialize (Hm w l Hl).
  destruct (m w) as [[e|a] w']; simpl in *; [done|].
  rewrite (Hk a w' l Hl). done.
Qed.

Lemma touches_try (m : M A) : touches L m -> touches L (try m).
Proof. intros Hm w l Hl. rewrite try_run. simpl. by apply Hm. Qed.

Lemma touches_try_err (m : M A) : touches L m -> touches L (try_err m).
Proof.
  intros Hm w l Hl. specialize (Hm w l Hl). unfold try_err.
  destruct (m w) as [[[]|] w']; done.
Qed.

Lemma touches_gets (f : World -> A) : touches L (gets f).
Proof. done. Qed.

Lemma touches_modify f :
  (forall w, w_files (f w) = w_files w) -> touches L (modify f).
Proof. intros Hf w l _. simpl. by rewrite Hf. Qed.

Lemma touches_read l : touches L (read_file l).
Proof. intros w l' _. by rewrite read_file_state. Qed.

Lemma touches_stat l : touches L (stat_file l).
Proof. done. Qed.

Lemma touches_write l d : L l -> touches L (WriteFileAtomic l d).
Proof.
  intros Hl w l' Hl'. unfold WriteFileAtomic. repeat case_match; simpl; [done| |done].
  apply lookup_insert_ne. intros ->. done.
Qed.

Lemma touches_remove l : L l -> touches L (remove_file l).
Proof.
  intros Hl w l' Hl'. unfold remove_file. repeat case_match; simpl; [done| |done].
  apply lookup_delete_ne. intros ->. done.
Qed.

Lemma touches_mkdir d : touches L (mkdir d).
Proof. intros w l' _. unfold mkdir. by case_match. Qed.

Lemma touches_dirs :
  (forall d, touches L (SetPermissions d)) /\ touches L mkdir_users /\
  (forall cn, touches L (mkdir_user cn)) /\ (forall cn, touches L (read_user_dir cn)) /\
  touches L read_users_dir /\ (forall cn, touches L (sync_user_dir cn)).
Proof.
  split_and!; unfold touches; intros;
    unfold SetPermissions, mkdir_users, mkdir_user, read_user_dir, read_users_dir, sync_user_dir;
    by repeat case_match.
Qed.

Lemma touches_probes :
  (forall l, touches L (lstat_file l)) /\ (forall l, touches L (present_file l)) /\
  (forall d, touches L (sync_dir d)) /\ touches L entropy.
Proof.
  split_and!; unfold touches; intros;
    unfold present_file, lstat_file, sync_dir, entropy, try; rewrite ?bind_run; by repeat case_match; simplify_eq/=.
Qed.

Lemma touches_readdirs : touches L read_sessions_dir /\ touches L read_usage_dir.
Proof. split; intros w l' _; [unfold read_sessions_dir|unfold read_usage_dir]; by case_match. Qed.

Lemma touches_lock l (fn : M A) : L l -> touches L fn -> touches L (Lock l fn).
Proof.
  intros Hl Hfn w l' Hl'. unfold Lock. repeat case_match; simpl; try done.
  - by rewrite (Hfn _ l' Hl').
  - rewrite (Hfn _ l' Hl'). simpl. apply lookup_insert_ne. intros ->. done.
Qed.

Lemma touches_for_each (f : B -> M unit) l :
  (forall b, b ∈ l -> touches L (f b)) -> touches L (for_each f l).
Proof.
  induction l as [|b l IH]; intros Hf w l' Hl'; [done|]. simpl. rewrite bind_run.
  pose proof (Hf b ltac:(left) w l' Hl') as Hb.
  destruct (f b w) as [[e|[]] w']; simpl in *; [done|].
  rewrite (IH ltac:(intros; apply Hf; by right) w' l' Hl'). done.
Qed.
End touches.

Lemma touches_weaken {A} (L L' : loc -> Prop) (m : M A) :
  (forall l, L l -> L' l) -> touches L m -> touches L' m.
Proof. intros HL Hm w l Hl. apply Hm. naive_solver. Qed.

Lemma touches_remove_if L l : L l -> touches L (remove_if_exists l).
Proof.
  intros Hl. unfold remove_if_exists. apply touches_bind.
  - by apply touches_try, touches_remove.
  - intros [e|[]]; [case_match|]; (apply touches_ret || apply touches_throw).
Qed.

Lemma touches_ignore {A} L (m : M A) : touches L m -> touches L (ignore m).
Proof.
  intros Hm. unfold ignore. apply touches_bind; [by apply touches_try|].
  intros _. apply touches_ret.
Qed.

Lemma touches_logs L msg : touches L (Event msg) /\ touches L (Syslog msg).
Proof. split; by apply touches_modify. Qed.

Lemma touches_caches L : touches L InvalidateNameCache /\ touches L InvalidateUsageCache.
Proof. split; by apply touches_modify. Qed.

Create HintDb touch.
#[export] Hint Resolve touches_ret touches_throw touches_bind touches_try touches_gets
  touches_read touches_stat touches_write touches_remove touches_mkdir touches_lock touches_for_each
  touches_remove_if touches_ignore : touch.
#[export] Hint Extern 1 (touches _ read_sessions_dir) => apply touches_readdirs : touch.
#[export] Hint Extern 1 (touches _ read_usage_dir) => apply touches_readdirs : touch.
#[export] Hint Extern 1 (touches _ (lstat_file _)) => apply touches_probes : touch.
#[export] Hint Extern 1 (touches _ (present_file _)) => apply touches_probes : touch.
#[export] Hint Extern 1 (touches _ (sync_dir _)) => apply touches_probes : touch.
#[export] Hint Extern 1 (touches _ entropy) => apply touches_probes : touch.
#[export] Hint Extern 1 (touches _ (SetPermissions _)) => apply touches_dirs : touch.
#[export] Hint Extern 1 (touches _ mkdir_users) => apply touches_dirs : touch.
#[export] Hint Extern 1 (touches _ (mkdir_user _)) => apply touches_dirs : touch.
#[export] Hint Extern 1 (touches _ (read_user_dir _)) => apply touches_dirs : touch.
#[export] Hint Extern 1 (touches _ read_users_dir) => apply touches_dirs : touch.
#[export] Hint Extern 1 (touches _ (sync_user_dir _)) => apply touches_dirs : touch.
#[export] Hint Extern 1 (touches _ (Event _)) => apply touches_logs : touch.
#[export] Hint Extern 1 (touches _ (Syslog _)) => apply touches_logs : touch.
#[export] Hint Extern 1 (touches _ InvalidateNameCache) => apply touches_caches : touch.
#[export] Hint Extern 1 (touches _ InvalidateUsageCache) => apply touches_caches : touch.
#[export] Hint Extern 2 (touches _ (modify _)) => apply touches_modify : touch.

(** Walk through a monadic body, one rule per step, splitting on its data. *)
Ltac touch_step :=
  match goal with
  | |- touches _ (mbind _ _) => apply touches_bind; [|intro]
  | |- touches _ (match ?x with _ => _ end) => destruct x
  | |- touches _ (let _ := _ in _) => cbv zeta
  | |- touches _ (Lock _ _) => apply touches_lock
  | |- touches _ (try _) => apply touches_try
  | |- touches _ (try_err _) => apply touches_try_err
  | |- touches _ (ignore _) => apply touches_ignore
  | |- touches _ (for_each _ _) => apply touches_for_each; intros
  | |- touches _ (WriteFileAtomic _ _) => apply touches_write
  | |- touches _ (remove_file _) => apply touches_remove
  | |- touches _ (remove_if_exists _) => apply touches_remove_if
  | |- _ => progress (eauto with touch)
  end.
Ltac touch_solve := repeat touch_step.

(** ** Postconditions

    [after m Q w]: the run of [m] from [w] ends in a result and a state that
    satisfy [Q]; errors are results, so nothing is claimed by failing. *)

Definition after {A} (m : M A) (Q : goerr + A -> World -> Prop) (w : World) : Prop := Q (m w).1 (m w).2.

Lemma after_bind {A B} (m : M A) (k : A -> M B) Q w :
  after m (fun r w1 => match r with inl e => Q (inl e) w1 | inr a => after (k a) Q w1 end) w ->
  after (x <- m ;; k x) Q w.
Proof. unfold after. rewrite bind_run. by destruct (m w) as [[e|a] w1]. Qed.

Lemma after_weaken {A} (m : M A) (Q Q' : goerr + A -> World -> Prop) w :
  after m Q w -> (forall r w', Q r w' -> Q' r w') -> after m Q' w.
Proof. unfold after. eauto. Qed.

Lemma after_try {A} (m : M A) Q w : after m (fun r w1 => Q (inr r) w1) w -> after (try m) Q w.
Proof. unfold after. by rewrite try_run. Qed.

Lemma after_run {A} (m : M A) Q w r w' : after m Q w -> m w = (r, w') -> Q r w'.
Proof. unfold after. intros H Hm. by rewrite Hm in H. Qed.

(** ** Faults are part of the host

    No operation changes which operations fail. *)

Definition keeps_faults {A} (m : M A) : Prop := forall w, w_fault (m w).2 = w_fault w.

Section keeps_faults.
Context {A B : Type}.

Lemma kf_ret (a : A) : keeps_faults (mret a : M A).
Proof. done. Qed.
Lemma kf_throw e : keeps_faults (throw e : M A).
Proof. done. Qed.
Lemma kf_bind (m : M A) (k : A -> M B) :
  keeps_faults m -> (forall a, keeps_faults (k a)) -> keeps_faults (x <- m ;; k x).
Proof.
  intros Hm Hk w. rewrite bind_run. specialize (Hm w).
  destruct (m w) as [[e|a] w']; simpl in *; [done|]. by rewrite Hk.
Qed.
Lemma kf_try (m : M A) : keeps_faults m -> keeps_faults (try m).
Proof. intros Hm w. rewrite try_run. apply Hm. Qed.
Lemma kf_try_err (m : M A) : keeps_faults m -> keeps_faults (try_err m).
Proof. intros Hm w. specialize (Hm w). unfold try_err. by destruct (m w) as [[[]|] w']. Qed.
Lemma kf_gets (f : World -> A) : keeps_faults (gets f).
Proof. done. Qed.
Lemma kf_modify f : (forall w, w_fault (f w) = w_fault w) -> keeps_faults (modify f).
Proof. intros Hf w. apply Hf. Qed.
Lemma kf_lock l (fn : M A) : keeps_faults fn -> keeps_faults (Lock l fn).
Proof. intros Hfn w. unfold Lock. repeat case_match; rewrite ?Hfn; done. Qed.
Lemma kf_for_each (f : B -> M unit) l :
  (forall b, b ∈ l -> keeps_faults (f b)) -> keeps_faults (for_each f l).
Proof.
  induction l as [|b l IH]; intros Hf w; [done|]. simpl. rewrite bind_run.
  pose proof (Hf b ltac:(left) w) as Hb. destruct (f b w) as [[e|[]] w']; simpl in *; [done|].
  by rewrite (IH ltac:(intros; apply Hf; by right)).
Qed.
End keeps_faults.

(** Every primitive. *)
Lemma kf_primitives :
  (forall l, keeps_faults (read_file l)) /\ (forall l d, keeps_faults (WriteFileAtomic l d)) /\
  (forall l, keeps_faults (remove_file l)) /\ (forall l, keeps_faults (stat_file l)) /\
  (forall d, keeps_faults (mkdir d)) /\ keeps_faults mkdir_users /\ (forall c, keeps_faults (mkdir_user c)) /\
  (forall c, keeps_faults (read_user_dir c)) /\ keeps_faults read_users_dir /\
  (forall c, keeps_faults (remove_user_dir c)) /\ (forall c, keeps_faults (sync_user_dir c)) /\
  (forall d, keeps_faults (SetPermissions d)) /\ keeps_faults read_sessions_dir /\
  keeps_faults read_usage_dir /\ (forall l, keeps_faults (lstat_file l)) /\ (forall l, keeps_faults (present_file l)) /\
  (forall d, keeps_faults (sync_dir d)) /\ keeps_faults entropy /\ (forall m, keeps_faults (Event m)) /\ (forall m, keeps_faults (Syslog m)) /\
  keeps_faults InvalidateNameCache /\ keeps_faults InvalidateUsageCache.
Proof.
  split_and!; unfold keeps_faults; intros;
    unfold present_file, lstat_file, sync_dir, entropy, try, read_file, WriteFileAtomic, remove_file, stat_file, mkdir, mkdir_users, mkdir_user, read_user_dir,
      read_users_dir, remove_user_dir, sync_user_dir, SetPermissions, read_sessions_dir, read_usage_dir;
    rewrite ?bind_run; by repeat case_match; simplify_eq/=.
Qed.

Create HintDb fault.
Ltac fault_step :=
  match goal with
  | |- keeps_faults (mbind _ _) => apply kf_bind; [|intro]
  | |- keeps_faults (mret _) => apply kf_ret
  | |- keeps_faults (throw _) => apply kf_throw
  | |- keeps_faults (gets _) => apply kf_gets
  | |- keeps_faults (match ?x with _ => _ end) => destruct x
  | |- keeps_faults (let _ := _ in _) => cbv zeta
  | |- keeps_faults (Lock _ _) => apply kf_lock
  | |- keeps_faults (try _) => apply kf_try
  | |- keeps_faults (try_err _) => apply kf_try_err
  | |- keeps_faults (ignore _) => unfold ignore
  | |- keeps_faults (remove_if_exists _) => unfold remove_if_exists
  | |- keeps_faults (for_each _ _) => apply kf_for_each; intros
  | |- keeps_faults _ => solve [apply kf_primitives | eauto with fault]
  end.
Ltac fault_solve := repeat fault_step.

(** No file operation fails. *)
Definition faultless (w : World) : Prop := forall op, w_fault w op = false.

Lemma faultless_keeps {A} (m : M A) w : keeps_faults m -> faultless w -> faultless (m w).2.
Proof. intros Hm Hf op. rewrite Hm. apply Hf. Qed.

Lemma faultless_files w f : faultless w -> faultless (set_files f w).
Proof. done. Qed.

(** The content a fault-free [Lock] leaves before its body runs. *)
Definition lock_files (l : loc) (f : gmap loc string) : gmap loc string :=
  match f !! l with Some _ => f | None => <[l:=""]> f end.

Lemma Lock_ok {A} l (fn : M A) w :
  w_fault w (OpLock l) = false -> parent_ok w l = true ->
  Lock l fn w = fn (set_files (lock_files l (w_files w)) w).
Proof. intros Hf Hp. unfold Lock. by rewrite Hf, Hp. Qed.

Lemma Lock_inr {A} l (fn : M A) w a w' :
  Lock l fn w = (inr a, w') -> fn (set_files (lock_files l (w_files w)) w) = (inr a, w').
Proof. unfold Lock, lock_files. destruct (w_fault w _); [done|]. by destruct (parent_ok w l). Qed.

(** *** Temporary names *)

Lemma sibling_inj l f g : sibling l f = sibling l g -> f = g.
Proof.
  destruct l; simpl; intros [= H]; try done.
  destruct (rcut _ _) as [[d r]|]; [|done]. by apply (inj (String.append d)), (inj (String.append "/")) in H.
Qed.

Lemma itoa_nat_inj a b : itoa (Z.of_nat a) = itoa (Z.of_nat b) -> a = b.
Proof. rewrite !itoa_nonneg by lia. intros H%utoa_inj. lia. Qed.

Lemma temp_from_used files l prefix fuel k :
  is_Some (files !! temp_from files l prefix fuel k) ->
  forall i, (i <= fuel)%nat -> is_Some (files !! sibling l (prefix +:+ itoa (Z.of_nat (k + i)))).
Proof.
  revert k. induction fuel as [|fuel IH]; intros k; simpl.
  - intros H i Hi. by replace (k + i)%nat with k by lia.
  - case_bool_decide as Hk; [|done]. intros H i Hi. destruct i as [|i]; [by rewrite Nat.add_0_r|].
    rewrite <- Nat.add_succ_comm. apply IH; [done|lia].
Qed.

(** The name is free: more names are tried than files exist. *)
Lemma temp_name_fresh files l prefix : files !! temp_name files l prefix = None.
Proof.
  apply eq_None_not_Some. intros Hu. pose proof (temp_from_used _ _ _ _ _ Hu) as Hall. simpl in Hall.
  set (name := fun i => sibling l (prefix +:+ itoa (Z.of_nat i))).
  destruct (finite.list_pigeonhole (name <$> seq 0 (S (size files))) (elements (dom files))) as (i & j & x & Hij & Hi & Hj).
  - intros y. rewrite list_elem_of_fmap. intros (i & -> & Hi%elem_of_seq). apply elem_of_elements, elem_of_dom.
    apply Hall. lia.
  - rewrite length_fmap, length_seq. change (length (elements (dom files))) with (size (dom files)).
    rewrite size_dom. lia.
  - rewrite !list_lookup_fmap, !fmap_Some in *. destruct Hi as (a & [-> _]%lookup_seq & ->).
    destruct Hj as (b & [-> _]%lookup_seq & Hn). apply sibling_inj, (inj (String.append prefix)), itoa_nat_inj in Hn. lia.
Qed.

Lemma temp_name_shape files l prefix : exists k, temp_name files l prefix = sibling l (prefix +:+ itoa (Z.of_nat k)).
Proof.
  unfold temp_name. generalize 0%nat. generalize (size files). intros n. induction n as [|n IH]; intros k; simpl; [eauto|].
  case_bool_decide; eauto.
Qed.

Lemma lock_files_ne l l' f : l' <> l -> lock_files l f !! l' = f !! l'.
Proof. intros Hne. unfold lock_files. case_match; [done|]. by apply lookup_insert_ne. Qed.

(** A small fault-free node for concrete runs. *)
Definition demo_world : World :=
  mkWorld ∅ true ∅ [] [] 1700000000000000000 0
    ["0123456789abcdef"; "fedcba9876543210"; "00112233445566aa"]
    (newCache nameCacheTTL) (newCache usageCacheTTL) (fun _ => false).

Lemma demo_faultless : faultless demo_world.
Proof. done. Qed.
