(* ===== verification/Evolve.v ===== *)
(** * Evolve: operations that only move the node along an order.

    [evolves R m]: however [m] ends, the state it leaves follows the one it
    started from in the preorder [R].  The rules walk through a monadic body;
    [frames L] is the order of the states that agree outside the files [L]. *)

From S2P Require Import Prelude GoString Cache World.

#[local] Set Default Proof Using "Type*".

Definition evolves {A} (R : World -> World -> Prop) (m : M A) : Prop := forall w, R w (m w).2.

Section rules.
Context {A B : Type} (R : World -> World -> Prop) `{!PreOrder R}.

Lemma evolves_ret (a : A) : evolves R (mret a : M A).
Proof. intros w. reflexivity. Qed.

Lemma evolves_throw e : evolves R (throw e : M A).
Proof. intros w. reflexivity. Qed.

Lemma evolves_gets (f : World -> A) : evolves R (gets f).
Proof. intros w. reflexivity. Qed.

(** The continuation runs in the state and with the value [m] leaves. *)
Lemma evolves_bind_at (m : M A) (k : A -> M B) w :
  R w (m w).2 -> (forall a w1, m w = (inr a, w1) -> R w1 (k a w1).2) -> R w ((x <- m ;; k x) w).2.
Proof.
  intros Hm Hk. rewrite bind_run. destruct (m w) as [[e|a] w1]; simpl in *; [done|]. etrans; [done|by apply Hk].
Qed.

Lemma evolves_bind (m : M A) (k : A -> M B) :
  evolves R m -> (forall a, evolves R (k a)) -> evolves R (x <- m ;; k x).
Proof. intros Hm Hk w. apply evolves_bind_at; [apply Hm|]. intros a w1 _. apply Hk. Qed.

Lemma evolves_try (m : M A) : evolves R m -> evolves R (try m).
Proof. intros Hm w. rewrite try_run. apply Hm. Qed.

Lemma evolves_try_err (m : M A) : evolves R m -> evolves R (try_err m).
Proof. intros Hm w. specialize (Hm w). unfold try_err. by destruct (m w) as [[[]|] w1]. Qed.

Lemma evolves_ignore (m : M A) : evolves R m -> evolves R (ignore m).
Proof. intros Hm w. unfold ignore. rewrite bind_run, try_run. apply Hm. Qed.

Lemma evolves_lock l (fn : M A) :
  (forall w, R w (set_files (lock_files l (w_files w)) w)) -> evolves R fn -> evolves R (Lock l fn).
Proof.
  intros Hl Hfn w. unfold Lock. destruct (w_fault w _); [reflexivity|]. destruct (parent_ok w l); [|reflexivity].
  etrans; [apply Hl|apply Hfn].
Qed.
End rules.

Lemma evolves_for_each {B} R `{!PreOrder R} (f : B -> M unit) l : (forall b, b ∈ l -> evolves R (f b)) -> evolves R (for_each f l).
Proof.
  induction l as [|b l IH]; intros Hf w; [reflexivity|].
  apply (evolves_bind_at R (f b) (fun _ => for_each f l)); [apply Hf; left|].
  intros [] w1 _. apply IH. intros b' Hb. apply Hf. by right.
Qed.

(** A run by its result, for concrete states. *)
Lemma run_eta {A} (m : M A) w r : (m w).1 = r -> m w = (r, (m w).2).
Proof. intros <-. by destruct (m w). Qed.

(** A success ran every part. *)
Lemma bind_inr {A B} (m : M A) (k : A -> M B) w b w' :
  (x <- m ;; k x) w = (inr b, w') -> exists a w1, m w = (inr a, w1) /\ k a w1 = (inr b, w').
Proof. rewrite bind_run. destruct (m w) as [[e|a] w1]; [done|eauto]. Qed.

(** ** Reading

    The order [eq]: the state is left as it was. *)

Lemma reads_bind {A B} (m : M A) (k : A -> M B) w :
  evolves eq m -> (x <- m ;; k x) w = match (m w).1 with inl e => (inl e, w) | inr a => k a w end.
Proof. intros Hm. specialize (Hm w). rewrite bind_run. by destruct (m w) as [[e|a] w1]; simpl in *; subst. Qed.

(** A postcondition past an operation that only reads. *)
Lemma after_reads {A B} (m : M A) (k : A -> M B) Q w :
  evolves eq m -> (forall e, m w = (inl e, w) -> Q (inl e) w) ->
  (forall a, m w = (inr a, w) -> after (k a) Q w) -> after (x <- m ;; k x) Q w.
Proof.
  intros Hm He Ha. apply after_bind. unfold after. specialize (Hm w).
  destruct (m w) as [[e|a] w1]; simpl in *; subst; [by apply He|by apply Ha].
Qed.

Lemma after_evolves {A} R (m : M A) w : evolves R m -> after m (fun _ w' => R w w') w.
Proof. intros H. apply H. Qed.

Lemma evolves_weaken {A} (R R' : World -> World -> Prop) (m : M A) :
  (forall w w', R w w' -> R' w w') -> evolves R m -> evolves R' m.
Proof. intros H Hm w. apply H, Hm. Qed.

(** ** Frames *)

Definition frames (L : loc -> Prop) (w w' : World) : Prop :=
  (w_now w' = w_now w /\ w_fault w' = w_fault w) /\ forall l, ~ L l -> w_files w' !! l = w_files w !! l.

#[export] Instance frames_preorder L : PreOrder (frames L).
Proof.
  split; [by intros w|]. intros w1 w2 w3 [[N1 T1] F1] [[N2 T2] F2]. split; [split; congruence|]. intros l Hl. by rewrite F2, F1.
Qed.

Lemma frames_insert (L : loc -> Prop) l d w : L l -> frames L w (set_files (<[l:=d]> (w_files w)) w).
Proof. intros Hl. split; [done|]. intros l' Hl'. apply lookup_insert_ne. by intros ->. Qed.

Lemma frames_lock (L : loc -> Prop) l w : L l -> frames L w (set_files (lock_files l (w_files w)) w).
Proof. intros Hl. split; [done|]. intros l' Hl'. apply lock_files_ne. by intros ->. Qed.

(** The two ways to change a file. *)
Lemma evolves_write R `{!PreOrder R} l d :
  (forall w, R w (set_files (<[l:=d]> (w_files w)) w)) -> evolves R (WriteFileAtomic l d).
Proof.
  intros Hw w. unfold WriteFileAtomic. destruct (w_fault w _); [reflexivity|].
  destruct (parent_ok w l); [apply Hw|reflexivity].
Qed.

Lemma evolves_remove R `{!PreOrder R} l :
  (forall w, R w (set_files (delete l (w_files w)) w)) -> evolves R (remove_file l).
Proof.
  intros Hw w. unfold remove_file. destruct (w_fault w _); [reflexivity|].
  destruct (w_files w !! l); [apply Hw|reflexivity].
Qed.

Lemma evolves_remove_if R `{!PreOrder R} l : evolves R (remove_file l) -> evolves R (remove_if_exists l).
Proof.
  intros Hr. unfold remove_if_exists. apply evolves_bind; [apply _|by apply evolves_try|].
  intros [e|[]]; [destruct (IsNotExist e)|]; (apply evolves_ret || apply evolves_throw); apply _.
Qed.

(** Operations that only look, or only change what is not in the state. *)
Lemma evolves_reads R `{!PreOrder R} :
  (forall l, evolves R (read_file l)) /\ (forall l, evolves R (stat_file l)) /\
  (forall l, evolves R (lstat_file l)) /\ (forall l, evolves R (present_file l)) /\
  (forall d, evolves R (mkdir d)) /\ (forall d, evolves R (sync_dir d)) /\ (forall d, evolves R (SetPermissions d)) /\
  (forall c, evolves R (read_user_dir c)) /\ evolves R read_users_dir /\ (forall c, evolves R (sync_user_dir c)) /\
  evolves R read_sessions_dir /\ evolves R read_usage_dir.
Proof.
  split_and!; unfold evolves; intros;
    unfold present_file, lstat_file, read_file, stat_file, mkdir, sync_dir, SetPermissions, read_user_dir, read_users_dir,
      sync_user_dir, read_sessions_dir, read_usage_dir, try; rewrite ?bind_run;
    repeat case_match; simplify_eq/=; reflexivity.
Qed.

Lemma frames_delete (L : loc -> Prop) l w : L l -> frames L w (set_files (delete l (w_files w)) w).
Proof. intros Hl. split; [done|]. intros l' Hl'. apply lookup_delete_ne. by intros ->. Qed.

Section frames.
Context (L : loc -> Prop).

Lemma frames_effects :
  evolves (frames L) entropy /\ evolves (frames L) mkdir_users /\ (forall c, evolves (frames L) (mkdir_user c)) /\
  (forall m, evolves (frames L) (Event m)) /\ (forall m, evolves (frames L) (Syslog m)) /\
  evolves (frames L) InvalidateNameCache /\ evolves (frames L) InvalidateUsageCache.
Proof.
  split_and!; unfold evolves, frames; intros; unfold entropy, mkdir_users, mkdir_user;
    repeat case_match; simplify_eq/=; done.
Qed.

Lemma frames_write l d : L l -> evolves (frames L) (WriteFileAtomic l d).
Proof. intros Hl. apply evolves_write; [apply _|]. intros w. by apply frames_insert. Qed.

Lemma frames_remove l : L l -> evolves (frames L) (remove_file l).
Proof. intros Hl. apply evolves_remove; [apply _|]. intros w. by apply frames_delete. Qed.

Lemma frames_rename src dst : L src -> L dst -> evolves (frames L) (rename_file src dst).
Proof.
  intros Hs Hd w. unfold rename_file. destruct (w_fault w _); [reflexivity|]. destruct (w_files w !! src); [|reflexivity].
  destruct (parent_ok w dst); [|reflexivity]. split; [done|]. intros l Hl. cbn [snd set_files w_files].
  rewrite lookup_insert_ne, lookup_delete_ne by (by intros <-). done.
Qed.

Lemma frames_create_temp l prefix data :
  (forall k, L (sibling l (prefix +:+ itoa (Z.of_nat k)))) -> evolves (frames L) (create_temp l prefix data).
Proof.
  intros Hl w. unfold create_temp. destruct (w_fault w _); [reflexivity|]. destruct (parent_ok w _); [|reflexivity].
  apply frames_insert. destruct (temp_name_shape (w_files w) l prefix) as [k ->]. apply Hl.
Qed.

Lemma frames_remove_if l : L l -> evolves (frames L) (remove_if_exists l).
Proof. intros Hl. by apply evolves_remove_if, frames_remove; [apply _|]. Qed.
End frames.

(** Removing only removes. *)
Definition shrinks (w w' : World) : Prop := forall l, w_files w !! l = None -> w_files w' !! l = None.

#[export] Instance shrinks_preorder : PreOrder shrinks.
Proof. split; [by intros w l|]. intros w1 w2 w3 H1 H2 l Hl. by apply H2, H1. Qed.

Lemma shrinks_remove l : evolves shrinks (remove_file l).
Proof. apply evolves_remove; [apply _|]. intros w l' Hl'. by apply lookup_delete_None; right. Qed.

Lemma shrinks_remove_if l : evolves shrinks (remove_if_exists l).
Proof. apply evolves_remove_if; [apply _|]. apply shrinks_remove. Qed.

(** The same, with the folders of the users as they were. *)
Definition stays (L : loc -> Prop) (w w' : World) : Prop := frames L w w' /\ w_user_dirs w' = w_user_dirs w.

#[export] Instance stays_preorder L : PreOrder (stays L).
Proof. split; [by intros w|]. intros w1 w2 w3 [F1 D1] [F2 D2]. split; [by etrans|congruence]. Qed.

Section stays.
Context (L : loc -> Prop).

Lemma stays_effects :
  evolves (stays L) entropy /\ (forall m, evolves (stays L) (Event m)) /\ (forall m, evolves (stays L) (Syslog m)) /\
  evolves (stays L) InvalidateNameCache /\ evolves (stays L) InvalidateUsageCache.
Proof. split_and!; unfold evolves, stays, frames; intros; unfold entropy; repeat case_match; simplify_eq/=; done. Qed.

Lemma stays_write l d : L l -> evolves (stays L) (WriteFileAtomic l d).
Proof. intros Hl. apply evolves_write; [apply _|]. intros w. split; [by apply frames_insert|done]. Qed.

Lemma stays_remove_if l : L l -> evolves (stays L) (remove_if_exists l).
Proof.
  intros Hl. apply evolves_remove_if; [apply _|]. apply evolves_remove; [apply _|].
  intros w. split; [by apply frames_delete|done].
Qed.

Lemma stays_lock {A} l (fn : M A) : L l -> evolves (stays L) fn -> evolves (stays L) (Lock l fn).
Proof. intros Hl. apply evolves_lock; [apply _|]. intros w. split; [by apply frames_lock|done]. Qed.
End stays.

Create HintDb evolve.
#[export] Hint Resolve frames_rename frames_write frames_remove frames_remove_if stays_write stays_remove_if : evolve.

(** One rule per step of a body. *)
Ltac evolve_rule :=
  match goal with
  | |- evolves _ (mbind _ _) => apply evolves_bind; [apply _| |intro]
  | |- evolves _ (mret _) => apply evolves_ret; apply _
  | |- evolves _ (throw _) => apply evolves_throw; apply _
  | |- evolves _ (gets _) => apply evolves_gets; apply _
  | |- evolves _ (match ?x with _ => _ end) => destruct x
  | |- evolves _ (let _ := _ in _) => cbv zeta
  | |- evolves _ (try _) => apply evolves_try; [apply _|]
  | |- evolves _ (try_err _) => apply evolves_try_err; [apply _|]
  | |- evolves _ (ignore _) => apply evolves_ignore; [apply _|]
  | |- evolves _ (for_each _ _) => apply evolves_for_each; [apply _|intros]
  | |- evolves (frames _) (Lock _ _) => apply evolves_lock; [apply _|intros; apply frames_lock|]
  | |- evolves _ _ => solve [apply evolves_reads; apply _]
  | |- evolves (stays _) (Lock _ _) => apply stays_lock
  | |- evolves (frames _) _ => solve [apply frames_effects]
  | |- evolves (stays _) _ => solve [apply stays_effects]
  | |- evolves _ _ => progress (eauto with evolve)
  end.
Ltac evolve_solve := repeat evolve_rule.

(** ** Operations that always answer

    They handle every error of what they call. *)

Definition answers {A} (m : M A) : Prop := forall w, exists a w', m w = (inr a, w').

Lemma answers_ret {A} (a : A) : answers (mret a : M A).
Proof. intros w. by exists a, w. Qed.

Lemma answers_try {A} (m : M A) : answers (try m).
Proof. intros w. rewrite try_run. eauto. Qed.

Lemma answers_stat l : answers (stat_file l).
Proof. intros w. eexists _, _. reflexivity. Qed.

Lemma answers_bind {A B} (m : M A) (k : A -> M B) : answers m -> (forall a, answers (k a)) -> answers (x <- m ;; k x).
Proof. intros Hm Hk w. rewrite bind_run. destruct (Hm w) as (a & w1 & ->). apply Hk. Qed.

Lemma answers_ignore {A} (m : M A) : answers (ignore m).
Proof. apply answers_bind; [apply answers_try|]. intros _. apply answers_ret. Qed.

Lemma answers_for_each {B} (f : B -> M unit) l : (forall b, answers (f b)) -> answers (for_each f l).
Proof. intros Hf. induction l as [|b l IH]; [apply answers_ret|]. by apply answers_bind. Qed.

Lemma answers_evolves {A} R (m : M A) w : answers m -> evolves R m -> exists a w', m w = (inr a, w') /\ R w w'.
Proof. intros Ha He. destruct (Ha w) as (a & w' & Hr). specialize (He w). rewrite Hr in He. eauto. Qed.

Create HintDb answers.
#[export] Hint Resolve answers_ret answers_try answers_stat answers_ignore answers_bind answers_for_each : answers.
Ltac answer_solve :=
  repeat match goal with
  | |- answers (mbind _ _) => apply answers_bind; [|intro]
  | |- answers (match ?x with _ => _ end) => destruct x
  | |- answers (let _ := _ in _) => cbv zeta
  | |- answers _ => solve [eauto with answers]
  end.
