(* ===== verification/Counter.v ===== *)
(** * Counter: internal/store/counter.go and usage.go.

    The persisted per-user traffic counter: its v2 JSON text, the four
    operations on it and the generation identity of a session. *)

From S2P Require Import Prelude GoString Json Names Cache World.
From Stdlib Require Import Ascii.

(** ** Data *)

Record UsageSession : Type := mkSess {
  us_bytes : Z;
  us_closed : bool;
  us_marker_key : string
}.

Record UsageState : Type := mkUsage {
  st_version : Z;
  st_epoch : string;
  st_total : Z;
  st_sessions : gmap string UsageSession
}.

Definition counterVersion : Z := 2.

(** ** Generations *)

Definition isHex (s : string) : bool :=
  str_forall is_hex_char s && (0 <? String.length s)%nat.

Definition HasGeneration (sessionID : string) : bool :=
  match rcut "." sessionID with
  | Some (b, gen) =>
      if (0 <? String.length b)%nat then (String.length gen =? 16)%nat && isHex gen else false
  | None => false
  end.

Definition markerKeyOf (sessionID : string) : string :=
  match rcut "." sessionID with
  | Some (b, _) =>
      if (0 <? String.length b)%nat && HasGeneration sessionID then b else sessionID
  | None => sessionID
  end.

Definition isAllDigits (s : string) : bool :=
  negb (str_empty s) && str_forall is_digit s.

(** [newEpoch]: nanoseconds and the process counter. *)
Definition epoch_text (nanos n : Z) : string := itoa nanos +:+ "-" +:+ itoa n.

Definition newEpoch : M string := fun w =>
  let n := u64_add (w_epochs w) 1 in
  (inr (epoch_text (w_now w) n), set_epochs n w).

(** ** The counter text *)

Definition json_of_session (s : UsageSession) : json :=
  JObj [("bytes", JNum (itoa (us_bytes s)));
        ("closed", JBool (us_closed s));
        ("marker_key", JStr (us_marker_key s))].

Definition zero_session : UsageSession := mkSess 0 false "".

(** [json.Marshal] of a map: the keys in byte order. *)
Definition json_of_sessions (m : gmap string UsageSession) : json :=
  JObj (map (fun k => (k, json_of_session (default zero_session (m !! k))))
            (sort_strings (elements (dom m)))).

Definition json_of_state (st : UsageState) : json :=
  JObj [("version", JNum (itoa (st_version st)));
        ("epoch", JStr (st_epoch st));
        ("total", JNum (itoa (st_total st)));
        ("sessions", json_of_sessions (st_sessions st))].

Definition encode_counter (st : UsageState) : string := json_print (json_of_state st).

(** The fields decoded so far; [None] is a nil pointer. *)
Record raw_counter : Type := mkRaw {
  raw_version : option Z;
  raw_epoch : option string;
  raw_total : option Z;
  raw_sessions : option (gmap string UsageSession)
}.

Definition fold_fields {S} (f : S -> string -> json -> option S) (names : list string)
    (kvs : list (string * json)) (s0 : S) : option S :=
  foldl (fun acc kv =>
    match acc, field_of names kv.1 with
    | Some s, Some name => f s name kv.2
    | _, _ => None      (* DisallowUnknownFields *)
    end) (Some s0) kvs.

Definition decode_session_field (s : UsageSession) (name : string) (v : json) : option UsageSession :=
  if String.eqb name "bytes" then
    match v with
    | JNull => Some s
    | JNum lit => match parse_uint lit with
                  | Some n => Some (mkSess n (us_closed s) (us_marker_key s))
                  | None => None end
    | _ => None
    end
  else if String.eqb name "closed" then
    match v with
    | JNull => Some s
    | JBool b => Some (mkSess (us_bytes s) b (us_marker_key s))
    | _ => None
    end
  else
    match v with
    | JNull => Some s
    | JStr k => Some (mkSess (us_bytes s) (us_closed s) k)
    | _ => None
    end.

Definition decode_session (v : json) : option UsageSession :=
  match v with
  | JNull => Some zero_session
  | JObj kvs => fold_fields decode_session_field ["bytes"; "closed"; "marker_key"] kvs zero_session
  | _ => None
  end.

Definition decode_sessions (m0 : gmap string UsageSession) (kvs : list (string * json))
  : option (gmap string UsageSession) :=
  foldl (fun acc kv =>
    match acc, decode_session kv.2 with
    | Some m, Some s => Some (<[kv.1:=s]> m)
    | _, _ => None
    end) (Some m0) kvs.

Definition decode_state_field (r : raw_counter) (name : string) (v : json) : option raw_counter :=
  if String.eqb name "version" then
    match v with
    | JNull => Some (mkRaw None (raw_epoch r) (raw_total r) (raw_sessions r))
    | JNum lit => match parse_int lit with
                  | Some n => Some (mkRaw (Some n) (raw_epoch r) (raw_total r) (raw_sessions r))
                  | None => None end
    | _ => None
    end
  else if String.eqb name "epoch" then
    match v with
    | JNull => Some (mkRaw (raw_version r) None (raw_total r) (raw_sessions r))
    | JStr s => Some (mkRaw (raw_version r) (Some s) (raw_total r) (raw_sessions r))
    | _ => None
    end
  else if String.eqb name "total" then
    match v with
    | JNull => Some (mkRaw (raw_version r) (raw_epoch r) None (raw_sessions r))
    | JNum lit => match parse_uint lit with
                  | Some n => Some (mkRaw (raw_version r) (raw_epoch r) (Some n) (raw_sessions r))
                  | None => None end
    | _ => None
    end
  else
    match v with
    | JNull => Some (mkRaw (raw_version r) (raw_epoch r) (raw_total r) None)
    | JObj kvs => match decode_sessions (default ∅ (raw_sessions r)) kvs with
                  | Some m => Some (mkRaw (raw_version r) (raw_epoch r) (raw_total r) (Some m))
                  | None => None end
    | _ => None
    end.

Definition decode_raw (j : json) : option raw_counter :=
  match j with
  | JNull => Some (mkRaw None None None None)
  | JObj kvs => fold_fields decode_state_field ["version"; "epoch"; "total"; "sessions"] kvs
                  (mkRaw None None None None)
  | _ => None
  end.

(** A missing marker key is derived from the session ID. *)
Definition fill_keys (m : gmap string UsageSession) : gmap string UsageSession :=
  map_imap (fun id s =>
    Some (if str_empty (us_marker_key s)
          then mkSess (us_bytes s) (us_closed s) (markerKeyOf id) else s)) m.

(** The body of [ReadUsageState] on the bytes of an existing file. *)
Definition decode_counter (data : string) : goerr + UsageState :=
  let trimmed := trim_space data in
  if str_empty trimmed then inl (Errorf "empty counter file")
  else if isAllDigits trimmed then
    match parse_uint trimmed with
    | Some n => inr (mkUsage 0 "" n ∅)
    | None => inl (Errorf "value out of range")
    end
  else
    match json_decode data with
    | None => inl (Errorf "invalid counter JSON")
    | Some (j, rest) =>
        match decode_raw j with
        | None => inl (Errorf "invalid counter fields")
        | Some raw =>
            if dec_more rest then inl (Errorf "trailing data in counter file")
            else if negb (bool_decide (raw_version raw = Some counterVersion)) then
              inl (Errorf ("unknown counter version " +:+ itoa (default 0%Z (raw_version raw))))
            else match raw_epoch raw, raw_total raw, raw_sessions raw with
                 | Some epoch, Some total, Some sessions =>
                     if str_empty epoch then inl (Errorf "incomplete v2 counter file")
                     else inr (mkUsage counterVersion epoch total (fill_keys sessions))
                 | _, _, _ => inl (Errorf "incomplete v2 counter file")
                 end
        end
  end.

Definition ReadUsageState (cn : string) : M UsageState :=
  match SafeCN cn with
  | None => throw (Errorf "invalid common name")
  | Some safe =>
      ignore (mkdir "usage") ;;
      r <- try (read_file (LUsage safe)) ;;
      match r with
      | inl e =>
          if IsNotExist e then
            epoch <- newEpoch ;; mret (mkUsage counterVersion epoch 0 ∅)
          else throw e
      | inr data =>
          match decode_counter data with
          | inl e => throw e
          | inr st => mret st
          end
      end
  end.

Definition writeUsageState (safe : string) (st : UsageState) : M unit :=
  WriteFileAtomic (LUsage safe) (encode_counter st).

(** ** Operations *)

(** [st.Version != counterVersion]: a legacy total becomes a v2 counter. *)
Definition upgrade (st : UsageState) : M UsageState :=
  if (st_version st =? counterVersion)%Z then mret st
  else if str_empty (st_epoch st) then
    e <- newEpoch ;; mret (mkUsage counterVersion e (st_total st) (st_sessions st))
  else mret (mkUsage counterVersion (st_epoch st) (st_total st) (st_sessions st)).

(** The session entry and the total after one observation; [None] is the
    counter overflow. *)
Definition observe (st : UsageState) (sessionID : string) (bytes : Z) (closed : bool)
  : option UsageState :=
  let sess := default (mkSess 0 false (markerKeyOf sessionID)) (st_sessions st !! sessionID) in
  let counted :=
    if negb (us_closed sess) && (us_bytes sess <? bytes)%Z then
      let delta := u64_sub bytes (us_bytes sess) in
      if (u64_add (st_total st) delta <? st_total st)%Z then None
      else Some (mkSess bytes (us_closed sess) (us_marker_key sess), u64_add (st_total st) delta)
    else Some (sess, st_total st) in
  match counted with
  | None => None
  | Some (sess, total) =>
      let sess := if closed && negb (us_closed sess)
                  then mkSess (us_bytes sess) true (us_marker_key sess) else sess in
      Some (mkUsage (st_version st) (st_epoch st) total (<[sessionID:=sess]> (st_sessions st)))
  end.

Definition with_epoch (st : UsageState) : M UsageState :=
  if str_empty (st_epoch st) then
    e <- newEpoch ;; mret (mkUsage (st_version st) e (st_total st) (st_sessions st))
  else mret st.

Definition usage_lock (safe : string) : loc := LUsage (".lock." +:+ safe).

Definition RecordSessionUsage (cn sessionID : string) (bytes : Z) (closed : bool) : M UsageState :=
  match SafeCN cn with
  | None => throw (Errorf "invalid common name")
  | Some safe =>
      if str_empty sessionID then throw (Errorf "empty session id")
      else
        mkdir "usage" ;;
        Lock (usage_lock safe) (
          st <- ReadUsageState safe ;;
          st <- upgrade st ;;
          match observe st sessionID bytes closed with
          | None => throw (Errorf "counter overflow")
          | Some st =>
              st <- with_epoch st ;;
              writeUsageState safe st ;;
              InvalidateUsageCache ;;
              mret st
          end)
  end.

(** [present] is the set of IDs still live or on disk. *)
Definition retained (present : gset string) (m : gmap string UsageSession) : gmap string UsageSession :=
  filter (fun kv => ~ (us_closed kv.2 = true /\ kv.1 ∉ present)) m.

Definition PruneReceipts (cn : string) (present : gset string) : M unit :=
  match SafeCN cn with
  | None => throw (Errorf "invalid common name")
  | Some safe =>
      mkdir "usage" ;;
      Lock (usage_lock safe) (
        st <- ReadUsageState safe ;;
        let kept := retained present (st_sessions st) in
        if (size kept =? size (st_sessions st))%nat then mret tt
        else
          writeUsageState safe (mkUsage (st_version st) (st_epoch st) (st_total st) kept) ;;
          InvalidateUsageCache)
  end.

Definition ResetUsage (cn : string) : M unit :=
  match SafeCN cn with
  | None => throw (Errorf "invalid common name")
  | Some safe =>
      mkdir "usage" ;;
      Lock (usage_lock safe) (
        st <- ReadUsageState safe ;;
        epoch <- newEpoch ;;
        writeUsageState safe
          (mkUsage counterVersion epoch 0
             (filter (fun kv => us_closed kv.2 = false) (st_sessions st))) ;;
        InvalidateUsageCache)
  end.

(** The total and whether it was banked. *)
Definition BankUsage (safeCN : string) (delta : Z) : M (Z * bool) :=
  match SafeCN safeCN with
  | None => mret (0%Z, false)
  | Some safe =>
      if (delta =? 0)%Z then mret (0%Z, false)
      else
        r <- try (mkdir "usage") ;;
        match r with
        | inl _ => mret (0%Z, false)
        | inr _ =>
            r <- try (Lock (usage_lock safe) (
              st <- ReadUsageState safe ;;
              if (u64_add (st_total st) delta <? st_total st)%Z then throw (Errorf "counter overflow")
              else
                st <- upgrade (mkUsage (st_version st) (st_epoch st)
                                 (u64_add (st_total st) delta) (st_sessions st)) ;;
                writeUsageState safe st ;;
                InvalidateUsageCache ;;
                mret (st_total st))) ;;
            match r with
            | inl _ => mret (0%Z, false)
            | inr total => mret (total, true)
            end
        end
  end.

(** [AccumulatedUsage] and [AllAccumulatedUsage] of internal/store/state.go. *)
Definition AccumulatedUsage (cn : string) : M Z :=
  r <- try (ReadUsageState cn) ;;
  match r with inl _ => mret 0%Z | inr st => mret (st_total st) end.

Definition is_counter_name (name : string) : bool :=
  negb (has_prefix name ".lock.") && StoreKeyRe name.

Fixpoint accumulate (names : list string) (out : gmap string Z) : M (gmap string Z) :=
  match names with
  | [] => mret out
  | n :: names' =>
      if is_counter_name n then
        r <- try (ReadUsageState n) ;;
        match r with
        | inr st => accumulate names' (<[n:=st_total st]> out)
        | inl _ => accumulate names' out
        end
      else accumulate names' out
  end.

Definition AllAccumulatedUsage : M (gmap string Z) :=
  r <- try read_usage_dir ;;
  match r with
  | inl _ => mret ∅
  | inr names => accumulate names ∅
  end.

Example decode_legacy : decode_counter ("1234" +:+ str1 nl) = inr (mkUsage 0 "" 1234 ∅).
Proof. reflexivity. Qed.
Example decode_bad : exists m, decode_counter "{}" = inl m.
Proof. eexists. vm_compute. reflexivity. Qed.
Example roundtrip_example :
  let st := mkUsage 2 "17-1" 30 (<["a.10.8.0.2":=mkSess 30 true "a"]> ∅) in
  decode_counter (encode_counter st) = inr st.
Proof. vm_compute. reflexivity. Qed.

(** ** The text of a counter *)

(** The v2 counters: what [decode_counter] accepts and the agent writes. *)
Record wf_session (id : string) (s : UsageSession) : Prop := {
  wf_bytes : is_u64 (us_bytes s);
  wf_key : us_marker_key s = "" -> markerKeyOf id = ""
}.

Record wf_state (st : UsageState) : Prop := {
  wf_version : st_version st = counterVersion;
  wf_epoch : st_epoch st <> "";
  wf_total : is_u64 (st_total st);
  wf_sessions : forall id s, st_sessions st !! id = Some s -> wf_session id s
}.

Lemma decode_json_session s : is_u64 (us_bytes s) -> decode_session (json_of_session s) = Some s.
Proof.
  intros H. unfold decode_session, json_of_session, fold_fields.
  cbn [foldl fst snd].
  change (field_of ["bytes"; "closed"; "marker_key"] "bytes") with (Some "bytes").
  change (field_of ["bytes"; "closed"; "marker_key"] "closed") with (Some "closed").
  change (field_of ["bytes"; "closed"; "marker_key"] "marker_key") with (Some "marker_key").
  unfold decode_session_field at 1. simpl. rewrite parse_uint_itoa by done.
  by destruct s.
Qed.

Lemma decode_sessions_keys (m : gmap string UsageSession) ks : forall m0,
  (forall k, k ∈ ks -> exists s, m !! k = Some s /\ is_u64 (us_bytes s)) ->
  exists m1,
    decode_sessions m0
      (map (fun k => (k, json_of_session (default zero_session (m !! k)))) ks) = Some m1 /\
    forall k, m1 !! k = if decide (k ∈ ks) then m !! k else m0 !! k.
Proof.
  unfold decode_sessions. induction ks as [|k ks IH]; intros m0 Hks.
  - exists m0. split; [done|]. intros k. by rewrite decide_False by apply not_elem_of_nil.
  - destruct (Hks k ltac:(left)) as (s & Hs & Hu).
    cbn [map foldl fst snd]. rewrite Hs. cbn [default from_option id].
    rewrite decode_json_session by done.
    destruct (IH (<[k:=s]> m0)) as (m1 & -> & Hm1); [intros; apply Hks; by right|].
    exists m1. split; [done|]. intros k'. rewrite Hm1.
    destruct (decide (k' ∈ ks)).
    + by rewrite decide_True by by right.
    + destruct (decide (k' = k)) as [->|Hne].
      * rewrite decide_True by left. by rewrite lookup_insert_eq.
      * rewrite decide_False by (rewrite elem_of_cons; tauto). by rewrite lookup_insert_ne.
Qed.

Lemma decode_json_sessions m :
  (forall id s, m !! id = Some s -> is_u64 (us_bytes s)) ->
  exists kvs, json_of_sessions m = JObj kvs /\ decode_sessions ∅ kvs = Some m.
Proof.
  intros Hm. eexists. split; [done|].
  destruct (decode_sessions_keys m (sort_strings (elements (dom m))) ∅) as (m1 & -> & Hm1).
  - intros k. rewrite elem_of_sort_strings, elem_of_elements_dom. intros [s Hs]. eauto.
  - f_equal. apply map_eq. intros k. rewrite Hm1.
    destruct (decide _) as [|Hn]; [done|].
    rewrite elem_of_sort_strings, elem_of_elements_dom in Hn.
    destruct (m !! k); [|done]. exfalso. apply Hn. eauto.
Qed.

Lemma printable_session s : (0 <= us_bytes s)%Z -> printable (json_of_session s).
Proof.
  intros H. unfold json_of_session. rewrite itoa_nonneg by done.
  repeat constructor.
Qed.

Lemma fill_keys_id m :
  (forall id s, m !! id = Some s -> us_marker_key s = "" -> markerKeyOf id = "") ->
  fill_keys m = m.
Proof.
  intros Hm. unfold fill_keys. apply map_eq. intros k. rewrite map_lookup_imap.
  destruct (m !! k) as [s|] eqn:Hk; simpl; [|done].
  specialize (Hm _ _ Hk). destruct s as [b c [|a key]]; simpl in *; [|done].
  by rewrite Hm.
Qed.

Lemma printable_state st : wf_state st -> printable (json_of_state st).
Proof.
  intros [Hv He [Ht _] Hs]. unfold json_of_state, json_of_sessions.
  rewrite !itoa_nonneg by (try rewrite Hv; done).
  repeat constructor. apply Forall_map, Forall_forall.
  intros k Hk. rewrite elem_of_sort_strings, elem_of_elements_dom in Hk.
  destruct Hk as [s Hk]. rewrite Hk. simpl. apply printable_session.
  destruct (Hs _ _ Hk) as [[? _] _]. done.
Qed.

Lemma encode_counter_shape st : exists m, encode_counter st = String "{" m +:+ str1 "}".
Proof.
  unfold encode_counter, json_of_state. rewrite json_print_obj.
  exists (print_members [("version", JNum (itoa (st_version st))); ("epoch", JStr (st_epoch st));
    ("total", JNum (itoa (st_total st))); ("sessions", json_of_sessions (st_sessions st))]).
  done.
Qed.

Lemma decode_encode st : wf_state st -> decode_counter (encode_counter st) = inr st.
Proof.
  intros Hwf. pose proof (json_decode_print _ (printable_state st Hwf)) as Hj.
  destruct Hwf as [Hv He Ht Hs]. unfold decode_counter.
  destruct (encode_counter_shape st) as [m Hm].
  assert (trim_space (encode_counter st) = String "{" (m +:+ "}")) as ->.
  { rewrite Hm. by apply trim_space_bounded. }
  cbn [str_empty]. change (isAllDigits (String "{" (m +:+ "}"))) with false.
  unfold encode_counter. rewrite Hj. unfold json_of_state, decode_raw, fold_fields.
  cbn [foldl fst snd].
  change (field_of ["version"; "epoch"; "total"; "sessions"] "version") with (Some "version").
  change (field_of ["version"; "epoch"; "total"; "sessions"] "epoch") with (Some "epoch").
  change (field_of ["version"; "epoch"; "total"; "sessions"] "total") with (Some "total").
  change (field_of ["version"; "epoch"; "total"; "sessions"] "sessions") with (Some "sessions").
  unfold decode_state_field. cbn [String.eqb Ascii.eqb].
  destruct (decode_json_sessions (st_sessions st)) as (kvs & -> & Hd).
  { intros id s Hid. apply (Hs _ _ Hid). }
  rewrite Hv. rewrite parse_int_itoa, parse_uint_itoa by done.
  simpl. rewrite ?parse_uint_itoa by done. simpl. rewrite Hd. simpl.
  rewrite fill_keys_id by (intros id s Hid; apply (Hs _ _ Hid)).
  destruct (st_epoch st) eqn:Hep; [done|]. simpl. rewrite <- Hep, <- Hv. by destruct st.
Qed.

(** ** What the reader accepts is well formed *)

Lemma parse_uint_u64 s n : parse_uint s = Some n -> is_u64 n.
Proof.
  unfold parse_uint. destruct (parse_digits s) as [m|]; [|done].
  destruct (Z.ltb_spec (Z.of_N m) two64); [|done]. intros [= <-].
  split; [apply N2Z.is_nonneg|done].
Qed.

Lemma fold_fields_inv {S} (P : S -> Prop) f names kvs (s0 s : S) :
  (forall s name v s', P s -> f s name v = Some s' -> P s') ->
  P s0 -> fold_fields f names kvs s0 = Some s -> P s.
Proof.
  intros Hf. unfold fold_fields. revert s0.
  induction kvs as [|kv kvs IH]; intros s0 H0; simpl; [by intros [= <-]|].
  destruct (field_of names kv.1) as [name|].
  - destruct (f s0 name kv.2) as [s1|] eqn:Hs1.
    + apply IH. by eapply Hf.
    + clear. induction kvs; simpl; [done|]. done.
  - clear. induction kvs; simpl; [done|]. done.
Qed.

Lemma decode_session_u64 v s : decode_session v = Some s -> is_u64 (us_bytes s).
Proof.
  destruct v; simpl; try done.
  - by intros [= <-].
  - apply (fold_fields_inv (fun s => is_u64 (us_bytes s))); [|done].
    intros s0 name v s1 H0. unfold decode_session_field.
    repeat case_match; intros; simplify_eq/=; eauto using parse_uint_u64.
Qed.

Lemma decode_sessions_u64 m0 kvs m :
  (forall id s, m0 !! id = Some s -> is_u64 (us_bytes s)) ->
  decode_sessions m0 kvs = Some m ->
  forall id s, m !! id = Some s -> is_u64 (us_bytes s).
Proof.
  unfold decode_sessions. revert m0. induction kvs as [|kv kvs IH]; intros m0 H0; simpl.
  - intros [= <-]. done.
  - destruct (decode_session kv.2) as [s1|] eqn:Hs1.
    + apply IH. intros id s. destruct (decide (kv.1 = id)) as [->|Hne].
      * rewrite lookup_insert_eq. intros [= <-]. by eapply decode_session_u64.
      * rewrite lookup_insert_ne by done. apply H0.
    + clear. induction kvs; simpl; done.
Qed.

(** The numbers of a partially decoded counter are in range. *)
Definition raw_ok (r : raw_counter) : Prop :=
  (forall n, raw_total r = Some n -> is_u64 n) /\
  (forall m, raw_sessions r = Some m -> forall id s, m !! id = Some s -> is_u64 (us_bytes s)).

Lemma decode_raw_ok j r : decode_raw j = Some r -> raw_ok r.
Proof.
  destruct j; simpl; try done.
  - by intros [= <-].
  - apply (fold_fields_inv raw_ok); [|done].
    intros r0 name v r1 [Ht Hs]. unfold decode_state_field.
    repeat case_match; intros; simplify_eq/=; split; simpl; intros; simplify_eq;
      eauto using parse_uint_u64.
    eapply decode_sessions_u64; [|done|done].
    intros id' s'. destruct (raw_sessions r0) eqn:Hr; simpl; [by eapply Hs|done].
Qed.

Lemma decode_counter_inv data st :
  decode_counter data = inr st ->
  (exists n, is_u64 n /\ st = mkUsage 0 "" n ∅) \/ wf_state st.
Proof.
  unfold decode_counter. case_match; [done|]. case_match.
  { destruct (parse_uint _) as [n|] eqn:Hn; [|done]. intros [= <-].
    left. eauto using parse_uint_u64. }
  destruct (json_decode data) as [[j rest]|]; [|done].
  destruct (decode_raw j) as [raw|] eqn:Hraw; [|done].
  destruct (decode_raw_ok _ _ Hraw) as [Ht Hs].
  repeat case_match; try done. intros [= <-]. right. split; simpl.
  - done.
  - intros ->. done.
  - by apply Ht.
  - intros id' s'. unfold fill_keys. rewrite map_lookup_imap.
    destruct (_ !! id') as [s0|] eqn:Hid; simpl; [|done]. intros [= <-].
    pose proof (Hs _ eq_refl _ _ Hid). case_match; split; simpl; try done.
    destruct (us_marker_key s0); done.
Qed.
