(* ===== verification/CounterSpec.v ===== *)
(** * CounterSpec: what the usage counter promises.

    The abstract ledger of a user, the refinement of the ledger by the counter
    operations, and the properties of the persisted file. *)

From S2P Require Import Prelude GoString Json Names Cache World Counter.
From Stdlib Require Import Ascii.

(** ** The abstract ledger

    A user's total is the bytes of retired sessions ([lg_rest]) plus the
    high-water mark of every session still known, open or closed. *)

Record ledger : Type := mkLedger {
  lg_rest : Z;
  lg_marks : gmap string (Z * bool)
}.

Definition lg_total (l : ledger) : Z := (lg_rest l + map_sum fst (lg_marks l))%Z.

Definition spec_mark (old : Z * bool) (b : Z) (c : bool) : Z * bool :=
  (if old.2 then old.1 else Z.max old.1 b, old.2 || c).

Definition spec_observe (l : ledger) (id : string) (b : Z) (c : bool) : ledger :=
  mkLedger (lg_rest l)
    (<[id := spec_mark (default (0%Z, false) (lg_marks l !! id)) b c]> (lg_marks l)).

Definition spec_prune (l : ledger) (present : gset string) : ledger :=
  let kept := filter (fun kv => ~ (kv.2.2 = true /\ kv.1 ∉ present)) (lg_marks l) in
  mkLedger (lg_total l - map_sum fst kept) kept.

(** A reset restarts the total at zero; the bytes of open sessions observed so
    far belong to the past. *)
Definition spec_reset (l : ledger) : ledger :=
  let kept := filter (fun kv => kv.2.2 = false) (lg_marks l) in
  mkLedger (- map_sum fst kept) kept.

Definition spec_bank (l : ledger) (d : Z) : ledger := mkLedger (lg_rest l + d) (lg_marks l).

(** ** The abstraction function *)

Definition mark_of (s : UsageSession) : Z * bool := (us_bytes s, us_closed s).
Definition marks_of (m : gmap string UsageSession) : gmap string (Z * bool) := mark_of <$> m.
Definition abs (st : UsageState) : ledger :=
  mkLedger (st_total st - map_sum us_bytes (st_sessions st)) (marks_of (st_sessions st)).

Definition sess_of (st : UsageState) (id : string) : Z * bool :=
  default (0%Z, false) (marks_of (st_sessions st) !! id).

(** The numbers of a counter fit their types. *)
Record in_range (st : UsageState) : Prop := {
  ir_total : is_u64 (st_total st);
  ir_bytes : forall id s, st_sessions st !! id = Some s -> is_u64 (us_bytes s)
}.

Lemma wf_in_range st : wf_state st -> in_range st.
Proof. intros [_ _ Ht Hs]. split; [done|]. intros id s Hid. apply (Hs _ _ Hid). Qed.

Lemma map_sum_marks m : map_sum fst (marks_of m) = map_sum us_bytes m.
Proof.
  unfold marks_of. induction m as [|k s m Hk IH] using map_ind.
  - by rewrite fmap_empty, !map_sum_empty.
  - rewrite fmap_insert, !map_sum_insert; [by rewrite IH|done|].
    by rewrite lookup_fmap, Hk.
Qed.

Lemma abs_total st : lg_total (abs st) = st_total st.
Proof. unfold lg_total, abs. simpl. rewrite map_sum_marks. lia. Qed.

Lemma lookup_marks m id : marks_of m !! id = mark_of <$> (m !! id).
Proof. apply lookup_fmap. Qed.

Lemma sess_of_lookup st id :
  sess_of st id = from_option mark_of (0%Z, false) (st_sessions st !! id).
Proof. unfold sess_of. rewrite lookup_marks. by destruct (_ !! id). Qed.

Lemma sess_of_range st id : in_range st -> is_u64 (sess_of st id).1.
Proof.
  intros [_ Hs]. rewrite sess_of_lookup. destruct (_ !! id) as [s|] eqn:Hid; simpl; [|done].
  by apply (Hs id).
Qed.

(** ** One observation *)

(** [observe] in terms of the marks: when it counts, when it overflows. *)
Lemma observe_cases st id b c :
  in_range st -> is_u64 b ->
  let '(m, cl) := sess_of st id in
  let d := if cl then 0%Z else Z.max 0 (b - m) in
  if (two64 <=? st_total st + d)%Z then observe st id b c = None
  else exists s',
    observe st id b c = Some (mkUsage (st_version st) (st_epoch st) (st_total st + d)
                               (<[id:=s']> (st_sessions st))) /\
    mark_of s' = spec_mark (m, cl) b c /\
    us_marker_key s' = from_option us_marker_key (markerKeyOf id) (st_sessions st !! id).
Proof.
  intros Hr Hb. pose proof (sess_of_range st id Hr) as Hm.
  rewrite sess_of_lookup in *. unfold observe.
  set (s0 := default (mkSess 0 false (markerKeyOf id)) (st_sessions st !! id)).
  assert (from_option mark_of (0%Z, false) (st_sessions st !! id) = mark_of s0) as Heq
    by (unfold s0; by destruct (_ !! id)).
  assert (from_option us_marker_key (markerKeyOf id) (st_sessions st !! id) = us_marker_key s0)
    as -> by (unfold s0; by destruct (_ !! id)).
  rewrite Heq in *. clearbody s0. destruct s0 as [m cl key]. simpl in *.
  destruct Hr as [[Ht1 Ht2] _], Hb as [Hb1 Hb2], Hm as [Hm1 Hm2]. unfold mark_of, spec_mark. simpl.
  destruct cl; simpl.
  - rewrite andb_false_r. destruct (Z.leb_spec two64 (st_total st + 0)); [lia|].
    eexists. split; [by rewrite Z.add_0_r|done].
  - destruct (Z.ltb_spec m b).
    + rewrite Z.max_r by lia. rewrite u64_sub_small by lia.
      pose proof (u64_add_overflow (st_total st) (b - m)) as Ho.
      unfold is_u64 in Ho. specialize (Ho ltac:(lia) ltac:(lia)).
      destruct (Z.ltb_spec (u64_add (st_total st) (b - m)) (st_total st)),
        (Z.leb_spec two64 (st_total st + (b - m))); try lia; [done|].
      eexists. split; [rewrite u64_add_small by lia; done|].
      rewrite Z.max_r by lia. by destruct c.
    + rewrite !Z.max_l by lia. destruct (Z.leb_spec two64 (st_total st + 0)); [lia|].
      eexists. split; [by rewrite Z.add_0_r|]. by destruct c.
Qed.

(** An observation that does not overflow is the ledger's. *)
Lemma observe_refines st id b c st' :
  in_range st -> is_u64 b -> observe st id b c = Some st' ->
  abs st' = spec_observe (abs st) id b c /\ in_range st' /\
  st_version st' = st_version st /\ st_epoch st' = st_epoch st.
Proof.
  intros Hr Hb Hobs. pose proof (observe_cases st id b c Hr Hb) as Hc.
  pose proof (sess_of_range st id Hr) as Hm0.
  destruct (sess_of st id) as [m cl] eqn:Hs. cbv zeta in Hc.
  destruct (Z.leb_spec two64 (st_total st + (if cl then 0 else Z.max 0 (b - m)))); [congruence|].
  destruct Hc as (s' & Hobs' & Hmark & _). rewrite Hobs in Hobs'. simplify_eq.
  pose proof Hs as Hl. rewrite sess_of_lookup in Hl.
  simpl in *. split; [|split; [|done]].
  - unfold abs, spec_observe, marks_of. simpl. rewrite fmap_insert, Hmark.
    fold (marks_of (st_sessions st)). unfold sess_of in Hs. rewrite Hs. f_equal.
    rewrite map_sum_update.
    apply (f_equal fst) in Hmark. unfold spec_mark, mark_of in Hmark. simpl in Hmark.
    assert (from_option us_bytes 0%Z (st_sessions st !! id) = m) as ->.
    { destruct (st_sessions st !! id) as [s0|]; simpl in Hl;
        [unfold mark_of in Hl|]; by simplify_eq/=. }
    rewrite Hmark. destruct cl; lia.
  - destruct Hr as [[Ht1 Ht2] Hsess]. split; simpl.
    + unfold is_u64. destruct cl; lia.
    + intros id' s1. destruct (decide (id = id')) as [<-|Hne].
      * rewrite lookup_insert_eq. intros [= <-].
        apply (f_equal fst) in Hmark. unfold spec_mark, mark_of in Hmark. simpl in Hmark.
        rewrite Hmark. unfold is_u64 in *. simpl in Hm0. destruct cl; lia.
      * rewrite lookup_insert_ne by done. apply Hsess.
Qed.

(** The total of the ledger after one observation. *)
Lemma spec_observe_total st id b c :
  lg_total (spec_observe (abs st) id b c) =
  (st_total st + (if (sess_of st id).2 then 0 else Z.max 0 (b - (sess_of st id).1)))%Z.
Proof.
  unfold lg_total, spec_observe, abs. simpl. rewrite map_sum_update, map_sum_marks.
  fold (sess_of st id). unfold sess_of, spec_mark.
  destruct (marks_of (st_sessions st) !! id) as [[m [] ]|]; simpl; lia.
Qed.

(** The overflow test is exact. *)
Lemma observe_overflow st id b c :
  in_range st -> is_u64 b ->
  observe st id b c = None <-> (two64 <= lg_total (spec_observe (abs st) id b c))%Z.
Proof.
  intros Hr Hb. pose proof (observe_cases st id b c Hr Hb) as Hc.
  rewrite spec_observe_total by done.
  destruct (sess_of st id) as [m cl]. cbv zeta in Hc. simpl.
  destruct (Z.leb_spec two64 (st_total st + (if cl then 0 else Z.max 0 (b - m)))).
  - split; [done|]. intros _. done.
  - destruct Hc as (s' & -> & _). split; [done|lia].
Qed.

(** ** Sequences of observations *)

Definition obs : Type := string * Z * bool.

Fixpoint run_obs (st : UsageState) (l : list obs) : option UsageState :=
  match l with
  | [] => Some st
  | (id, b, c) :: l' =>
      match observe st id b c with
      | Some st' => run_obs st' l'
      | None => None
      end
  end.

(** The mark of one session after the observations [l]: the highest bytes
    seen up to and including the one that closes it. *)
Definition high_water (id : string) (m : Z * bool) (l : list obs) : Z * bool :=
  foldl (fun m o => if decide (o.1.1 = id) then spec_mark m o.1.2 o.2 else m) m l.

Lemma spec_observe_lookup l id b c id' :
  default (0%Z, false) (lg_marks (spec_observe l id b c) !! id') =
  if decide (id = id')
  then spec_mark (default (0%Z, false) (lg_marks l !! id')) b c
  else default (0%Z, false) (lg_marks l !! id').
Proof.
  unfold spec_observe. simpl. case_decide as Hd.
  - subst. by rewrite lookup_insert_eq.
  - by rewrite lookup_insert_ne.
Qed.

Lemma run_obs_rest l : forall st st',
  in_range st -> Forall (fun o => is_u64 o.1.2) l -> run_obs st l = Some st' ->
  lg_rest (abs st') = lg_rest (abs st) /\
  (forall id, sess_of st' id = high_water id (sess_of st id) l).
Proof.
  induction l as [|[[id b] c] l IH]; intros st st' Hr Hl; simpl.
  - intros [= <-]. done.
  - inversion Hl; subst. simpl in *.
    destruct (observe st id b c) as [st1|] eqn:Hobs; [|done]. intros Hrun.
    destruct (observe_refines _ _ _ _ _ Hr H1 Hobs) as (Habs & Hr1 & _).
    destruct (IH st1 st' Hr1 H2 Hrun) as [Hrest Hmarks]. split.
    + rewrite Hrest. transitivity (lg_rest (spec_observe (abs st) id b c)); [|done].
      by rewrite <- Habs.
    + intros id'. rewrite Hmarks.
      assert (sess_of st1 id' = if decide (id = id') then spec_mark (sess_of st id') b c
                                else sess_of st id') as ->; [|done].
      transitivity (default (0%Z, false) (lg_marks (abs st1) !! id')); [done|].
      by rewrite Habs, spec_observe_lookup.
Qed.

(** ** The counter on disk *)

Definition fresh_state (w : World) : UsageState :=
  mkUsage counterVersion (epoch_text (w_now w) (u64_add (w_epochs w) 1)) 0 ∅.

(** What [ReadUsageState] finds for a user, faults aside. *)
Definition loaded (w : World) (safe : string) : goerr + UsageState :=
  match w_files w !! LUsage safe with
  | None => inr (fresh_state w)
  | Some data => decode_counter data
  end.

(** The two worlds have the same files and fail the same operations. *)
Record same_tree (w w' : World) : Prop := {
  same_files : w_files w' = w_files w;
  same_fault : w_fault w' = w_fault w;
  same_now : w_now w' = w_now w;
  same_users : w_users_dir w' = w_users_dir w /\ w_user_dirs w' = w_user_dirs w
}.

Lemma epoch_text_ne a b : epoch_text a b <> "".
Proof. unfold epoch_text. destruct (itoa a); rewrite ?app_cons_s; done. Qed.

Lemma usage_lock_ne safe safe' : StoreKeyRe safe' = true -> LUsage safe' <> usage_lock safe.
Proof.
  intros H Heq. unfold usage_lock in Heq. injection Heq as ->.
  apply StoreKeyRe_first in H as [H _]. done.
Qed.

Lemma fresh_wf w : wf_state (fresh_state w).
Proof. split; simpl; [done|apply epoch_text_ne|done|done]. Qed.

Lemma loaded_range w safe st : loaded w safe = inr st -> in_range st.
Proof.
  unfold loaded. destruct (w_files w !! LUsage safe) as [d|].
  - intros [(n & Hn & ->)|H]%decode_counter_inv; [|by apply wf_in_range].
    split; [done|]. simpl. intros id s. by rewrite lookup_empty.
  - intros [= <-]. apply wf_in_range, fresh_wf.
Qed.

Lemma read_usage_run w cn safe :
  faultless w -> SafeCN cn = Some safe ->
  exists w1, ReadUsageState cn w = (loaded w safe, w1) /\ same_tree w w1.
Proof.
  intros Hf Hcn. unfold ReadUsageState. rewrite Hcn.
  rewrite bind_run, ignore_mkdir, bind_run, try_run, read_file_run by apply Hf. simpl.
  unfold loaded. destruct (w_files w !! LUsage safe) as [d|].
  - destruct (decode_counter d); eexists; (split; [done|by split]).
  - eexists. split; [done|by split].
Qed.

Lemma upgrade_run st w :
  exists st1 w1, upgrade st w = (inr st1, w1) /\ same_tree w w1 /\
    abs st1 = abs st /\ st_sessions st1 = st_sessions st /\ st_total st1 = st_total st /\
    (st_version st1 = counterVersion) /\
    (st_version st = counterVersion -> st1 = st) /\
    (st_version st <> counterVersion -> st_epoch st1 <> "").
Proof.
  unfold upgrade. destruct (Z.eqb_spec (st_version st) counterVersion) as [Hv|Hv].
  - exists st, w. by repeat split.
  - destruct (str_empty (st_epoch st)) eqn:He; cbn; eexists _, _; (split; [done|]);
      repeat split; simpl; try done.
    + intros _. apply epoch_text_ne.
    + intros _. by destruct (st_epoch st).
Qed.

Lemma loaded_cases w safe st :
  loaded w safe = inr st -> wf_state st \/ exists n, is_u64 n /\ st = mkUsage 0 "" n ∅.
Proof.
  unfold loaded. destruct (w_files w !! LUsage safe).
  - intros H%decode_counter_inv. tauto.
  - intros [= <-]. left. apply fresh_wf.
Qed.

(** After the upgrade a loaded counter is a well-formed v2 counter. *)
Lemma upgrade_wf w safe st w0 st1 w1 :
  loaded w safe = inr st -> upgrade st w0 = (inr st1, w1) -> wf_state st1.
Proof.
  intros Hl Hu.
  destruct (upgrade_run st w0) as (st1' & w1' & Hu' & _ & _ & Hs & Ht & Hv & Hv2 & He).
  rewrite Hu in Hu'. injection Hu' as <- <-.
  destruct (loaded_cases _ _ _ Hl) as [Hwf|(n & Hn & ->)].
  - rewrite Hv2 by apply Hwf. done.
  - split; [done|by apply He|by rewrite Ht|]. rewrite Hs. simpl. intros id s. by rewrite lookup_empty.
Qed.

Lemma observe_wf st id b c st' :
  wf_state st -> is_u64 b -> observe st id b c = Some st' -> wf_state st'.
Proof.
  intros Hwf Hb Hobs.
  destruct (observe_refines _ _ _ _ _ (wf_in_range _ Hwf) Hb Hobs) as (_ & [Ht Hr] & Hv & He).
  pose proof (observe_cases st id b c (wf_in_range _ Hwf) Hb) as Hc.
  destruct (sess_of st id) as [m cl]. cbv zeta in Hc.
  destruct (_ <=? _)%Z; [congruence|]. destruct Hc as (s' & Hobs' & _ & Hkey).
  rewrite Hobs in Hobs'. simplify_eq. destruct Hwf as [Hwv Hwe Hwt Hws].
  split; [by rewrite Hv|by rewrite He|done|]. simpl in *.
  intros id' s1 Hid. split; [by eapply Hr|].
  destruct (decide (id = id')) as [<-|Hne].
  - rewrite lookup_insert_eq in Hid. simplify_eq. rewrite Hkey.
    destruct (st_sessions st !! id) as [s0|] eqn:Hs0; simpl; [|done]. apply (Hws _ _ Hs0).
  - rewrite lookup_insert_ne in Hid by done. apply (Hws _ _ Hid).
Qed.

(** The locked body of a fault-free operation. *)
Lemma usage_locked {A} (fn : M A) w safe :
  faultless w -> StoreKeyRe safe = true ->
  exists w1, Lock (usage_lock safe) fn w = fn w1 /\ faultless w1 /\
    w_files w1 !! LUsage safe = w_files w !! LUsage safe /\
    loaded w1 safe = loaded w safe /\ w_now w1 = w_now w.
Proof.
  intros Hf Hs. eexists. split; [by apply Lock_ok|].
  assert (w_files (set_files (lock_files (usage_lock safe) (w_files w)) w) !! LUsage safe
          = w_files w !! LUsage safe) as Hl.
  { simpl. apply lock_files_ne. by apply usage_lock_ne. }
  split; [done|]. split; [done|]. split; [|done].
  unfold loaded. by rewrite Hl.
Qed.

Lemma record_run w cn safe st id b c :
  faultless w -> SafeCN cn = Some safe -> id <> "" -> is_u64 b ->
  loaded w safe = inr st ->
  match RecordSessionUsage cn id b c w with
  | (inl _, w') =>
      (two64 <= lg_total (spec_observe (abs st) id b c))%Z /\
      w_files w' !! LUsage safe = w_files w !! LUsage safe
  | (inr st', w') =>
      abs st' = spec_observe (abs st) id b c /\ wf_state st' /\
      w_files w' !! LUsage safe = Some (encode_counter st') /\ faultless w' /\ w_now w' = w_now w
  end.
Proof.
  intros Hf Hcn Hid Hb Hl. pose proof (SafeCN_Some _ _ Hcn) as [_ Hkey].
  unfold RecordSessionUsage. rewrite Hcn.
  destruct (str_empty id) eqn:He; [by destruct id|]. rewrite bind_run.
  unfold mkdir. rewrite (Hf _).
  destruct (usage_locked (
          st <- ReadUsageState safe ;;
          st <- upgrade st ;;
          match observe st id b c with
          | None => throw (Errorf "counter overflow")
          | Some st =>
              st <- with_epoch st ;;
              writeUsageState safe st ;;
              InvalidateUsageCache ;;
              mret st
          end) w safe Hf Hkey) as (w1 & -> & Hf1 & Hfile1 & Hl1 & Hnow1).
  rewrite bind_run.
  destruct (read_usage_run w1 safe safe Hf1 (SafeCN_key _ Hkey)) as (w2 & -> & H12).
  rewrite Hl1, Hl. rewrite bind_run.
  destruct (upgrade_run st w2) as (st1 & w3 & Hup & H23 & Habs & Hsess & Htot & Hver & _).
  pose proof (upgrade_wf w safe st w2 st1 w3 Hl Hup) as Hwf1. rewrite Hup.
  assert (w_files w3 !! LUsage safe = w_files w !! LUsage safe) as Hfile3.
  { rewrite (same_files _ _ H23), (same_files _ _ H12). done. }
  destruct (observe st1 id b c) as [st2|] eqn:Hobs.
  - destruct (observe_refines _ _ _ _ _ (wf_in_range _ Hwf1) Hb Hobs) as (Habs2 & _ & _ & He2).
    pose proof (observe_wf _ _ _ _ _ Hwf1 Hb Hobs) as Hwf2.
    assert (with_epoch st2 w3 = (inr st2, w3)) as Hep.
    { unfold with_epoch. pose proof (wf_epoch _ Hwf2). by destruct (st_epoch st2). }
    assert (faultless w3) as Hf3
      by (intros op; rewrite (same_fault _ _ H23), (same_fault _ _ H12); apply Hf1).
    rewrite bind_run, Hep, bind_run. unfold writeUsageState. rewrite write_file_ok by done.
    rewrite Habs in Habs2. simpl. split; [done|]. split; [done|].
    split; [by rewrite lookup_insert_eq|]. split; [done|].
    by rewrite (same_now _ _ H23), (same_now _ _ H12).
  - cbn. split; [|done]. rewrite <- Habs.
    by apply observe_overflow; [apply wf_in_range|..].
Qed.

(** ** Failures *)

(** A write that fails leaves the file; everything else of the four operations
    never writes a counter. *)
Lemma write_fails w l d e w' : WriteFileAtomic l d w = (inl e, w') -> w' = w.
Proof. unfold WriteFileAtomic. repeat case_match; intros; by simplify_eq. Qed.

Lemma read_usage_touches L cn : touches L (ReadUsageState cn).
Proof.
  unfold ReadUsageState. touch_solve.
  unfold newEpoch. intros w l _. done.
Qed.

Lemma new_epoch_touches L : touches L newEpoch.
Proof. intros w l _. done. Qed.

Lemma upgrade_touches L st : touches L (upgrade st).
Proof. unfold upgrade. touch_solve. apply new_epoch_touches. Qed.

Lemma with_epoch_touches L st : touches L (with_epoch st).
Proof. unfold with_epoch. touch_solve. apply new_epoch_touches. Qed.

#[export] Hint Resolve read_usage_touches new_epoch_touches upgrade_touches with_epoch_touches : touch.

(** [m] may write [l], but a failing run leaves [l] as it was. *)
Definition keeps_on_error {A} (l : loc) (m : M A) : Prop :=
  forall w e w', m w = (inl e, w') -> w_files w' !! l = w_files w !! l.

Lemma keeps_touches {A} l (m : M A) : touches (fun l' => l' <> l) m -> keeps_on_error l m.
Proof. intros Hm w e w' Hrun. specialize (Hm w l). rewrite Hrun in Hm. apply Hm. naive_solver. Qed.

Lemma keeps_bind {A B} l (m : M A) (k : A -> M B) :
  touches (fun l' => l' <> l) m -> (forall a, keeps_on_error l (k a)) -> keeps_on_error l (x <- m ;; k x).
Proof.
  intros Hm Hk w e w' Hrun. rewrite bind_run in Hrun. specialize (Hm w l).
  destruct (m w) as [[e1|a] w1]; simplify_eq/=.
  - apply Hm. naive_solver.
  - rewrite (Hk _ _ _ _ Hrun). apply Hm. naive_solver.
Qed.

(** The last effect may be the write itself. *)
Lemma keeps_write_last {B} l d (k : unit -> M B) :
  (forall w e w', k tt w <> (inl e, w')) -> keeps_on_error l (x <- WriteFileAtomic l d ;; k x).
Proof.
  intros Hk w e w' Hrun. rewrite bind_run in Hrun.
  destruct (WriteFileAtomic l d w) as [[e1|[]] w1] eqn:Hw.
  - simplify_eq. by rewrite (write_fails _ _ _ _ _ Hw).
  - by apply Hk in Hrun.
Qed.

Lemma keeps_lock {A} l l' (fn : M A) :
  l' <> l -> keeps_on_error l fn -> keeps_on_error l (Lock l' fn).
Proof.
  intros Hne Hfn w e w'. unfold Lock. case_match; [intros; by simplify_eq|].
  destruct (parent_ok w l'); [|intros; by simplify_eq].
  intros Hrun. rewrite (Hfn _ _ _ Hrun). simpl.
  apply (lock_files_ne l' l). done.
Qed.

Lemma record_keeps cn id b c safe :
  StoreKeyRe safe = true -> keeps_on_error (LUsage safe) (RecordSessionUsage cn id b c).
Proof.
  intros Hs. unfold RecordSessionUsage. destruct (SafeCN cn) as [safe'|]; [|by apply keeps_touches, touches_throw].
  destruct (str_empty id); [by apply keeps_touches, touches_throw|].
  apply keeps_bind; [apply touches_mkdir|intros _].
  apply keeps_lock; [by apply not_eq_sym, usage_lock_ne|].
  apply keeps_bind; [apply read_usage_touches|intros st].
  apply keeps_bind; [apply upgrade_touches|intros st1].
  destruct (observe st1 id b c) as [st2|]; [|by apply keeps_touches, touches_throw].
  apply keeps_bind; [apply with_epoch_touches|intros st3].
  destruct (decide (safe' = safe)) as [->|Hne].
  - by apply keeps_write_last.
  - apply keeps_touches. unfold writeUsageState. touch_solve. congruence.
Qed.

Lemma prune_keeps cn present safe :
  StoreKeyRe safe = true -> keeps_on_error (LUsage safe) (PruneReceipts cn present).
Proof.
  intros Hs. unfold PruneReceipts. destruct (SafeCN cn) as [safe'|]; [|by apply keeps_touches, touches_throw].
  apply keeps_bind; [apply touches_mkdir|intros _].
  apply keeps_lock; [by apply not_eq_sym, usage_lock_ne|].
  apply keeps_bind; [apply read_usage_touches|intros st]. cbv zeta.
  case_match; [by apply keeps_touches, touches_ret|].
  destruct (decide (safe' = safe)) as [->|Hne].
  - by apply keeps_write_last.
  - apply keeps_touches. unfold writeUsageState. touch_solve. congruence.
Qed.

Lemma reset_keeps cn safe :
  StoreKeyRe safe = true -> keeps_on_error (LUsage safe) (ResetUsage cn).
Proof.
  intros Hs. unfold ResetUsage. destruct (SafeCN cn) as [safe'|]; [|by apply keeps_touches, touches_throw].
  apply keeps_bind; [apply touches_mkdir|intros _].
  apply keeps_lock; [by apply not_eq_sym, usage_lock_ne|].
  apply keeps_bind; [apply read_usage_touches|intros st].
  apply keeps_bind; [apply new_epoch_touches|intros e].
  destruct (decide (safe' = safe)) as [->|Hne].
  - by apply keeps_write_last.
  - apply keeps_touches. unfold writeUsageState. touch_solve. congruence.
Qed.

(** ** Runs of the other operations *)

Lemma retained_marks present m :
  marks_of (retained present m) =
  filter (fun kv => ~ (kv.2.2 = true /\ kv.1 ∉ present)) (marks_of m).
Proof. unfold marks_of, retained. by rewrite map_filter_fmap. Qed.

Lemma open_marks m :
  marks_of (filter (fun kv => us_closed kv.2 = false) m) =
  filter (fun kv => kv.2.2 = false) (marks_of m).
Proof. unfold marks_of. by rewrite map_filter_fmap. Qed.

Lemma retained_wf st present :
  wf_state st -> wf_state (mkUsage (st_version st) (st_epoch st) (st_total st)
                             (retained present (st_sessions st))).
Proof.
  intros [Hv He Ht Hs]. split; [done..|]. simpl. intros id s.
  unfold retained. rewrite map_lookup_filter_Some. intros [Hid _]. by apply Hs.
Qed.

Lemma prune_run w cn safe data st present :
  faultless w -> SafeCN cn = Some safe ->
  w_files w !! LUsage safe = Some data -> decode_counter data = inr st ->
  exists w', PruneReceipts cn present w = (inr tt, w') /\
    loaded w' safe = inr (mkUsage (st_version st) (st_epoch st) (st_total st)
                            (retained present (st_sessions st))).
Proof.
  intros Hf Hcn Hd Hdec. pose proof (SafeCN_Some _ _ Hcn) as [_ Hkey].
  unfold PruneReceipts. rewrite Hcn, bind_run. unfold mkdir. rewrite (Hf _).
  edestruct (usage_locked (A:=unit)) as (w1 & -> & Hf1 & Hfile1 & Hl1 & _); [done|done|].
  rewrite bind_run.
  destruct (read_usage_run w1 safe safe Hf1 (SafeCN_key _ Hkey)) as (w2 & -> & H12).
  assert (loaded w safe = inr st) as Hl by (unfold loaded; by rewrite Hd).
  rewrite Hl1, Hl. cbv zeta.
  destruct (Nat.eqb_spec (size (retained present (st_sessions st))) (size (st_sessions st))) as [Hsz|Hsz].
  - eexists. split; [done|].
    assert (retained present (st_sessions st) = st_sessions st) as ->.
    { apply map_subseteq_size_eq; [|by rewrite Hsz]. apply map_filter_subseteq. }
    unfold loaded. rewrite (same_files _ _ H12), Hfile1, Hd, Hdec. by destruct st.
  - assert (faultless w2) as Hf2 by (intros op; rewrite (same_fault _ _ H12); apply Hf1).
    rewrite bind_run. unfold writeUsageState. rewrite write_file_ok by done.
    eexists. split; [done|]. unfold loaded. simpl. rewrite lookup_insert_eq.
    destruct (decode_counter_inv _ _ Hdec) as [(n & _ & ->)|Hwf].
    + exfalso. apply Hsz. simpl. unfold retained. by rewrite map_filter_empty.
    + apply decode_encode. by apply retained_wf.
Qed.

Lemma reset_run w cn safe st :
  faultless w -> SafeCN cn = Some safe -> loaded w safe = inr st ->
  exists w' e, ResetUsage cn w = (inr tt, w') /\ faultless w' /\ e <> "" /\
    loaded w' safe = inr (mkUsage counterVersion e 0
                            (filter (fun kv => us_closed kv.2 = false) (st_sessions st))).
Proof.
  intros Hf Hcn Hl. pose proof (SafeCN_Some _ _ Hcn) as [_ Hkey].
  unfold ResetUsage. rewrite Hcn, bind_run. unfold mkdir. rewrite (Hf _).
  edestruct (usage_locked (A:=unit)) as (w1 & -> & Hf1 & Hfile1 & Hl1 & _); [done|done|].
  rewrite bind_run.
  destruct (read_usage_run w1 safe safe Hf1 (SafeCN_key _ Hkey)) as (w2 & -> & H12).
  rewrite Hl1, Hl, bind_run. unfold newEpoch at 1.
  assert (faultless w2) as Hf2 by (intros op; rewrite (same_fault _ _ H12); apply Hf1).
  rewrite bind_run. unfold writeUsageState. rewrite write_file_ok by (apply Hf2 || done).
  eexists _, _. split; [done|]. split; [exact Hf2|]. split; [apply epoch_text_ne|].
  unfold loaded. simpl. rewrite lookup_insert_eq. apply decode_encode.
  split; simpl; [done|apply epoch_text_ne|done|]. intros id s.
  rewrite map_lookup_filter_Some. intros [Hid _].
  unfold loaded in Hl. destruct (w_files w !! LUsage safe) as [d|].
  - destruct (decode_counter_inv _ _ Hl) as [(n & _ & ->)|Hwf]; [done|].
    by apply (wf_sessions _ Hwf).
  - by simplify_eq.
Qed.

(** ** Properties *)

(** C10: traffic is counted once.  Over any sequence of observations of any
    sessions, in any interleaving, that the counter accepts, the total grows
    by exactly the growth of the sessions' marks, and the mark of each session
    is the highest byte count seen for it up to the observation that closed
    it: repeated, stale and late observations add nothing. *)
Theorem count_once st l st' :
  in_range st -> Forall (fun o => is_u64 o.1.2) l -> run_obs st l = Some st' ->
  st_total st' = (st_total st + map_sum us_bytes (st_sessions st')
                  - map_sum us_bytes (st_sessions st))%Z /\
  (forall id, sess_of st' id = high_water id (sess_of st id) l).
Proof.
  intros Hr Hl Hrun. destruct (run_obs_rest l st st' Hr Hl Hrun) as [Hrest Hm].
  split; [|done]. unfold abs in Hrest. simpl in Hrest. lia.
Qed.

Definition ex_obs : list obs :=
  [("7.10.8.0.2.g1", 100%Z, false); ("7.10.8.0.3.g2", 40%Z, false); ("7.10.8.0.2.g1", 100%Z, false);
   ("7.10.8.0.2.g1", 250%Z, true); ("7.10.8.0.2.g1", 900%Z, false); ("7.10.8.0.3.g2", 30%Z, false)].
Definition ex_start : UsageState := mkUsage 2 "1-1" 5 ∅.

Lemma ex_start_range : in_range ex_start.
Proof.
  split; unfold ex_start, is_u64, two64; cbn [st_total st_sessions]; [lia|].
  intros id s Hid. by rewrite lookup_empty in Hid.
Qed.

Lemma ex_obs_u64 : Forall (fun o : obs => is_u64 o.1.2) ex_obs.
Proof. unfold ex_obs, is_u64, two64. repeat (constructor; [cbn; lia|]). constructor. Qed.

Lemma count_once_witness :
  exists st', run_obs ex_start ex_obs = Some st' /\
    (st_total st' - map_sum us_bytes (st_sessions st') = 5)%Z /\
    sess_of st' "7.10.8.0.2.g1" = (250%Z, true) /\ sess_of st' "7.10.8.0.3.g2" = (40%Z, false).
Proof.
  destruct (run_obs ex_start ex_obs) as [st'|] eqn:Hrun.
  - exists st'. split; [reflexivity|].
    destruct (count_once ex_start ex_obs st') as [H1 H2].
    + exact ex_start_range.
    + exact ex_obs_u64.
    + exact Hrun.
    + split; [|rewrite !H2; split; vm_compute; reflexivity].
      rewrite H1. change (st_sessions ex_start) with (∅ : gmap string UsageSession).
      rewrite map_sum_empty. change (st_total ex_start) with 5%Z. lia.
  - exfalso. assert (match run_obs ex_start ex_obs with Some _ => true | None => false end = true) as Hs
      by (vm_compute; reflexivity).
    rewrite Hrun in Hs. discriminate.
Defined.

(** C13: [RecordSessionUsage] implements the ledger.  On a node whose file
    operations succeed, for any counter the reader accepts (missing, legacy
    digits or v2) it fails exactly when the new total would not fit in 64
    bits, and then the file keeps its bytes; otherwise the file read back is
    the new state, whose total and marks are those of one ledger
    observation. *)
Theorem record_refines_ledger w cn safe st id b c :
  faultless w -> SafeCN cn = Some safe -> id <> "" -> is_u64 b ->
  loaded w safe = inr st ->
  let l' := spec_observe (abs st) id b c in
  match RecordSessionUsage cn id b c w with
  | (inl _, w') =>
      (two64 <= lg_total l')%Z /\ w_files w' !! LUsage safe = w_files w !! LUsage safe
  | (inr st', w') =>
      (lg_total l' < two64)%Z /\ abs st' = l' /\ st_total st' = lg_total l' /\
      loaded w' safe = inr st'
  end.
Proof.
  intros Hf Hcn Hid Hb Hl. cbv zeta. pose proof (record_run w cn safe st id b c Hf Hcn Hid Hb Hl) as Hr.
  destruct (RecordSessionUsage cn id b c w) as [[e|st'] w']; [done|].
  destruct Hr as (Habs & Hwf & Hfile & _). split; [|split; [done|split]].
  - rewrite <- Habs, abs_total. apply Hwf.
  - by rewrite <- Habs, abs_total.
  - unfold loaded. rewrite Hfile. by apply decode_encode.
Qed.

Definition legacy_world : World :=
  set_files (<[LUsage "42" := "1000" +:+ str1 nl]> ∅) demo_world.

Lemma record_refines_ledger_witness :
  exists st' w', RecordSessionUsage "42" "42.10.8.0.2.0123456789abcdef" 25 false legacy_world = (inr st', w') /\
    st_total st' = 1025%Z /\ loaded w' "42" = inr st'.
Proof.
  pose proof (record_refines_ledger legacy_world "42" "42" (mkUsage 0 "" 1000 ∅)
    "42.10.8.0.2.0123456789abcdef" 25 false demo_faultless eq_refl ltac:(discriminate)
    ltac:(unfold is_u64, two64; lia) eq_refl) as H.
  cbv zeta in H.
  destruct (RecordSessionUsage "42" "42.10.8.0.2.0123456789abcdef" 25 false legacy_world)
    as [[e|st'] w'] eqn:Hrun.
  - exfalso. destruct H as [H _]. vm_compute in H. by apply H.
  - destruct H as (_ & _ & Ht & Hl). exists st', w'. split; [reflexivity|]. split; [|exact Hl].
    rewrite Ht. vm_compute. reflexivity.
Defined.

(** Whatever file operation fails, a counter operation that reports an
    error leaves every user's counter file as it was; a failed write is never
    half visible. *)
Theorem failed_operation_keeps_counters w cn id b c present safe :
  StoreKeyRe safe = true ->
  (forall e w', RecordSessionUsage cn id b c w = (inl e, w') ->
     w_files w' !! LUsage safe = w_files w !! LUsage safe) /\
  (forall e w', PruneReceipts cn present w = (inl e, w') ->
     w_files w' !! LUsage safe = w_files w !! LUsage safe) /\
  (forall e w', ResetUsage cn w = (inl e, w') ->
     w_files w' !! LUsage safe = w_files w !! LUsage safe).
Proof.
  intros Hs. split; [|split].
  - apply (record_keeps cn id b c safe Hs w).
  - apply (prune_keeps cn present safe Hs w).
  - apply (reset_keeps cn safe Hs w).
Qed.

(** A node whose usage files cannot be replaced. *)
Definition readonly_world : World :=
  mkWorld (w_files legacy_world) true ∅ [] [] 0 0 [] (newCache 1) (newCache 1)
    (fun op => match op with OpWrite (LUsage _) => true | _ => false end).

Lemma failed_operation_keeps_counters_witness :
  exists e w', RecordSessionUsage "42" "s" 25 false readonly_world = (inl e, w') /\
    w_files w' !! LUsage "42" = Some ("1000" +:+ str1 nl).
Proof.
  destruct (failed_operation_keeps_counters readonly_world "42" "s" 25 false ∅ "42" eq_refl)
    as [H _].
  destruct (RecordSessionUsage "42" "s" 25 false readonly_world) as [[e|st] w'] eqn:Hrun.
  - exists e, w'. split; [reflexivity|]. rewrite (H e w' eq_refl). reflexivity.
  - exfalso. vm_compute in Hrun. discriminate.
Defined.

(** Every operation that must read the counter under its lock stops at a
    counter the reader rejects. *)
Lemma locked_read_fails {A} w safe e (k : UsageState -> M A) :
  faultless w -> StoreKeyRe safe = true -> loaded w safe = inl e ->
  exists w', Lock (usage_lock safe) (st <- ReadUsageState safe ;; k st) w = (inl e, w') /\
    w_files w' !! LUsage safe = w_files w !! LUsage safe.
Proof.
  intros Hf Hs Hl.
  destruct (usage_locked (st <- ReadUsageState safe ;; k st) w safe Hf Hs)
    as (w1 & -> & Hf1 & Hfile1 & Hl1 & _).
  rewrite bind_run.
  destruct (read_usage_run w1 safe safe Hf1 (SafeCN_key _ Hs)) as (w2 & -> & H12).
  rewrite Hl1, Hl. exists w2. split; [done|]. by rewrite (same_files _ _ H12).
Qed.

(** A counter file that does not parse is an error and is never replaced:
    recording, pruning and resetting report the error, banking reports that
    nothing was banked, and the file keeps its bytes.  The history of a user
    is not silently restarted at zero. *)
Theorem corrupt_counter_is_kept w cn safe e id b c present d :
  faultless w -> SafeCN cn = Some safe -> id <> "" -> d <> 0%Z -> loaded w safe = inl e ->
  exists w1 w2 w3 w4,
    RecordSessionUsage cn id b c w = (inl e, w1) /\
    PruneReceipts cn present w = (inl e, w2) /\
    ResetUsage cn w = (inl e, w3) /\
    BankUsage cn d w = (inr (0%Z, false), w4) /\
    Forall (fun w' => w_files w' !! LUsage safe = w_files w !! LUsage safe) [w1; w2; w3; w4].
Proof.
  intros Hf Hcn Hid Hd Hl. pose proof (SafeCN_Some _ _ Hcn) as [_ Hkey].
  unfold RecordSessionUsage, PruneReceipts, ResetUsage, BankUsage. rewrite Hcn.
  destruct (str_empty id) eqn:He; [by destruct id|].
  destruct (Z.eqb_spec d 0) as [|_]; [done|].
  repeat match goal with |- context [mkdir "usage" ;; ?k] =>
    change (mkdir "usage" ;; k) with (mbind (M:=M) (fun _ => k) (mkdir "usage")) end.
  rewrite !bind_run, try_run. unfold mkdir. rewrite (Hf _). cbn [fst snd]. cbv beta iota.
  rewrite bind_run, try_run.
  edestruct (locked_read_fails (A:=UsageState) w safe e) as (w1 & -> & H1); [done..|].
  edestruct (locked_read_fails (A:=unit) w safe e) as (w2 & -> & H2); [done..|].
  edestruct (locked_read_fails (A:=unit) w safe e) as (w3 & -> & H3); [done..|].
  edestruct (locked_read_fails (A:=Z) w safe e) as (w4 & -> & H4); [done..|].
  exists w1, w2, w3, w4. repeat split; try done. repeat constructor; done.
Qed.

Definition corrupt_world : World :=
  set_files (<[LUsage "42" := "{" +:+ str1 dquote +:+ "version" +:+ str1 dquote +:+ ":2"]> ∅) demo_world.

Lemma corrupt_counter_is_kept_witness :
  exists w' e, RecordSessionUsage "42" "s" 25 false corrupt_world = (inl e, w') /\
    w_files w' !! LUsage "42" = w_files corrupt_world !! LUsage "42".
Proof.
  destruct (corrupt_counter_is_kept corrupt_world "42" "42" (Errorf "invalid counter JSON")
    "s" 25 false ∅ 7 demo_faultless eq_refl ltac:(discriminate) ltac:(discriminate) eq_refl)
    as (w1 & w2 & w3 & w4 & H1 & _ & _ & _ & Hall).
  exists w1, (Errorf "invalid counter JSON"). split; [exact H1|]. by inversion Hall.
Defined.

(** Pruning drops exactly the receipts of sessions that are closed and no
    longer present, keeps every open session and never changes the total: the
    counter is the pruned ledger. *)
Theorem prune_refines_ledger w cn safe data st present :
  faultless w -> SafeCN cn = Some safe ->
  w_files w !! LUsage safe = Some data -> decode_counter data = inr st ->
  exists w' st', PruneReceipts cn present w = (inr tt, w') /\ loaded w' safe = inr st' /\
    abs st' = spec_prune (abs st) present /\ st_total st' = st_total st /\
    forall id, st_sessions st' !! id =
      match st_sessions st !! id with
      | Some s => if us_closed s && bool_decide (id ∉ present) then None else Some s
      | None => None
      end.
Proof.
  intros Hf Hcn Hd Hdec.
  destruct (prune_run w cn safe data st present Hf Hcn Hd Hdec) as (w' & Hrun & Hl).
  exists w'. eexists. split; [done|]. split; [done|]. simpl. split; [|split; [done|]].
  - unfold spec_prune, abs. simpl. rewrite <- retained_marks. f_equal.
    rewrite map_sum_marks. fold (abs st). by rewrite abs_total.
  - intros id. unfold retained. rewrite map_lookup_filter.
    destruct (st_sessions st !! id) as [s|]; simpl; [|done].
    destruct (us_closed s); repeat (case_bool_decide || case_guard); naive_solver.
Qed.

Definition pruned_state : UsageState :=
  mkUsage 2 "17-1" 130 (<["a.1":=mkSess 30 true "a.1"]> (<["b.1":=mkSess 100 false "b.1"]> ∅)).
Definition receipts_world : World :=
  set_files (<[LUsage "42" := encode_counter pruned_state]> ∅) demo_world.

Lemma pruned_wf : wf_state pruned_state.
Proof.
  split; [done|done|unfold is_u64, two64; simpl; lia|].
  intros id s. unfold pruned_state. cbn [st_sessions]. intros H.
  apply lookup_insert_Some in H as [[<- <-]|[_ H]];
    [|apply lookup_insert_Some in H as [[<- <-]|[_ H]]; [|by rewrite lookup_empty in H]];
    (split; [unfold is_u64, two64; simpl; lia|done]).
Qed.

Lemma prune_refines_ledger_witness :
  exists w' st', PruneReceipts "42" ∅ receipts_world = (inr tt, w') /\
    loaded w' "42" = inr st' /\ st_total st' = 130%Z /\
    st_sessions st' !! "a.1" = None /\ is_Some (st_sessions st' !! "b.1").
Proof.
  destruct (prune_refines_ledger receipts_world "42" "42" (encode_counter pruned_state) pruned_state ∅
    demo_faultless eq_refl eq_refl (decode_encode _ pruned_wf))
    as (w' & st' & H1 & H2 & _ & H4 & H5).
  exists w', st'. split; [exact H1|]. split; [exact H2|]. split; [exact H4|].
  rewrite !H5. vm_compute. split; [reflexivity|]. eexists. reflexivity.
Defined.

(** A reset zeroes the total without forgetting the sessions in progress.
    The counter after it is the reset ledger, and the next observation of a
    session adds only what the session moved after the reset: the increment
    over its mark, never its lifetime bytes. *)
Theorem reset_counts_from_zero w cn safe st id b :
  faultless w -> SafeCN cn = Some safe -> loaded w safe = inr st ->
  id <> "" -> is_u64 b -> (sess_of st id).2 = false ->
  exists w1 st1, ResetUsage cn w = (inr tt, w1) /\ loaded w1 safe = inr st1 /\
    abs st1 = spec_reset (abs st) /\ st_total st1 = 0%Z /\ st_epoch st1 <> "" /\
    exists w2 st2, RecordSessionUsage cn id b false w1 = (inr st2, w2) /\
      st_total st2 = Z.max 0 (b - (sess_of st id).1) /\ loaded w2 safe = inr st2.
Proof.
  intros Hf Hcn Hl Hid Hb Hopen.
  destruct (reset_run w cn safe st Hf Hcn Hl) as (w1 & e & Hreset & Hf1 & He & Hl1).
  eexists w1, _. split; [done|]. split; [exact Hl1|].
  assert (abs (mkUsage counterVersion e 0
            (filter (fun kv => us_closed kv.2 = false) (st_sessions st))) = spec_reset (abs st)) as Habs.
  { unfold abs, spec_reset. simpl. rewrite <- open_marks, map_sum_marks. done. }
  split; [done|]. split; [done|]. split; [done|].
  pose proof (record_run w1 cn safe _ id b false Hf1 Hcn Hid Hb Hl1) as Hrec.
  rewrite Habs in Hrec.
  assert (lg_total (spec_observe (spec_reset (abs st)) id b false) =
          Z.max 0 (b - (sess_of st id).1)) as Htot.
  { unfold lg_total, spec_observe, spec_reset, abs. simpl.
    rewrite map_sum_update, map_lookup_filter. unfold sess_of in *.
    destruct (marks_of (st_sessions st) !! id) as [[m cl]|]; simpl in *; [|lia].
    subst cl. simpl. unfold spec_mark. simpl. lia. }
  pose proof (loaded_range _ _ _ Hl) as Hr. pose proof (sess_of_range st id Hr) as [Hm _].
  destruct (RecordSessionUsage cn id b false w1) as [[e2|st2] w2].
  - destruct Hrec as [Hover _]. rewrite Htot in Hover. unfold is_u64 in Hb. lia.
  - destruct Hrec as (Ha & Hwf & Hfile & _). exists w2, st2. split; [done|].
    rewrite <- abs_total, Ha, Htot. split; [done|]. unfold loaded. rewrite Hfile.
    by apply decode_encode.
Qed.

Lemma reset_counts_from_zero_witness :
  exists w1 w2 st2, ResetUsage "42" receipts_world = (inr tt, w1) /\
    RecordSessionUsage "42" "b.1" 160 false w1 = (inr st2, w2) /\ st_total st2 = 60%Z.
Proof.
  destruct (reset_counts_from_zero receipts_world "42" "42" pruned_state "b.1" 160
    demo_faultless eq_refl (decode_encode _ pruned_wf) ltac:(discriminate)
    ltac:(unfold is_u64, two64; lia) eq_refl)
    as (w1 & st1 & H1 & _ & _ & _ & _ & w2 & st2 & H2 & H3 & _).
  exists w1, w2, st2. split; [exact H1|]. split; [exact H2|]. rewrite H3. vm_compute. reflexivity.
Defined.

(** The reader accepts exactly two kinds of counter.  A file of decimal
    digits is a legacy total without sessions; everything else it accepts is a
    complete v2 counter whose numbers are in range, and the counter the agent
    writes back from it is read as the same counter.  A v2 counter without an
    epoch, a total or sessions is never accepted. *)
Theorem accepted_counter_is_stable data st :
  decode_counter data = inr st ->
  (st_version st = 0%Z /\ st_epoch st = "" /\ st_sessions st = ∅ /\ is_u64 (st_total st) /\
   isAllDigits (trim_space data) = true /\ parse_uint (trim_space data) = Some (st_total st)) \/
  (wf_state st /\ decode_counter (encode_counter st) = inr st).
Proof.
  intros Hd. destruct (decode_counter_inv _ _ Hd) as [(n & Hn & ->)|Hwf].
  - left. unfold decode_counter in Hd. destruct (str_empty _); [done|].
    destruct (isAllDigits (trim_space data)) eqn:Hdig.
    + destruct (parse_uint (trim_space data)) as [n'|]; [|done]. by simplify_eq.
    + exfalso. by crush_hyp Hd.
  - right. split; [done|]. by apply decode_encode.
Qed.

Lemma accepted_counter_is_stable_witness :
  decode_counter (encode_counter pruned_state) = inr pruned_state /\ wf_state pruned_state.
Proof.
  destruct (accepted_counter_is_stable (encode_counter pruned_state) pruned_state
    (decode_encode _ pruned_wf)) as [(H & _)|[H1 H2]]; [discriminate H|].
  split; [exact H2|exact H1].
Defined.

(** [BankUsage] adds its delta once, to a v2 counter whose sessions are
    untouched, and reports [false] exactly when nothing was written: a zero
    delta or a total that does not fit. *)
Theorem bank_adds_delta w cn safe st d :
  faultless w -> SafeCN cn = Some safe -> loaded w safe = inr st -> is_u64 d ->
  match BankUsage cn d w with
  | (inr (total, true), w') =>
      total = (st_total st + d)%Z /\ (total < two64)%Z /\
      exists st', loaded w' safe = inr st' /\ abs st' = spec_bank (abs st) d /\ st_total st' = total
  | (inr (_, false), w') =>
      (d = 0%Z \/ (two64 <= st_total st + d)%Z) /\
      w_files w' !! LUsage safe = w_files w !! LUsage safe
  | (inl _, _) => False
  end.
Proof.
  intros Hf Hcn Hl Hd. pose proof (SafeCN_Some _ _ Hcn) as [_ Hkey].
  pose proof (ir_total _ (loaded_range _ _ _ Hl)) as Ht.
  unfold BankUsage. rewrite Hcn. destruct (Z.eqb_spec d 0) as [->|Hne]; [by split; [left|]|].
  rewrite bind_run, try_run. unfold mkdir. rewrite (Hf _). cbn [fst snd].
  rewrite bind_run, try_run.
  match goal with |- context [Lock _ ?b w] => set (body := b) end.
  destruct (usage_locked body w safe Hf Hkey) as (w1 & -> & Hf1 & Hfile1 & Hl1 & _).
  unfold body. clear body. rewrite bind_run.
  destruct (read_usage_run w1 safe safe Hf1 (SafeCN_key _ Hkey)) as (w2 & -> & H12).
  rewrite Hl1, Hl. pose proof (u64_add_overflow _ _ Ht Hd) as Ho.
  destruct (Z.ltb_spec (u64_add (st_total st) d) (st_total st)).
  - simpl. split; [right; tauto|]. by rewrite (same_files _ _ H12).
  - assert (st_total st + d < two64)%Z by lia. rewrite bind_run.
    set (st0 := mkUsage _ _ _ _).
    destruct (upgrade_run st0 w2) as (st1 & w3 & Hup & H23 & Habs & Hsess & Htot & Hver & Hv2 & Hep).
    rewrite Hup.
    assert (faultless w3) as Hf3
      by (intros op; rewrite (same_fault _ _ H23), (same_fault _ _ H12); apply Hf1).
    rewrite bind_run. unfold writeUsageState. rewrite write_file_ok by (apply Hf3 || done).
    simpl. rewrite Htot. unfold st0 at 1 2. cbn [st_total].
    unfold is_u64 in *. rewrite u64_add_small by lia. split; [done|]. split; [done|].
    exists st1. split; [|split].
    + unfold loaded. simpl. rewrite lookup_insert_eq. apply decode_encode.
      destruct (loaded_cases _ _ _ Hl) as [Hwf|(n & Hn & ->)].
      * rewrite Hv2 by apply Hwf. split; [apply Hwf|apply Hwf| |apply Hwf].
        unfold st0, is_u64. cbn. rewrite u64_add_small; lia.
      * split; [done|by apply Hep| |].
        -- rewrite Htot. unfold st0, is_u64. cbn in *. rewrite u64_add_small; lia.
        -- rewrite Hsess. simpl. intros id s. by rewrite lookup_empty.
    + rewrite Habs. unfold abs, spec_bank, st0. cbn. rewrite u64_add_small by lia. f_equal. lia.
    + rewrite Htot. unfold st0. cbn. by rewrite u64_add_small by lia.
Qed.

Lemma bank_adds_delta_witness :
  exists w' st', BankUsage "42" 20 receipts_world = (inr (150%Z, true), w') /\
    loaded w' "42" = inr st' /\ st_total st' = 150%Z.
Proof.
  pose proof (bank_adds_delta receipts_world "42" "42" pruned_state 20
    demo_faultless eq_refl (decode_encode _ pruned_wf) ltac:(unfold is_u64, two64; lia)) as H.
  destruct (BankUsage "42" 20 receipts_world) as [[e|[t []]] w'].
  - destruct H.
  - destruct H as (-> & _ & st' & Hl & _ & Ht). exists w', st'. split; [reflexivity|].
    split; [exact Hl|exact Ht].
  - exfalso. destruct H as [[H|H] _]; [discriminate H|]. vm_compute in H. by apply H.
Defined.
