(* ===== verification/Markers.v ===== *)
(** * Markers: internal/store/sessions.go.

    A session marker: its file name, its text and the removal of the markers
    of one user. *)

From S2P Require Import Prelude GoString Names Cache World Counter.
From Stdlib Require Import Ascii.

(** ** Data *)

Record Marker : Type := mkMarker {
  m_cn : string;
  m_ip : string;
  m_port : string;
  m_pool : string;
  m_created : Z;
  m_session : string;
  m_connected_at : Z;
  m_generation : string;
  m_started : Z;      (** [ConnectionStarted] *)
  m_since : Z         (** [ConnectedSince] *)
}.

Definition zero_marker : Marker := mkMarker "" "" "" "" 0 "" 0 "" 0 0.

Definition SessionKey (safeCN poolIP trustedIP trustedPort : string) : string :=
  if negb (str_empty poolIP) then safeCN +:+ "." +:+ poolIP
  else safeCN +:+ ".noip." +:+ trustedIP +:+ "." +:+ trustedPort.

Fixpoint firstNonEmpty (vals : list string) : string :=
  match vals with
  | [] => ""
  | v :: vals' => if negb (str_empty v) then v else firstNonEmpty vals'
  end.

Fixpoint firstNonZero (vals : list Z) : Z :=
  match vals with
  | [] => 0
  | v :: vals' => if negb (v =? 0)%Z then v else firstNonZero vals'
  end.

(** ** The text of a marker *)

Definition marker_lines (m : Marker) : list (string * string) :=
  [("common_name", m_cn m);
   ("trusted_ip", m_ip m);
   ("trusted_port", m_port m);
   ("ifconfig_pool_remote_ip", m_pool m);
   ("created", itoa (m_created m));
   ("session_id", firstNonEmpty [m_session m; m_generation m]);
   ("connection_started",
     itoa (firstNonZero [m_connected_at m; m_started m; m_since m; m_created m]))].

Definition marker_text (m : Marker) : string := print_lines (marker_lines m).

Definition WriteMarker (path : loc) (m : Marker) : M unit := WriteFileAtomic path (marker_text m).

(** One [case] of the switch in [ReadMarker]. *)
Definition marker_field (m : Marker) (k v : string) : Marker :=
  if String.eqb k "common_name" then
    mkMarker v (m_ip m) (m_port m) (m_pool m) (m_created m) (m_session m)
      (m_connected_at m) (m_generation m) (m_started m) (m_since m)
  else if String.eqb k "trusted_ip" then
    mkMarker (m_cn m) v (m_port m) (m_pool m) (m_created m) (m_session m)
      (m_connected_at m) (m_generation m) (m_started m) (m_since m)
  else if String.eqb k "trusted_port" then
    mkMarker (m_cn m) (m_ip m) v (m_pool m) (m_created m) (m_session m)
      (m_connected_at m) (m_generation m) (m_started m) (m_since m)
  else if String.eqb k "ifconfig_pool_remote_ip" then
    mkMarker (m_cn m) (m_ip m) (m_port m) v (m_created m) (m_session m)
      (m_connected_at m) (m_generation m) (m_started m) (m_since m)
  else if String.eqb k "created" then
    match parse_int v with
    | Some n => mkMarker (m_cn m) (m_ip m) (m_port m) (m_pool m) n (m_session m)
                  (m_connected_at m) (m_generation m) (m_started m) (m_since m)
    | None => m
    end
  else if String.eqb k "session_id" then
    mkMarker (m_cn m) (m_ip m) (m_port m) (m_pool m) (m_created m) v (m_connected_at m)
      (if str_empty (m_generation m) then v else m_generation m) (m_started m) (m_since m)
  else if String.eqb k "generation" then
    mkMarker (m_cn m) (m_ip m) (m_port m) (m_pool m) (m_created m)
      (if str_empty (m_session m) then v else m_session m) (m_connected_at m)
      v (m_started m) (m_since m)
  else if String.eqb k "connection_started" || String.eqb k "connected_at"
          || String.eqb k "connected_since" then
    match parse_int v with
    | Some n => mkMarker (m_cn m) (m_ip m) (m_port m) (m_pool m)
                  (if (m_created m =? 0)%Z then n else m_created m) (m_session m)
                  n (m_generation m) n n
    | None => m
    end
  else m.

Definition marker_line (m : Marker) (line : string) : Marker :=
  match cut "=" (trim_space line) with
  | (k, v, true) => marker_field m k v
  | (_, _, false) => m
  end.

Definition parse_marker (data : string) : Marker :=
  foldl marker_line zero_marker (split nl data).

(** [None] is the [false] of the code: no marker, or one that cannot be read. *)
Definition ReadMarker (path : loc) : M (option Marker) :=
  r <- try (read_file path) ;;
  match r with
  | inl _ => mret None
  | inr data => mret (Some (parse_marker data))
  end.

(** ** Removal *)

Definition RemoveMarkers (safeCN : string) : M unit :=
  let prefix := safeCN +:+ "." in
  r <- try read_sessions_dir ;;
  match r with
  | inl _ => mret tt
  | inr names =>
      for_each (fun name =>
        if negb (has_prefix name prefix) then mret tt
        else ignore (remove_file (LSession name))) names
  end.

Definition legacy_marker (safeCN poolIP trustedIP trustedPort name : string) : bool :=
  let legacyAddr := safeCN +:+ "." +:+ trustedIP +:+ "." +:+ trustedPort +:+ "." in
  let legacyPool := if negb (str_empty poolIP) then "." +:+ poolIP else "" in
  has_prefix name legacyAddr ||
  (negb (str_empty legacyPool) && has_prefix name (safeCN +:+ ".") && has_suffix name legacyPool).

Definition RemoveLegacyMarkers (safeCN poolIP trustedIP trustedPort : string) : M unit :=
  r <- try read_sessions_dir ;;
  match r with
  | inl _ => mret tt
  | inr names =>
      for_each (fun name =>
        if legacy_marker safeCN poolIP trustedIP trustedPort name
        then ignore (remove_file (LSession name)) else mret tt) names
  end.

(** ** Lemmas *)

(** [touches] for the marker operations. *)
Definition is_session (l : loc) : Prop := match l with LSession _ => True | _ => False end.

Lemma ReadMarker_touches L p : touches L (ReadMarker p).
Proof. unfold ReadMarker. touch_solve. Qed.

Lemma WriteMarker_touches (L : loc -> Prop) p m : L p -> touches L (WriteMarker p m).
Proof. unfold WriteMarker. eauto with touch. Qed.

#[export] Hint Resolve ReadMarker_touches WriteMarker_touches : touch.

Lemma ReadMarker_state p w : (ReadMarker p w).2 = w.
Proof.
  unfold ReadMarker. rewrite bind_run, try_run, read_file_state. by destruct (read_file p w).1.
Qed.

Lemma ReadMarker_run w p :
  w_fault w (OpRead p) = false ->
  ReadMarker p w = (inr (parse_marker <$> (w_files w !! p)), w).
Proof.
  intros Hf. unfold ReadMarker. rewrite bind_run, try_run, read_file_run by done. simpl.
  by destruct (w_files w !! p).
Qed.

Definition dropped (p : string -> bool) (names : list string) (l : loc) : bool :=
  match l with LSession n => p n && bool_decide (n ∈ names) | _ => false end.

(** The files left by a loop that removes the selected session files. *)
Definition drop_sessions (p : string -> bool) (names : list string) (f : gmap loc string)
  : gmap loc string :=
  filter (fun kv => dropped p names kv.1 = false) f.

Lemma lookup_drop_sessions p names f l :
  drop_sessions p names f !! l = if dropped p names l then None else f !! l.
Proof.
  unfold drop_sessions. rewrite map_lookup_filter.
  destruct (f !! l); simpl; [|by destruct (dropped _ _ _)].
  case_guard; by destruct (dropped p names l).
Qed.

Lemma drop_sessions_nil p f : drop_sessions p [] f = f.
Proof.
  apply map_eq. intros l. rewrite lookup_drop_sessions. destruct l; try done. simpl.
  by rewrite andb_false_r.
Qed.

Lemma drop_sessions_cons p n names f :
  drop_sessions p names (if p n then delete (LSession n) f else f) = drop_sessions p (n :: names) f.
Proof.
  apply map_eq. intros l. rewrite !lookup_drop_sessions.
  destruct (decide (l = LSession n)) as [->|Hne].
  - simpl. rewrite (bool_decide_eq_true_2 (n ∈ n :: names)) by left.
    destruct (p n); simpl; [|done]. case_bool_decide; [done|apply lookup_delete_eq].
  - assert ((if p n then delete (LSession n) f else f) !! l = f !! l) as ->.
    { destruct (p n); [by apply lookup_delete_ne|done]. }
    destruct l as [| |g| | | |]; try done. simpl.
    assert (bool_decide (g ∈ names) = bool_decide (g ∈ n :: names)) as ->; [|done].
    apply bool_decide_ext. rewrite elem_of_cons. naive_solver congruence.
Qed.

Lemma remove_loop_run p names : forall w,
  faultless w ->
  for_each (fun name => if p name : bool then ignore (remove_file (LSession name)) else mret tt) names w
  = (inr tt, set_files (drop_sessions p names (w_files w)) w).
Proof.
  induction names as [|n names IH]; intros w Hf; simpl.
  - rewrite drop_sessions_nil. by destruct w.
  - rewrite bind_run.
    assert ((if p n : bool then ignore (remove_file (LSession n)) else mret tt) w =
      (inr tt, set_files (if p n : bool then delete (LSession n) (w_files w) else w_files w) w)) as ->.
    { destruct (p n); [|by destruct w]. unfold ignore. rewrite bind_run, try_run.
      unfold remove_file. rewrite (Hf _).
      destruct (w_files w !! LSession n) eqn:Hn; simpl; [done|].
      rewrite delete_id by done. by destruct w. }
    rewrite IH by done. unfold set_files. simpl. by rewrite drop_sessions_cons.
Qed.

Lemma marker_line_field m k v :
  str_forall is_graph k = true -> str_forall is_graph v = true -> no_char "=" k = true ->
  marker_line m (k +:+ "=" +:+ v) = marker_field m k v.
Proof.
  intros Hk Hv Hn. unfold marker_line.
  rewrite trim_space_graph by (rewrite !str_forall_app, Hk, Hv; done).
  change (k +:+ "=" +:+ v) with (k +:+ String "=" v). by rewrite cut_found.
Qed.

(** ** Keys *)

(** A dotted address: four parts without a dot. *)
Definition dotted (p : string) : Prop :=
  exists a b c d, Forall (fun x => no_char "." x = true) [a; b; c; d] /\
    p = a +:+ "." +:+ b +:+ "." +:+ c +:+ "." +:+ d.

(** The last dot of a text that ends in a dot-free part. *)
Lemma rdot_inj a b x y :
  no_char "." x = true -> no_char "." y = true ->
  a +:+ String "." x = b +:+ String "." y -> a = b /\ x = y.
Proof.
  intros Hx Hy Heq. pose proof (rcut_last "." a x Hx) as H1. rewrite Heq in H1.
  rewrite rcut_last in H1 by done. by simplify_eq.
Qed.

Lemma dotted_suffix_inj a b p q :
  dotted p -> dotted q -> a +:+ String "." p = b +:+ String "." q -> a = b /\ p = q.
Proof.
  intros (p1 & p2 & p3 & p4 & Hp & ->) (q1 & q2 & q3 & q4 & Hq & ->) Heq.
  inversion_clear Hp as [|? ? Hp1 Hp']. inversion_clear Hp' as [|? ? Hp2 Hp''].
  inversion_clear Hp'' as [|? ? Hp3 Hp''']. inversion_clear Hp''' as [|? ? Hp4 _].
  inversion_clear Hq as [|? ? Hq1 Hq']. inversion_clear Hq' as [|? ? Hq2 Hq''].
  inversion_clear Hq'' as [|? ? Hq3 Hq''']. inversion_clear Hq''' as [|? ? Hq4 _].
  assert (forall s x1 x2 x3 x4,
    s +:+ String "." (x1 +:+ "." +:+ x2 +:+ "." +:+ x3 +:+ "." +:+ x4) =
    (((s +:+ String "." x1) +:+ String "." x2) +:+ String "." x3) +:+ String "." x4) as Hsh.
  { intros. autorewrite with gostr. done. }
  rewrite !Hsh in Heq.
  apply rdot_inj in Heq as [Heq ->]; [|done..]. apply rdot_inj in Heq as [Heq ->]; [|done..].
  apply rdot_inj in Heq as [Heq ->]; [|done..]. apply rdot_inj in Heq as [-> ->]; done.
Qed.

Lemma HasGeneration_key key gen :
  key <> "" -> no_char "." gen = true -> String.length gen = 16%nat ->
  str_forall is_hex_char gen = true ->
  HasGeneration (key +:+ "." +:+ gen) = true /\ markerKeyOf (key +:+ "." +:+ gen) = key.
Proof.
  intros Hk Hn Hlen Hhex. change (key +:+ "." +:+ gen) with (key +:+ String "." gen).
  unfold markerKeyOf, HasGeneration. rewrite rcut_last by done.
  unfold isHex. rewrite Hlen, Hhex. by destruct key.
Qed.

Lemma hex_no_dot gen : str_forall is_hex_char gen = true -> no_char "." gen = true.
Proof. apply str_forall_no_char. done. Qed.

(** The markers the hooks write: printable fields, numbers in range. *)
Record clean_marker (m : Marker) : Prop := {
  cl_fields : Forall (fun s => str_forall is_graph s = true)
                [m_cn m; m_ip m; m_port m; m_pool m; m_session m; m_generation m];
  cl_numbers : Forall is_i64 [m_created m; m_connected_at m; m_started m; m_since m]
}.

(** What a reader finds: one session ID and one connection time. *)
Definition stored_marker (m : Marker) : Marker :=
  let id := firstNonEmpty [m_session m; m_generation m] in
  let t := firstNonZero [m_connected_at m; m_started m; m_since m; m_created m] in
  mkMarker (m_cn m) (m_ip m) (m_port m) (m_pool m)
    (if (m_created m =? 0)%Z then t else m_created m) id t id t t.

Lemma firstNonEmpty_graph l :
  Forall (fun s => str_forall is_graph s = true) l -> str_forall is_graph (firstNonEmpty l) = true.
Proof. induction 1 as [|s l Hs _ IH]; simpl; [done|]. by case_match. Qed.

Lemma firstNonZero_i64 l : Forall is_i64 l -> is_i64 (firstNonZero l).
Proof. induction 1 as [|z l Hz _ IH]; simpl; [done|]. by case_match. Qed.

Lemma marker_lines_graph m :
  clean_marker m -> Forall (fun kv => str_forall is_graph kv.1 = true /\
    str_forall is_graph kv.2 = true /\ no_char "=" kv.1 = true) (marker_lines m).
Proof.
  intros [Hf _]. pose proof Hf as Hg. rewrite !Forall_cons in Hf.
  destruct Hf as (H1 & H2 & H3 & H4 & H5 & H6 & _).
  unfold marker_lines. repeat (constructor; [split; [done|split; [|done]]|]);
    cbn [snd]; auto using itoa_graph; try apply itoa_graph.
  apply firstNonEmpty_graph. forall_list.
Qed.

(** The fold over the written fields, one projection at a time. *)
Lemma fields_of_lines cn ip port pool c id t n1 n2 :
  parse_int n1 = Some c -> parse_int n2 = Some t ->
  foldl (fun x kv => marker_field x kv.1 kv.2) zero_marker
    [("common_name", cn); ("trusted_ip", ip); ("trusted_port", port);
     ("ifconfig_pool_remote_ip", pool); ("created", n1); ("session_id", id);
     ("connection_started", n2)] =
  mkMarker cn ip port pool (if (c =? 0)%Z then t else c) id t id t t.
Proof.
  intros H1 H2. cbn [foldl fst snd].
  change (marker_field zero_marker "common_name" cn) with (mkMarker cn "" "" "" 0 "" 0 "" 0 0).
  change (marker_field ?m "trusted_ip" ip) with (mkMarker cn ip "" "" 0 "" 0 "" 0 0).
  change (marker_field ?m "trusted_port" port) with (mkMarker cn ip port "" 0 "" 0 "" 0 0).
  change (marker_field ?m "ifconfig_pool_remote_ip" pool)
    with (mkMarker cn ip port pool 0 "" 0 "" 0 0).
  assert (forall m, marker_field m "created" n1 = mkMarker (m_cn m) (m_ip m) (m_port m) (m_pool m) c
    (m_session m) (m_connected_at m) (m_generation m) (m_started m) (m_since m)) as ->.
  { intros m. unfold marker_field. cbn [String.eqb Ascii.eqb Bool.eqb]. by rewrite H1. }
  cbn [m_cn m_ip m_port m_pool m_session m_connected_at m_generation m_started m_since].
  change (marker_field ?m "session_id" id) with (mkMarker cn ip port pool c id 0 id 0 0).
  unfold marker_field. cbn [String.eqb Ascii.eqb Bool.eqb orb]. by rewrite H2.
Qed.

Lemma parse_marker_text m : clean_marker m -> parse_marker (marker_text m) = stored_marker m.
Proof.
  intros Hm. pose proof (marker_lines_graph m Hm) as Hl. rewrite Forall_forall in Hl.
  unfold parse_marker, marker_text. rewrite (foldl_print_lines _ marker_field).
  - destruct Hm as [_ Hn]. rewrite !Forall_cons in Hn. destruct Hn as (H1 & H2 & H3 & H4 & _).
    assert (is_i64 (firstNonZero [m_connected_at m; m_started m; m_since m; m_created m])) as Ht
      by (apply firstNonZero_i64; forall_list).
    unfold marker_lines. by rewrite (fields_of_lines _ _ _ _ (m_created m) _
      (firstNonZero [m_connected_at m; m_started m; m_since m; m_created m]))
      by by apply parse_int_itoa.
  - apply Forall_forall. intros kv Hkv. destruct (Hl kv Hkv) as (Hk & Hv & _).
    split; by apply (str_forall_no_char is_graph).
  - done.
  - intros x kv Hkv. destruct (Hl kv Hkv) as (Hk & Hv & He). by apply marker_line_field.
Qed.

(** ** Properties *)

(** A marker the hook writes is read back: the name, the address, the
    pool address and the creation time as given, one session ID that is both
    the ID and the generation, one connection time that is the first known of
    the four; and reading is stable, a marker read and written again is the
    same marker. *)
Theorem marker_round_trip w p m :
  clean_marker m -> faultless w -> parent_ok w p = true ->
  exists w', WriteMarker p m w = (inr tt, w') /\
    ReadMarker p w' = (inr (Some (stored_marker m)), w') /\
    parse_marker (marker_text (stored_marker m)) = stored_marker m.
Proof.
  intros Hm Hf Hp. unfold WriteMarker. rewrite write_file_ok by done.
  eexists. split; [done|]. rewrite ReadMarker_run by apply Hf. simpl.
  rewrite lookup_insert_eq. simpl. rewrite parse_marker_text by done. split; [done|].
  destruct Hm as [Hg Hn]. rewrite !Forall_cons in Hg. rewrite !Forall_cons in Hn.
  destruct Hg as (H1 & H2 & H3 & H4 & H5 & H6 & _), Hn as (N1 & N2 & N3 & N4 & _).
  assert (is_i64 (firstNonZero [m_connected_at m; m_started m; m_since m; m_created m])) as Ht
    by (apply firstNonZero_i64; forall_list).
  assert (str_forall is_graph (firstNonEmpty [m_session m; m_generation m]) = true) as Hi
    by (apply firstNonEmpty_graph; forall_list).
  rewrite parse_marker_text.
  - unfold stored_marker. cbn [m_session m_generation m_connected_at m_started m_since m_created
      m_cn m_ip m_port m_pool].
    set (t := firstNonZero [m_connected_at m; m_started m; m_since m; m_created m]).
    set (i := firstNonEmpty [m_session m; m_generation m]).
    assert (firstNonEmpty [i; i] = i) as -> by (destruct i; done).
    assert (firstNonZero [t; t; t; if (m_created m =? 0)%Z then t else m_created m] = t) as ->.
    { simpl. destruct (Z.eqb_spec t 0) as [Ht0|]; [|done]. rewrite Ht0. simpl.
      destruct (Z.eqb_spec (m_created m) 0); simpl; [done|].
      exfalso. subst t. simpl in Ht0. repeat case_match; boolify; lia. }
    destruct (m_created m =? 0)%Z eqn:Hc; [by destruct (t =? 0)%Z|by rewrite Hc].
  - split; forall_list. unfold stored_marker. cbn [m_created]. by case_match.
Qed.

Definition demo_marker : Marker :=
  mkMarker "42" "203.0.113.9" "51000" "10.8.0.2" 1700000000 "42.10.8.0.2.0123456789abcdef"
    1699999990 "" 0 0.

Lemma demo_marker_clean : clean_marker demo_marker.
Proof.
  split; simpl; repeat constructor; unfold is_i64, two63; simpl; try lia; done.
Qed.

Lemma marker_round_trip_witness :
  exists w', WriteMarker (LSession "42.10.8.0.2") demo_marker demo_world = (inr tt, w') /\
    ReadMarker (LSession "42.10.8.0.2") w' =
      (inr (Some (mkMarker "42" "203.0.113.9" "51000" "10.8.0.2" 1700000000
        "42.10.8.0.2.0123456789abcdef" 1699999990 "42.10.8.0.2.0123456789abcdef"
        1699999990 1699999990)), w').
Proof.
  destruct (marker_round_trip demo_world (LSession "42.10.8.0.2") demo_marker
    demo_marker_clean demo_faultless eq_refl) as (w' & H1 & H2 & _).
  exists w'. split; [exact H1|exact H2].
Defined.

(** Session keys of dotted addresses are injective: two sessions share a
    marker file only if they are the same user at the same pool address, and
    without a pool address only at the same real address and port.  The
    session ID built from a key and a 64-bit generation gives the key back. *)
Theorem session_identity cn1 cn2 p1 p2 ip1 ip2 port1 port2 gen :
  dotted p1 -> dotted p2 -> dotted ip1 -> dotted ip2 ->
  no_char "." port1 = true -> no_char "." port2 = true -> cn1 <> "" ->
  String.length gen = 16%nat -> str_forall is_hex_char gen = true ->
  (SessionKey cn1 p1 ip1 port1 = SessionKey cn2 p2 ip2 port2 -> cn1 = cn2 /\ p1 = p2) /\
  (SessionKey cn1 "" ip1 port1 = SessionKey cn2 "" ip2 port2 ->
     cn1 = cn2 /\ ip1 = ip2 /\ port1 = port2) /\
  HasGeneration (SessionKey cn1 p1 ip1 port1 +:+ "." +:+ gen) = true /\
  markerKeyOf (SessionKey cn1 p1 ip1 port1 +:+ "." +:+ gen) = SessionKey cn1 p1 ip1 port1.
Proof.
  intros Hp1 Hp2 Hi1 Hi2 Ho1 Ho2 Hcn Hlen Hhex.
  assert (forall p, dotted p -> str_empty p = false) as Hne.
  { intros p (a & b & c & d & _ & ->). destruct a; done. }
  unfold SessionKey. rewrite (Hne p1), (Hne p2) by done. simpl. split; [|split].
  - intros Heq. by apply dotted_suffix_inj in Heq.
  - intros Heq.
    assert (forall s a p, s +:+ ".noip." +:+ a +:+ "." +:+ p =
                          ((s +:+ ".noip") +:+ String "." a) +:+ String "." p) as Hsh
      by (intros; by autorewrite with gostr).
    rewrite !Hsh in Heq. apply rdot_inj in Heq as [Heq ->]; [|done..].
    apply dotted_suffix_inj in Heq as [Heq ->]; [|done..].
    change ".noip" with (String "." "noip") in Heq.
    apply rdot_inj in Heq as [-> _]; done.
  - apply HasGeneration_key; [|by apply hex_no_dot|done|done]. by destruct cn1.
Qed.

Lemma dotted_example a b : no_char "." a = true -> no_char "." b = true ->
  dotted (a +:+ "." +:+ "8" +:+ "." +:+ "0" +:+ "." +:+ b).
Proof. intros. exists a, "8", "0", b. split; [by repeat constructor|done]. Qed.

Lemma session_identity_witness :
  HasGeneration "42.10.8.0.2.0123456789abcdef" = true /\
  (SessionKey "42" "10.8.0.2" "192.8.0.1" "1194" = SessionKey "7" "10.8.0.3" "192.8.0.1" "1194" ->
   "42" = "7" /\ "10.8.0.2" = "10.8.0.3").
Proof.
  destruct (session_identity "42" "7" "10.8.0.2" "10.8.0.3" "192.8.0.1" "192.8.0.1" "1194" "1194"
    "0123456789abcdef" (dotted_example "10" "2" eq_refl eq_refl) (dotted_example "10" "3" eq_refl eq_refl)
    (dotted_example "192" "1" eq_refl eq_refl) (dotted_example "192" "1" eq_refl eq_refl)
    eq_refl eq_refl ltac:(discriminate) eq_refl eq_refl) as (H1 & _ & H3 & _).
  split; [exact H3|exact H1].
Defined.
