(* ===== verification/UserPolicy.v ===== *)
(** * UserPolicy: internal/store/store.go, state.go and users.go.

    The enforcement state of a user: the merged [state] file, the legacy split
    files it replaces, and the user folders. *)

From S2P Require Import Prelude GoString Names Cache World.
From Stdlib Require Import Ascii.

(** ** Data *)

Record UserState : Type := mkUser {
  u_limit : Z;
  u_limit_set : bool;
  u_disabled : bool;
  u_name : string;
  u_name_set : bool
}.

Definition zero_user : UserState := mkUser 0 false false "" false.

Definition isDigits (s : string) : bool := negb (str_empty s) && str_forall is_digit s.

Definition control_char (c : ascii) : bool := byte_in 0 31 c || byte_in 127 127 c.

(** [validateName]: [true] is the nil error.  A control rune is a single byte
    and never part of a longer one. *)
Definition validateName (name : string) : bool := str_forall (fun c => negb (control_char c)) name.

Definition control_error : goerr := Errorf "name contains control characters".

(** [filepath.Join(usersDir, safe)]. *)
Definition UserDir (usersDir cn : string) : option string :=
  match SafeCN cn with
  | Some safe => Some (usersDir +:+ "/" +:+ safe)
  | None => None
  end.

(** ** Reading the state *)

(** One line of the merged file: the state, the fields seen so far and
    whether the file spoke about [disabled]. *)
Record policy_acc : Type := mkAcc {
  pa_user : UserState;
  pa_seen : gset string;
  pa_disabled_set : bool
}.

Definition policy_line (path : string) (a : policy_acc) (line : string) : goerr + policy_acc :=
  if str_empty line then inr a
  else
    let st := pa_user a in
    match cut "=" line with
    | (k, v, ok) =>
        if negb ok || bool_decide (k ∈ pa_seen a) then inl (Errorf ("corrupt policy " +:+ path))
        else
          let seen := {[k]} ∪ pa_seen a in
          if String.eqb k "limit" then
            match atoi v with
            | Some n =>
                if isDigits v then
                  inr (mkAcc (mkUser n true (u_disabled st) (u_name st) (u_name_set st)) seen
                         (pa_disabled_set a))
                else inl (Errorf ("corrupt policy limit in " +:+ path))
            | None => inl (Errorf ("corrupt policy limit in " +:+ path))
            end
          else if String.eqb k "disabled" then
            if negb (String.eqb v "0") && negb (String.eqb v "1") then
              inl (Errorf ("corrupt policy disabled flag in " +:+ path))
            else inr (mkAcc (mkUser (u_limit st) (u_limit_set st) (String.eqb v "1")
                               (u_name st) (u_name_set st)) seen true)
          else if String.eqb k "name" then
            if validateName v then
              inr (mkAcc (mkUser (u_limit st) (u_limit_set st) (u_disabled st) v true) seen
                     (pa_disabled_set a))
            else inl (Errorf ("corrupt policy name in " +:+ path +:+ ": " +:+ err_text control_error))
          else inl (Errorf ("unknown policy field in " +:+ path))
    end.

Fixpoint policy_lines (path : string) (a : policy_acc) (lines : list string) : goerr + policy_acc :=
  match lines with
  | [] => inr a
  | line :: lines' =>
      match policy_line path a line with
      | inl e => inl e
      | inr a' => policy_lines path a' lines'
      end
  end.

Definition parse_policy (path data : string) : goerr + policy_acc :=
  match policy_lines path (mkAcc zero_user ∅ false) (split nl data) with
  | inl e => inl e
  | inr a => if (size (pa_seen a) =? 0)%nat then inl (Errorf ("empty policy " +:+ path)) else inr a
  end.

(** The legacy [limit] file. *)
Definition parse_legacy_limit (dir raw : string) : goerr + Z :=
  let line := trim_suffix (trim_suffix raw (str1 nl)) (str1 cr) in
  match atoi line with
  | Some n => if isDigits line then inr n else inl (Errorf ("corrupt legacy limit in " +:+ dir))
  | None => inl (Errorf ("corrupt legacy limit in " +:+ dir))
  end.

Definition readPolicyFile : loc -> M string := read_file.

(** A file that may be missing: its content, or the error of another failure. *)
Definition read_optional (l : loc) : M (option string) :=
  r <- try (readPolicyFile l) ;;
  match r with
  | inr data => mret (Some data)
  | inl e => if IsNotExist e then mret None else throw e
  end.

Definition ReadUserState (usersDir cn : string) : M UserState :=
  match SafeCN cn with
  | None => throw (Errorf "invalid common name")
  | Some safe =>
      let dir := usersDir +:+ "/" +:+ safe in
      r <- try (read_user_dir safe) ;;
      match r with
      | inl e => if IsNotExist e then mret zero_user else throw e
      | inr _ =>
          merged <- read_optional (LUser safe "state") ;;
          match (match merged with
                 | Some data => parse_policy (dir +:+ "/state") data
                 | None => inr (mkAcc zero_user ∅ false)
                 end) with
          | inl e => throw e
          | inr a =>
              let st := pa_user a in
              st <- (if pa_disabled_set a then mret st
                     else
                       d <- read_optional (LUser safe "disabled") ;;
                       mret (mkUser (u_limit st) (u_limit_set st)
                               (match d with Some _ => true | None => u_disabled st end)
                               (u_name st) (u_name_set st))) ;;
              if u_limit_set st then mret st
              else
                l <- read_optional (LUser safe "limit") ;;
                match l with
                | None => mret st
                | Some raw =>
                    match parse_legacy_limit dir raw with
                    | inl e => throw e
                    | inr n => mret (mkUser n true (u_disabled st) (u_name st) (u_name_set st))
                    end
                end
          end
      end
  end.

(** ** Writing the state *)

Definition CreateUser (cn : string) : M unit :=
  match SafeCN cn with
  | None => throw (Errorf "invalid common name")
  | Some safe =>
      SetPermissions "group" ;;        (* the runtime group must resolve *)
      mkdir_users ;;
      SetPermissions "users" ;;
      mkdir_user safe ;;
      SetPermissions safe
  end.

Definition boolInt (b : bool) : string := if b then "1" else "0".

(** The merge of the current state with the fields given. *)
Definition policy_body (current : UserState) (name : option string) (limit : option Z)
    (disabled : option bool) : string :=
  let effective := if u_limit_set current then u_limit current else 1%Z in
  let effective := match limit with
                   | Some n => if (n <? 0)%Z then 0%Z else n
                   | None => effective
                   end in
  let off := match disabled with Some b => b | None => u_disabled current end in
  let body := "disabled=" +:+ boolInt off +:+ str1 nl in
  let body := if u_limit_set current || bool_decide (is_Some limit) || bool_decide (is_Some disabled)
                 || negb (bool_decide (is_Some name))
              then "limit=" +:+ itoa effective +:+ str1 nl +:+ body else body in
  if u_name_set current then body +:+ "name=" +:+ u_name current +:+ str1 nl else body.

(** The name of a user that is not in the merged file yet. *)
Definition legacy_name (safe : string) (current : UserState) : M UserState :=
  if u_name_set current then mret current
  else
    d <- read_optional (LUser safe "name") ;;
    match d with
    | None => mret current
    | Some data =>
        let n := trim_space data in
        if validateName n then
          mret (mkUser (u_limit current) (u_limit_set current) (u_disabled current) n true)
        else throw control_error
    end.

Definition WriteUserPolicy (usersDir cn : string) (name : option string) (limit : option Z)
    (disabled : option bool) : M unit :=
  match name with
  | Some n => if validateName n then mret tt else throw control_error
  | None => mret tt
  end ;;
  match SafeCN cn with
  | None => throw (Errorf "invalid common name")
  | Some safe =>
      CreateUser cn ;;
      Lock (LUser safe ".state.lock") (
        current <- ReadUserState usersDir cn ;;
        current <- legacy_name safe current ;;
        let current := match name with
                       | Some n => mkUser (u_limit current) (u_limit_set current)
                                     (u_disabled current) n true
                       | None => current
                       end in
        WriteFileAtomic (LUser safe "state") (policy_body current name limit disabled) ;;
        sync_user_dir safe ;;
        InvalidateNameCache ;;
        for_each (fun legacy => remove_if_exists (LUser safe legacy)) ["limit"; "disabled"; "name"])
  end.

Definition WriteUserState (usersDir cn : string) (limit : option Z) (disabled : option bool) : M unit :=
  WriteUserPolicy usersDir cn None limit disabled.
Definition SetLimit (usersDir cn : string) (maxLogins : Z) : M unit :=
  WriteUserState usersDir cn (Some maxLogins) None.
Definition SetDisabled (usersDir cn : string) (disabled : bool) : M unit :=
  WriteUserState usersDir cn None (Some disabled).
Definition WriteName (usersDir cn name : string) : M unit :=
  WriteUserPolicy usersDir cn (Some name) None None.

(** ** Users *)

Definition UserExists (cn : string) : M bool :=
  match SafeCN cn with
  | None => mret false
  | Some safe => gets (fun w =>
      negb (w_fault w (OpStat (LUser safe ""))) && bool_decide (safe ∈ w_user_dirs w))
  end.

Definition ListUsers : M (list string) :=
  r <- try read_users_dir ;;
  match r with
  | inl _ => mret []
  | inr names => mret (sort_strings (filter (fun n => StoreKeyRe n = true) names))
  end.

Definition DeleteUser (sessions usage : bool) (cn : string) : M unit :=
  match SafeCN cn with
  | None => throw (Errorf "invalid common name")
  | Some safe =>
      remove_user_dir safe ;;
      (if sessions then remove_if_exists (LSession (".lock." +:+ cn)) else mret tt) ;;
      (if usage then remove_if_exists (LUsage (".lock." +:+ cn)) else mret tt) ;;
      InvalidateNameCache
  end.

Definition ReadName (usersDir cn : string) : M string :=
  r <- try (ReadUserState usersDir cn) ;;
  match r with
  | inl _ => mret ""
  | inr st =>
      if u_name_set st then mret (trim_space (u_name st))
      else match SafeCN cn with
           | None => mret ""
           | Some safe =>
               d <- try (readPolicyFile (LUser safe "name")) ;;
               match d with
               | inl _ => mret ""
               | inr data => mret (trim_space data)
               end
           end
  end.

Fixpoint collect_names (usersDir : string) (cns : list string) (m : gmap string string)
  : M (gmap string string) :=
  match cns with
  | [] => mret m
  | cn :: cns' =>
      name <- ReadName usersDir cn ;;
      collect_names usersDir cns' (if str_empty name then m else <[cn:=name]> m)
  end.

Definition NameCacheGet (usersDir : string) : M (option (gmap string string)) :=
  gets (fun w => cache_get (w_now w) usersDir (w_name_cache w)).
Definition NameCacheSet (usersDir : string) (m : gmap string string) : M unit :=
  modify (fun w => set_name_cache (cache_set (w_now w) usersDir m (w_name_cache w)) w).

Definition NameMap (usersDir : string) : M (gmap string string) :=
  c <- NameCacheGet usersDir ;;
  match c with
  | Some m => mret m
  | None =>
      cns <- ListUsers ;;
      m <- collect_names usersDir cns ∅ ;;
      NameCacheSet usersDir m ;;
      mret m
  end.

(** The loop over the map visits its keys in the order [order]. *)
Definition cn_for_name (m : gmap string string) (order : list string) (name : string) : string :=
  match filter (fun cn => m !! cn = Some name) order with
  | cn :: _ => cn
  | [] => ""
  end.

Definition CNForName (usersDir : string) (order : gmap string string -> list string) (name : string)
  : M string :=
  m <- NameMap usersDir ;; mret (cn_for_name m (order m) name).

(** ** Legacy text *)

Example parse_policy_ex :
  match parse_policy "p" (print_lines [("limit", "2"); ("disabled", "1"); ("name", "ann")]) with
  | inr a => pa_user a = mkUser 2 true true "ann" true /\ pa_disabled_set a = true
  | inl _ => False
  end.
Proof. vm_compute. done. Qed.

(** ** What is on disk *)

(** The state [ReadUserState] finds when no file operation fails. *)
Definition policy_of (usersDir safe : string) (w : World) : goerr + UserState :=
  let dir := usersDir +:+ "/" +:+ safe in
  if bool_decide (safe ∈ w_user_dirs w) then
    match (match w_files w !! LUser safe "state" with
           | Some data => parse_policy (dir +:+ "/state") data
           | None => inr (mkAcc zero_user ∅ false)
           end) with
    | inl e => inl e
    | inr a =>
        let st := pa_user a in
        let st := if pa_disabled_set a then st
                  else mkUser (u_limit st) (u_limit_set st)
                         (match w_files w !! LUser safe "disabled" with
                          | Some _ => true | None => u_disabled st end)
                         (u_name st) (u_name_set st) in
        if u_limit_set st then inr st
        else match w_files w !! LUser safe "limit" with
             | None => inr st
             | Some raw =>
                 match parse_legacy_limit dir raw with
                 | inl e => inl e
                 | inr n => inr (mkUser n true (u_disabled st) (u_name st) (u_name_set st))
                 end
             end
    end
  else inr zero_user.

(** A user file lies in a user folder. *)
Definition tree_ok (w : World) : Prop :=
  forall cn f, is_Some (w_files w !! LUser cn f) -> cn ∈ w_user_dirs w.

Lemma read_optional_run w l :
  faultless w -> read_optional l w = (inr (w_files w !! l), w).
Proof.
  intros Hf. unfold read_optional. rewrite bind_run, try_run. unfold readPolicyFile.
  rewrite read_file_run by apply Hf. by destruct (w_files w !! l).
Qed.

Lemma read_user_run w usersDir cn safe :
  faultless w -> SafeCN cn = Some safe ->
  ReadUserState usersDir cn w = (policy_of usersDir safe w, w).
Proof.
  intros Hf Hcn. unfold ReadUserState, policy_of. rewrite Hcn.
  rewrite bind_run, try_run. unfold read_user_dir. rewrite (Hf _).
  case_bool_decide; simpl; [|done].
  rewrite bind_run, read_optional_run by done. cbv zeta.
  destruct (match w_files w !! _ with Some _ => _ | None => _ end) as [e|a]; [done|].
  rewrite bind_run. destruct (pa_disabled_set a).
  - unfold mret at 1, M_ret at 1. destruct (u_limit_set (pa_user a)); simpl; [done|].
    rewrite bind_run, read_optional_run by done. by repeat (case_match; simplify_eq).
  - rewrite bind_run, read_optional_run by done. unfold mret at 1, M_ret at 1. simpl.
    destruct (u_limit_set (pa_user a)); simpl; [done|].
    rewrite bind_run, read_optional_run by done. by repeat (case_match; simplify_eq).
Qed.

(** Reading the state changes nothing, whatever fails. *)
Lemma read_optional_state l w : (read_optional l w).2 = w.
Proof.
  unfold read_optional, readPolicyFile. rewrite bind_run, try_run, read_file_state.
  destruct (read_file l w).1 as [e|d]; simpl; [by destruct (IsNotExist e)|done].
Qed.

Lemma ReadUserState_state usersDir cn w : (ReadUserState usersDir cn w).2 = w.
Proof.
  unfold ReadUserState. destruct (SafeCN cn) as [safe|]; [|done]. cbv zeta.
  rewrite bind_run, try_run. unfold read_user_dir.
  destruct (w_fault w _); [done|]. case_bool_decide; [|done]. cbn [fst snd]. rewrite bind_run.
  pose proof (read_optional_state (LUser safe "state") w) as H1.
  destruct (read_optional _ w) as [[e|m] w1]; simpl in H1; subst; [done|].
  destruct (match m with Some _ => _ | None => _ end) as [e|a]; [done|]. rewrite bind_run.
  assert (forall st, ((if u_limit_set st then mret st
     else l <- read_optional (LUser safe "limit") ;;
          match l with
          | None => mret st
          | Some raw => match parse_legacy_limit (usersDir +:+ "/" +:+ safe) raw with
                        | inl e => throw e
                        | inr n => mret (mkUser n true (u_disabled st) (u_name st) (u_name_set st))
                        end
          end) w).2 = w) as Hlimit.
  { intros st. destruct (u_limit_set st); [done|]. rewrite bind_run.
    pose proof (read_optional_state (LUser safe "limit") w) as H2.
    destruct (read_optional _ w) as [[e|l] w2]; simpl in H2; subst; [done|]. by repeat case_match. }
  destruct (pa_disabled_set a); [apply Hlimit|]. rewrite bind_run.
  pose proof (read_optional_state (LUser safe "disabled") w) as H3.
  destruct (read_optional _ w) as [[e|d] w3]; simpl in H3; subst; [done|]. apply Hlimit.
Qed.

(** The state depends on three files and on the folder. *)
Lemma policy_of_ext usersDir safe w w' :
  bool_decide (safe ∈ w_user_dirs w) = bool_decide (safe ∈ w_user_dirs w') ->
  (forall f, f ∈ ["state"; "disabled"; "limit"] ->
     w_files w !! LUser safe f = w_files w' !! LUser safe f) ->
  policy_of usersDir safe w = policy_of usersDir safe w'.
Proof.
  intros Hd Hf. unfold policy_of. rewrite Hd.
  rewrite (Hf "state"), (Hf "disabled"), (Hf "limit") by set_solver. done.
Qed.

(** A missing folder reads like an empty one. *)
Lemma policy_of_mkdir usersDir safe w w' :
  tree_ok w -> w_files w' = w_files w -> safe ∈ w_user_dirs w' ->
  policy_of usersDir safe w' = policy_of usersDir safe w.
Proof.
  intros Ht Hf Hd. unfold policy_of. rewrite Hf, (bool_decide_eq_true_2 _ Hd).
  case_bool_decide as Hw; [done|].
  assert (forall f, w_files w !! LUser safe f = None) as Hn.
  { intros f. destruct (w_files w !! LUser safe f) eqn:Hl; [|done].
    exfalso. apply Hw. eapply Ht. eauto. }
  by rewrite !Hn.
Qed.

(** ** The text the writer produces *)

Definition user_lines (cur : UserState) (name : option string) (limit : option Z)
    (disabled : option bool) : list (string * string) :=
  let effective := if u_limit_set cur then u_limit cur else 1%Z in
  let effective := match limit with Some n => Z.max 0 n | None => effective end in
  (if u_limit_set cur || bool_decide (is_Some limit) || bool_decide (is_Some disabled)
      || negb (bool_decide (is_Some name)) then [("limit", itoa effective)] else []) ++
  [("disabled", boolInt (default (u_disabled cur) disabled))] ++
  (if u_name_set cur then [("name", u_name cur)] else []).

Lemma policy_body_lines cur name limit disabled :
  policy_body cur name limit disabled = print_lines (user_lines cur name limit disabled).
Proof.
  unfold policy_body, user_lines. cbv zeta.
  assert ((match limit with Some n => if (n <? 0)%Z then 0%Z else n
           | None => if u_limit_set cur then u_limit cur else 1%Z end) =
          (match limit with Some n => Z.max 0 n
           | None => if u_limit_set cur then u_limit cur else 1%Z end)) as ->.
  { destruct limit as [n|]; [|done]. destruct (Z.ltb_spec n 0); lia. }
  replace (match disabled with Some b => b | None => u_disabled cur end)
    with (default (u_disabled cur) disabled) by by destruct disabled.
  destruct (_ || _ || _ || _), (u_name_set cur); simpl; by autorewrite with gostr.
Qed.

(** The state the written text stands for. *)
Definition merged_user (cur : UserState) (name : option string) (limit : option Z)
    (disabled : option bool) : UserState :=
  let keep := u_limit_set cur || bool_decide (is_Some limit) || bool_decide (is_Some disabled)
              || negb (bool_decide (is_Some name)) in
  let effective := match limit with
                   | Some n => Z.max 0 n
                   | None => if u_limit_set cur then u_limit cur else 1%Z
                   end in
  mkUser (if keep then effective else 0%Z) keep (default (u_disabled cur) disabled)
    (u_name cur) (u_name_set cur).

(** The states the reader can return. *)
Record wf_user (st : UserState) : Prop := {
  wu_limit : (0 <= u_limit st < two63)%Z;
  wu_unset : u_limit_set st = false -> u_limit st = 0%Z;
  wu_name : validateName (u_name st) = true;
  wu_noname : u_name_set st = false -> u_name st = ""
}.

Lemma validateName_no_nl s : validateName s = true -> no_char nl s = true.
Proof. apply str_forall_no_char. done. Qed.

Lemma isDigits_itoa z : (0 <= z)%Z -> isDigits (itoa z) = true.
Proof.
  intros Hz. rewrite itoa_nonneg by done. unfold isDigits. rewrite utoa_digits.
  pose proof (utoa_ne (Z.to_N z)). by destruct (utoa _).
Qed.

Lemma cut_kv k v : no_char "=" k = true -> cut "=" (k +:+ "=" +:+ v) = (k, v, true).
Proof. intros. change (k +:+ "=" +:+ v) with (k +:+ String "=" v). by rewrite cut_found. Qed.

Lemma line_limit path a n :
  (0 <= n < two63)%Z -> "limit" ∉ pa_seen a ->
  policy_line path a ("limit" +:+ "=" +:+ itoa n) =
  inr (mkAcc (mkUser n true (u_disabled (pa_user a)) (u_name (pa_user a)) (u_name_set (pa_user a)))
         ({["limit"]} ∪ pa_seen a) (pa_disabled_set a)).
Proof.
  intros Hn Hs. unfold policy_line. rewrite cut_kv by done. cbn [str_empty String.append].
  rewrite bool_decide_eq_false_2 by done. simpl.
  unfold atoi. rewrite parse_int_itoa by (unfold is_i64, two63 in *; lia).
  by rewrite isDigits_itoa by lia.
Qed.

Lemma line_disabled path a b :
  "disabled" ∉ pa_seen a ->
  policy_line path a ("disabled" +:+ "=" +:+ boolInt b) =
  inr (mkAcc (mkUser (u_limit (pa_user a)) (u_limit_set (pa_user a)) b
                (u_name (pa_user a)) (u_name_set (pa_user a)))
         ({["disabled"]} ∪ pa_seen a) true).
Proof.
  intros Hs. unfold policy_line. rewrite cut_kv by done. cbn [str_empty String.append].
  rewrite bool_decide_eq_false_2 by done. by destruct b.
Qed.

Lemma line_name path a n :
  validateName n = true -> "name" ∉ pa_seen a ->
  policy_line path a ("name" +:+ "=" +:+ n) =
  inr (mkAcc (mkUser (u_limit (pa_user a)) (u_limit_set (pa_user a)) (u_disabled (pa_user a)) n true)
         ({["name"]} ∪ pa_seen a) (pa_disabled_set a)).
Proof.
  intros Hn Hs. unfold policy_line. rewrite cut_kv by done. cbn [str_empty String.append].
  rewrite bool_decide_eq_false_2 by done. simpl. by rewrite Hn.
Qed.

Lemma merged_limit_range cur limit :
  wf_user cur -> from_option is_i64 True limit ->
  (0 <= match limit with Some n => Z.max 0 n | None => if u_limit_set cur then u_limit cur else 1 end
     < two63)%Z.
Proof.
  intros [Hl _ _ _] Hi. destruct limit as [n|]; simpl in Hi.
  - unfold is_i64, two63 in *. lia.
  - destruct (u_limit_set cur); [done|]. unfold two63. lia.
Qed.

Lemma user_lines_no_nl cur name limit disabled :
  wf_user cur ->
  Forall (fun kv => no_char nl kv.1 = true /\ no_char nl kv.2 = true)
    (user_lines cur name limit disabled).
Proof.
  intros Hw. unfold user_lines. cbv zeta. rewrite !Forall_app. split; [|split].
  - case_match; [|constructor]. constructor; [|constructor]. split; [done|]. by apply itoa_no_char.
  - constructor; [|constructor]. split; [done|]. by destruct (default _ _).
  - destruct (u_name_set cur); [|constructor]. constructor; [|constructor]. split; [done|].
    apply validateName_no_nl, Hw.
Qed.

(** The text the writer produces is read as the merged state. *)
Lemma parse_policy_body path cur name limit disabled :
  wf_user cur -> from_option is_i64 True limit ->
  exists a, parse_policy path (policy_body cur name limit disabled) = inr a /\
    pa_user a = merged_user cur name limit disabled /\ pa_disabled_set a = true.
Proof.
  intros Hw Hi. pose proof (merged_limit_range cur limit Hw Hi) as Hr.
  pose proof (wu_name _ Hw) as Hn.
  rewrite policy_body_lines. unfold parse_policy. rewrite split_print_lines by by apply user_lines_no_nl.
  unfold user_lines, merged_user. cbv zeta.
  destruct (u_limit_set cur || _ || _ || _) eqn:Hkeep, (u_name_set cur) eqn:Hns;
    cbn [map app fst snd policy_lines].
  - rewrite line_limit by (done || set_solver). rewrite line_disabled by set_solver.
    rewrite line_name by (done || set_solver).
    eexists. split; [reflexivity|done].
  - rewrite line_limit by (done || set_solver). rewrite line_disabled by set_solver.
    eexists. split; [reflexivity|]. by rewrite (wu_noname _ Hw).
  - rewrite line_disabled by set_solver. rewrite line_name by (done || set_solver).
    eexists. split; [reflexivity|done].
  - rewrite line_disabled by set_solver.
    eexists. split; [reflexivity|]. by rewrite (wu_noname _ Hw).
Qed.

(** ** What the reader accepts *)

Lemma atoi_digits_range v n : isDigits v = true -> atoi v = Some n -> (0 <= n < two63)%Z.
Proof.
  intros Hd Ha. unfold isDigits in Hd. boolify. unfold atoi in Ha.
  rewrite digit_first_not_sign in Ha by done. repeat case_match; simplify_eq. boolify. lia.
Qed.

Lemma validateName_empty : validateName "" = true.
Proof. done. Qed.

Lemma zero_user_wf : wf_user zero_user.
Proof. split; simpl; done. Qed.

Lemma policy_line_wf path a line a' :
  wf_user (pa_user a) -> policy_line path a line = inr a' -> wf_user (pa_user a').
Proof.
  intros Hw. unfold policy_line. case_match; [by intros [= <-]|]. cbv zeta.
  destruct (cut "=" line) as [[k v] ok]. case_match; [done|].
  destruct Hw as [H1 H2 H3 H4].
  repeat case_match; intros; simplify_eq; split; simpl; eauto using atoi_digits_range; done.
Qed.

Lemma parse_policy_wf path data a : parse_policy path data = inr a -> wf_user (pa_user a).
Proof.
  unfold parse_policy. destruct (policy_lines _ _ _) as [e|a0] eqn:Hp; [done|].
  case_match; [done|]. intros [= <-]. revert Hp.
  assert (wf_user (pa_user (mkAcc zero_user ∅ false))) as H0 by apply zero_user_wf.
  revert H0. generalize (mkAcc zero_user ∅ false). induction (split nl data) as [|l ls IH]; intros a Ha; simpl.
  - by intros [= <-].
  - destruct (policy_line path a l) as [e|a1] eqn:Hl; [done|]. apply IH. by eapply policy_line_wf.
Qed.

Lemma policy_of_wf usersDir safe w st : policy_of usersDir safe w = inr st -> wf_user st.
Proof.
  unfold policy_of. case_bool_decide; [|intros [= <-]; apply zero_user_wf]. cbv zeta.
  destruct (match w_files w !! _ with Some _ => _ | None => _ end) as [e|a] eqn:Hp; [done|].
  assert (wf_user (pa_user a)) as [H1 H2 H3 H4].
  { destruct (w_files w !! _); [by eapply parse_policy_wf|]. simplify_eq. apply zero_user_wf. }
  assert (forall raw n dir, parse_legacy_limit dir raw = inr n -> (0 <= n < two63)%Z) as Hlim.
  { intros raw n dir. unfold parse_legacy_limit. repeat case_match; intros; simplify_eq.
    all: by eapply atoi_digits_range. }
  destruct (pa_disabled_set a); repeat case_match; intros; simplify_eq; simpl in *;
    split; simpl; first [done | by eauto | congruence].
Qed.

(** ** Runs of the writer *)

Lemma create_user_run w cn safe :
  faultless w -> SafeCN cn = Some safe ->
  exists w', CreateUser cn w = (inr tt, w') /\ faultless w' /\ w_files w' = w_files w /\
    w_user_dirs w' = {[safe]} ∪ w_user_dirs w /\ w_users_dir w' = true.
Proof.
  intros Hf Hcn. unfold CreateUser. rewrite Hcn.
  unfold SetPermissions, mkdir_users, mkdir_user. rewrite !bind_run. rewrite (Hf _). simpl.
  rewrite !bind_run. simpl. rewrite (Hf _), bind_run. simpl. rewrite (Hf _), bind_run. simpl.
  rewrite (Hf _). simpl. rewrite (Hf _). by eexists.
Qed.

(** The current state with the name of the legacy file and the new name. *)
Definition with_name (w : World) (safe : string) (cur : UserState) (name : option string) : option UserState :=
  match (if u_name_set cur then Some cur
         else match w_files w !! LUser safe "name" with
              | None => Some cur
              | Some data =>
                  if validateName (trim_space data)
                  then Some (mkUser (u_limit cur) (u_limit_set cur) (u_disabled cur) (trim_space data) true)
                  else None
              end) with
  | None => None
  | Some c => Some (match name with
                    | Some n => mkUser (u_limit c) (u_limit_set c) (u_disabled c) n true
                    | None => c
                    end)
  end.

Lemma with_name_wf w safe cur name st :
  wf_user cur -> from_option validateName true name = true ->
  with_name w safe cur name = Some st -> wf_user st.
Proof.
  intros [H1 H2 H3 H4] Hn. unfold with_name.
  destruct name as [n|]; simpl in Hn; repeat case_match; intros; simplify_eq;
    split; simpl; first [done | by eauto | congruence].
Qed.

Lemma remove_if_run w l :
  faultless w -> remove_if_exists l w = (inr tt, set_files (delete l (w_files w)) w).
Proof.
  intros Hf. unfold remove_if_exists. rewrite bind_run, try_run. unfold remove_file. rewrite (Hf _).
  destruct (w_files w !! l) eqn:Hl; simpl; [done|].
  rewrite delete_id by done. by destruct w.
Qed.

(** The files the writer leaves. *)
Definition policy_files (safe body : string) (f : gmap loc string) : gmap loc string :=
  delete (LUser safe "name") (delete (LUser safe "disabled") (delete (LUser safe "limit")
    (<[LUser safe "state" := body]> (lock_files (LUser safe ".state.lock") f)))).

Lemma write_policy_run w usersDir cn safe cur st name limit disabled :
  faultless w -> tree_ok w -> SafeCN cn = Some safe ->
  from_option validateName true name = true ->
  policy_of usersDir safe w = inr cur -> with_name w safe cur name = Some st ->
  exists w', WriteUserPolicy usersDir cn name limit disabled w = (inr tt, w') /\
    faultless w' /\ w_files w' = policy_files safe (policy_body st name limit disabled) (w_files w) /\
    w_user_dirs w' = {[safe]} ∪ w_user_dirs w /\ c_data (w_name_cache w') = None /\
    w_users_dir w' = true.
Proof.
  intros Hf Ht Hcn Hn Hpol Hst. unfold WriteUserPolicy. rewrite bind_run.
  assert ((match name with Some n => if validateName n then mret tt else throw control_error
           | None => mret tt end : M unit) w = (inr tt, w)) as ->.
  { destruct name; simpl in *; [by rewrite Hn|done]. }
  rewrite Hcn, bind_run.
  destruct (create_user_run w cn safe Hf Hcn) as (w1 & -> & Hf1 & Hfi1 & Hd1 & Hu1).
  assert (safe ∈ w_user_dirs w1) as Hin by (rewrite Hd1; set_solver).
  rewrite Lock_ok; [|apply Hf1|by apply bool_decide_eq_true_2].
  set (w2 := set_files _ w1).
  assert (faultless w2) as Hf2 by done.
  assert (forall f, f <> ".state.lock" -> w_files w2 !! LUser safe f = w_files w !! LUser safe f) as Hl2.
  { intros f Hne. simpl. rewrite lock_files_ne by congruence. by rewrite Hfi1. }
  rewrite bind_run, (read_user_run w2 usersDir cn safe) by done.
  assert (policy_of usersDir safe w2 = inr cur) as ->.
  { rewrite (policy_of_ext usersDir safe w2 w1); [|done|].
    - rewrite (policy_of_mkdir _ _ w w1); done.
    - intros f Hfm. rewrite Hl2 by (intros ->; set_solver). by rewrite Hfi1. }
  rewrite bind_run.
  assert (legacy_name safe cur w2 = match with_name w safe cur None with
            | Some c => (inr c, w2) | None => (inl control_error, w2) end) as ->.
  { unfold legacy_name, with_name. destruct (u_name_set cur); [done|].
    rewrite bind_run, read_optional_run, Hl2 by done.
    destruct (w_files w !! LUser safe "name"); [|done]. cbv zeta. by case_match. }
  destruct (with_name w safe cur None) as [c|] eqn:Hc; [|exfalso; unfold with_name in *; by repeat case_match].
  assert (st = match name with Some n => mkUser (u_limit c) (u_limit_set c) (u_disabled c) n true
               | None => c end) as <-.
  { unfold with_name in *. repeat case_match; by simplify_eq. }
  cbv zeta. rewrite bind_run, write_file_ok; [|apply Hf2|by apply bool_decide_eq_true_2].
  rewrite bind_run. unfold sync_user_dir. cbn [w_fault w_user_dirs set_files]. rewrite (Hf2 _).
  rewrite bool_decide_eq_true_2 by done. rewrite bind_run. unfold InvalidateNameCache, modify.
  simpl. rewrite bind_run, remove_if_run by done. rewrite bind_run, remove_if_run by done.
  rewrite bind_run, remove_if_run by done.
  eexists. split; [done|]. split; [done|]. split; [|done].
  simpl. by rewrite Hfi1.
Qed.

Lemma policy_of_written usersDir safe w st name limit disabled :
  wf_user st -> from_option is_i64 True limit -> safe ∈ w_user_dirs w ->
  w_files w !! LUser safe "state" = Some (policy_body st name limit disabled) ->
  w_files w !! LUser safe "limit" = None ->
  policy_of usersDir safe w = inr (merged_user st name limit disabled).
Proof.
  intros Hw Hi Hd Hs Hl. unfold policy_of. rewrite bool_decide_eq_true_2, Hs, Hl by done.
  destruct (parse_policy_body (usersDir +:+ "/" +:+ safe +:+ "/state") st name limit disabled Hw Hi)
    as (a & Hp & Hu & Hd').
  replace ((usersDir +:+ "/" +:+ safe) +:+ "/state") with (usersDir +:+ "/" +:+ safe +:+ "/state")
    by by autorewrite with gostr.
  rewrite Hp, Hu, Hd'. by case_match.
Qed.

(** A corrupt state stops the writer before it writes. *)
Lemma write_policy_corrupt w usersDir cn safe e name limit disabled :
  faultless w -> tree_ok w -> SafeCN cn = Some safe ->
  from_option validateName true name = true -> policy_of usersDir safe w = inl e ->
  exists w', WriteUserPolicy usersDir cn name limit disabled w = (inl e, w') /\
    forall l, l <> LUser safe ".state.lock" -> w_files w' !! l = w_files w !! l.
Proof.
  intros Hf Ht Hcn Hn Hpol. unfold WriteUserPolicy. rewrite bind_run.
  assert ((match name with Some n => if validateName n then mret tt else throw control_error
           | None => mret tt end : M unit) w = (inr tt, w)) as ->.
  { destruct name; simpl in *; [by rewrite Hn|done]. }
  rewrite Hcn, bind_run.
  destruct (create_user_run w cn safe Hf Hcn) as (w1 & -> & Hf1 & Hfi1 & Hd1 & _).
  assert (safe ∈ w_user_dirs w1) as Hin by (rewrite Hd1; set_solver).
  rewrite Lock_ok; [|apply Hf1|by apply bool_decide_eq_true_2].
  rewrite bind_run, (read_user_run _ usersDir cn safe) by done.
  rewrite (policy_of_ext usersDir safe _ w1); [|done|].
  - rewrite (policy_of_mkdir _ _ w w1), Hpol by done. eexists. split; [done|].
    intros l Hl. simpl. rewrite lock_files_ne by done. by rewrite Hfi1.
  - intros f Hfm. simpl. apply lock_files_ne. intros [= ->]. set_solver.
Qed.

(** ** Properties *)

(** Writing a policy merges it: whatever format the user was stored in,
    the next read returns the current state with exactly the given fields
    replaced (a negative limit becomes 0, an unset one the default 1), the
    name of a legacy [name] file is kept, the legacy split files are gone and
    no other file changes. *)
Theorem policy_write_merges w usersDir cn safe cur st name limit disabled :
  faultless w -> tree_ok w -> SafeCN cn = Some safe ->
  from_option validateName true name = true -> from_option is_i64 True limit ->
  ReadUserState usersDir cn w = (inr cur, w) -> with_name w safe cur name = Some st ->
  exists w', WriteUserPolicy usersDir cn name limit disabled w = (inr tt, w') /\
    ReadUserState usersDir cn w' = (inr (merged_user st name limit disabled), w') /\
    Forall (fun f => w_files w' !! LUser safe f = None) ["limit"; "disabled"; "name"] /\
    (forall l, l ∉ map (LUser safe) ["state"; ".state.lock"; "limit"; "disabled"; "name"] ->
       w_files w' !! l = w_files w !! l).
Proof.
  intros Hf Ht Hcn Hn Hi Hread Hst. rewrite (read_user_run w usersDir cn safe) in Hread by done.
  injection Hread as Hpol.
  destruct (write_policy_run w usersDir cn safe cur st name limit disabled)
    as (w' & Hrun & Hf' & Hfiles & Hd & _); [done..|].
  exists w'. split; [done|]. rewrite (read_user_run w' usersDir cn safe) by done.
  assert (wf_user st) as Hw by (eapply with_name_wf; eauto using policy_of_wf).
  split; [|split].
  - f_equal. apply policy_of_written; [done|done|set_solver|..]; rewrite Hfiles; unfold policy_files;
      repeat (rewrite lookup_delete_ne by done); [by rewrite lookup_insert_eq|by rewrite lookup_delete_eq].
  - rewrite Hfiles. unfold policy_files. forall_list;
      repeat first [rewrite lookup_delete_eq; done | rewrite lookup_delete_ne by done].
  - intros l Hl. rewrite Hfiles. unfold policy_files.
    rewrite !lookup_delete_ne, lookup_insert_ne by set_solver. apply lock_files_ne. set_solver.
Qed.

Definition legacy_user_world : World :=
  set_user_dirs true {["42"]} (set_files
    (<[LUser "42" "limit" := "3" +:+ str1 nl]> (<[LUser "42" "disabled" := ""]>
      (<[LUser "42" "name" := "ann" +:+ str1 nl]> ∅))) demo_world).

Lemma legacy_tree_ok : tree_ok legacy_user_world.
Proof.
  intros cn f [x Hx]. unfold legacy_user_world in *. cbn [w_files w_user_dirs set_user_dirs set_files] in *.
  apply elem_of_singleton.
  repeat (apply lookup_insert_Some in Hx as [[Heq _]|[_ Hx]]; [by simplify_eq|]).
  by rewrite lookup_empty in Hx.
Qed.

Lemma policy_write_merges_witness :
  exists w', WriteUserPolicy "/u" "42" None None (Some false) legacy_user_world = (inr tt, w') /\
    ReadUserState "/u" "42" w' = (inr (mkUser 3 true false "ann" true), w') /\
    w_files w' !! LUser "42" "disabled" = None.
Proof.
  destruct (policy_write_merges legacy_user_world "/u" "42" "42" (mkUser 3 true true "" false)
    (mkUser 3 true true "ann" true) None None (Some false) demo_faultless legacy_tree_ok
    eq_refl eq_refl I ltac:(vm_compute; reflexivity) ltac:(vm_compute; reflexivity))
    as (w' & H1 & H2 & H3 & _).
  exists w'. split; [exact H1|]. split; [exact H2|]. inversion_clear H3. by inversion_clear H0.
Defined.

(** The merged file decides the disabled flag once it speaks about it; the
    legacy marker is honoured only when it does not.  In particular a user the
    merged file enables stays enabled whatever legacy files remain. *)
Theorem merged_flag_is_authoritative w usersDir cn safe data a :
  faultless w -> SafeCN cn = Some safe -> safe ∈ w_user_dirs w ->
  w_files w !! LUser safe "state" = Some data ->
  parse_policy (usersDir +:+ "/" +:+ safe +:+ "/state") data = inr a ->
  u_limit_set (pa_user a) = true ->
  exists st, ReadUserState usersDir cn w = (inr st, w) /\
    u_limit st = u_limit (pa_user a) /\ u_name st = u_name (pa_user a) /\
    u_disabled st = if pa_disabled_set a then u_disabled (pa_user a)
                    else bool_decide (is_Some (w_files w !! LUser safe "disabled"))
                         || u_disabled (pa_user a).
Proof.
  intros Hf Hcn Hd Hs Hp Hl. rewrite (read_user_run w usersDir cn safe) by done.
  unfold policy_of. rewrite bool_decide_eq_true_2, Hs by done.
  replace ((usersDir +:+ "/" +:+ safe) +:+ "/state") with (usersDir +:+ "/" +:+ safe +:+ "/state")
    by by autorewrite with gostr.
  rewrite Hp. destruct (pa_disabled_set a).
  - rewrite Hl. by eexists.
  - simpl. rewrite Hl. eexists. split; [done|]. simpl. split; [done|]. split; [done|].
    by destruct (w_files w !! LUser safe "disabled").
Qed.

Definition reenabled_world : World :=
  set_user_dirs true {["42"]} (set_files
    (<[LUser "42" "state" := print_lines [("limit", "2"); ("disabled", "0")]]>
      (<[LUser "42" "disabled" := ""]> ∅)) demo_world).

Lemma merged_flag_is_authoritative_witness :
  exists st, ReadUserState "/u" "42" reenabled_world = (inr st, reenabled_world) /\
    u_limit st = 2%Z /\ u_disabled st = false.
Proof.
  destruct (merged_flag_is_authoritative reenabled_world "/u" "42" "42"
    (print_lines [("limit", "2"); ("disabled", "0")])
    (mkAcc (mkUser 2 true false "" false) {["disabled"; "limit"]} true)
    demo_faultless eq_refl ltac:(vm_compute; reflexivity) eq_refl ltac:(vm_compute; reflexivity) eq_refl)
    as (st & H1 & H2 & _ & H3).
  exists st. split; [exact H1|]. split; [exact H2|exact H3].
Defined.

(** A policy that cannot be read is never overwritten.  When the state
    file (or the legacy limit) is corrupt, reading reports the error, every
    write reports the same error, and no user file changes: a damaged file
    cannot turn a disabled or limited user into an unrestricted one. *)
Theorem corrupt_policy_is_kept w usersDir cn safe e n b :
  faultless w -> tree_ok w -> SafeCN cn = Some safe ->
  ReadUserState usersDir cn w = (inl e, w) ->
  exists w1 w2, SetLimit usersDir cn n w = (inl e, w1) /\
    SetDisabled usersDir cn b w = (inl e, w2) /\
    (forall l, l <> LUser safe ".state.lock" ->
       w_files w1 !! l = w_files w !! l /\ w_files w2 !! l = w_files w !! l).
Proof.
  intros Hf Ht Hcn Hread. rewrite (read_user_run w usersDir cn safe) in Hread by done.
  injection Hread as Hpol. unfold SetLimit, SetDisabled, WriteUserState.
  destruct (write_policy_corrupt w usersDir cn safe e None (Some n) None) as (w1 & H1 & Hl1); [done..|].
  destruct (write_policy_corrupt w usersDir cn safe e None None (Some b)) as (w2 & H2 & Hl2); [done..|].
  exists w1, w2. split; [done|]. split; [done|]. intros l Hl. by rewrite Hl1, Hl2.
Qed.

Definition corrupt_user_world : World :=
  set_user_dirs true {["42"]} (set_files
    (<[LUser "42" "state" := print_lines [("limit", "2"); ("limit", "0")]]> ∅) demo_world).

Lemma corrupt_user_tree_ok : tree_ok corrupt_user_world.
Proof.
  intros cn f [x Hx]. unfold corrupt_user_world in *. cbn [w_files w_user_dirs set_user_dirs set_files] in *.
  apply elem_of_singleton. apply lookup_insert_Some in Hx as [[Heq _]|[_ Hx]]; [by simplify_eq|].
  by rewrite lookup_empty in Hx.
Qed.

Lemma corrupt_policy_is_kept_witness :
  exists w1, SetLimit "/u" "42" 0 corrupt_user_world = (inl (Errorf "corrupt policy /u/42/state"), w1) /\
    w_files w1 !! LUser "42" "state" = Some (print_lines [("limit", "2"); ("limit", "0")]).
Proof.
  destruct (corrupt_policy_is_kept corrupt_user_world "/u" "42" "42"
    (Errorf "corrupt policy /u/42/state") 0 false demo_faultless corrupt_user_tree_ok eq_refl
    ltac:(vm_compute; reflexivity)) as (w1 & w2 & H1 & _ & H3).
  exists w1. split; [exact H1|]. destruct (H3 (LUser "42" "state") ltac:(discriminate)) as [-> _].
  reflexivity.
Defined.

(** An accepted policy says each thing at most once and says it well: a
    state the reader returns has a limit in the range of [int], no control
    character in the name, and a limit or name only if it is set. *)
Theorem accepted_policy_is_well_formed w usersDir cn st w' :
  faultless w -> ReadUserState usersDir cn w = (inr st, w') ->
  w' = w /\ wf_user st.
Proof.
  intros Hf Hread. destruct (SafeCN cn) as [safe|] eqn:Hcn.
  - rewrite (read_user_run w usersDir cn safe) in Hread by done. injection Hread as Hpol <-.
    split; [done|]. by eapply policy_of_wf.
  - exfalso. unfold ReadUserState in Hread. by rewrite Hcn in Hread.
Qed.

Lemma accepted_policy_is_well_formed_witness :
  exists st, ReadUserState "/u" "42" reenabled_world = (inr st, reenabled_world) /\ wf_user st.
Proof.
  destruct (accepted_policy_is_well_formed reenabled_world "/u" "42" (mkUser 2 true false "" false)
    reenabled_world demo_faultless ltac:(vm_compute; reflexivity)) as [_ H].
  exists (mkUser 2 true false "" false). split; [vm_compute; reflexivity|exact H].
Defined.

(** Deleting a user removes its folder and its two lock files and nothing
    else; the user then reads as one without any state, and the cached names
    are dropped. *)
Theorem delete_user_is_exact w usersDir safe :
  faultless w -> StoreKeyRe safe = true ->
  exists w', DeleteUser true true safe w = (inr tt, w') /\
    ReadUserState usersDir safe w' = (inr zero_user, w') /\
    c_data (w_name_cache w') = None /\
    (forall l, w_files w' !! l =
       if bool_decide (user_of l = Some safe \/ l = LSession (".lock." +:+ safe)
                       \/ l = LUsage (".lock." +:+ safe))
       then None else w_files w !! l) /\
    w_user_dirs w' = w_user_dirs w ∖ {[safe]}.
Proof.
  intros Hf Hk. pose proof (SafeCN_key _ Hk) as Hcn. unfold DeleteUser. rewrite Hcn, bind_run.
  unfold remove_user_dir. rewrite (Hf _). rewrite bind_run, remove_if_run by done.
  rewrite bind_run, remove_if_run by done. unfold InvalidateUsageCache, InvalidateNameCache, modify.
  eexists. split; [reflexivity|]. split; [|split; [done|split; [|done]]].
  - rewrite (read_user_run _ usersDir safe safe) by done. unfold policy_of.
    rewrite bool_decide_eq_false_2; [done|]. cbn. set_solver.
  - intros l. cbn [w_files set_name_cache set_files set_user_dirs].
    destruct (decide (l = LUsage (".lock." +:+ safe))) as [->|H1].
    { rewrite lookup_delete_eq. by rewrite bool_decide_eq_true_2 by eauto. }
    rewrite lookup_delete_ne by done.
    destruct (decide (l = LSession (".lock." +:+ safe))) as [->|H2].
    { rewrite lookup_delete_eq. by rewrite bool_decide_eq_true_2 by eauto. }
    rewrite lookup_delete_ne by done. rewrite map_lookup_filter.
    destruct (w_files w !! l); simpl; [|by case_bool_decide].
    case_guard; case_bool_decide; naive_solver.
Qed.

Lemma delete_user_is_exact_witness :
  exists w', DeleteUser true true "42" legacy_user_world = (inr tt, w') /\
    ReadUserState "/u" "42" w' = (inr zero_user, w').
Proof.
  destruct (delete_user_is_exact legacy_user_world "/u" "42" demo_faultless eq_refl)
    as (w' & H1 & H2 & _).
  exists w'. split; [exact H1|exact H2].
Defined.

(** ** The name map *)

(** The name a user reads as when no file operation fails. *)
Definition name_of (usersDir safe : string) (w : World) : string :=
  match policy_of usersDir safe w with
  | inl _ => ""
  | inr st =>
      if u_name_set st then trim_space (u_name st)
      else match w_files w !! LUser safe "name" with
           | None => ""
           | Some data => trim_space data
           end
  end.

Lemma read_name_run w usersDir safe :
  faultless w -> StoreKeyRe safe = true -> ReadName usersDir safe w = (inr (name_of usersDir safe w), w).
Proof.
  intros Hf Hk. pose proof (SafeCN_key _ Hk) as Hcn. unfold ReadName, name_of.
  rewrite bind_run, try_run, (read_user_run w usersDir safe safe) by done. cbn [fst snd].
  destruct (policy_of usersDir safe w) as [e|st]; [done|]. destruct (u_name_set st); [done|].
  rewrite Hcn, bind_run, try_run. unfold readPolicyFile. rewrite read_file_run by apply Hf. simpl.
  by destruct (w_files w !! LUser safe "name").
Qed.

Definition names_of (usersDir : string) (w : World) (cns : list string) (m : gmap string string)
  : gmap string string :=
  foldl (fun m cn => if str_empty (name_of usersDir cn w) then m
                     else <[cn := name_of usersDir cn w]> m) m cns.

Lemma collect_names_run w usersDir cns m :
  faultless w -> Forall (fun cn => StoreKeyRe cn = true) cns ->
  collect_names usersDir cns m w = (inr (names_of usersDir w cns m), w).
Proof.
  intros Hf Hk. revert m. induction Hk as [|cn cns Hcn _ IH]; intros m; simpl; [done|].
  rewrite bind_run, read_name_run by done. apply IH.
Qed.

Lemma lookup_names_of usersDir w cns m cn :
  names_of usersDir w cns m !! cn =
  if bool_decide (cn ∈ cns) && negb (str_empty (name_of usersDir cn w))
  then Some (name_of usersDir cn w) else m !! cn.
Proof.
  revert m. induction cns as [|c cns IH]; intros m; simpl; [done|]. rewrite IH.
  destruct (decide (cn = c)) as [->|Hne].
  - rewrite (bool_decide_eq_true_2 (c ∈ c :: cns)) by left. simpl.
    destruct (str_empty (name_of usersDir c w)); simpl; rewrite ?andb_false_r; [done|].
    rewrite lookup_insert_eq. by case_bool_decide.
  - assert (bool_decide (cn ∈ cns) = bool_decide (cn ∈ c :: cns)) as <-.
    { apply bool_decide_ext. rewrite elem_of_cons. naive_solver. }
    destruct (str_empty (name_of usersDir c w)); [done|]. by rewrite lookup_insert_ne.
Qed.

Lemma list_users_run w :
  faultless w -> exists l, ListUsers w = (inr l, w) /\
    Forall (fun cn => StoreKeyRe cn = true) l /\
    (w_users_dir w = true -> forall cn, cn ∈ l <-> StoreKeyRe cn = true /\ cn ∈ w_user_dirs w).
Proof.
  intros Hf. unfold ListUsers. rewrite bind_run, try_run. unfold read_users_dir. rewrite (Hf _).
  destruct (w_users_dir w); simpl.
  - eexists. split; [done|].
    assert (forall cn, cn ∈ sort_strings (filter (fun n => StoreKeyRe n = true)
        (sort_strings (elements (w_user_dirs w)))) <-> StoreKeyRe cn = true /\ cn ∈ w_user_dirs w) as He.
    { intros cn. by rewrite elem_of_sort_strings, list_elem_of_filter, elem_of_sort_strings,
        elem_of_elements. }
    split; [|intros _; done]. apply Forall_forall. intros cn. rewrite He. tauto.
  - eexists. split; [done|]. split; [constructor|done].
Qed.

Lemma name_map_run w usersDir :
  faultless w -> w_users_dir w = true -> c_data (w_name_cache w) = None ->
  exists m w', NameMap usersDir w = (inr m, w') /\ w_files w' = w_files w /\
    (forall cn, m !! cn =
      if StoreKeyRe cn && bool_decide (cn ∈ w_user_dirs w) && negb (str_empty (name_of usersDir cn w))
      then Some (name_of usersDir cn w) else None).
Proof.
  intros Hf Hd Hc. unfold NameMap. rewrite bind_run. unfold NameCacheGet, gets, cache_get. rewrite Hc.
  rewrite bind_run. destruct (list_users_run w Hf) as (l & -> & Hl & Hin).
  rewrite bind_run, collect_names_run by done. eexists _, _. split; [reflexivity|]. split; [done|].
  intros cn. rewrite lookup_names_of, lookup_empty.
  assert (bool_decide (cn ∈ l) = StoreKeyRe cn && bool_decide (cn ∈ w_user_dirs w)) as ->; [|done].
  specialize (Hin Hd cn). destruct (StoreKeyRe cn); simpl;
    repeat case_bool_decide; naive_solver.
Qed.

(** A name written is a name seen: right after [WriteName] the name map,
    cached or not before, maps the user to the trimmed name, and the reverse
    lookup finds the user, whatever order the map is visited in, when no other
    user has that name. *)
Theorem written_name_is_visible w usersDir safe cur name n order :
  faultless w -> tree_ok w -> StoreKeyRe safe = true -> validateName name = true ->
  trim_space name = n -> n <> "" ->
  ReadUserState usersDir safe w = (inr cur, w) -> with_name w safe cur None <> None ->
  (forall m, order m ≡ₚ elements (dom m)) ->
  exists w1 m w2, WriteName usersDir safe name w = (inr tt, w1) /\
    NameMap usersDir w1 = (inr m, w2) /\ m !! safe = Some n /\
    exists w3 cn, CNForName usersDir order n w1 = (inr cn, w3) /\ m !! cn = Some n /\
      ((forall cn', m !! cn' = Some n -> cn' = safe) -> cn = safe).
Proof.
  intros Hf Ht Hk Hn Htrim Hne Hread Hwn Hord. pose proof (SafeCN_key _ Hk) as Hcn.
  rewrite (read_user_run w usersDir safe safe) in Hread by done. injection Hread as Hpol.
  destruct (with_name w safe cur None) as [c|] eqn:Hc; [|done].
  assert (exists st, with_name w safe cur (Some name) = Some st /\ u_name st = name /\
    u_name_set st = true) as (st & Hst & Hname & Hset).
  { unfold with_name in *. repeat case_match; simplify_eq; by eexists. }
  destruct (write_policy_run w usersDir safe safe cur st (Some name) None None)
    as (w1 & Hrun & Hf1 & Hfiles & Hd1 & Hcache & Hud); [done..|].
  assert (wf_user st) as Hw by (eapply (with_name_wf w safe cur (Some name)); eauto using policy_of_wf).
  assert (name_of usersDir safe w1 = n) as Hnm.
  { unfold name_of. rewrite (policy_of_written usersDir safe w1 st (Some name) None None);
      [|done|done|set_solver|..].
    - unfold merged_user. cbn [u_name_set u_name]. by rewrite Hset, Hname.
    - rewrite Hfiles. unfold policy_files. repeat (rewrite lookup_delete_ne by done).
      by rewrite lookup_insert_eq.
    - rewrite Hfiles. unfold policy_files. repeat (rewrite lookup_delete_ne by done).
      by rewrite lookup_delete_eq. }
  destruct (name_map_run w1 usersDir Hf1 Hud Hcache) as (m & w2 & Hm & _ & Hlook).
  assert (m !! safe = Some n) as Hsafe.
  { rewrite Hlook, Hnm, Hk. rewrite bool_decide_eq_true_2 by set_solver. by destruct n. }
  exists w1, m, w2. split; [done|]. split; [done|]. split; [done|].
  unfold CNForName. rewrite bind_run, Hm. eexists _, _. split; [reflexivity|].
  assert (safe ∈ filter (fun cn => m !! cn = Some n) (order m)) as Hin.
  { rewrite list_elem_of_filter, (Hord m), elem_of_elements_dom. eauto. }
  unfold cn_for_name. destruct (filter _ (order m)) as [|cn l] eqn:Hfl.
  - by apply elem_of_nil in Hin.
  - assert (m !! cn = Some n) as Hcn'.
    { assert (cn ∈ cn :: l) as H by left. rewrite <- Hfl, list_elem_of_filter in H. tauto. }
    split; [done|]. intros Huniq. by apply Huniq.
Qed.

Lemma written_name_is_visible_witness :
  exists w1 m w2, WriteName "/u" "42" " bob " legacy_user_world = (inr tt, w1) /\
    NameMap "/u" w1 = (inr m, w2) /\ m !! "42" = Some "bob".
Proof.
  destruct (written_name_is_visible legacy_user_world "/u" "42" (mkUser 3 true true "" false)
    " bob " "bob" (fun m => elements (dom m)) demo_faultless legacy_tree_ok eq_refl eq_refl ltac:(vm_compute; reflexivity)
    ltac:(discriminate) ltac:(vm_compute; reflexivity) ltac:(vm_compute; discriminate)
    (fun m => reflexivity _)) as (w1 & m & w2 & H1 & H2 & H3 & _).
  exists w1, m, w2. split; [exact H1|]. split; [exact H2|exact H3].
Defined.
