(* ===== verification/Status.v ===== *)
(** * Status: internal/ovpn/status.go.

    The OpenVPN status file: its lines, its columns and the sessions in it. *)

From S2P Require Import Prelude GoString World.
From Stdlib Require Import Ascii.

(** ** Data *)

Record Session : Type := mkSession {
  s_cn : string;
  s_real : string;
  s_ip : string;
  s_port : string;
  s_virtual : string;
  s_rx : Z;
  s_tx : Z;
  s_client : string;
  s_connected : Z
}.

Abbreviation columns := (gmap string Z).

Definition defaultColumns : columns := list_to_map
  [("Common Name", 1%Z); ("Real Address", 2%Z); ("Virtual Address", 3%Z);
   ("Bytes Received", 5%Z); ("Bytes Sent", 6%Z); ("Client ID", 10%Z);
   ("Connected Since (time_t)", 8%Z)].

Fixpoint assign_columns (names : list string) (idx : Z) (cols : columns) : columns :=
  match names with
  | [] => cols
  | name :: names' =>
      assign_columns names' (idx + 1)
        (if bool_decide (is_Some (cols !! name)) then <[name := (idx + 1)%Z]> cols else cols)
  end.

(** [None] is the panic of the slice [headerParts[2:]]. *)
Definition columnMap (headerParts : list string) : option columns :=
  match headerParts with
  | _ :: _ :: names => Some (assign_columns names 0 defaultColumns)
  | _ => None
  end.

(** ** Fields *)

Definition field (parts : list string) (idx : Z) : string :=
  if (idx <? 0)%Z || (Z.of_nat (length parts) <=? idx)%Z then ""
  else trim_space (default "" (parts !! Z.to_nat idx)).

Definition bracket (c : ascii) : bool := byte_in 91 91 c || byte_in 93 93 c.

Definition splitRealAddress (real : string) : string * string :=
  if str_empty real then ("", "")
  else match rcut ":" real with
       | Some (a, b) => (trim_set bracket a, b)
       | None => (real, "")
       end.

Definition number (value : string) : Z := default 0%Z (parse_uint value).

Definition col (cols : columns) (name : string) : Z := default 0%Z (cols !! name).

(** ** Lines *)

(** [bufio.Scanner] with a buffer of 1 MiB: the lines, a trailing carriage
    return dropped, up to the first one that does not fit. *)
Definition maxToken : Z := 1048576.

Fixpoint scan_go (l : list string) : list string * bool :=
  match l with
  | [] => ([], true)
  | [s] =>
      if str_empty s then ([], true)
      else if (Z.of_nat (String.length s) <? maxToken)%Z then ([trim_suffix s (str1 cr)], true)
      else ([], false)
  | s :: l' =>
      if (Z.of_nat (String.length s) <? maxToken)%Z then
        let '(ls, ok) := scan_go l' in (trim_suffix s (str1 cr) :: ls, ok)
      else ([], false)
  end.

(** The lines and whether the scanner reached the end without an error. *)
Definition scan_lines (data : string) : list string * bool := scan_go (split nl data).

Definition delim_of (line : string) : ascii :=
  if contains line (str1 tab) then tab else ","%char.

Definition is_header (line : string) : bool := has_prefix line "HEADER" && contains line "CLIENT_LIST".

(** The session of a [CLIENT_LIST] line; [None] for a row without a name. *)
Definition client_row (cols : columns) (parts : list string) : option Session :=
  let cn := field parts (col cols "Common Name") in
  if str_empty cn || String.eqb cn "Common Name" then None
  else
    let real := field parts (col cols "Real Address") in
    let '(ip, port) := splitRealAddress real in
    Some (mkSession cn real ip port
      (field parts (col cols "Virtual Address"))
      (number (field parts (col cols "Bytes Received")))
      (number (field parts (col cols "Bytes Sent")))
      (field parts (col cols "Client ID"))
      (to_i64 (number (field parts (col cols "Connected Since (time_t)"))))).

(** The loop of [ParseSessions]; [None] is a panic. *)
Fixpoint parse_rows (cols : columns) (lines : list string) : option (list Session) :=
  match lines with
  | [] => Some []
  | raw :: lines' =>
      let line := trim_right_set is_cr raw in
      let parts := split (delim_of line) line in
      if is_header line then
        match columnMap parts with
        | Some cols' => parse_rows cols' lines'
        | None => None
        end
      else if negb (has_prefix line "CLIENT_LIST") then parse_rows cols lines'
      else match client_row cols parts with
           | None => parse_rows cols lines'
           | Some s => match parse_rows cols lines' with
                       | Some l => Some (s :: l)
                       | None => None
                       end
           end
  end.

(** Reading the status file: [None] when it cannot be opened. *)
Definition open_status (path : loc) : M (option string) :=
  r <- try (read_file path) ;;
  match r with inl _ => mret None | inr data => mret (Some data) end.

(** The panic of [columnMap]. *)
Definition panic : goerr := Panic "slice bounds out of range".

Definition ParseSessions (path : loc) : M (list Session) :=
  f <- open_status path ;;
  match f with
  | None => mret []
  | Some data =>
      match parse_rows defaultColumns (scan_lines data).1 with
      | Some l => mret l
      | None => throw panic
      end
  end.

Definition SessionsForCN (path : loc) (cn : string) : M (list Session) :=
  l <- ParseSessions path ;;
  mret (filter (fun s => s_cn s = cn) l).

Definition LivePools (path : loc) : M (gset string) :=
  l <- ParseSessions path ;;
  mret (list_to_set (filter (fun a => a <> "") (map s_virtual l))).

(** ** Snapshots *)

Record StatusSnapshot : Type := mkSnap {
  sn_sessions : list Session;
  sn_updated : Z;
  sn_complete : bool
}.

Definition time_of (parts : list string) (updated : Z) : Z :=
  if (3 <=? length parts)%nat then
    match parse_int (trim_space (default "" (last parts))) with
    | Some n => n
    | None => updated
    end
  else updated.

Fixpoint snapshot_rows (cols : columns) (lines : list string) (snap : StatusSnapshot)
  : option StatusSnapshot :=
  match lines with
  | [] => Some snap
  | raw :: lines' =>
      let line := trim_right_set is_cr raw in
      let parts := split (delim_of line) line in
      if is_header line then
        match columnMap parts with
        | Some cols' => snapshot_rows cols' lines' snap
        | None => None
        end
      else if has_prefix line "TIME" then
        snapshot_rows cols lines'
          (mkSnap (sn_sessions snap) (time_of parts (sn_updated snap)) (sn_complete snap))
      else if has_prefix line "CLIENT_LIST" then
        match client_row cols parts with
        | None => snapshot_rows cols lines' snap
        | Some s => snapshot_rows cols lines'
                      (mkSnap (sn_sessions snap ++ [s]) (sn_updated snap) (sn_complete snap))
        end
      else if String.eqb (trim_space line) "END" then
        snapshot_rows cols lines' (mkSnap (sn_sessions snap) (sn_updated snap) true)
      else snapshot_rows cols lines' snap
  end.

Definition snapshot_of (data : string) : goerr + StatusSnapshot :=
  let '(lines, ok) := scan_lines data in
  match snapshot_rows defaultColumns lines (mkSnap [] 0 false) with
  | None => inl panic
  | Some snap =>
      if negb ok then inl (Errorf "bufio.Scanner: token too long")
      else if negb (sn_complete snap) then inl (Errorf "incomplete status snapshot")
      else inr snap
  end.

Definition ReadStatusSnapshot (path : loc) : M StatusSnapshot :=
  data <- read_file path ;;
  match snapshot_of data with
  | inl e => throw e
  | inr snap => mret snap
  end.

(** ** Lemmas *)

Lemma ParseSessions_touches L p : touches L (ParseSessions p).
Proof. unfold ParseSessions, open_status. touch_solve. Qed.
Lemma SessionsForCN_touches L p cn : touches L (SessionsForCN p cn).
Proof. unfold SessionsForCN. touch_solve. apply ParseSessions_touches. Qed.
Lemma ReadStatusSnapshot_touches L p : touches L (ReadStatusSnapshot p).
Proof. unfold ReadStatusSnapshot. touch_solve. Qed.
#[export] Hint Resolve ParseSessions_touches SessionsForCN_touches ReadStatusSnapshot_touches : touch.

(** The snapshot loop collects exactly the rows of the plain loop. *)
Lemma snapshot_rows_parse cols lines snap snap' :
  snapshot_rows cols lines snap = Some snap' ->
  exists l, parse_rows cols lines = Some l /\ sn_sessions snap' = sn_sessions snap ++ l.
Proof.
  revert cols snap. induction lines as [|raw lines IH]; intros cols snap; simpl.
  - intros [= <-]. exists []. by rewrite app_nil_r.
  - destruct (is_header _).
    { destruct (columnMap _); [|done]. apply IH. }
    destruct (has_prefix (trim_right_set is_cr raw) "TIME") eqn:Htime.
    { assert (has_prefix (trim_right_set is_cr raw) "CLIENT_LIST" = false) as ->.
      { apply has_prefix_spec in Htime as [t ->]. done. }
      simpl. intros H. by apply IH in H. }
    destruct (has_prefix _ "CLIENT_LIST"); simpl.
    { destruct (client_row _ _) as [s|]; [|apply IH].
      intros (l & -> & Hl)%IH. exists (s :: l). split; [done|]. rewrite Hl. simpl.
      by rewrite <- app_assoc. }
    case_match; by intros ?%IH.
Qed.

(** A snapshot is complete only if an END line was seen. *)
Lemma snapshot_rows_end cols lines snap snap' :
  snapshot_rows cols lines snap = Some snap' -> sn_complete snap = false -> sn_complete snap' = true ->
  exists raw, raw ∈ lines /\ trim_space (trim_right_set is_cr raw) = "END".
Proof.
  revert cols snap. induction lines as [|raw lines IH]; intros cols snap; simpl.
  - intros [= <-]. congruence.
  - intros H H0 H1.
    assert ((exists raw', raw' ∈ lines /\ trim_space (trim_right_set is_cr raw') = "END") ->
      exists raw', raw' ∈ raw :: lines /\ trim_space (trim_right_set is_cr raw') = "END") as Hw.
    { intros (r & Hr & He). exists r. split; [by right|done]. }
    destruct (is_header _).
    { destruct (columnMap _); [|done]. apply Hw. by eapply IH. }
    destruct (has_prefix _ "TIME"); [apply Hw; by eapply IH|].
    destruct (has_prefix _ "CLIENT_LIST").
    { destruct (client_row _ _); apply Hw; by eapply IH. }
    destruct (String.eqb_spec (trim_space (trim_right_set is_cr raw)) "END") as [He|_].
    + exists raw. split; [left|done].
    + apply Hw. by eapply IH.
Qed.

Lemma trim_suffix_ne s c : match String.rev s with String d _ => d <> c | "" => True end ->
  trim_suffix s (str1 c) = s.
Proof.
  intros H. unfold trim_suffix, has_suffix. change (String.rev (str1 c)) with (str1 c).
  destruct (String.rev s) as [|d t]; simpl; [done|].
  by destruct (Ascii.ascii_dec c d) as [->|].
Qed.

Lemma trim_suffix_no s c : no_char c s = true -> trim_suffix s (str1 c) = s.
Proof.
  intros H. apply trim_suffix_ne.
  pose proof (str_forall_rev (fun a => negb (Ascii.eqb a c)) s) as Hr. unfold no_char in H. rewrite H in Hr.
  destruct (String.rev s) as [|d t]; [done|]. simpl in Hr. boolify.
  destruct (Ascii.eqb_spec d c); done.
Qed.

(** A text of short lines without control characters is scanned line by line. *)
Lemma scan_lines_plain l :
  l <> [] ->
  Forall (fun s => no_char nl s = true /\ no_char cr s = true /\ (Z.of_nat (String.length s) < maxToken)%Z) l ->
  scan_lines (join (str1 nl) (l ++ [""])) = (l, true).
Proof.
  intros Hne Hl. unfold scan_lines. rewrite split_join.
  - clear Hne. induction Hl as [|s l (H1 & H2 & H3) _ IH]; [done|].
    cbn [app]. cbn [scan_go]. destruct (l ++ [""]) as [|s' l'] eqn:Heq; [by destruct l|].
    apply Z.ltb_lt in H3. rewrite H3. rewrite IH. by rewrite trim_suffix_no.
  - by destruct l.
  - apply Forall_app. split; [|by repeat constructor].
    eapply Forall_impl; [exact Hl|]. simpl. tauto.
Qed.

(** ** The file OpenVPN writes

    Status format 2 (comma) and 3 (tab), as a reference for the reader. *)

Definition header_names : list string :=
  ["HEADER"; "CLIENT_LIST"; "Common Name"; "Real Address"; "Virtual Address";
   "Virtual IPv6 Address"; "Bytes Received"; "Bytes Sent"; "Connected Since";
   "Connected Since (time_t)"; "Username"; "Client ID"; "Peer ID"].

Definition client_fields (s : Session) : list string :=
  ["CLIENT_LIST"; s_cn s; s_real s; s_virtual s; ""; itoa (s_rx s); itoa (s_tx s); "then";
   itoa (s_connected s); "UNDEF"; s_client s; "0"].

Definition client_line (d : ascii) (s : Session) : string := join (str1 d) (client_fields s).

Definition status_lines (d : ascii) (updated : Z) (rows : list Session) : list string :=
  [join (str1 d) ["TITLE"; "OpenVPN"]; join (str1 d) ["TIME"; "now"; itoa updated];
   join (str1 d) header_names] ++ map (client_line d) rows ++ ["END"].

Definition status_text (d : ascii) (updated : Z) (rows : list Session) : string :=
  join (str1 nl) (status_lines d updated rows ++ [""]).

Definition clean_field (d : ascii) : string -> bool :=
  str_forall (fun c => is_graph c && negb (Ascii.eqb c d)).

(** A session OpenVPN can list. *)
Record clean_session (d : ascii) (s : Session) : Prop := {
  cs_fields : Forall (fun f => clean_field d f = true) [s_cn s; s_real s; s_virtual s; s_client s];
  cs_named : s_cn s <> "";
  cs_addr : splitRealAddress (s_real s) = (s_ip s, s_port s);
  cs_bytes : is_u64 (s_rx s) /\ is_u64 (s_tx s);
  cs_time : (0 <= s_connected s < two63)%Z;
  cs_short : (Z.of_nat (String.length (client_line d s)) < maxToken)%Z
}.

Definition is_delim (d : ascii) : Prop := d = tab \/ d = ","%char.

Lemma clean_graph d s : clean_field d s = true -> str_forall is_graph s = true /\ no_char d s = true.
Proof.
  intros H. split; (eapply str_forall_impl; [|exact H]); simpl; intros a;
    by destruct (is_graph a), (Ascii.eqb a d).
Qed.

Lemma itoa_clean d z : is_delim d -> (0 <= z)%Z -> clean_field d (itoa z) = true.
Proof.
  intros Hd Hz. rewrite itoa_nonneg by done. unfold clean_field.
  eapply str_forall_impl; [|apply utoa_digits]. intros a Ha.
  destruct Hd as [-> | ->]; destruct a as [[][][][][][][][]]; done.
Qed.

(** The fields of a rendered row. *)
Lemma client_fields_clean d s :
  is_delim d -> clean_session d s -> Forall (fun f => clean_field d f = true) (client_fields s).
Proof.
  intros Hd [Hf _ _ [Hr Ht] Hc _]. rewrite !Forall_cons in Hf. destruct Hf as (H1 & H2 & H3 & H4 & _).
  unfold is_u64, two63 in *. unfold client_fields.
  repeat (apply Forall_cons_2; [first [done | apply itoa_clean; [done|lia] | by destruct Hd as [-> | ->]]|]).
  apply Forall_nil_2.
Qed.

Lemma join_forall p d l : p d = true -> Forall (fun s => str_forall p s = true) l ->
  str_forall p (join (str1 d) l) = true.
Proof.
  intros Hd Hl. induction Hl as [|x l Hx Hl IH]; [done|]. destruct l as [|y l]; [done|].
  rewrite join_cons, !str_forall_app, Hx, IH. simpl. by rewrite Hd.
Qed.

(** Every character of a rendered row is printable or the delimiter. *)
Definition row_char (d c : ascii) : bool := is_graph c || Ascii.eqb c d.

Lemma client_line_chars d s :
  is_delim d -> clean_session d s -> str_forall (row_char d) (client_line d s) = true.
Proof.
  intros Hd Hs. apply join_forall; [unfold row_char; by rewrite Ascii.eqb_refl, orb_true_r|].
  eapply Forall_impl; [by apply client_fields_clean|]. simpl. intros f Hf.
  eapply str_forall_impl; [|exact Hf]. intros a. unfold row_char. by destruct (is_graph a).
Qed.

Lemma trim_right_set_no p s : str_forall (fun c => negb (p c)) s = true -> trim_right_set p s = s.
Proof. apply trim_right_set_id. Qed.

Lemma row_char_no_cr d s : is_delim d -> str_forall (row_char d) s = true ->
  trim_right_set is_cr s = s /\ no_char nl s = true /\ no_char cr s = true.
Proof.
  intros Hd Hs. split; [apply trim_right_set_no|split]; (eapply str_forall_impl; [|exact Hs]);
    intros a; destruct Hd as [-> | ->]; destruct a as [[][][][][][][][]]; done.
Qed.

Lemma contains_no_char s c : no_char c s = true -> contains s (str1 c) = false.
Proof.
  induction s as [|a s IH]; [done|]. cbn [no_char str_forall]. intros [Ha Hs]%andb_true_iff.
  cbn [contains]. rewrite IH by done. apply negb_true_iff, Ascii.eqb_neq in Ha.
  unfold has_prefix. simpl. by destruct (Ascii.ascii_dec c a).
Qed.

Lemma contains_app a c b : contains (a +:+ String c b) (str1 c) = true.
Proof. apply contains_skip. change (String c b) with (str1 c +:+ b). apply contains_prefix. Qed.

(** The delimiter a rendered row is read with. *)
Lemma client_line_delim d s :
  is_delim d -> clean_session d s -> delim_of (client_line d s) = d.
Proof.
  intros Hd Hs. unfold delim_of. destruct Hd as [-> | ->].
  - assert (exists t, client_line tab s = "CLIENT_LIST" +:+ String tab t) as [t ->] by by eexists.
    by rewrite contains_app.
  - assert (no_char tab (client_line "," s) = true) as Hn.
    { eapply str_forall_impl; [|apply client_line_chars; [by right|done]].
      intros a. destruct a as [[][][][][][][][]]; done. }
    by rewrite contains_no_char.
Qed.

Lemma field_nth parts i f :
  parts !! i = Some f -> str_forall is_graph f = true -> field parts (Z.of_nat i) = f.
Proof.
  intros Hi Hg. unfold field. pose proof (lookup_lt_Some _ _ _ Hi).
  destruct (Z.ltb_spec (Z.of_nat i) 0); [lia|].
  destruct (Z.leb_spec (Z.of_nat (length parts)) (Z.of_nat i)); [lia|]. simpl.
  rewrite Nat2Z.id, Hi. by apply trim_space_graph.
Qed.

Lemma client_row_fields d s :
  is_delim d -> clean_session d s -> client_row defaultColumns (client_fields s) = Some s.
Proof.
  intros Hd Hs. pose proof (client_fields_clean d s Hd Hs) as Hall.
  assert (forall i f, client_fields s !! i = Some f -> field (client_fields s) (Z.of_nat i) = f) as Hfield.
  { intros i f Hi. apply field_nth; [done|].
    apply (clean_graph d). by eapply (proj1 (Forall_lookup _ _) Hall). }
  destruct Hs as [Hf Hne Haddr [Hr Ht] Hc _]. rewrite Forall_cons in Hf. destruct Hf as [Hcn _].
  unfold client_row.
  change (col defaultColumns "Common Name") with (Z.of_nat 1).
  change (col defaultColumns "Real Address") with (Z.of_nat 2).
  change (col defaultColumns "Virtual Address") with (Z.of_nat 3).
  change (col defaultColumns "Bytes Received") with (Z.of_nat 5).
  change (col defaultColumns "Bytes Sent") with (Z.of_nat 6).
  change (col defaultColumns "Client ID") with (Z.of_nat 10).
  change (col defaultColumns "Connected Since (time_t)") with (Z.of_nat 8).
  rewrite (Hfield 1%nat _ eq_refl), (Hfield 2%nat _ eq_refl), (Hfield 3%nat _ eq_refl),
    (Hfield 5%nat _ eq_refl), (Hfield 6%nat _ eq_refl), (Hfield 8%nat _ eq_refl),
    (Hfield 10%nat _ eq_refl).
  assert (str_empty (s_cn s) || String.eqb (s_cn s) "Common Name" = false) as ->.
  { destruct (str_empty (s_cn s)) eqn:He; [by apply str_empty_true in He|]. simpl.
    destruct (String.eqb_spec (s_cn s) "Common Name") as [Heq|]; [|done].
    apply clean_graph in Hcn as [Hg _]. by rewrite Heq in Hg. }
  rewrite Haddr. unfold number. rewrite !parse_uint_itoa by (unfold is_u64, two63, two64 in *; lia).
  simpl. rewrite to_i64_id by (unfold is_i64, two63 in *; lia). by destruct s.
Qed.

(** One rendered row extends the snapshot by its session. *)
Lemma snapshot_client_line d s lines snap :
  is_delim d -> clean_session d s ->
  snapshot_rows defaultColumns (client_line d s :: lines) snap =
  snapshot_rows defaultColumns lines
    (mkSnap (sn_sessions snap ++ [s]) (sn_updated snap) (sn_complete snap)).
Proof.
  intros Hd Hs. cbn [snapshot_rows].
  destruct (row_char_no_cr d _ Hd (client_line_chars d s Hd Hs)) as [-> _].
  rewrite client_line_delim by done.
  assert (split d (client_line d s) = client_fields s) as ->.
  { apply split_join; [done|]. eapply Forall_impl; [by apply client_fields_clean|].
    simpl. intros f Hf. apply (clean_graph d f Hf). }
  rewrite (client_row_fields d) by done. done.
Qed.

Lemma snapshot_client_lines d rows lines snap :
  is_delim d -> Forall (clean_session d) rows ->
  snapshot_rows defaultColumns (map (client_line d) rows ++ lines) snap =
  snapshot_rows defaultColumns lines
    (mkSnap (sn_sessions snap ++ rows) (sn_updated snap) (sn_complete snap)).
Proof.
  intros Hd Hr. revert snap. induction Hr as [|s rows Hs _ IH]; intros snap.
  - rewrite app_nil_r. by destruct snap.
  - cbn [map app]. rewrite snapshot_client_line by done. rewrite IH. simpl. by rewrite <- app_assoc.
Qed.

Lemma snapshot_status_lines d updated rows :
  is_delim d -> (0 <= updated < two63)%Z -> Forall (clean_session d) rows ->
  snapshot_rows defaultColumns (status_lines d updated rows) (mkSnap [] 0 false) =
  Some (mkSnap rows updated true).
Proof.
  intros Hd Hu Hr. unfold status_lines. cbn [app].
  assert (forall snap lines,
    snapshot_rows defaultColumns (join (str1 d) ["TITLE"; "OpenVPN"] :: lines) snap =
    snapshot_rows defaultColumns lines snap) as ->.
  { intros snap lines. by destruct Hd as [-> | ->]. }
  assert (forall snap lines,
    snapshot_rows defaultColumns (join (str1 d) ["TIME"; "now"; itoa updated] :: lines) snap =
    snapshot_rows defaultColumns lines (mkSnap (sn_sessions snap) updated (sn_complete snap))) as ->.
  { intros snap lines. cbn [snapshot_rows].
    destruct (clean_graph d _ (itoa_clean d updated Hd ltac:(lia))) as [Hg Hn].
    assert (str_forall (row_char d) (join (str1 d) ["TIME"; "now"; itoa updated]) = true) as Hrow.
    { apply join_forall; [unfold row_char; by rewrite Ascii.eqb_refl, orb_true_r|].
      forall_list; try (by destruct Hd as [-> | ->]).
      eapply str_forall_impl; [|exact Hg]. intros a Ha. unfold row_char. by rewrite Ha. }
    destruct (row_char_no_cr d _ Hd Hrow) as [-> _].
    assert (delim_of (join (str1 d) ["TIME"; "now"; itoa updated]) = d) as ->.
    { unfold delim_of. destruct Hd as [-> | ->].
      - change (join (str1 tab) ["TIME"; "now"; itoa updated])
          with ("TIME" +:+ String tab (join (str1 tab) ["now"; itoa updated])). by rewrite contains_app.
      - rewrite contains_no_char; [done|]. eapply str_forall_impl; [|exact Hrow].
        intros a. destruct a as [[][][][][][][][]]; done. }
    rewrite split_join; [|done|forall_list; by destruct Hd as [-> | ->]].
    change (is_header (join (str1 d) ["TIME"; "now"; itoa updated])) with false.
    change (has_prefix (join (str1 d) ["TIME"; "now"; itoa updated]) "TIME") with true.
    unfold time_of. cbn [length Nat.leb last default from_option id].
    rewrite trim_space_graph by done. rewrite parse_int_itoa by (unfold is_i64, two63 in *; lia). done. }
  assert (forall snap lines,
    snapshot_rows defaultColumns (join (str1 d) header_names :: lines) snap =
    snapshot_rows defaultColumns lines snap) as ->.
  { intros snap lines. by destruct Hd as [-> | ->]. }
  rewrite snapshot_client_lines by done. done.
Qed.

Lemma status_lines_plain d updated rows :
  is_delim d -> (0 <= updated < two63)%Z -> Forall (clean_session d) rows ->
  Forall (fun s => no_char nl s = true /\ no_char cr s = true /\
    (Z.of_nat (String.length s) < maxToken)%Z) (status_lines d updated rows).
Proof.
  intros Hd Hu Hr. unfold status_lines. cbn [app].
  apply Forall_cons_2; [by destruct Hd as [-> | ->]|].
  apply Forall_cons_2; [|apply Forall_cons_2; [by destruct Hd as [-> | ->]|]].
  - destruct (clean_graph d _ (itoa_clean d updated Hd ltac:(lia))) as [Hg _].
    cbn [join]. rewrite !no_char_app, (str_forall_no_char is_graph nl _ eq_refl Hg),
      (str_forall_no_char is_graph cr _ eq_refl Hg).
    split; [by destruct Hd as [-> | ->]|]. split; [by destruct Hd as [-> | ->]|].
    rewrite !length_app_s, itoa_nonneg by lia.
    pose proof (utoa_length (Z.to_N updated) 62) as Hlen. rewrite Z2N.id in Hlen by lia.
    change (2 ^ Z.of_nat 63)%Z with two63 in Hlen. specialize (Hlen ltac:(lia)).
    change (String.length "TIME") with 4%nat. change (String.length "now") with 3%nat.
    change (String.length (str1 d)) with 1%nat. unfold maxToken. lia.
  - apply Forall_app. split; [|by repeat constructor].
    apply Forall_map. eapply Forall_impl; [exact Hr|]. intros s Hs. simpl.
    destruct (row_char_no_cr d _ Hd (client_line_chars d s Hd Hs)) as (_ & H1 & H2).
    split; [done|]. split; [done|]. apply Hs.
Qed.

(** ** Properties *)


Definition demo_session : Session :=
  mkSession "42" "203.0.113.9:51000" "203.0.113.9" "51000" "10.8.0.2" 1000 2500 "7" 1699999990.

Lemma demo_session_clean : clean_session tab demo_session.
Proof.
  split; [forall_list|done|done|split; unfold is_u64, two64; simpl; lia
    |unfold two63; simpl; lia|vm_compute; done].
Qed.


(** A snapshot that is returned is whole.  It saw an END line and every
    line fitted the scanner, and its sessions are exactly those the hook's
    reader finds in the same file; a torn file without END, a file with an
    overlong line and a missing file are errors, never an empty snapshot. *)
Theorem snapshot_is_whole w path snap w' :
  ReadStatusSnapshot path w = (inr snap, w') ->
  exists data, w_files w !! path = Some data /\ (scan_lines data).2 = true /\
    (exists raw, raw ∈ (scan_lines data).1 /\ trim_space (trim_right_set is_cr raw) = "END") /\
    ParseSessions path w = (inr (sn_sessions snap), w).
Proof.
  unfold ReadStatusSnapshot. rewrite bind_run. unfold read_file.
  destruct (w_fault w (OpRead path)) eqn:Hf; [done|].
  destruct (w_files w !! path) as [data|] eqn:Hd; [|done].
  destruct (snapshot_of data) as [e|snap'] eqn:Hs; [done|]. intros H.
  assert (snap' = snap) as -> by by injection H. clear H.
  exists data. split; [done|]. unfold snapshot_of in Hs.
  destruct (scan_lines data) as [lines ok] eqn:Hl.
  destruct (snapshot_rows defaultColumns lines (mkSnap [] 0 false)) as [s0|] eqn:Hr; [|done].
  destruct ok; [|done]. destruct (sn_complete s0) eqn:Hc; [|done]. simpl in Hs. simplify_eq.
  split; [done|]. split; [by eapply snapshot_rows_end|].
  destruct (snapshot_rows_parse _ _ _ _ Hr) as (l & Hp & Heq).
  unfold ParseSessions, open_status. rewrite bind_run, bind_run, try_run. unfold read_file.
  rewrite Hf, Hd. cbn [fst snd]. unfold mret at 1, M_ret at 1. rewrite Hl. cbn [fst].
  rewrite Hp. unfold mret, M_ret. by rewrite Heq.
Qed.

Definition status_world : World :=
  set_files (<[LAbs "status" := status_text tab 1700000000 [demo_session]]> ∅) demo_world.

Lemma snapshot_is_whole_witness :
  ParseSessions (LAbs "status") status_world = (inr [demo_session], status_world).
Proof.
  destruct (snapshot_is_whole status_world (LAbs "status") (mkSnap [demo_session] 1700000000 true)
    status_world ltac:(vm_compute; reflexivity)) as (data & _ & _ & _ & H).
  exact H.
Defined.

Lemma assign_columns_other names idx cols name :
  name ∉ names -> assign_columns names idx cols !! name = cols !! name.
Proof.
  revert idx cols. induction names as [|n names IH]; intros idx cols Hn; simpl; [done|].
  rewrite IH by set_solver. case_bool_decide; [|done]. apply lookup_insert_ne. set_solver.
Qed.

Lemma assign_columns_lookup names idx cols name i :
  NoDup names -> names !! i = Some name -> is_Some (cols !! name) ->
  assign_columns names idx cols !! name = Some (idx + Z.of_nat i + 1)%Z.
Proof.
  intros Hnd. revert idx cols i. induction Hnd as [|n names Hn _ IH]; intros idx cols i Hi Hc; [done|].
  destruct i as [|i]; simpl in *.
  - injection Hi as ->. rewrite assign_columns_other by done.
    rewrite (bool_decide_eq_true_2 _ Hc), lookup_insert_eq. f_equal. lia.
  - rewrite (IH _ _ i); [f_equal; lia|done|]. case_bool_decide as Hb; [|done].
    apply lookup_insert_is_Some'. by right.
Qed.

(** The header decides the columns.  For a header line that names a known
    column once at position [i] after HEADER and CLIENT_LIST, a data row is
    read at the position that drops HEADER; a column the header does not name
    keeps the default of OpenVPN 2.4; a header line that does not split into
    two parts is the panic of the slice. *)
Theorem header_resolves_columns h1 h2 names name i :
  NoDup names -> is_Some (defaultColumns !! name) ->
  (names !! i = Some name ->
     exists cols, columnMap (h1 :: h2 :: names) = Some cols /\
       forall row f, row !! S i = Some f -> field row (col cols name) = trim_space f) /\
  (name ∉ names ->
     exists cols, columnMap (h1 :: h2 :: names) = Some cols /\
       col cols name = col defaultColumns name) /\
  columnMap [h1] = None.
Proof.
  intros Hnd Hd. split; [|split; [|done]].
  - intros Hi. eexists. split; [done|]. intros row f Hf. unfold col.
    rewrite (assign_columns_lookup _ _ _ _ i) by done. simpl.
    replace (0 + Z.of_nat i + 1)%Z with (Z.of_nat (S i)) by lia.
    unfold field. pose proof (lookup_lt_Some _ _ _ Hf).
    destruct (Z.ltb_spec (Z.of_nat (S i)) 0); [lia|].
    destruct (Z.leb_spec (Z.of_nat (length row)) (Z.of_nat (S i))); [lia|]. cbn [orb].
    by rewrite Nat2Z.id, Hf.
  - intros Hn. eexists. split; [done|]. unfold col. by rewrite assign_columns_other.
Qed.

Lemma header_resolves_columns_witness :
  exists cols, columnMap ["HEADER"; "CLIENT_LIST"; "Common Name"; "Real Address"; "Bytes Sent"] = Some cols /\
    field ["CLIENT_LIST"; "42"; "1.2.3.4:5"; "2500"] (col cols "Bytes Sent") = "2500".
Proof.
  destruct (header_resolves_columns "HEADER" "CLIENT_LIST" ["Common Name"; "Real Address"; "Bytes Sent"]
    "Bytes Sent" 2) as [H _].
  - repeat constructor; set_solver.
  - eexists. reflexivity.
  - destruct (H eq_refl) as (cols & H1 & H2). exists cols. split; [exact H1|].
    rewrite (H2 ["CLIENT_LIST"; "42"; "1.2.3.4:5"; "2500"] "2500" eq_refl). vm_compute. reflexivity.
Defined.
