(* ===== verification/NetIP.v ===== *)
(** * NetIP: the parts of the package net the program uses.

    [net.ParseIP] as a list of eight 16-bit groups (an IPv4 address is its
    IPv4-mapped form) and [IP.IsLoopback]. *)

From S2P Require Import Prelude GoString.
From Stdlib Require Import Ascii.

(** A decimal octet: no leading zero, at most 255. *)
Definition parse_octet (s : string) : option Z :=
  match parse_digits s with
  | Some n =>
      if (1 <? String.length s)%nat && has_prefix s "0" then None
      else if (n <=? 255)%N then Some (Z.of_N n) else None
  | None => None
  end.

Definition parse_ipv4 (s : string) : option (list Z) :=
  match map parse_octet (split "." s) with
  | [Some a; Some b; Some c; Some d] => Some [a; b; c; d]
  | _ => None
  end.

Definition hex_value (c : ascii) : option Z :=
  let n := Z.of_N (N_of_ascii c) in
  if is_digit c then Some (n - 48)%Z
  else if byte_in 97 102 c then Some (n - 87)%Z
  else if byte_in 65 70 c then Some (n - 55)%Z
  else None.

(** The hexadecimal digits at the start: value, number of digits, rest. *)
Fixpoint take_hex (acc : Z) (n : nat) (s : string) : Z * nat * string :=
  match s with
  | "" => (acc, n, "")
  | String c s' =>
      match hex_value c with
      | Some v => take_hex (acc * 16 + v)%Z (S n) s'
      | None => (acc, n, s)
      end
  end.

(** The groups before and after the ellipsis, once one was seen. *)
Fixpoint ipv6_go (fuel : nat) (before : list Z) (after : option (list Z)) (s : string)
  : option (list Z * option (list Z)) :=
  let count := (length before + from_option length 0 after)%nat in
  let push v := match after with
                | None => (before ++ v, None)
                | Some a => (before, Some (a ++ v))
                end in
  match fuel with
  | O => if str_empty s then Some (before, after) else None
  | S f =>
      if (8 <=? count)%nat then (if str_empty s then Some (before, after) else None)
      else
        let '(v, n, rest) := take_hex 0 0 s in
        if (n =? 0)%nat || (4 <? n)%nat then None
        else match rest with
        | String "." _ =>
            if match after with None => negb (count =? 6)%nat | Some _ => (6 <? count)%nat end then None
            else match parse_ipv4 s with
                 | Some [a; b; c; d] => Some (push [(a * 256 + b)%Z; (c * 256 + d)%Z])
                 | _ => None
                 end
        | "" => Some (push [v])
        | String ":" rest' =>
            let '(before, after) := push [v] in
            match rest' with
            | "" => None
            | String ":" rest'' =>
                match after with
                | Some _ => None
                | None => if str_empty rest'' then Some (before, Some [])
                          else ipv6_go f before (Some []) rest''
                end
            | _ => ipv6_go f before after rest'
            end
        | _ => None
        end
  end.

Definition expand (r : option (list Z * option (list Z))) : option (list Z) :=
  match r with
  | Some (before, None) => if (length before =? 8)%nat then Some before else None
  | Some (before, Some a) =>
      let n := (length before + length a)%nat in
      if (n <? 8)%nat then Some (before ++ repeat 0%Z (8 - n) ++ a) else None
  | None => None
  end.

Definition parse_ipv6 (s : string) : option (list Z) :=
  if has_prefix s "::" then
    let s := str_drop 2 s in
    if str_empty s then Some (repeat 0%Z 8) else expand (ipv6_go 9 [] (Some []) s)
  else expand (ipv6_go 9 [] None s).

(** The first of the characters that decide the family. *)
Fixpoint ip_kind (s : string) : option ascii :=
  match s with
  | "" => None
  | String c s' =>
      if byte_in 46 46 c || byte_in 58 58 c || byte_in 37 37 c then Some c else ip_kind s'
  end.

Definition map_v4 (l : list Z) : list Z :=
  match l with
  | [a; b; c; d] => [0; 0; 0; 0; 0; 65535; a * 256 + b; c * 256 + d]%Z
  | _ => []
  end.

(** [net.ParseIP]: a zone is not accepted. *)
Definition ParseIP (s : string) : option (list Z) :=
  match ip_kind s with
  | Some "."%char => map_v4 <$> parse_ipv4 s
  | Some ":"%char => if negb (no_char "%" s) then None else parse_ipv6 s
  | _ => None
  end.

(** ** Printing *)

(** The lower-case hexadecimal digits of a group without leading zeros. *)
Definition hex_char (v : Z) : ascii := ascii_of_N (Z.to_N (if (v <? 10)%Z then v + 48 else v + 87)%Z).
Fixpoint hex_group (fuel : nat) (v : Z) (acc : string) : string :=
  let acc := String (hex_char (v mod 16)) acc in
  match fuel with
  | O => acc
  | S f => if (v <? 16)%Z then acc else hex_group f (v / 16) acc
  end.

(** The zeros at the start. *)
Fixpoint zeros (l : list Z) : nat :=
  match l with 0%Z :: l' => S (zeros l') | _ => 0 end.

(** The first longest run of at least two zero groups: its start and length. *)
Fixpoint zero_run (i : nat) (l : list Z) (best : nat * nat) : nat * nat :=
  match l with
  | [] => best
  | _ :: l' =>
      let n := zeros l in
      zero_run (S i) l' (if (2 <=? n)%nat && (best.2 <? n)%nat then (i, n) else best)
  end.

Definition print_groups (l : list Z) : string := join ":" (map (fun g => hex_group 3 g "") l).

Definition print_ipv6 (l : list Z) : string :=
  match zero_run 0 l (0%nat, 0%nat) with
  | (_, O) => print_groups l
  | (start, n) => print_groups (take start l) +:+ "::" +:+ print_groups (drop (start + n) l)
  end.

(** [IP.To4]. *)
Definition To4 (ip : list Z) : option (list Z) :=
  match ip with
  | [0; 0; 0; 0; 0; 65535; g; h]%Z => Some [(g / 256)%Z; (g mod 256)%Z; (h / 256)%Z; (h mod 256)%Z]
  | _ => None
  end.

(** [IP.String]. *)
Definition IPString (ip : list Z) : string :=
  match To4 ip with
  | Some v4 => join "." (map itoa v4)
  | None => print_ipv6 ip
  end.

(** [net.ParseCIDR]: the address, the masked address and the length of the
    mask.  The length is a number of digits, leading zeros allowed, up to the
    bits of the family the text is written in. *)
Definition mask_group (n i g : Z) : Z :=
  let keep := Z.max 0 (Z.min 16 (n - 16 * i)) in (g - g mod 2 ^ (16 - keep))%Z.
Definition mask_ip (n : Z) (ip : list Z) : list Z := zip_with (mask_group n) [0; 1; 2; 3; 4; 5; 6; 7]%Z ip.

Definition ParseCIDR (s : string) : option (list Z * list Z * Z) :=
  let '(addr, mask, ok) := cut "/" s in
  if negb ok then None
  else match ParseIP addr, parse_digits mask with
       | Some ip, Some n =>
           let v4 := match ip_kind addr with Some "."%char => true | _ => false end in
           let bits := if v4 then 32%Z else 128%Z in
           let n := Z.of_N n in
           if (bits <? n)%Z then None
           else Some (ip, mask_ip (if v4 then n + 96 else n)%Z ip, n)
       | _, _ => None
       end.

(** The first octet of an IPv4 or IPv4-mapped address. *)
Definition IsLoopback (ip : list Z) : bool :=
  match ip with
  | [0; 0; 0; 0; 0; 65535; g; _]%Z => (g / 256 =? 127)%Z
  | _ => bool_decide (ip = [0; 0; 0; 0; 0; 0; 0; 1]%Z)
  end.

Example loopback_v4 : IsLoopback <$> ParseIP "127.0.0.1" = Some true.
Proof. reflexivity. Qed.
Example loopback_v6 : IsLoopback <$> ParseIP "::1" = Some true.
Proof. reflexivity. Qed.
Example loopback_mapped : IsLoopback <$> ParseIP "::ffff:127.9.0.1" = Some true.
Proof. reflexivity. Qed.
Example not_loopback : IsLoopback <$> ParseIP "2001:db8::7" = Some false.
Proof. reflexivity. Qed.
Example ip_leading_zero : ParseIP "127.0.0.01" = None.
Proof. reflexivity. Qed.
Example ip_eight_groups : ParseIP "1:2:3:4:5:6:7:8" = Some [1; 2; 3; 4; 5; 6; 7; 8]%Z.
Proof. reflexivity. Qed.
Example ip_ellipsis_needs_room : ParseIP "1:2:3:4::5:6:7:8" = None.
Proof. reflexivity. Qed.
Example print_v4 : IPString <$> ParseIP "192.0.2.7" = Some "192.0.2.7".
Proof. reflexivity. Qed.
Example print_v6 : IPString <$> ParseIP "2001:0DB8:0:0:1:0:0:0" = Some "2001:db8:0:0:1::".
Proof. reflexivity. Qed.
Example print_any : IPString <$> ParseIP "0:0::0" = Some "::".
Proof. reflexivity. Qed.
Example print_mapped : IPString <$> ParseIP "::ffff:1.2.3.4" = Some "1.2.3.4".
Proof. reflexivity. Qed.
Example cidr_masked : (fun r => IPString r.1.2) <$> ParseCIDR "fd42:1:2:3:4::9/064" = Some "fd42:1:2:3::".
Proof. reflexivity. Qed.
Example cidr_too_long : ParseCIDR "10.0.0.0/33" = None.
Proof. reflexivity. Qed.
