(* ===== verification/PkiIndex.v ===== *)
(** * PkiIndex: the certificate index of internal/pki/ca.go.

    The rows of index.txt, the hexadecimal serials and the dates: reading,
    writing and the revocation entry of a row. *)

From S2P Require Import Prelude GoString Json World Time.
From Stdlib Require Import Ascii.

(** ** Serial numbers *)

(** The value of hexadecimal digits after [acc]. *)
Fixpoint hex_value (acc : N) (s : string) : option N :=
  match s with
  | "" => Some acc
  | String c s' =>
      match hex_val c with
      | Some d => hex_value (acc * 16 + d)%N s'
      | None => None
      end
  end.

(** [hexNumber]; [None] is its error. *)
Definition hexNumber (value : string) : option N :=
  if str_empty value then None else hex_value 0 value.

Definition HEX (n : N) : ascii := if (n <? 10)%N then ascii_of_N (48 + n) else ascii_of_N (55 + n).

Fixpoint hex_go (fuel : nat) (n : N) (acc : string) : string :=
  match fuel with
  | O => acc
  | S f => if (n <? 16)%N then String (HEX n) acc
           else hex_go f (n / 16)%N (String (HEX (n mod 16)%N) acc)
  end.

(** [fmt.Sprintf("%X", n)]; a digit per bit is more than enough. *)
Definition hex_upper (n : N) : string := hex_go (S (N.to_nat (N.size n))) n "".

(** ** Rows *)

(** status, expiry, revocation, serial, file and name. *)
Record Row : Type := mkRow {
  r_status : string; r_expiry : string; r_revoked : string;
  r_serial : string; r_file : string; r_name : string
}.

#[export] Instance Row_eq_dec : EqDecision Row.
Proof. solve_decision. Defined.

Definition row_fields (r : Row) : list string :=
  [r_status r; r_expiry r; r_revoked r; r_serial r; r_file r; r_name r].

Definition row_of (fields : list string) : option Row :=
  match fields with
  | [a; b; c; d; e; f] => Some (mkRow a b c d e f)
  | _ => None
  end.

(** [indexTime]. *)
Definition indexTime (value : string) : option Z :=
  match parse_index_short value with
  | Some t => Some t
  | None => parse_index_long value
  end.

Definition reasons : list (string * Z) :=
  [("", 0); ("unspecified", 0); ("keyCompromise", 1); ("CACompromise", 2); ("affiliationChanged", 3);
   ("superseded", 4); ("cessationOfOperation", 5); ("certificateHold", 6); ("privilegeWithdrawn", 9);
   ("AACompromise", 10)]%Z.

Fixpoint assoc (k : string) (l : list (string * Z)) : option Z :=
  match l with
  | [] => None
  | (k', v) :: l' => if String.eqb k k' then Some v else assoc k l'
  end.

(** [x509.RevocationListEntry]. *)
Record RevEntry : Type := mkRev { re_serial : Z; re_time : Z; re_reason : Z }.

#[export] Instance RevEntry_eq_dec : EqDecision RevEntry.
Proof. solve_decision. Defined.

Definition serial_error (v : string) : goerr := Errorf ("invalid hexadecimal value " +:+ v).

Definition indexRevocation (r : Row) : goerr + RevEntry :=
  match hexNumber (r_serial r) with
  | None => inl (serial_error (r_serial r))
  | Some serial =>
      let '(date, reason, _) := cut "," (r_revoked r) in
      match indexTime date with
      | None => inl (Errorf ("invalid certificate index time " +:+ date))
      | Some t =>
          match assoc reason reasons with
          | None => inl (Errorf ("unsupported certificate revocation reason " +:+ reason))
          | Some code => inr (mkRev (Z.of_N serial) t code)
          end
      end
  end.

(** The tests on a row against the serials seen before it; the value is the
    serial of the row. *)
Definition check_row (seen : gset N) (line : string) (r : Row) : goerr + N :=
  if str_empty (r_name r) || negb (String.eqb (r_status r) "V" || String.eqb (r_status r) "R"
                                   || String.eqb (r_status r) "E")
  then inl (Errorf ("malformed certificate index row " +:+ line))
  else match hexNumber (r_serial r) with
       | None => inl (serial_error (r_serial r))
       | Some n =>
           if bool_decide (n ∈ seen) then inl (Errorf ("duplicate certificate index serial " +:+ r_serial r))
           else match indexTime (r_expiry r) with
                | None => inl (Errorf ("invalid certificate index time " +:+ r_expiry r))
                | Some _ =>
                    if String.eqb (r_status r) "R" then
                      match indexRevocation r with
                      | inl e => inl e
                      | inr _ => inr n
                      end
                    else if negb (str_empty (r_revoked r))
                    then inl (Errorf ("unexpected revocation date on a " +:+ r_status r +:+ " index row"))
                    else inr n
                end
       end.

Definition parse_row (seen : gset N) (line : string) : goerr + (Row * N) :=
  match row_of (split tab line) with
  | None => inl (Errorf ("malformed certificate index row " +:+ line))
  | Some r => match check_row seen line r with inl e => inl e | inr n => inr (r, n) end
  end.

Fixpoint parse_lines (seen : gset N) (lines : list string) : goerr + list Row :=
  match lines with
  | [] => inr []
  | line :: lines' =>
      if str_empty line then parse_lines seen lines'
      else match parse_row seen line with
           | inl e => inl e
           | inr (r, n) =>
               match parse_lines ({[n]} ∪ seen) lines' with
               | inl e => inl e
               | inr rows => inr (r :: rows)
               end
           end
  end.

Definition parseIndex (data : string) : goerr + list Row := parse_lines ∅ (split nl data).

Definition print_row (r : Row) : string := join (str1 tab) (row_fields r).
(** The body [writeIndex] writes. *)
Definition print_index (rows : list Row) : string :=
  foldr (fun r body => print_row r +:+ String nl body) "" rows.

(** [indexHasCN]. *)
Definition indexHasCN (cn : string) (r : Row) : bool := bool_decide ("CN=" +:+ cn ∈ split "/" (r_name r)).

(** The serial of a row the reader accepted. *)
Definition serial_of (r : Row) : N := default 0%N (hexNumber (r_serial r)).

(** The line [appendIndex] adds. *)
Definition new_row (cn : string) (serial : N) (notAfter : Z) : Row :=
  mkRow "V" (format_index notAfter) "" (hex_upper serial) "unknown" ("/CN=" +:+ cn).

(** The index with a row appended, as [appendIndex] builds it. *)
Definition add_row (data : string) (r : Row) : string :=
  (if negb (str_empty data) && negb (last_is nl data) then data +:+ str1 nl else data) +:+
  print_row r +:+ str1 nl.

(** A row marked revoked at [now]. *)
Definition revoke_row (now : Z) (r : Row) : Row :=
  mkRow "R" (r_expiry r) (format_index now) (r_serial r) (r_file r) (r_name r).

(** ** Serials are read back *)

Definition hex_digit_ok (n : nat) : bool :=
  match hex_val (HEX (N.of_nat n)) with Some d => (d =? N.of_nat n)%N | None => false end.

Lemma hex_digits : forallb hex_digit_ok (seq 0 16) = true.
Proof. vm_compute. reflexivity. Qed.

Lemma hex_val_HEX n : (n < 16)%N -> hex_val (HEX n) = Some n.
Proof.
  intros H. pose proof hex_digits as Hall. rewrite forallb_forall in Hall.
  specialize (Hall (N.to_nat n)). unfold hex_digit_ok in Hall. rewrite N2Nat.id in Hall.
  destruct (hex_val (HEX n)) as [d|].
  - assert ((d =? n)%N = true) as Hd by (apply Hall, in_seq; lia). apply N.eqb_eq in Hd. by subst.
  - assert (false = true) by (apply Hall, in_seq; lia). done.
Qed.

Lemma hex_go_value fuel : forall n acc,
  (n < 16 ^ N.of_nat fuel)%N -> fuel <> O -> hex_value 0 (hex_go fuel n acc) = hex_value n acc.
Proof.
  induction fuel as [|f IH]; intros n acc Hn Hf; [done|]. cbn [hex_go].
  destruct (N.ltb_spec n 16).
  - cbn [hex_value]. rewrite hex_val_HEX by done. by rewrite N.mul_0_l, N.add_0_l.
  - destruct f as [|f]; [simpl in Hn; lia|]. rewrite IH; [|apply N.Div0.div_lt_upper_bound; rewrite Nat2N.inj_succ in Hn;
      by rewrite N.pow_succ_r' in Hn|done].
    cbn [hex_value]. rewrite hex_val_HEX by (apply N.mod_lt; lia).
    f_equal. rewrite N.mul_comm. symmetry. apply N.div_mod. lia.
Qed.

Lemma hexNumber_upper n : hexNumber (hex_upper n) = Some n.
Proof.
  unfold hexNumber, hex_upper.
  assert (str_empty (hex_go (S (N.to_nat (N.size n))) n "") = false) as ->.
  { enough (forall f m acc, str_empty acc = false -> str_empty (hex_go f m acc) = false) as Hne.
    { cbn [hex_go]. destruct (n <? 16)%N; [done|]. by apply Hne. }
    induction f as [|f IH]; intros m acc Ha; cbn [hex_go]; [done|]. destruct (m <? 16)%N; [done|]. by apply IH. }
  rewrite hex_go_value; [done| |done]. rewrite Nat2N.inj_succ, N2Nat.id, N.pow_succ_r'.
  pose proof (N.size_gt n) as Hs. change 16%N with (2 ^ 4)%N. rewrite <- N.pow_mul_r.
  assert (2 ^ N.size n <= 2 ^ (4 * N.size n))%N by (apply N.pow_le_mono_r; lia). lia.
Qed.

(** ** Rows are read back *)

Definition clean_field (s : string) : Prop := no_char tab s = true /\ no_char nl s = true.

(** A row the reader accepts on its own. *)
Definition good_row (r : Row) : Prop :=
  Forall clean_field (row_fields r) /\ check_row ∅ (print_row r) r = inr (serial_of r).

(** An index the reader accepts. *)
Definition wf_index (rows : list Row) : Prop := Forall good_row rows /\ NoDup (map serial_of rows).

Lemma check_row_serial seen line r n : check_row seen line r = inr n -> hexNumber (r_serial r) = Some n /\ serial_of r = n.
Proof.
  unfold check_row, serial_of. destruct (str_empty (r_name r) || _); [done|].
  destruct (hexNumber (r_serial r)) as [m|]; [|done]. intros H. crush_hyp H.
Qed.

(** The serials seen before matter only through the serial of the row. *)
Lemma check_row_seen seen line line' r n :
  check_row seen line r = inr n <-> check_row ∅ line' r = inr n /\ n ∉ seen.
Proof.
  split.
  - intros H. destruct (check_row_serial _ _ _ _ H) as [Hs _]. revert H. unfold check_row. rewrite Hs.
    destruct (str_empty (r_name r) || _); [done|]. case_bool_decide; [done|].
    rewrite bool_decide_false by set_solver. intros H1. split; [|done]. by crush_hyp H1.
  - intros [H Hn]. destruct (check_row_serial _ _ _ _ H) as [Hs _]. revert H. unfold check_row. rewrite Hs.
    destruct (str_empty (r_name r) || _); [done|]. rewrite !bool_decide_false by set_solver. by intros H1; crush_hyp H1.
Qed.

Lemma row_of_fields fs r : row_of fs = Some r -> row_fields r = fs.
Proof. destruct fs as [|? [|? [|? [|? [|? [|? [|]]]]]]]; try done. by intros [= <-]. Qed.

Lemma row_of_row r : row_of (row_fields r) = Some r.
Proof. by destruct r. Qed.

(** What the reader accepts is the row the writer prints. *)
Lemma parse_row_inr seen line r n :
  no_char nl line = true -> parse_row seen line = inr (r, n) ->
  print_row r = line /\ good_row r /\ serial_of r = n /\ n ∉ seen.
Proof.
  intros Hnl. unfold parse_row. destruct (row_of (split tab line)) as [r'|] eqn:Hr; [|done].
  apply row_of_fields in Hr. destruct (check_row seen line r') as [e|m] eqn:Hc; [done|]. intros [= -> ->].
  assert (print_row r = line) as Hp by (unfold print_row; rewrite Hr; apply join_split).
  destruct (check_row_serial _ _ _ _ Hc) as [_ Hs]. apply (check_row_seen _ _ line) in Hc as [Hc Hn].
  repeat split; [done| |by rewrite Hp, Hs|done|done].
  rewrite Hr. apply Forall_and. split; [apply split_no_char|by apply split_forall].
Qed.

Lemma parse_row_good seen r :
  good_row r -> serial_of r ∉ seen -> parse_row seen (print_row r) = inr (r, serial_of r).
Proof.
  intros [Hc Hk] Hn. unfold parse_row, print_row. rewrite split_join; [|by destruct r|].
  - rewrite row_of_row. fold (print_row r).
    by rewrite (proj2 (check_row_seen seen (print_row r) (print_row r) r (serial_of r)) (conj Hk Hn)).
  - eapply Forall_impl; [exact Hc|]. by intros f [].
Qed.

Lemma print_row_no_nl r : good_row r -> no_char nl (print_row r) = true.
Proof.
  intros [Hc _]. unfold print_row, row_fields in *.
  repeat (apply Forall_cons in Hc as [[_ ?] Hc]). simpl. rewrite !no_char_app. repeat (apply andb_true_iff; split); done.
Qed.

Lemma print_row_ne r : str_empty (print_row r) = false.
Proof. destruct r as [[|c s] e v n f m]; reflexivity. Qed.

Lemma parse_lines_inr lines : forall seen rows,
  Forall (fun l => no_char nl l = true) lines -> parse_lines seen lines = inr rows ->
  Forall good_row rows /\ NoDup (map serial_of rows) /\ (forall r, r ∈ rows -> serial_of r ∉ seen).
Proof.
  induction lines as [|l lines IH]; intros seen rows Hl; cbn [parse_lines].
  - intros [= <-]. split; [constructor|]. split; [constructor|]. intros r Hr. by apply elem_of_nil in Hr.
  - inversion Hl as [|? ? Hnl Hl']; subst. destruct (str_empty l); [by apply IH|].
    destruct (parse_row seen l) as [e|[r n]] eqn:Hr; [done|].
    destruct (parse_lines ({[n]} ∪ seen) lines) as [e|rows'] eqn:Hp; [done|]. intros [= <-].
    destruct (parse_row_inr seen l r n Hnl Hr) as (_ & Hg & Hs & Hn). destruct (IH _ _ Hl' Hp) as (G & N & S).
    split; [by constructor|]. split.
    + simpl. constructor; [|done]. intros (r' & He & Hin)%list_elem_of_fmap. apply (S r' Hin). set_solver.
    + intros r' [->|Hin]%elem_of_cons; [by subst|]. specialize (S r' Hin). set_solver.
Qed.

Lemma parse_index_wf data rows : parseIndex data = inr rows -> wf_index rows.
Proof.
  intros H. destruct (parse_lines_inr (split nl data) ∅ rows (split_no_char nl data) H) as (? & ? & _). done.
Qed.

Lemma parse_lines_good rows : forall seen rest,
  Forall good_row rows -> NoDup (map serial_of rows) -> (forall r, r ∈ rows -> serial_of r ∉ seen) ->
  parse_lines seen (map print_row rows ++ rest) =
  match parse_lines (list_to_set (map serial_of rows) ∪ seen) rest with
  | inl e => inl e
  | inr more => inr (rows ++ more)
  end.
Proof.
  induction rows as [|r rows IH]; intros seen rest Hg Hnd Hs; cbn [map app parse_lines].
  - replace (list_to_set [] ∪ seen) with seen by (simpl; set_solver). by destruct (parse_lines seen rest).
  - apply Forall_cons in Hg as [Hr Hg]. apply NoDup_cons in Hnd as [Hni Hnd].
    rewrite print_row_ne, parse_row_good; [|done|apply Hs; left]. rewrite IH; [|done|done|].
    + replace (list_to_set (map serial_of rows) ∪ ({[serial_of r]} ∪ seen))
        with (list_to_set (map serial_of (r :: rows)) ∪ seen : gset N) by (simpl; set_solver).
      by destruct (parse_lines _ rest).
    + intros r' Hr'. apply not_elem_of_union. split; [|apply Hs; by right].
      apply not_elem_of_singleton. intros He. apply Hni. apply list_elem_of_fmap. by exists r'.
Qed.

Lemma print_index_lines rows : print_index rows = join (str1 nl) (map print_row rows ++ [""]).
Proof.
  induction rows as [|r rows IH]; [done|]. cbn [map app print_index foldr]. fold (print_index rows).
  destruct (map print_row rows ++ [""]) as [|x l] eqn:Hm; [by destruct rows|].
  by rewrite join_cons, IH.
Qed.

Lemma split_print_index rows :
  Forall good_row rows -> split nl (print_index rows) = map print_row rows ++ [""].
Proof.
  intros Hg. rewrite print_index_lines. apply split_join; [by destruct rows|].
  apply Forall_app. split; [|by repeat constructor]. apply Forall_map.
  eapply Forall_impl; [exact Hg|]. apply print_row_no_nl.
Qed.

(** The writer and the reader. *)
Lemma parse_print_index rows : wf_index rows -> parseIndex (print_index rows) = inr rows.
Proof.
  intros [Hg Hn]. unfold parseIndex. rewrite split_print_index by done.
  rewrite parse_lines_good; [|done|done|set_solver]. cbn [parse_lines str_empty]. by rewrite app_nil_r.
Qed.

(** ** Changing the index keeps it readable *)

(** The dates of two digits for the year. *)
Definition date_ok (t : Z) : Prop := (1969 <= cv_year (civil_of_unix (t / second)) <= 2068)%Z.

(** Until April 2061 the dates the agent writes fit a year of two digits: those
    of today and those of a certificate of five years. *)
Definition century (now : Z) : Prop := (0 <= now < 2880000000 * second)%Z.

Lemma date_ok_century now t : century now -> (now <= t <= now + 1825 * 24 * (3600 * second))%Z -> date_ok t.
Proof.
  unfold century, date_ok, second. intros Hn Ht. unfold civil_of_unix, civil_of_day, era_date.
  assert (0 <= t / 1000000000 < 3057680000)%Z as Hs by (Z.to_euclidean_division_equations; lia).
  set (z := (t / 1000000000 / 86400 + 719468)%Z). assert (719468 <= z <= 754857)%Z as Hz
    by (subst z; Z.to_euclidean_division_equations; lia). clearbody z. clear Hn Ht Hs.
  fold (year_of_era (z mod 146097)). cbv zeta. set (b := (_ <=? 2)%Z). clearbody b. cbn [cv_year].
  assert (z / 146097 = 4 \/ z / 146097 = 5)%Z as He by (Z.to_euclidean_division_equations; lia).
  pose proof (Z.div_mod z 146097 ltac:(lia)) as Hd. pose proof (Z.mod_pos_bound z 146097 ltac:(lia)) as Hb.
  set (doe := (z mod 146097)%Z) in *. clearbody doe. destruct (year_of_era_spec doe ltac:(lia)) as [Hy _].
  destruct He as [He|He]; rewrite He in *.
  - pose proof (year_of_era_mono 135080 doe ltac:(lia)) as Hm. change (year_of_era 135080) with 369%Z in Hm. destruct b; lia.
  - pose proof (year_of_era_mono doe 24372 ltac:(lia)) as Hm. change (year_of_era 24372) with 66%Z in Hm. destruct b; lia.
Qed.

Lemma two_digits_clean n c : byte_in 48 57 c = false -> no_char c (two_digits n) = true.
Proof.
  intros Hc. unfold two_digits, no_char. cbn [str_forall str1]. rewrite !andb_true_iff.
  assert (forall k, (0 <= k < 10)%Z -> negb (Ascii.eqb (digit k) c) = true) as Hd.
  { intros k Hk. apply negb_true_iff. apply Ascii.eqb_neq. intros <-.
    assert (k = 0 \/ k = 1 \/ k = 2 \/ k = 3 \/ k = 4 \/ k = 5 \/ k = 6 \/ k = 7 \/ k = 8 \/ k = 9)%Z as Hk' by lia.
    repeat destruct Hk' as [->|Hk']; try (vm_compute in Hc; discriminate). subst. vm_compute in Hc. discriminate. }
  split; [apply Hd, Z.mod_pos_bound; lia|]. split; [apply Hd, Z.mod_pos_bound; lia|done].
Qed.

Lemma format_index_clean t c : byte_in 48 57 c = false -> Ascii.eqb "Z" c = false -> no_char c (format_index t) = true.
Proof.
  intros Hd Hz. unfold format_index. rewrite !no_char_app, !two_digits_clean by done.
  unfold no_char. cbn [str_forall andb]. by rewrite Hz.
Qed.

Lemma hex_upper_clean n c : hex_val c = None -> no_char c (hex_upper n) = true.
Proof.
  intros Hc. unfold hex_upper. assert (no_char c "" = true) as Ha by done. revert Ha.
  generalize (S (N.to_nat (N.size n))), "". intros f. revert n.
  assert (forall k, (k < 16)%N -> negb (Ascii.eqb (HEX k) c) = true) as Hd.
  { intros k Hk. apply negb_true_iff, Ascii.eqb_neq. intros <-. by rewrite hex_val_HEX in Hc. }
  induction f as [|f IH]; intros n acc Ha; cbn [hex_go]; [done|].
  destruct (N.ltb_spec n 16).
  - unfold no_char in *. cbn [str_forall]. by rewrite Hd, Ha.
  - apply IH. unfold no_char in *. cbn [str_forall]. rewrite Hd, Ha by (apply N.mod_lt; lia). done.
Qed.

Lemma indexTime_format t : date_ok t -> indexTime (format_index t) = Some (t / second * second)%Z.
Proof. intros H. unfold indexTime. by rewrite parse_format_index. Qed.

Lemma good_revoke now r : date_ok now -> good_row r -> good_row (revoke_row now r).
Proof.
  intros Hd [Hc Hk]. unfold row_fields in Hc. repeat (apply Forall_cons in Hc as [? Hc]). split.
  - unfold row_fields. simpl. repeat (constructor; [first [done|split; by apply format_index_clean]|]). constructor.
  - destruct (check_row_serial _ _ _ _ Hk) as [Hs _]. revert Hk. unfold check_row. cbn [revoke_row r_status r_name r_serial r_expiry].
    change (serial_of (revoke_row now r)) with (serial_of r). rewrite Hs.
    destruct (str_empty (r_name r)); [done|]. destruct (negb _); [done|]. simpl (false || _). cbv iota.
    rewrite !bool_decide_false by set_solver. destruct (indexTime (r_expiry r)); [|done]. intros _.
    unfold indexRevocation. cbn [revoke_row r_serial r_revoked]. rewrite Hs, cut_not_found by by apply format_index_clean.
    rewrite indexTime_format by done. reflexivity.
Qed.

Lemma good_new cn n t :
  no_char tab cn = true -> no_char nl cn = true -> date_ok t ->
  good_row (new_row cn n t) /\ serial_of (new_row cn n t) = n.
Proof.
  intros Ht Hn Hd. assert (serial_of (new_row cn n t) = n) as Hs by (unfold serial_of; simpl; by rewrite hexNumber_upper).
  split; [split|done].
  - unfold row_fields. cbn [new_row r_status r_expiry r_revoked r_serial r_file r_name].
    repeat constructor; try done; try (by apply format_index_clean); try (by apply hex_upper_clean).
  - unfold check_row. cbn [new_row r_status r_name r_serial r_expiry r_revoked]. rewrite hexNumber_upper, Hs.
    simpl (str_empty _ || _). cbv iota. rewrite bool_decide_false by set_solver. by rewrite indexTime_format.
Qed.

Lemma wf_map f rows :
  (forall r, r ∈ rows -> good_row r -> good_row (f r) /\ serial_of (f r) = serial_of r) ->
  wf_index rows -> wf_index (map f rows).
Proof.
  intros Hf [Hg Hn]. split.
  - apply Forall_map, Forall_forall. intros r Hr. rewrite Forall_forall in Hg. by apply Hf, Hg.
  - rewrite List.map_map. erewrite List.map_ext_in; [exact Hn|].
    intros r Hr. apply list_elem_of_In in Hr. rewrite Forall_forall in Hg. by apply Hf, Hg.
Qed.

Lemma parse_lines_app l1 : forall seen l2,
  parse_lines seen (l1 ++ l2) =
  match parse_lines seen l1 with
  | inl e => inl e
  | inr rows => match parse_lines (list_to_set (map serial_of rows) ∪ seen) l2 with
                | inl e => inl e
                | inr more => inr (rows ++ more)
                end
  end.
Proof.
  induction l1 as [|l l1 IH]; intros seen l2; cbn [app parse_lines].
  - replace (list_to_set (map serial_of []) ∪ seen) with seen by (simpl; set_solver). by destruct (parse_lines seen l2).
  - destruct (str_empty l); [apply IH|]. unfold parse_row at 1 2.
    destruct (row_of (split tab l)) as [r|]; [|done]. destruct (check_row seen l r) as [e|n] eqn:Hc; [done|].
    destruct (check_row_serial _ _ _ _ Hc) as [_ <-]. rewrite IH.
    destruct (parse_lines _ l1) as [e|rows]; [done|]. cbn [map list_to_set].
    replace (list_to_set (map serial_of rows) ∪ ({[serial_of r]} ∪ seen))
      with ({[serial_of r]} ∪ list_to_set (map serial_of rows) ∪ seen : gset N) by set_solver.
    by destruct (parse_lines _ l2).
Qed.

Lemma parse_add_row data rows r :
  parseIndex data = inr rows -> good_row r -> serial_of r ∉ map serial_of rows ->
  parseIndex (add_row data r) = inr (rows ++ [r]).
Proof.
  intros Hp Hg Hn. pose proof (print_row_no_nl r Hg) as Hnl. unfold parseIndex in *.
  assert (forall l, parse_lines ∅ l = inr rows -> parse_lines ∅ (l ++ [print_row r; ""]) = inr (rows ++ [r])) as Hadd.
  { intros l Hl. rewrite parse_lines_app, Hl. cbn [parse_lines str_empty].
    rewrite print_row_ne, parse_row_good; [done|done|].
    rewrite elem_of_union, elem_of_list_to_set. set_solver. }
  assert (split nl (print_row r +:+ str1 nl) = [print_row r; ""]) as Hline by (by unfold str1; rewrite split_app).
  unfold add_row. destruct (str_empty data) eqn:He.
  { apply str_empty_true in He as ->. cbn [negb andb]. rewrite app_nil_l_s, Hline.
    injection Hp as <-. apply (Hadd []). done. }
  cbn [negb andb]. destruct (last_is nl data) eqn:Hl; cbn [negb].
  - apply last_is_app in Hl as [a ->].
    change (str1 nl) with (String nl "") at 1. rewrite app_assoc_s, app_cons_s, app_nil_l_s.
    rewrite split_app_gen, Hline. apply Hadd.
    unfold str1 in Hp. rewrite split_app_gen, parse_lines_app in Hp.
    destruct (parse_lines ∅ (split nl a)) as [e|rows']; [done|]. simpl in Hp. by rewrite app_nil_r in Hp.
  - change (str1 nl) with (String nl "") at 1. rewrite app_assoc_s, app_cons_s, app_nil_l_s.
    rewrite split_app_gen, Hline. by apply Hadd.
Qed.
