(* ===== verification/Pki.v ===== *)
(** * Pki: internal/pki/ca.go, client.go, validate.go and the CRL of certs.go.

    The certificate authority of a node without a panel PKI: serials, the
    index, issuing, revocation and the CRL OpenVPN reads.  Cryptography and
    PEM are the interface [Crypto]; [CryptoSpec] states what is documented of
    it.  easy-rsa is a command that may do anything to the tree. *)

From S2P Require Import Prelude GoString Json Names Cache World Time PkiIndex NetIP.
From Stdlib Require Import Ascii.

(** ** The material *)

Record PEM : Type := mkPEM { pb_type : string; pb_headers : list (string * string); pb_bytes : string }.
Record Cert : Type := mkCert {
  c_cn : string; c_serial : Z; c_ca : bool; c_from : Z; c_until : Z; c_der : string
}.
Record PrivKey : Type := mkKey { k_ecdsa : bool; k_signs : bool; k_der : string }.
Record CRL : Type := mkCRL { l_number : option Z; l_entries : list RevEntry; l_next : Z; l_der : string }.

(** The templates of [x509.CreateCertificate] and [CreateRevocationList]. *)
Record CertTemplate : Type := mkTemplate {
  t_serial : Z; t_cn : string; t_from : Z; t_until : Z; t_usage : list string; t_dns : list string;
  t_ips : list string
}.
Record CRLTemplate : Type := mkCRLTemplate {
  lt_number : Z; lt_this : Z; lt_next : Z; lt_entries : list RevEntry
}.

Class Crypto : Type := {
  pem_decode : string -> option (PEM * string);
  pem_encode : PEM -> string;
  X509KeyPair : string -> string -> goerr + (string * PrivKey);
  ParseCertificate : string -> goerr + Cert;
  (** the child against its parent *)
  CheckSignatureFrom : Cert -> Cert -> option goerr;
  ParseECPrivateKey : string -> goerr + PrivKey;
  ParsePKCS8PrivateKey : string -> goerr + PrivKey;
  (** a key on the curve of a certificate, or on P-256 *)
  GenerateKey : option Cert -> string -> goerr + PrivKey;
  MarshalECPrivateKey : PrivKey -> goerr + string;
  CreateCertificate : CertTemplate -> Cert -> PrivKey -> PrivKey -> string -> goerr + string;
  ParseRevocationList : string -> goerr + CRL;
  crl_signed : CRL -> Cert -> option goerr;
  CreateRevocationList : CRLTemplate -> Cert -> PrivKey -> string -> goerr + string
}.

(** The three kinds of block the agent writes are read back; a new CRL lists
    the serials of its template under its number and is signed by the
    authority that made it. *)
Class CryptoSpec `{Crypto} : Prop := {
  pem_law : forall ty bytes, ty ∈ ["CERTIFICATE"; "EC PRIVATE KEY"; "X509 CRL"] ->
    pem_decode (pem_encode (mkPEM ty [] bytes)) = Some (mkPEM ty [] bytes, "");
  crl_law : forall t ca key e der, CreateRevocationList t ca key e = inr der ->
    exists l, ParseRevocationList der = inr l /\
      map re_serial (l_entries l) = map re_serial (lt_entries t) /\
      l_number l = Some (lt_number t) /\ crl_signed l ca = None
}.

(** ** Paths *)

Definition pki (f : string) : loc := LConf ("pki/" +:+ f).
Definition CACert : loc := pki "ca.crt".
Definition CAKey : loc := pki "private/ca.key".
Definition ServerCert : loc := pki "issued/server.crt".
Definition ServerKey : loc := pki "private/server.key".
Definition CRLFile : loc := pki "crl.pem".
Definition IndexFile : loc := pki "index.txt".
Definition SerialFile : loc := pki "serial".
Definition CRLNumber : loc := pki "crlnumber".
Definition TLSKey : loc := LConf "tls.key".
Definition IssuedCertPath (cn : string) : loc := pki ("issued/" +:+ cn +:+ ".crt").
Definition ClientKeyPath (cn : string) : loc := pki ("private/" +:+ cn +:+ ".key").
Definition InlineBundlePath (cn : string) : loc := pki ("inline/private/" +:+ cn +:+ ".inline").
Definition IssueLock : loc := pki ".issue.lock".

(** [WithPKILock] and every [lockPKI]. *)
Definition WithPKILock {A} (fn : M A) : M A := Lock IssueLock fn.

(** A value or the error of a library call. *)
Definition lift {A} (r : goerr + A) : M A := match r with inl e => throw e | inr a => mret a end.
Definition check (e : option goerr) : M unit := match e with Some e => throw e | None => mret tt end.

Definition hour : Z := 3600 * second.

(** [strings.Cut] with a separator of several bytes. *)
Fixpoint cut_at (sep s : string) : option (string * string) :=
  if has_prefix s sep then Some ("", str_drop (String.length sep) s)
  else match s with
       | "" => None
       | String c s' => match cut_at sep s' with
                        | Some (a, b) => Some (String c a, b)
                        | None => None
                        end
       end.

Section pki.
Context `{Crypto}.

(** ** Validation of pushed material (validate.go) *)

Definition maxPEMField : nat := N.to_nat 16384.
Definition too_long (s : string) : bool := (maxPEMField <? String.length s)%nat.

(** [CleanPEM] and [ensureSinglePEM]. *)
Definition single_pem (s : string) : goerr + PEM :=
  let s := trim_space s in
  if str_empty s then inl (Errorf "empty PEM")
  else if too_long s then inl (Errorf "PEM exceeds 16384 bytes")
  else match pem_decode s with
       | None => inl (Errorf "invalid PEM")
       | Some (b, rest) =>
           if negb (str_empty (trim_space rest)) then inl (Errorf "trailing garbage in PEM") else inr b
       end.

Definition CleanPEM (s : string) : goerr + string :=
  match single_pem s with inl e => inl e | inr b => inr (pem_encode b) end.
Definition ensureSinglePEM (s : string) : option goerr :=
  match single_pem s with inl e => Some e | inr _ => None end.

Definition parseCert (now : Z) (s : string) : goerr + Cert :=
  let s := trim_space s in
  if str_empty s then inl (Errorf "empty certificate")
  else if too_long s then inl (Errorf "certificate exceeds 16384 bytes")
  else match pem_decode s with
       | None => inl (Errorf "invalid certificate PEM")
       | Some (b, rest) =>
           if negb (String.eqb (pb_type b) "CERTIFICATE") then inl (Errorf "invalid certificate PEM")
           else if negb (str_empty (trim_space rest)) then inl (Errorf "trailing garbage in certificate")
           else match ParseCertificate (pb_bytes b) with
                | inl e => inl e
                | inr c =>
                    if (now <? c_from c)%Z || (c_until c <? now)%Z
                    then inl (Errorf "certificate expired or not yet valid") else inr c
                end
       end.

Definition ValidateCA (now : Z) (s : string) : goerr + Cert :=
  match parseCert now s with
  | inl e => inl e
  | inr c => if c_ca c then inr c else inl (Errorf "certificate is not a CA")
  end.

Definition field_error : goerr := Errorf "field exceeds 16384 bytes".
Definition wrap (msg : string) (e : goerr) : goerr := Errorf (msg +:+ ": " +:+ err_text e).

(** The key of the pair and the chain; [None] is the nil error. *)
Definition check_pair (certPEM keyPEM : string) : option goerr :=
  match X509KeyPair certPEM keyPEM with
  | inl e => Some (wrap "key does not match certificate" e)
  | inr _ => None
  end.
Definition check_chain (c ca : Cert) : option goerr :=
  match CheckSignatureFrom c ca with
  | Some e => Some (wrap "certificate does not chain to CA" e)
  | None => None
  end.

Definition ValidateServerCert (now : Z) (caPEM certPEM keyPEM : string) : option goerr :=
  if existsb too_long [caPEM; certPEM; keyPEM] then Some field_error
  else match ValidateCA now caPEM with
       | inl e => Some e
       | inr ca =>
           match parseCert now certPEM with
           | inl e => Some e
           | inr c =>
               match ensureSinglePEM keyPEM with
               | Some e => Some e
               | None => match check_pair certPEM keyPEM with
                         | Some e => Some e
                         | None => check_chain c ca
                         end
               end
           end
       end.

Definition ValidateClientCert (now : Z) (cn certPEM keyPEM caPEM : string) : option goerr :=
  if existsb too_long [certPEM; keyPEM; caPEM] then Some field_error
  else match parseCert now certPEM with
       | inl e => Some e
       | inr c =>
           match ensureSinglePEM keyPEM with
           | Some e => Some e
           | None =>
               if negb (String.eqb (c_cn c) cn)
               then Some (Errorf ("client certificate CN " +:+ c_cn c +:+ " does not match " +:+ cn))
               else match check_pair certPEM keyPEM with
                    | Some e => Some e
                    | None =>
                        if str_empty caPEM then None
                        else match ValidateCA now caPEM with
                             | inl e => Some e
                             | inr ca => check_chain c ca
                             end
                    end
           end
       end.

(** ** The authority (ca.go) *)

Definition loadCASigner : M (Cert * PrivKey) :=
  certPEM <- read_file CACert ;;
  keyPEM <- read_file CAKey ;;
  pair <- lift (X509KeyPair certPEM keyPEM) ;;
  cert <- lift (ParseCertificate pair.1) ;;
  if k_signs pair.2 then mret (cert, pair.2) else throw (Errorf "CA key cannot sign").

Definition loadCA : M (Cert * PrivKey) :=
  ca <- loadCASigner ;;
  if k_ecdsa ca.2 then mret ca else throw (Errorf "CA key is not ECDSA").

Definition nextSerial : M N :=
  data <- read_file SerialFile ;;
  let s := trim_space data in
  match hexNumber s with
  | None => throw (serial_error s)
  | Some n => WriteFileAtomic SerialFile (hex_upper (n + 1) +:+ str1 nl) ;; mret n
  end.

Definition readIndex : M (list Row) := data <- read_file IndexFile ;; lift (parseIndex data).
Definition writeIndex (rows : list Row) : M unit := WriteFileAtomic IndexFile (print_index rows).

Definition appendIndex (cn : string) (serial : N) (notAfter : Z) : M unit :=
  data <- read_file IndexFile ;;
  rows <- lift (parseIndex data) ;;
  if bool_decide (serial ∈ map serial_of rows)
  then throw (Errorf ("certificate serial " +:+ hex_upper serial +:+ " already exists in the index"))
  else WriteFileAtomic IndexFile (add_row data (new_row cn serial notAfter)).

(** The key of a client: the one that is there, or a new one. *)
Definition client_key (ca : Cert) (existing : option string) : M PrivKey :=
  match existing with
  | None => e <- entropy ;; lift (GenerateKey (Some ca) e)
  | Some pem =>
      match pem_decode pem with
      | None => throw (Errorf "invalid existing client key")
      | Some (b, rest) =>
          if negb (str_empty (trim_space rest)) then throw (Errorf "invalid existing client key")
          else if String.eqb (pb_type b) "EC PRIVATE KEY" then lift (ParseECPrivateKey (pb_bytes b))
          else
            key <- lift (ParsePKCS8PrivateKey (pb_bytes b)) ;;
            if k_ecdsa key then mret key else throw (Errorf "existing client key is not ECDSA")
      end
  end.

(** The certificate and the key in PEM. *)
Definition issueClientCert (cn : string) (existing : option string) : M (string * string) :=
  ca <- loadCA ;;
  key <- client_key ca.1 existing ;;
  serial <- nextSerial ;;
  now <- gets w_now ;;
  let notAfter := (now + 1825 * 24 * hour)%Z in
  let tmpl := mkTemplate (Z.of_N serial) cn (now - hour)%Z notAfter ["DigitalSignature"; "ClientAuth"] [] [] in
  e <- entropy ;;
  der <- lift (CreateCertificate tmpl ca.1 key ca.2 e) ;;
  keyDER <- lift (MarshalECPrivateKey key) ;;
  let certPEM := pem_encode (mkPEM "CERTIFICATE" [] der) in
  let keyPEM := default (pem_encode (mkPEM "EC PRIVATE KEY" [] keyDER)) existing in
  appendIndex cn serial notAfter ;;
  mret (certPEM, keyPEM).

Definition inline_bundle (cn certPEM keyPEM caPEM : string) : string :=
  let n := str1 nl in
  "# OVNode inline bundle" +:+ n +:+ "# commonName: " +:+ cn +:+ n +:+ n +:+
  "<cert>" +:+ n +:+ trim_space certPEM +:+ n +:+ "</cert>" +:+ n +:+ n +:+
  "<key>" +:+ n +:+ trim_space keyPEM +:+ n +:+ "</key>" +:+ n +:+ n +:+
  "<ca>" +:+ n +:+ trim_space caPEM +:+ n +:+ "</ca>" +:+ n.

(** The key in the tree; a certificate without its key is refused. *)
Definition existing_key (cn : string) : M (option string) :=
  r <- try (read_file (ClientKeyPath cn)) ;;
  match r with
  | inr key => mret (Some key)
  | inl e =>
      if negb (IsNotExist e) then throw e
      else
        there <- present_file (IssuedCertPath cn) ;;
        if there : bool then throw (Errorf ("existing certificate for " +:+ cn +:+ " has no private key"))
        else mret None
  end.

Definition IssueClientCertToTree (cn : string) : M (string * string) :=
  match SafeCN cn with
  | None => throw (Errorf "invalid common name")
  | Some _ =>
      WithPKILock (
        existing <- existing_key cn ;;
        pair <- issueClientCert cn existing ;;
        caPEM <- read_file CACert ;;
        for_each mkdir ["pki/issued"; "pki/private"; "pki/inline/private"] ;;
        WriteFileAtomic (IssuedCertPath cn) pair.1 ;;
        match existing with
        | None => WriteFileAtomic (ClientKeyPath cn) pair.2
        | Some _ => mret tt
        end ;;
        WriteFileAtomic (InlineBundlePath cn) (inline_bundle cn pair.1 pair.2 caPEM) ;;
        mret pair)
  end.

(** ** The CRL *)

Definition readCRL : M CRL :=
  data <- read_file CRLFile ;;
  match pem_decode data with
  | None => throw (Errorf "invalid CRL PEM")
  | Some (b, rest) =>
      if negb (String.eqb (pb_type b) "X509 CRL") || negb (str_empty (trim_space rest))
      then throw (Errorf "invalid CRL PEM")
      else lift (ParseRevocationList (pb_bytes b))
  end.

(** The entries of the index the previous CRL does not list yet. *)
Fixpoint add_revoked (rows : list Row) (seen : gset Z) (acc : list RevEntry) : goerr + list RevEntry :=
  match rows with
  | [] => inr acc
  | r :: rows' =>
      if negb (String.eqb (r_status r) "R") then add_revoked rows' seen acc
      else match indexRevocation r with
           | inl e => inl e
           | inr entry =>
               if bool_decide (re_serial entry ∈ seen) then add_revoked rows' seen acc
               else add_revoked rows' ({[re_serial entry]} ∪ seen) (acc ++ [entry])
           end
  end.

(** The CRL on disk, when there is one; it must be of this authority. *)
Definition previousCRL (ca : Cert) : M (option CRL) :=
  r <- try readCRL ;;
  match r with
  | inr l =>
      match crl_signed l ca with
      | Some e => throw (wrap "existing CRL does not match the local CA" e)
      | None => mret (Some l)
      end
  | inl e => if IsNotExist e then mret None else throw e
  end.

Definition crl_number (previous : option CRL) : M Z :=
  r <- try (read_file CRLNumber) ;;
  n <- (match r with
        | inr data =>
            let s := trim_space data in
            match hexNumber s with
            | Some n => mret (Z.of_N n)
            | None => throw (wrap "invalid CRL number" (serial_error s))
            end
        | inl e => if IsNotExist e then mret 4096%Z else throw e
        end) ;;
  match (l ← previous; l_number l) with
  | Some p => mret (if (n <=? p)%Z then (p + 1)%Z else n)
  | None => mret n
  end.

Definition hex_upper_z (n : Z) : string :=
  if (n <? 0)%Z then "-" +:+ hex_upper (Z.to_N (- n)) else hex_upper (Z.to_N n).

Definition GenerateCRL : M unit :=
  ca <- loadCASigner ;;
  rows <- readIndex ;;
  previous <- previousCRL ca.1 ;;
  let old := match previous with Some l => l_entries l | None => [] end in
  revoked <- lift (add_revoked rows (list_to_set (map re_serial old)) old) ;;
  number <- crl_number previous ;;
  now <- gets w_now ;;
  e <- entropy ;;
  der <- lift (CreateRevocationList (mkCRLTemplate number now (now + 365 * 24 * hour)%Z revoked) ca.1 ca.2 e) ;;
  WriteFileAtomic CRLNumber (hex_upper_z (number + 1) +:+ str1 nl) ;;
  WriteFileAtomic CRLFile (pem_encode (mkPEM "X509 CRL" [] der)) ;;
  sync_dir "pki".

(** ** Revocation *)

Definition RevokeCert (serialHex : string) : M unit :=
  match hexNumber serialHex with
  | None => throw (serial_error serialHex)
  | Some serial =>
      rows <- readIndex ;;
      now <- gets w_now ;;
      if negb (bool_decide (serial ∈ map serial_of rows))
      then throw (Errorf ("certificate serial " +:+ serialHex +:+ " is not in the local index"))
      else
        writeIndex (map (fun r => if bool_decide (serial_of r = serial) && negb (String.eqb (r_status r) "R")
                                  then revoke_row now r else r) rows) ;;
        GenerateCRL
  end.

(** One file a certificate of the user may be in; [profile] is the cached
    client profile, which embeds it. *)
Definition check_material (ca : Cert) (serials : gset Z) (cn : string) (path : loc) (profile : bool) : M unit :=
  r <- try (read_file path) ;;
  match r with
  | inl e => if IsNotExist e then mret tt else throw e
  | inr data =>
      data <- (if profile then
                 match cut_at "<cert>" data with
                 | None => throw (Errorf ("cached profile has no certificate for " +:+ cn))
                 | Some (_, body) =>
                     match cut_at "</cert>" body with
                     | None => throw (Errorf ("cached profile has an incomplete certificate for " +:+ cn))
                     | Some (body, _) => mret body
                     end
                 end
               else mret data) ;;
      match pem_decode data with
      | None => throw (Errorf "invalid certificate")
      | Some (b, _) =>
          if negb (String.eqb (pb_type b) "CERTIFICATE") then throw (Errorf "invalid certificate")
          else
            cert <- lift (ParseCertificate (pb_bytes b)) ;;
            if negb (String.eqb (c_cn cert) cn)
            then throw (Errorf ("certificate does not belong to " +:+ cn))
            else
              match CheckSignatureFrom cert ca with
              | Some e => throw (wrap "cannot revoke foreign certificate locally" e)
              | None =>
                  if bool_decide (c_serial cert ∈ serials) then mret tt
                  else throw (Errorf "certificate is absent from the local index")
              end
      end
  end.

Definition serials_of (cn : string) (rows : list Row) : gset Z :=
  list_to_set (map (fun r => Z.of_N (serial_of r)) (filter (fun r => indexHasCN cn r = true) rows)).

(** The row of the user that is still valid. *)
Definition to_revoke (cn : string) (r : Row) : bool := indexHasCN cn r && negb (String.eqb (r_status r) "R").

Definition revokeCertByCN (cn : string) : M unit :=
  ca <- loadCASigner ;;
  rows <- readIndex ;;
  let serials := serials_of cn rows in
  check_material ca.1 serials cn (IssuedCertPath cn) false ;;
  check_material ca.1 serials cn (LUser cn "cert.pem") false ;;
  check_material ca.1 serials cn (LUser cn "client.ovpn") true ;;
  if bool_decide (serials = ∅) then throw (Errorf ("no certificate index records for " +:+ cn))
  else
    now <- gets w_now ;;
    (if existsb (to_revoke cn) rows
     then writeIndex (map (fun r => if to_revoke cn r then revoke_row now r else r) rows) else mret tt) ;;
    GenerateCRL ;;
    list <- readCRL ;;
    check (crl_signed list ca.1) ;;
    if bool_decide (serials ∖ list_to_set (map re_serial (l_entries list)) = ∅) then mret tt
    else throw (Errorf ("persisted CRL does not cover every certificate for " +:+ cn)).

Definition RevokeCertByCN (cn : string) : M unit :=
  match SafeCN cn with
  | None => throw (Errorf "invalid common name")
  | Some _ => WithPKILock (revokeCertByCN cn)
  end.

Definition RemoveClientMaterial (cn : string) : M unit :=
  match SafeCN cn with
  | None => throw (Errorf "invalid common name")
  | Some _ =>
      WithPKILock (
        revokeCertByCN cn ;;
        for_each remove_if_exists [IssuedCertPath cn; ClientKeyPath cn; InlineBundlePath cn])
  end.

Definition RegenerateCRL : M bool :=
  r <- try (WithPKILock GenerateCRL) ;; mret (match r with inr _ => true | inl _ => false end).

(** Files that exist and can be looked at. *)
Definition Healthy : M bool :=
  a <- stat_file CACert ;;
  if negb a then mret false
  else b <- stat_file CAKey ;;
       if negb b then mret false else stat_file ServerCert.

Definition CRLMatchesCA : M bool :=
  r <- try (lstat_file CRLFile) ;;
  match r with
  | inl e => mret (IsNotExist e)
  | inr _ =>
      r <- try (
        crlPEM <- read_file CRLFile ;;
        match pem_decode crlPEM with
        | None => mret false
        | Some (cb, _) =>
            crl <- lift (ParseRevocationList (pb_bytes cb)) ;;
            caPEM <- read_file CACert ;;
            match pem_decode caPEM with
            | None => mret false
            | Some (ab, _) =>
                cert <- lift (ParseCertificate (pb_bytes ab)) ;;
                mret (match crl_signed crl cert with None => true | Some _ => false end)
            end
        end) ;;
      mret (match r with inr b => b | inl _ => false end)
  end.

Definition ReadTLSCryptKey : M string :=
  r <- try (read_file TLSKey) ;;
  mret (match r with inr data => trim_space data | inl _ => "" end).

(** ** The server certificate and the renewal of the CRL *)

Context (easyrsa : list string -> M unit).

Definition CRLRenewThreshold : Z := 30 * 24 * hour.

Definition EnsureCRLChecked : M unit :=
  readIndex ;;
  caPEM <- read_file CACert ;;
  now <- gets w_now ;;
  ca <- lift (ValidateCA now caPEM) ;;
  r <- try readCRL ;;
  match r with
  | inr l =>
      match crl_signed l ca with
      | Some e => throw (wrap "existing CRL does not match the CA" e)
      | None =>
          if (CRLRenewThreshold <? l_next l - now)%Z then SetPermissions "pki/crl.pem" else GenerateCRL
      end
  | inl e =>
      if negb (IsNotExist e) then throw e
      else
        easyrsa ["gen-crl"] ;;
        l <- readCRL ;;
        check (crl_signed l ca) ;;
        SetPermissions "pki/crl.pem"
  end.

Definition EnsureCRL : M bool :=
  r <- try EnsureCRLChecked ;; mret (match r with inr _ => true | inl _ => false end).
Definition RefreshCRL : M bool :=
  r <- try (WithPKILock EnsureCRL) ;; mret (match r with inr b => b | inl _ => false end).

(** [primaryIP] is the address the host's network reports. *)
Definition RenewServerCertificateNative (primaryIP : string) : M unit :=
  ca <- loadCA ;;
  r <- try (read_file ServerCert) ;;
  match r with
  | inr old => ignore (mkdir "pki/renewed") ;; ignore (WriteFileAtomic (pki "renewed/server.crt.bak") old)
  | inl _ => mret tt
  end ;;
  e <- entropy ;;
  key <- (match GenerateKey (Some ca.1) e with
          | inr key => mret key
          | inl _ => e <- entropy ;; lift (GenerateKey None e)
          end) ;;
  serial <- nextSerial ;;
  now <- gets w_now ;;
  let notAfter := (now + 1825 * 24 * hour)%Z in
  let ips := match ParseIP primaryIP with Some _ => [primaryIP] | None => [] end in
  let tmpl := mkTemplate (Z.of_N serial) "server" (now - hour)%Z notAfter
                ["DigitalSignature"; "KeyEncipherment"; "ServerAuth"] ["server"; "localhost"] ips in
  e <- entropy ;;
  der <- lift (CreateCertificate tmpl ca.1 key ca.2 e) ;;
  let certPEM := pem_encode (mkPEM "CERTIFICATE" [] der) in
  let keyPEM := pem_encode (mkPEM "EC PRIVATE KEY" []
                  (match MarshalECPrivateKey key with inr d => d | inl _ => "" end)) in
  lift (X509KeyPair certPEM keyPEM) ;;
  ignore (mkdir "pki/issued") ;; ignore (mkdir "pki/private") ;;
  WriteFileAtomic ServerKey keyPEM ;;
  WriteFileAtomic ServerCert certPEM ;;
  appendIndex "server" serial notAfter.

Definition RenewServerCertificate : M bool :=
  there <- stat_file ServerCert ;;
  if negb there then mret false
  else r <- try (easyrsa ["renew"; "server"; "nopass"]) ;; mret (match r with inr _ => true | inl _ => false end).

Definition RenewServerCert (primaryIP : string) : M unit :=
  WithPKILock (
    r <- try (RenewServerCertificateNative primaryIP) ;;
    match r with
    | inr _ => mret tt
    | inl _ =>
        ok <- RenewServerCertificate ;;
        if ok : bool then mret tt else throw (Errorf "server certificate renewal failed")
    end).
End pki.
