(* ===== verification/PkiDemo.v ===== *)
(** * PkiDemo: a toy cryptography with the documented laws.

    A block of PEM is a letter and hexadecimal bytes, a certificate and a list
    are text that names its issuer.  It shows that the hypotheses of the PKI
    theorems hold together, and runs the operations on a small authority. *)

From S2P Require Import Prelude GoString Json Names Cache World Time PkiIndex NetIP Pki.
From Stdlib Require Import Ascii.

(** ** PEM *)

Fixpoint to_hex (s : string) : string :=
  match s with
  | "" => ""
  | String c s' => String (HEX (N_of_ascii c / 16)) (String (HEX (N_of_ascii c mod 16)) (to_hex s'))
  end.

Fixpoint of_hex (s : string) : option string :=
  match s with
  | "" => Some ""
  | String a (String b s') =>
      x ← hex_val a; y ← hex_val b; t ← of_hex s'; Some (String (ascii_of_N (16 * x + y)) t)
  | _ => None
  end.

Definition tags : list (string * ascii) := [("CERTIFICATE", "C"%char); ("EC PRIVATE KEY", "K"%char); ("X509 CRL", "L"%char)].
Definition tag_of (ty : string) : ascii := default "X"%char (snd <$> find (fun p => String.eqb p.1 ty) tags).
Definition type_of (tag : ascii) : option string := fst <$> find (fun p => Ascii.eqb p.2 tag) tags.

Definition toy_encode (b : PEM) : string := String "{" (String (tag_of (pb_type b)) (to_hex (pb_bytes b) +:+ "}")).
Definition toy_decode (s : string) : option (PEM * string) :=
  match cut "{" s with
  | (_, String t r, true) =>
      let '(h, rest, _) := cut "}" r in
      ty ← type_of t; bytes ← of_hex h; Some (mkPEM ty [] bytes, rest)
  | _ => None
  end.

Lemma HEX_digits c : hex_val (HEX (N_of_ascii c / 16)) = Some (N_of_ascii c / 16)%N /\
  hex_val (HEX (N_of_ascii c mod 16)) = Some (N_of_ascii c mod 16)%N.
Proof.
  pose proof (N_ascii_bounded c). split; apply hex_val_HEX; [apply N.Div0.div_lt_upper_bound; lia|apply N.mod_lt; lia].
Qed.

Lemma of_to_hex s : of_hex (to_hex s) = Some s.
Proof.
  induction s as [|c s IH]; [done|]. cbn [to_hex of_hex]. destruct (HEX_digits c) as [-> ->]. cbn. rewrite IH. cbn.
  rewrite <- N.div_mod by lia. by rewrite ascii_N_embedding.
Qed.

Lemma to_hex_clean c s : hex_val c = None -> no_char c (to_hex s) = true.
Proof.
  intros Hc. induction s as [|d s IH]; [done|]. unfold no_char in *. cbn [to_hex str_forall].
  destruct (HEX_digits d) as [H1 H2].
  destruct (Ascii.eqb_spec (HEX (N_of_ascii d / 16)) c) as [<-|]; [by rewrite H1 in Hc|].
  destruct (Ascii.eqb_spec (HEX (N_of_ascii d mod 16)) c) as [<-|]; [by rewrite H2 in Hc|]. done.
Qed.

(** ** Certificates, keys and lists *)

Definition bar : ascii := "|"%char.
Definition toy_error : goerr := Errorf "toy".

(** name | serial | issuer | CA flag *)
Definition toy_cert (der : string) : goerr + Cert :=
  match split bar der with
  | [cn; serial; _; ca] =>
      match parse_digits serial with
      | Some n => inr (mkCert cn (Z.of_N n) (String.eqb ca "1") 0 (4000000000 * second) der)
      | None => inl toy_error
      end
  | _ => inl toy_error
  end.

Definition toy_issuer (der : string) : string := nth 2 (split bar der) "".

Definition toy_signed (issuer : string) (ca : Cert) : option goerr :=
  if String.eqb issuer (c_cn ca) then None else Some toy_error.

Fixpoint toy_entries (serials : list string) : option (list RevEntry) :=
  match serials with
  | [] => Some []
  | s :: serials' =>
      n ← parse_digits s; l ← toy_entries serials'; Some (mkRev (Z.of_N n) 0 0 :: l)
  end.

(** issuer | number | serials *)
Definition toy_crl (der : string) : goerr + CRL :=
  match split bar der with
  | issuer :: number :: serials =>
      match parse_digits number, toy_entries serials with
      | Some n, Some l => inr (mkCRL (Some (Z.of_N n)) l 0 der)
      | _, _ => inl toy_error
      end
  | _ => inl toy_error
  end.

Definition toy_crl_signed (l : CRL) (ca : Cert) : option goerr :=
  toy_signed (default "" (head (split bar (l_der l)))) ca.

(** What could not be read back is not made. *)
Definition toy_make_crl (t : CRLTemplate) (ca : Cert) : goerr + string :=
  let der := join (str1 bar) (c_cn ca :: itoa (lt_number t) :: map (fun e => itoa (re_serial e)) (lt_entries t)) in
  match toy_crl der with
  | inr l => if bool_decide (map re_serial (l_entries l) = map re_serial (lt_entries t) /\
               l_number l = Some (lt_number t) /\ toy_crl_signed l ca = None) then inr der else inl toy_error
  | inl e => inl e
  end.

Definition toy_pair (certPEM keyPEM : string) : goerr + (string * PrivKey) :=
  match toy_decode certPEM, toy_decode keyPEM with
  | Some (c, _), Some (k, _) => inr (pb_bytes c, mkKey true true (pb_bytes k))
  | _, _ => inl toy_error
  end.

#[export] Instance toy_crypto : Crypto := {
  pem_decode := toy_decode;
  pem_encode := toy_encode;
  X509KeyPair := toy_pair;
  ParseCertificate := toy_cert;
  CheckSignatureFrom c ca := toy_signed (toy_issuer (c_der c)) ca;
  ParseECPrivateKey der := inr (mkKey true true der);
  ParsePKCS8PrivateKey der := inr (mkKey true true der);
  GenerateKey _ e := inr (mkKey true true e);
  MarshalECPrivateKey k := inr (k_der k);
  CreateCertificate t ca _ _ _ := inr (join (str1 bar) [t_cn t; itoa (t_serial t); c_cn ca; "0"]);
  ParseRevocationList := toy_crl;
  crl_signed := toy_crl_signed;
  CreateRevocationList t ca _ _ := toy_make_crl t ca
}.

#[export] Instance goerr_eq_dec : EqDecision goerr.
Proof. solve_decision. Defined.

#[export] Instance toy_spec : CryptoSpec.
Proof.
  split.
  - intros ty bytes Hty. cbn [pem_decode pem_encode toy_crypto]. unfold toy_encode, toy_decode. cbn [pb_type pb_bytes cut].
    cbn [Ascii.eqb Bool.eqb]. rewrite cut_found by by apply to_hex_clean.
    repeat (apply elem_of_cons in Hty as [->|Hty]; [cbn; by rewrite of_to_hex|]). by apply elem_of_nil in Hty.
  - intros t ca key e der. cbn [CreateRevocationList ParseRevocationList crl_signed toy_crypto]. unfold toy_make_crl. cbv zeta.
    destruct (toy_crl _) as [?|l] eqn:Hl; [done|]. case_bool_decide as Hb; [|done]. intros [= <-]. by exists l.
Qed.

(** ** A small authority *)

Definition demo_pem (tag : string) (der : string) : string := toy_encode (mkPEM tag [] der).

Definition tabbed (fields : list string) : string := join (str1 tab) fields +:+ str1 nl.

Definition demo_pki : World :=
  set_files (list_to_map [
    (CACert, demo_pem "CERTIFICATE" "node|1|node|1"); (CAKey, demo_pem "EC PRIVATE KEY" "secret");
    (SerialFile, "C" +:+ str1 nl);
    (IndexFile, tabbed ["V"; "350101000000Z"; ""; "0A"; "unknown"; "/CN=alice"] +:+
                tabbed ["R"; "350101000000Z"; "240101000000Z"; "0B"; "unknown"; "/CN=bob"]);
    (IssuedCertPath "alice", demo_pem "CERTIFICATE" "alice|10|node|0");
    (ClientKeyPath "alice", demo_pem "EC PRIVATE KEY" "alice")]) demo_world.

Definition demo_rows : list Row :=
  [mkRow "V" "350101000000Z" "" "0A" "unknown" "/CN=alice";
   mkRow "R" "350101000000Z" "240101000000Z" "0B" "unknown" "/CN=bob"].
