(* ===== verification/PkiProps.v ===== *)
(** * PkiProps: what the authority of a node promises.

    The index stays readable, a revocation reaches the CRL that OpenVPN
    reads, and no operation of the agent takes one back. *)

From S2P Require Import Prelude GoString Json Names Cache World Evolve Time PkiIndex NetIP Pki PkiDemo.
From Stdlib Require Import Ascii.

#[local] Set Default Proof Using "Type*".

(** ** Library calls *)

Lemma evolves_lift {A} R `{!PreOrder R} (r : goerr + A) : evolves R (lift r).
Proof. unfold lift. evolve_solve. Qed.

Lemma evolves_check R `{!PreOrder R} e : evolves R (check e).
Proof. unfold check. evolve_solve. Qed.

#[export] Hint Resolve evolves_lift evolves_check : evolve.
#[export] Hint Extern 1 (PreOrder _) => apply _ : evolve.

(** ** Lists of revoked serials *)

Definition crl_serials (l : CRL) : gset Z := list_to_set (map re_serial (l_entries l)).

(** The second list takes nothing back from the first. *)
Definition crl_follows (l l' : CRL) : Prop :=
  crl_serials l ⊆ crl_serials l' /\ forall p, l_number l = Some p -> exists p', l_number l' = Some p' /\ (p <= p')%Z.

Definition revoked_in (rows : list Row) (r : Row) : Prop := r ∈ rows /\ r_status r = "R".

Lemma indexRevocation_serial r entry : indexRevocation r = inr entry -> re_serial entry = Z.of_N (serial_of r).
Proof.
  unfold indexRevocation, serial_of. destruct (hexNumber (r_serial r)) as [n|]; [|done].
  destruct (cut "," (r_revoked r)) as [[date reason] f]. destruct (indexTime date); [|done].
  destruct (assoc reason reasons); [|done]. by intros [= <-].
Qed.

Lemma add_revoked_spec rows : forall seen acc l,
  add_revoked rows seen acc = inr l -> seen = list_to_set (map re_serial acc) ->
  (forall x, x ∈ map re_serial acc -> x ∈ map re_serial l) /\
  forall r, revoked_in rows r -> Z.of_N (serial_of r) ∈ map re_serial l.
Proof.
  induction rows as [|r rows IH]; intros seen acc l; cbn [add_revoked].
  { intros [= ->] _. split; [done|]. by intros r [?%elem_of_nil _]. }
  destruct (String.eqb_spec (r_status r) "R") as [Hr|Hr]; cbn [negb].
  - destruct (indexRevocation r) as [e|entry] eqn:He; [done|]. apply indexRevocation_serial in He.
    case_bool_decide as Hin; intros Hl ->.
    + destruct (IH _ _ _ Hl eq_refl) as [H1 H2]. split; [done|]. intros r' [[->|Hr']%elem_of_cons Hst]; [|by apply H2].
      rewrite <- He. apply H1. by apply elem_of_list_to_set in Hin.
    + destruct (IH _ _ _ Hl) as [H1 H2]; [rewrite map_app, list_to_set_app_L; simpl; set_solver|].
      assert (forall x, x ∈ map re_serial acc -> x ∈ map re_serial l) as Hacc.
      { intros x Hx. apply H1. rewrite map_app. set_solver. }
      split; [done|]. intros r' [[->|Hr']%elem_of_cons Hst]; [|by apply H2].
      rewrite <- He. apply H1. rewrite map_app. set_solver.
  - intros Hl Hs. destruct (IH _ _ _ Hl Hs) as [H1 H2]. split; [done|].
    intros r' [[->|Hr']%elem_of_cons Hst]; [done|by apply H2].
Qed.

(** The files that carry no revocation. *)
Definition other_file (l : loc) : Prop := l <> IndexFile /\ l <> CRLFile.

#[export] Hint Extern 0 (other_file _) => (split; discriminate) : evolve.

Section crypto.
Context `{CryptoSpec}.

(** ** The persisted state *)

Definition index_rows (w : World) : option (list Row) :=
  data ← w_files w !! IndexFile; match parseIndex data with inr rows => Some rows | inl _ => None end.

Definition crl_of (data : string) : option CRL :=
  match pem_decode data with
  | Some (b, rest) =>
      if negb (String.eqb (pb_type b) "X509 CRL") || negb (str_empty (trim_space rest)) then None
      else match ParseRevocationList (pb_bytes b) with inr l => Some l | inl _ => None end
  | None => None
  end.

Definition crl_at (w : World) : option CRL := w_files w !! CRLFile ≫= crl_of.

Lemma readCRL_reads : evolves eq readCRL.
Proof. unfold readCRL. evolve_solve. Qed.

Lemma readIndex_reads : evolves eq readIndex.
Proof. unfold readIndex. evolve_solve. Qed.

Lemma loadCASigner_reads : evolves eq loadCASigner.
Proof. unfold loadCASigner. evolve_solve. Qed.

Lemma loadCA_reads : evolves eq loadCA.
Proof. unfold loadCA. evolve_solve; apply loadCASigner_reads. Qed.

Lemma read_file_inv w l r : read_file l w = (r, w) ->
  match r with
  | inr d => w_files w !! l = Some d
  | inl e => IsNotExist e = true -> w_files w !! l = None
  end.
Proof. unfold read_file. intros Hr. by repeat case_match; simplify_eq. Qed.

Lemma readCRL_inv w r : readCRL w = (r, w) ->
  match r with inr l => crl_at w = Some l | inl e => IsNotExist e = true -> crl_at w = None end.
Proof.
  unfold readCRL, crl_at, crl_of. rewrite bind_run. pose proof (read_file_inv w CRLFile) as Hf.
  pose proof (read_file_state w CRLFile) as Hs. destruct (read_file CRLFile w) as [[e|d] w1]; simpl in Hs; subst w1.
  - intros [= <-] He. by rewrite (Hf _ eq_refl He).
  - rewrite (Hf _ eq_refl). simpl. destruct (pem_decode d) as [[b rest]|]; [|by intros [= <-]].
    destruct (_ || _); [by intros [= <-]|]. unfold lift. destruct (ParseRevocationList _); by intros [= <-].
Qed.

Lemma readIndex_inv w rows : readIndex w = (inr rows, w) -> index_rows w = Some rows.
Proof.
  unfold readIndex, index_rows. rewrite bind_run. pose proof (read_file_inv w IndexFile) as Hf.
  pose proof (read_file_state w IndexFile) as Hs. destruct (read_file IndexFile w) as [[e|d] w1]; simpl in Hs; subst w1; [done|].
  rewrite (Hf _ eq_refl). simpl. unfold lift. destruct (parseIndex d); by intros [= <-].
Qed.

(** ** Generating the CRL *)

(** The list a run of the generator from [w] leaves. *)
Definition fresh_crl (w : World) (l' : CRL) : Prop :=
  (forall l, crl_at w = Some l -> crl_follows l l') /\
  forall rows r, index_rows w = Some rows -> revoked_in rows r -> Z.of_N (serial_of r) ∈ crl_serials l'.

Lemma previousCRL_reads ca : evolves eq (previousCRL ca).
Proof. unfold previousCRL. evolve_solve; apply readCRL_reads. Qed.

Lemma previousCRL_inv w ca prev : previousCRL ca w = (inr prev, w) -> crl_at w = prev.
Proof.
  unfold previousCRL. rewrite reads_bind by (apply evolves_try; [apply _|apply readCRL_reads]). rewrite try_run. simpl.
  pose proof (readCRL_reads w) as Hs. destruct (readCRL w) as [r w1] eqn:Hr. simpl in Hs. subst w1. apply readCRL_inv in Hr.
  destruct r as [e|l]; simpl.
  - destruct (IsNotExist e); [|done]. intros [= <-]. by apply Hr.
  - destruct (crl_signed l ca); [done|]. by intros [= <-].
Qed.

Lemma crl_number_reads prev : evolves eq (crl_number prev).
Proof. unfold crl_number. evolve_solve. Qed.

Lemma crl_number_after prev w n p w1 :
  crl_number prev w = (inr n, w1) -> (l ← prev; l_number l) = Some p -> (p <= n)%Z.
Proof.
  unfold crl_number. intros (r & w2 & _ & (m & w3 & _ & Hn)%bind_inr)%bind_inr Hp. rewrite Hp in Hn.
  injection Hn as <- <-. destruct (Z.leb_spec m p); lia.
Qed.

Definition crl_files (l : loc) : Prop := l = CRLNumber \/ l = CRLFile.

Lemma crl_at_frame (L : loc -> Prop) w w' : ~ L CRLFile -> frames L w w' -> crl_at w' = crl_at w.
Proof. intros HL [_ Hf]. unfold crl_at. by rewrite Hf. Qed.

Lemma index_rows_frame (L : loc -> Prop) w w' : ~ L IndexFile -> frames L w w' -> index_rows w' = index_rows w.
Proof. intros HL [_ Hf]. unfold index_rows. by rewrite Hf. Qed.

Lemma crl_at_write der w l :
  ParseRevocationList der = inr l ->
  crl_at (set_files (<[CRLFile:=pem_encode (mkPEM "X509 CRL" [] der)]> (w_files w)) w) = Some l.
Proof.
  intros Hl. unfold crl_at, crl_of. cbn [set_files w_files]. rewrite lookup_insert_eq. simpl. rewrite pem_law by set_solver. simpl.
  by rewrite Hl.
Qed.

(** The old list is kept by a failure, or there is a new one with [P]. *)
Definition crl_outcome (w : World) (P : CRL -> Prop) (r : goerr + unit) (w' : World) : Prop :=
  frames crl_files w w' /\ ((r <> inr tt /\ crl_at w' = crl_at w) \/ exists l', crl_at w' = Some l' /\ P l').

Lemma crl_kept w P e w' : frames crl_files w w' -> crl_at w' = crl_at w -> crl_outcome w P (inl e) w'.
Proof. intros F C. split; [done|]. by left. Qed.

Lemma crl_new w (P : CRL -> Prop) r w' l : frames crl_files w w' -> crl_at w' = Some l -> P l -> crl_outcome w P r w'.
Proof. intros F C HP. split; [done|]. right. eauto. Qed.

Lemma write_crl_after w1 s der l (P : CRL -> Prop) w :
  frames crl_files w w1 -> crl_at w1 = crl_at w -> ParseRevocationList der = inr l -> P l ->
  after (WriteFileAtomic CRLNumber s ;; WriteFileAtomic CRLFile (pem_encode (mkPEM "X509 CRL" [] der)) ;; sync_dir "pki")
    (crl_outcome w P) w1.
Proof.
  intros F1 C1 Hl HP. apply after_bind. pose proof (frames_write crl_files CRLNumber s (or_introl eq_refl) w1) as F2.
  assert (crl_at (WriteFileAtomic CRLNumber s w1).2 = crl_at w1) as C2
    by (apply (crl_at_frame (eq CRLNumber)); [done|by apply frames_write]).
  unfold after at 1. destruct (WriteFileAtomic CRLNumber s w1) as [[e|[]] w2]; simpl in F2, C2; cbn [fst snd].
  { apply crl_kept; [exact (transitivity F1 F2)|congruence]. }
  apply after_bind. set (data := pem_encode _). unfold after at 1, WriteFileAtomic.
  destruct (w_fault w2 (OpWrite CRLFile)); [apply crl_kept; [exact (transitivity F1 F2)|simpl; congruence]|].
  cbn [parent_ok CRLFile pki fst snd].
  assert (crl_at (set_files (<[CRLFile:=data]> (w_files w2)) w2) = Some l) as C3 by by apply crl_at_write.
  assert (frames crl_files w (set_files (<[CRLFile:=data]> (w_files w2)) w2)) as F3
    by (etrans; [exact F1|etrans; [exact F2|apply frames_insert; by right]]).
  unfold after, sync_dir. case_match; by apply (crl_new _ _ _ _ l).
Qed.

Lemma crl_number_follows w prev n l l' w1 :
  crl_at w = prev -> crl_number prev w = (inr n, w1) -> l_number l' = Some n -> crl_at w = Some l ->
  forall p, l_number l = Some p -> exists p', l_number l' = Some p' /\ (p <= p')%Z.
Proof.
  intros Hp Hn Hl' Hl p Hnum. exists n. split; [done|]. eapply crl_number_after; [exact Hn|].
  by rewrite <- Hp, Hl.
Qed.

(** However it ends, the generator leaves the old list or a complete new one;
    when it succeeds, the new one. *)
Lemma GenerateCRL_after w : after GenerateCRL (crl_outcome w (fresh_crl w)) w.
Proof.
  assert (forall e, crl_outcome w (fresh_crl w) (inl e) w) as Hfail by (intros; by apply crl_kept).
  unfold GenerateCRL.
  apply after_reads; [apply loadCASigner_reads|done|intros ca _].
  apply after_reads; [apply readIndex_reads|done|intros rows Hrows%readIndex_inv].
  apply after_reads; [apply previousCRL_reads|done|intros prev Hprev%previousCRL_inv].
  cbv zeta. set (old := match prev with Some l => l_entries l | None => [] end).
  apply after_reads; [apply evolves_lift; apply _|done|intros revoked Hrev].
  apply after_reads; [apply crl_number_reads|done|intros n Hn].
  apply after_reads; [evolve_solve|done|intros now [= <-]].
  apply after_bind. pose proof (proj1 (frames_effects crl_files) w) as F1.
  pose proof (crl_at_frame (fun _ => False) w _ (fun H => H) (proj1 (frames_effects _) w)) as C1. unfold after at 1.
  destruct (entropy w) as [[e|e] w1]; simpl in F1, C1; cbn [fst snd]; [by apply crl_kept|].
  apply after_reads; [apply evolves_lift; apply _|intros; by apply crl_kept|intros der Hder].
  unfold lift in Hder, Hrev. destruct (CreateRevocationList _ _ _ _) as [?|der'] eqn:Hc; [done|].
  injection Hder as <-. destruct (add_revoked rows _ old) as [?|rev'] eqn:Ha; [done|]. injection Hrev as <-.
  destruct (crl_law _ _ _ _ _ Hc) as (l' & Hl' & Hs & Hnum & _). cbn [lt_entries lt_number] in Hs, Hnum.
  apply add_revoked_spec in Ha as [H1 H2]; [|done].
  apply (write_crl_after w1 _ der' l'); [done|done|done|]. split.
  - intros l Hl. split; [|exact (crl_number_follows w prev n l l' w Hprev Hn Hnum Hl)].
    unfold crl_serials. rewrite Hs. intros x Hx%elem_of_list_to_set. apply elem_of_list_to_set, H1.
    subst old. by rewrite <- Hprev, Hl.
  - intros rows' r Hrows' Hr. rewrite Hrows in Hrows'. injection Hrows' as <-.
    unfold crl_serials. rewrite Hs. apply elem_of_list_to_set. by apply H2.
Qed.

(** ** Nothing is taken back

    The order the operations follow while two digits are enough for the
    year. *)

Definition kept (w w' : World) : Prop :=
  w_now w' = w_now w /\ (century (w_now w) ->
    (forall rows, index_rows w = Some rows ->
       exists rows', index_rows w' = Some rows' /\ forall r, revoked_in rows r -> revoked_in rows' r) /\
    forall l, crl_at w = Some l -> exists l', crl_at w' = Some l' /\ crl_follows l l').

Lemma crl_follows_trans l1 l2 l3 : crl_follows l1 l2 -> crl_follows l2 l3 -> crl_follows l1 l3.
Proof.
  intros [S1 N1] [S2 N2]. split; [by etrans|]. intros p Hp. destruct (N1 p Hp) as (p2 & H2 & ?).
  destruct (N2 p2 H2) as (p3 & H3 & ?). exists p3. split; [done|lia].
Qed.

Lemma crl_follows_refl l : crl_follows l l.
Proof. split; [done|]. intros p Hp. exists p. split; [done|lia]. Qed.

#[export] Instance kept_preorder : PreOrder kept.
Proof.
  split.
  - intros w. split; [done|]. intros _. split; [by eauto|]. intros l Hl. exists l. split; [done|apply crl_follows_refl].
  - intros w1 w2 w3 [N1 K1] [N2 K2]. split; [congruence|]. intros Hc.
    destruct (K1 Hc) as [R1 C1]. rewrite <- N1 in Hc. destruct (K2 Hc) as [R2 C2]. split.
    + intros rows Hr. destruct (R1 rows Hr) as (rows2 & Hr2 & H12). destruct (R2 rows2 Hr2) as (rows3 & Hr3 & H23). eauto.
    + intros l Hl. destruct (C1 l Hl) as (l2 & Hl2 & H12). destruct (C2 l2 Hl2) as (l3 & Hl3 & H23).
      exists l3. split; [done|by eapply crl_follows_trans].
Qed.

Lemma other_not : ~ other_file IndexFile /\ ~ other_file CRLFile /\ ~ crl_files IndexFile.
Proof. unfold other_file, crl_files. repeat split; [by intros []|by intros []|by intros [|]]. Qed.

Lemma frames_kept w w' : frames other_file w w' -> kept w w'.
Proof.
  intros HF. split; [apply HF|]. intros _. destruct other_not as (N1 & N2 & _).
  rewrite (index_rows_frame _ w w' N1 HF), (crl_at_frame _ w w' N2 HF).
  split; [by eauto|]. intros l Hl. exists l. split; [done|apply crl_follows_refl].
Qed.

Lemma kept_other {A} (m : M A) : evolves (frames other_file) m -> evolves kept m.
Proof. apply evolves_weaken, frames_kept. Qed.

Lemma kept_lock {A} (m : M A) : evolves kept m -> evolves kept (WithPKILock m).
Proof. intros Hm. apply evolves_lock; [apply _|intros w; by apply frames_kept, frames_lock|done]. Qed.

Lemma kept_crl w w' P r :
  crl_outcome w P r w' -> (forall l l', crl_at w = Some l -> P l' -> crl_follows l l') -> kept w w'.
Proof.
  intros [F C] HP. split; [apply F|]. intros _. rewrite (index_rows_frame crl_files w w') by (done || apply other_not).
  split; [by eauto|]. intros l Hl. destruct C as [[_ C]|(l' & C & Hl')].
  - exists l. split; [congruence|apply crl_follows_refl].
  - exists l'. split; [done|by apply HP].
Qed.

Lemma GenerateCRL_kept : evolves kept GenerateCRL.
Proof. intros w. eapply kept_crl; [apply GenerateCRL_after|]. intros l l' Hl [Hf _]. by apply Hf. Qed.

(** A write of the index that keeps the revoked rows. *)
Lemma write_index_kept w rows data rows' :
  index_rows w = Some rows -> (century (w_now w) -> parseIndex data = inr rows') ->
  (forall r, revoked_in rows r -> revoked_in rows' r) -> kept w (WriteFileAtomic IndexFile data w).2.
Proof.
  intros Hr Hp Hk. unfold WriteFileAtomic. destruct (w_fault w _); [reflexivity|]. split; [done|]. intros Hc. simpl. split.
  - intros rows0 Hr0. rewrite Hr in Hr0. injection Hr0 as <-. exists rows'. split; [|done].
    unfold index_rows. cbn [set_files w_files]. rewrite lookup_insert_eq. simpl. by rewrite (Hp Hc).
  - intros l Hl. exists l. split; [|apply crl_follows_refl]. unfold crl_at in *. cbn [set_files w_files].
    by rewrite lookup_insert_ne.
Qed.

Lemma wf_index_rows w rows : index_rows w = Some rows -> wf_index rows.
Proof.
  unfold index_rows. destruct (w_files w !! IndexFile) as [d|]; [|done]. simpl.
  destruct (parseIndex d) eqn:Hp; [done|]. intros [= ->]. by eapply parse_index_wf.
Qed.

(** Rows chosen by [p] and not revoked yet are revoked now. *)
Definition revoke_rows (now : Z) (p : Row -> bool) (rows : list Row) : list Row :=
  map (fun r => if p r then revoke_row now r else r) rows.

Lemma wf_revoke_rows now p rows : century now -> wf_index rows -> wf_index (revoke_rows now p rows).
Proof.
  intros Hc. apply wf_map. intros r _ Hg. destruct (p r); [|done]. split; [|done]. apply good_revoke; [|done].
  apply (date_ok_century now); [done|unfold second; lia].
Qed.

Lemma revoke_rows_revoked now p rows r :
  (forall r, p r = true -> r_status r <> "R") -> revoked_in rows r -> revoked_in (revoke_rows now p rows) r.
Proof.
  intros Hp [Hin Hs]. split; [|done]. apply list_elem_of_fmap. exists r. split; [|done].
  destruct (p r) eqn:Hr; [by apply Hp in Hr|done].
Qed.

Lemma revoke_rows_kept w rows p :
  index_rows w = Some rows -> (forall r, p r = true -> r_status r <> "R") ->
  kept w (writeIndex (revoke_rows (w_now w) p rows) w).2.
Proof.
  intros Hr Hp. apply (write_index_kept _ rows _ (revoke_rows (w_now w) p rows)); [done| |].
  - intros Hc. apply parse_print_index, wf_revoke_rows; [done|by eapply wf_index_rows].
  - intros r. by apply revoke_rows_revoked.
Qed.

(** Past a look at the clock the moment is known. *)
Definition kept_at (now : Z) (w w' : World) : Prop := w_now w = now -> kept w w'.

#[export] Instance kept_at_preorder now : PreOrder (kept_at now).
Proof.
  split; [by intros w _|]. intros w1 w2 w3 H1 H2 Hn. specialize (H1 Hn). etrans; [exact H1|]. apply H2.
  destruct H1 as [-> _]. done.
Qed.

Lemma kept_gets_now {A} (k : Z -> M A) :
  (forall now, evolves (kept_at now) (k now)) -> evolves kept (now <- gets w_now ;; k now).
Proof. intros Hk w. rewrite bind_run. by apply (Hk (w_now w) w). Qed.

Lemma kept_kept_at {A} now (m : M A) : evolves kept m -> evolves (kept_at now) m.
Proof. apply evolves_weaken. by intros w w' H3 _. Qed.

(** A name that is safe in a row. *)
Definition plain (cn : string) : Prop := no_char tab cn = true /\ no_char nl cn = true.

Lemma SafeCN_plain cn : SafeCN cn = Some cn -> plain cn.
Proof.
  intros [_ Hk%StoreKeyRe_graph]%SafeCN_Some.
  split; (eapply str_forall_no_char; [|exact Hk]); reflexivity.
Qed.

Lemma appendIndex_kept now cn serial :
  plain cn -> evolves (kept_at now) (appendIndex cn serial (now + 1825 * 24 * hour)).
Proof.
  intros [Ht Hn] w <-. change (after (appendIndex cn serial (w_now w + 1825 * 24 * hour)) (fun _ w' => kept w w') w).
  unfold appendIndex. apply after_reads; [apply evolves_reads; apply _|intros; reflexivity|intros data Hd%read_file_inv].
  apply after_reads; [apply evolves_lift; apply _|intros; reflexivity|intros rows Hp].
  unfold lift in Hp. destruct (parseIndex data) as [?|rows0] eqn:Hpi; [done|]. injection Hp as ->.
  unfold after. case_bool_decide as Hs; [reflexivity|]. set (t := (w_now w + 1825 * 24 * hour)%Z).
  apply (write_index_kept _ rows _ (rows ++ [new_row cn serial t])).
  - unfold index_rows. rewrite Hd. simpl. by rewrite Hpi.
  - intros Hc. destruct (good_new cn serial t Ht Hn) as [Hg Hser].
    { apply (date_ok_century (w_now w)); [done|subst t; unfold hour, second; lia]. }
    apply parse_add_row; [done|done|by rewrite Hser].
  - intros r [Hin Hst]. split; [|done]. apply elem_of_app. by left.
Qed.

Lemma issueClientCert_kept cn existing : plain cn -> evolves kept (issueClientCert cn existing).
Proof.
  intros Hcn. unfold issueClientCert.
  apply evolves_bind; [apply _|apply (evolves_weaken eq); [by intros w ? <-|apply loadCA_reads]|intros ca].
  apply evolves_bind; [apply _|apply kept_other; unfold client_key; evolve_solve|intros key].
  apply evolves_bind; [apply _|apply kept_other; unfold nextSerial; evolve_solve|intros serial].
  apply kept_gets_now. intros now. cbv zeta.
  apply evolves_bind; [apply _|apply kept_kept_at, kept_other; evolve_solve|intros e].
  do 2 (apply evolves_bind; [apply _|apply evolves_lift; apply _|intros ?]).
  apply evolves_bind; [apply _|by apply appendIndex_kept|intros _]. evolve_solve.
Qed.

Lemma IssueClientCertToTree_kept cn : SafeCN cn = Some cn -> evolves kept (IssueClientCertToTree cn).
Proof.
  intros Hs. unfold IssueClientCertToTree. rewrite Hs. apply kept_lock.
  apply evolves_bind; [apply _|apply kept_other; unfold existing_key; evolve_solve|intros existing].
  apply evolves_bind; [apply _|by apply issueClientCert_kept, SafeCN_plain|intros pair].
  apply kept_other. evolve_solve.
Qed.

Lemma RevokeCert_kept serial : evolves kept (RevokeCert serial).
Proof.
  intros w. change (after (RevokeCert serial) (fun _ w' => kept w w') w). unfold RevokeCert.
  destruct (hexNumber serial) as [n|]; [|unfold after; reflexivity].
  apply after_reads; [apply readIndex_reads|intros; reflexivity|intros rows Hrows%readIndex_inv].
  apply after_reads; [evolve_solve|intros; reflexivity|intros now [= <-]].
  unfold after. destruct (negb _); [reflexivity|].
  apply evolves_bind_at; [apply _|apply (revoke_rows_kept w rows); [done|]|].
  - intros r Hp. boolify. by apply String.eqb_neq.
  - intros [] w1 _. apply GenerateCRL_kept.
Qed.

Lemma check_material_reads ca serials cn path profile : evolves eq (check_material ca serials cn path profile).
Proof. unfold check_material. evolve_solve. Qed.

(** What is left of a revocation by name once the material is checked. *)
Lemma revokeCertByCN_kept cn : evolves kept (revokeCertByCN cn).
Proof.
  intros w. change (after (revokeCertByCN cn) (fun _ w' => kept w w') w). unfold revokeCertByCN.
  apply after_reads; [apply loadCASigner_reads|intros; reflexivity|intros ca _].
  apply after_reads; [apply readIndex_reads|intros; reflexivity|intros rows Hrows%readIndex_inv]. cbv zeta.
  do 3 (apply after_reads; [apply check_material_reads|intros; reflexivity|intros _ _]).
  unfold after. case_bool_decide; [reflexivity|]. rewrite bind_run. cbn [gets].
  apply evolves_bind_at; [apply _| |].
  - destruct (existsb _ rows); [|reflexivity]. apply (revoke_rows_kept w rows); [done|].
    intros r Hp. unfold to_revoke in Hp. boolify. by apply String.eqb_neq.
  - intros _ w1 _. apply (evolves_bind_at kept GenerateCRL); [apply GenerateCRL_kept|].
    intros _ w2 _. apply (evolves_weaken eq); [by intros ? ? <-|]. evolve_solve; apply readCRL_reads.
Qed.

(** ** Every operation *)

(** easy-rsa renews certificates and lists; it takes no revocation back. *)
Variable easyrsa : list string -> M unit.

Inductive pki_op : Type :=
| POIssue (cn : string)
| PORevoke (serial : string)
| PORevokeCN (cn : string)
| PORemove (cn : string)
| PORegenerate
| PORefresh
| PORenew (ip : string).

Definition run_op (op : pki_op) (w : World) : World :=
  match op with
  | POIssue cn => (IssueClientCertToTree cn w).2
  | PORevoke serial => (RevokeCert serial w).2
  | PORevokeCN cn => (RevokeCertByCN cn w).2
  | PORemove cn => (RemoveClientMaterial cn w).2
  | PORegenerate => (RegenerateCRL w).2
  | PORefresh => (RefreshCRL easyrsa w).2
  | PORenew ip => (RenewServerCert easyrsa ip w).2
  end.

(** The callers issue for names they have checked. *)
Definition op_ok (op : pki_op) : Prop := match op with POIssue cn => SafeCN cn = Some cn | _ => True end.

Inductive pki_step : World -> World -> Prop :=
| PSOp op w : op_ok op -> pki_step w (run_op op w)
| PSHost w w' :
    century (w_now w') -> w_files w' !! IndexFile = w_files w !! IndexFile ->
    w_files w' !! CRLFile = w_files w !! CRLFile -> pki_step w w'.

Hypothesis easyrsa_keeps : forall args, evolves kept (easyrsa args).

Lemma EnsureCRLChecked_kept : evolves kept (EnsureCRLChecked easyrsa).
Proof.
  assert (forall A (m : M A), evolves eq m -> evolves kept m) as Heq
    by (intros A m; apply evolves_weaken; by intros w ? <-).
  unfold EnsureCRLChecked. repeat first [apply GenerateCRL_kept | apply Heq, readCRL_reads | apply Heq, readIndex_reads
    | apply easyrsa_keeps | evolve_rule].
Qed.

Lemma RenewServerCertificateNative_kept ip : evolves kept (RenewServerCertificateNative ip).
Proof.
  unfold RenewServerCertificateNative.
  apply evolves_bind; [apply _|apply (evolves_weaken eq); [by intros w ? <-|apply loadCA_reads]|intros ca].
  do 4 (apply evolves_bind; [apply _|apply kept_other; unfold nextSerial; evolve_solve|intros ?]).
  apply evolves_bind; [apply _|apply kept_other; unfold nextSerial; evolve_solve|intros serial].
  apply kept_gets_now. intros now. cbv zeta.
  do 7 (apply evolves_bind; [apply _|apply kept_kept_at, kept_other; evolve_solve|intros ?]).
  by apply appendIndex_kept.
Qed.

Lemma run_op_kept op w : op_ok op -> kept w (run_op op w).
Proof.
  destruct op; simpl; intros Hok.
  - by apply IssueClientCertToTree_kept.
  - apply RevokeCert_kept.
  - unfold RevokeCertByCN. destruct (SafeCN cn); [|reflexivity]. apply kept_lock, revokeCertByCN_kept.
  - unfold RemoveClientMaterial. destruct (SafeCN cn); [|reflexivity]. apply kept_lock.
    apply evolves_bind; [apply _|apply revokeCertByCN_kept|intros _]. apply kept_other. evolve_solve.
    apply frames_remove_if. set_unfold. destruct_or!; subst; split; discriminate.
  - unfold RegenerateCRL. revert w. change (evolves kept RegenerateCRL). unfold RegenerateCRL.
    evolve_rule; [|evolve_solve]. apply evolves_try; [apply _|]. apply kept_lock, GenerateCRL_kept.
  - revert w. change (evolves kept (RefreshCRL easyrsa)). unfold RefreshCRL, EnsureCRL.
    evolve_rule; [|evolve_solve]. apply evolves_try; [apply _|]. apply kept_lock.
    evolve_rule; [|evolve_solve]. apply evolves_try; [apply _|]. apply EnsureCRLChecked_kept.
  - revert w. change (evolves kept (RenewServerCert easyrsa ip)). unfold RenewServerCert, RenewServerCertificate.
    apply kept_lock. repeat first [apply RenewServerCertificateNative_kept | apply easyrsa_keeps | evolve_rule].
Qed.

End crypto.

(** ** A revocation is complete *)

Lemma remove_if_done l w w' : remove_if_exists l w = (inr tt, w') -> w_files w' !! l = None.
Proof.
  unfold remove_if_exists. rewrite bind_run, try_run. unfold remove_file. destruct (w_fault w _); [done|].
  destruct (w_files w !! l) eqn:Hl; cbn; intros [= <-]; [|done]. apply lookup_delete_eq.
Qed.

Lemma remove_all_done ls : forall w w', for_each remove_if_exists ls w = (inr tt, w') ->
  forall l, l ∈ ls -> w_files w' !! l = None.
Proof.
  induction ls as [|l ls IH]; intros w w' H1 l' Hl'; [by apply elem_of_nil in Hl'|]. cbn [for_each] in H1.
  apply bind_inr in H1 as ([] & w1 & Hr & Hrest). apply elem_of_cons in Hl' as [->|Hl']; [|by eapply IH].
  pose proof (evolves_for_each shrinks remove_if_exists ls (fun b _ => shrinks_remove_if b) w1) as Hs.
  rewrite Hrest in Hs. by eapply Hs, remove_if_done.
Qed.

Definition material (cn : string) : list loc := [IssuedCertPath cn; ClientKeyPath cn; InlineBundlePath cn].

Lemma material_other cn l : l ∈ material cn -> other_file l.
Proof. unfold material. set_unfold. intros Hl. destruct_or!; subst; split; discriminate. Qed.

Section complete.
Context `{CryptoSpec}.

Lemma revoke_rows_none now p rows : existsb p rows = false -> revoke_rows now p rows = rows.
Proof.
  induction rows as [|r rows IH]; [done|]. cbn [existsb revoke_rows map]. intros [Hp Hr]%orb_false_iff. rewrite Hp.
  f_equal. by apply IH.
Qed.

Lemma writeIndex_done w rows : wf_index rows ->
  (writeIndex rows w).1 = inr tt -> index_rows (writeIndex rows w).2 = Some rows.
Proof.
  intros Hw. unfold writeIndex, WriteFileAtomic. destruct (w_fault w _); [done|]. intros _. simpl.
  unfold index_rows. cbn [set_files w_files]. rewrite lookup_insert_eq. simpl. by rewrite parse_print_index.
Qed.

(** The part of the index that is written, when there is one. *)
Lemma revoke_write_done cn w rows w1 :
  century (w_now w) -> index_rows w = Some rows ->
  (if existsb (to_revoke cn) rows
   then writeIndex (revoke_rows (w_now w) (to_revoke cn) rows) else mret tt) w = (inr tt, w1) ->
  index_rows w1 = Some (revoke_rows (w_now w) (to_revoke cn) rows).
Proof.
  intros Hc Hr. destruct (existsb _ rows) eqn:He.
  - intros Hw. pose proof (writeIndex_done w (revoke_rows (w_now w) (to_revoke cn) rows)) as Hd. rewrite Hw in Hd.
    apply Hd; [|done]. apply wf_revoke_rows; [done|by eapply wf_index_rows].
  - intros [= <-]. by rewrite revoke_rows_none.
Qed.

Definition revoked_by (cn : string) (ca : Cert) (w w' : World) (rows : list Row) : Prop :=
  index_rows w' = Some (revoke_rows (w_now w) (to_revoke cn) rows) /\
  exists l, crl_at w' = Some l /\ crl_signed l ca = None /\
    (forall r, r ∈ rows -> indexHasCN cn r = true -> Z.of_N (serial_of r) ∈ crl_serials l) /\
    exists r, r ∈ rows /\ indexHasCN cn r = true.

Lemma elem_of_serials cn rows x :
  x ∈ serials_of cn rows <-> exists r, x = Z.of_N (serial_of r) /\ r ∈ rows /\ indexHasCN cn r = true.
Proof.
  unfold serials_of. rewrite elem_of_list_to_set. setoid_rewrite list_elem_of_fmap.
  setoid_rewrite list_elem_of_filter. naive_solver.
Qed.

Lemma revokeCertByCN_done cn w w' :
  century (w_now w) -> revokeCertByCN cn w = (inr tt, w') ->
  exists ca rows, (loadCASigner w).1 = inr ca /\ index_rows w = Some rows /\ revoked_by cn ca.1 w w' rows.
Proof.
  intros Hc. unfold revokeCertByCN. rewrite reads_bind by apply loadCASigner_reads.
  destruct ((loadCASigner w).1) as [e|ca]; [done|]. rewrite reads_bind by apply readIndex_reads.
  destruct (readIndex w) as [[e|rows] w0] eqn:Hr; cbn [fst]; [done|].
  pose proof (readIndex_reads w) as Hw0. rewrite Hr in Hw0. simpl in Hw0. subst w0. apply readIndex_inv in Hr. cbv zeta.
  do 3 (rewrite reads_bind by apply check_material_reads; destruct ((check_material _ _ _ _ _ w).1); [done|]).
  case_bool_decide as Hne; [done|]. intros (now & w0 & [= <- <-] & ([] & w1 & Hwr & Hrest)%bind_inr)%bind_inr.
  apply revoke_write_done in Hwr; [|done|done]. apply bind_inr in Hrest as ([] & w2 & Hg & (l & w3 & Hl & Hend)%bind_inr).
  pose proof (GenerateCRL_after w1) as [F2 _]. rewrite Hg in F2. simpl in F2.
  pose proof (readCRL_reads w2) as Hw3. rewrite Hl in Hw3. simpl in Hw3. subst w3. apply readCRL_inv in Hl.
  unfold check in Hend. destruct (crl_signed l ca.1) eqn:Hs; [done|]. rewrite bind_run in Hend. cbn in Hend.
  case_bool_decide as Hcov; [|done]. injection Hend as <-. exists ca, rows. split; [done|]. split; [done|]. split.
  - rewrite (index_rows_frame crl_files w1 w2) by (done || apply other_not). done.
  - exists l. repeat split; [done|done| |].
    + intros r Hin Hcn. destruct (decide (Z.of_N (serial_of r) ∈ crl_serials l)) as [|Hn]; [done|].
      exfalso. apply (not_elem_of_empty (C := gset Z) (Z.of_N (serial_of r))). rewrite <- Hcov.
      apply elem_of_difference. split; [apply elem_of_serials; eauto|done].
    + apply set_choose_L in Hne as [x (r & _ & ?)%elem_of_serials]. eauto.
Qed.

(** The signer depends on two files. *)
Lemma loadCASigner_ext w w' :
  w_fault w' = w_fault w -> w_files w' !! CACert = w_files w !! CACert -> w_files w' !! CAKey = w_files w !! CAKey ->
  (loadCASigner w').1 = (loadCASigner w).1.
Proof.
  intros Hf H1 H2. unfold loadCASigner, read_file. rewrite !bind_run, Hf, H1.
  destruct (w_fault w (OpRead CACert)); [done|]. destruct (w_files w !! CACert) as [c|]; [|done].
  rewrite !bind_run, Hf, H2. destruct (w_fault w (OpRead CAKey)); [done|].
  destruct (w_files w !! CAKey) as [k|]; [|done]. unfold lift. rewrite !bind_run.
  destruct (X509KeyPair c k) as [?|[d key]]; [done|]. cbn. rewrite !bind_run.
  destruct (ParseCertificate d); [done|]. cbn. by destruct (k_signs key).
Qed.

Lemma RemoveClientMaterial_done cn w w' :
  century (w_now w) -> RemoveClientMaterial cn w = (inr tt, w') ->
  (exists ca rows, (loadCASigner w).1 = inr ca /\ index_rows w = Some rows /\ revoked_by cn ca.1 w w' rows) /\
  forall l, l ∈ material cn -> w_files w' !! l = None.
Proof.
  unfold RemoveClientMaterial. intros Hc. destruct (SafeCN cn); [|done].
  intros ([] & w1 & Hrev & Hrm)%Lock_inr%bind_inr. split; [|by eapply remove_all_done].
  apply revokeCertByCN_done in Hrev as (ca & rows & Hca & Hr & Hi & l & Hl & Hrest); [|done].
  rewrite (loadCASigner_ext w) in Hca by (done || by apply lock_files_ne).
  exists ca, rows. split; [done|]. split; [rewrite <- Hr; symmetry; by apply (index_rows_frame (eq IssueLock)), frames_lock|].
  assert (frames other_file w1 w') as HF.
  { pose proof (evolves_for_each (frames other_file) remove_if_exists (material cn)
      (fun b Hb => frames_remove_if _ b (material_other cn b Hb)) w1) as HF.
    unfold material in HF. by rewrite Hrm in HF. }
  destruct other_not as (N1 & N2 & _). split; [by rewrite (index_rows_frame _ _ _ N1 HF)|].
  exists l. by rewrite (crl_at_frame _ _ _ N2 HF).
Qed.

(** A row of the user after the revocation. *)
Lemma revoked_row_of now cn rows r :
  r ∈ revoke_rows now (to_revoke cn) rows -> indexHasCN cn r = true ->
  r_status r = "R" /\ exists r0, r0 ∈ rows /\ indexHasCN cn r0 = true /\ serial_of r0 = serial_of r.
Proof.
  intros (r0 & -> & Hin)%list_elem_of_fmap Hcn. destruct (to_revoke cn r0) eqn:Ht.
  - split; [done|]. exists r0. done.
  - unfold to_revoke in Ht. rewrite Hcn in Ht. simpl in Ht. apply negb_false_iff, String.eqb_eq in Ht. eauto.
Qed.

(** C17: when the material of a user is removed, the rows of the index with the
    user's name, of which there is at least one, are all revoked, at the date
    they had or now, and no other row has changed; the list on the disk is
    signed by the authority of the node and names the serial of every one of
    them; and the certificate, the key and the bundle are gone. *)
Theorem revocation_is_complete cn w w' :
  century (w_now w) -> RemoveClientMaterial cn w = (inr tt, w') ->
  exists ca rows l, (loadCASigner w).1 = inr ca /\ index_rows w = Some rows /\
    index_rows w' = Some (revoke_rows (w_now w) (to_revoke cn) rows) /\
    crl_at w' = Some l /\ crl_signed l ca.1 = None /\
    (exists r, r ∈ rows /\ indexHasCN cn r = true) /\
    (forall r, r ∈ revoke_rows (w_now w) (to_revoke cn) rows -> indexHasCN cn r = true ->
       r_status r = "R" /\ Z.of_N (serial_of r) ∈ crl_serials l) /\
    forall f, f ∈ material cn -> w_files w' !! f = None.
Proof.
  intros Hc Hrun. destruct (RemoveClientMaterial_done _ _ _ Hc Hrun) as ((ca & rows & Hca & Hr & Hi & l & Hl & Hs & Hcov & Hex) & Hgone).
  exists ca, rows, l. repeat (split; [done|]). split; [|done].
  intros r Hin Hcn. destruct (revoked_row_of _ _ _ _ Hin Hcn) as (Hst & r0 & Hin0 & Hcn0 & Hser).
  split; [done|]. rewrite <- Hser. by apply Hcov.
Qed.
End complete.

(** ** Issuing *)

Lemma lift_inr {A} (r : goerr + A) w a w' : lift r w = (inr a, w') -> r = inr a /\ w' = w.
Proof. unfold lift. destruct r; [done|]. by intros [= <- <-]. Qed.

Section issuing.
Context `{CryptoSpec}.

Lemma frames_run {A} (L : loc -> Prop) (m : M A) w r w' : evolves (frames L) m -> m w = (r, w') -> frames L w w'.
Proof. intros Hm Hr. specialize (Hm w). by rewrite Hr in Hm. Qed.

Lemma WriteFileAtomic_inr l d w w' : WriteFileAtomic l d w = (inr tt, w') -> w' = set_files (<[l:=d]> (w_files w)) w.
Proof. unfold WriteFileAtomic. destruct (w_fault w _); [done|]. destruct (parent_ok w l); [by intros [= <-]|done]. Qed.

Lemma nextSerial_inr w n w1 : nextSerial w = (inr n, w1) ->
  frames (eq SerialFile) w w1 /\ w_files w1 !! SerialFile = Some (hex_upper (n + 1) +:+ str1 nl).
Proof.
  intros Hn. split; [eapply frames_run; [|exact Hn]; unfold nextSerial; evolve_solve|].
  unfold nextSerial in Hn. apply bind_inr in Hn as (d & w0 & _ & Hn). cbv zeta in Hn.
  destruct (hexNumber (trim_space d)) as [m|]; [|done]. apply bind_inr in Hn as ([] & w2 & Hw & [= -> ->]).
  apply WriteFileAtomic_inr in Hw as ->. apply lookup_insert_eq.
Qed.

Lemma index_rows_same w w' : w_files w' !! IndexFile = w_files w !! IndexFile -> index_rows w' = index_rows w.
Proof. unfold index_rows. by intros ->. Qed.

Lemma appendIndex_inr cn n t w w' rows :
  plain cn -> date_ok t -> index_rows w = Some rows -> appendIndex cn n t w = (inr tt, w') ->
  (n ∉ map serial_of rows) /\ index_rows w' = Some (rows ++ [new_row cn n t]) /\ frames (eq IndexFile) w w'.
Proof.
  intros [Ht Hn] Hd Hr. unfold appendIndex. rewrite reads_bind by (apply evolves_reads; apply _).
  destruct (read_file IndexFile w) as [[e|data] w0] eqn:Hf; cbn [fst]; [done|].
  pose proof (read_file_state w IndexFile) as Hw0. rewrite Hf in Hw0. simpl in Hw0. subst w0. apply read_file_inv in Hf.
  rewrite reads_bind by (apply evolves_lift; apply _). unfold index_rows in Hr. rewrite Hf in Hr. simpl in Hr.
  unfold lift. destruct (parseIndex data) as [|rows0] eqn:Hp; [done|]. injection Hr as ->. simpl.
  case_bool_decide as Hs; [done|]. intros Hw. apply WriteFileAtomic_inr in Hw as ->. split; [done|].
  split; [|by apply frames_insert]. unfold index_rows. cbn [set_files w_files]. rewrite lookup_insert_eq. simpl.
  destruct (good_new cn n t Ht Hn Hd) as [Hg Hser].
  by rewrite (parse_add_row data rows) by (done || by rewrite Hser).
Qed.

Definition lifetime : Z := 1825 * 24 * hour.

Lemma issueClientCert_inr cn existing w pair w' rows :
  plain cn -> century (w_now w) -> index_rows w = Some rows -> issueClientCert cn existing w = (inr pair, w') ->
  exists n, (n ∉ map serial_of rows) /\ index_rows w' = Some (rows ++ [new_row cn n (w_now w + lifetime)]) /\
    w_files w' !! SerialFile = Some (hex_upper (n + 1) +:+ str1 nl) /\
    frames (fun l => l = SerialFile \/ l = IndexFile) w w' /\ forall k, existing = Some k -> pair.2 = k.
Proof.
  intros Hcn Hc Hr. unfold issueClientCert. rewrite reads_bind by apply loadCA_reads.
  destruct ((loadCA w).1) as [e|ca]; [done|]. intros (key & w1 & Hk & (n & w2 & Hn & (now & w3 & [= <- <-] & Hrest)%bind_inr)%bind_inr)%bind_inr.
  apply (frames_run (fun _ => False)) in Hk as [[N1 T1] F1]; [|unfold client_key; evolve_solve].
  apply nextSerial_inr in Hn as [[[N2 T2] F2] Hser]. cbv zeta in Hrest.
  apply bind_inr in Hrest as (e & w4 & He & Hrest). apply (frames_run (fun _ => False)) in He as [[N4 T4] F4]; [|evolve_solve].
  apply bind_inr in Hrest as (der & w5 & Hder & (keyDER & w6 & Hkey & Hrest)%bind_inr).
  apply lift_inr in Hder as [_ ->]. apply lift_inr in Hkey as [_ ->]. apply bind_inr in Hrest as ([] & w7 & Ha & [= <- <-]).
  rewrite N2, N1 in Ha. apply (appendIndex_inr _ _ _ _ _ rows) in Ha as (Hfresh & Hi & [[N7 T7] F7]); [|done| |].
  - exists n. split; [done|]. split; [exact Hi|]. split; [rewrite F7, F4 by auto; exact Hser|]. split.
    + split; [split; congruence|]. intros l Hl. assert (SerialFile <> l /\ IndexFile <> l) as [? ?] by (split; intros <-; apply Hl; auto).
      by rewrite F7, F4, F2, F1 by auto.
    + by intros k ->.
  - apply (date_ok_century (w_now w)); [done|unfold lifetime, hour, second; lia].
  - rewrite (index_rows_same w); [done|]. by rewrite F4, F2, F1 by auto.
Qed.

Lemma existing_key_inr cn w existing w' :
  existing_key cn w = (inr existing, w') -> w' = w /\ w_files w !! ClientKeyPath cn = existing.
Proof.
  unfold existing_key. intros Hrun. assert (w' = w) as ->.
  { assert (evolves eq (existing_key cn)) as He by (unfold existing_key; evolve_solve). specialize (He w).
    unfold existing_key in He. by rewrite Hrun in He. }
  split; [done|]. rewrite bind_run, try_run in Hrun. pose proof (read_file_state w (ClientKeyPath cn)) as Hs.
  destruct (read_file (ClientKeyPath cn) w) as [[e|k] w1] eqn:Hf; simpl in Hs; subst w1; apply read_file_inv in Hf; cbn [fst snd] in Hrun.
  - destruct (IsNotExist e); [|done]. apply bind_inr in Hrun as ([] & w2 & _ & Hrun); [done|]. injection Hrun as <-.
    by apply Hf.
  - by injection Hrun as <-.
Qed.

(** A certificate is issued under a serial no other row of the index has,
    the serial the counter of the authority held, which moves past it; the
    index gains exactly that row and stays readable; the certificate is in
    the tree of the user's name, with the key that was already there or the
    new one. *)
Theorem issued_serial_is_fresh cn w w' rows cert key :
  SafeCN cn = Some cn -> century (w_now w) -> index_rows w = Some rows ->
  IssueClientCertToTree cn w = (inr (cert, key), w') ->
  exists n, (n ∉ map serial_of rows) /\
    index_rows w' = Some (rows ++ [new_row cn n (w_now w + lifetime)]) /\
    w_files w' !! SerialFile = Some (hex_upper (n + 1) +:+ str1 nl) /\
    w_files w' !! IssuedCertPath cn = Some cert /\ w_files w' !! ClientKeyPath cn = Some key /\
    (forall k, w_files w !! ClientKeyPath cn = Some k -> key = k).
Proof.
  intros Hs Hc Hr. unfold IssueClientCertToTree. rewrite Hs. intros Hrun%Lock_inr.
  set (w0 := set_files (lock_files IssueLock (w_files w)) w) in *.
  assert (forall l, l <> IssueLock -> w_files w0 !! l = w_files w !! l) as F0 by (intros; by apply lock_files_ne).
  apply bind_inr in Hrun as (existing & w1 & [-> Hk]%existing_key_inr & (pair & w2 & Hiss & Hrun)%bind_inr).
  rewrite (F0 (ClientKeyPath cn)) in Hk by done.
  apply (issueClientCert_inr _ _ _ _ _ rows) in Hiss as (n & Hfresh & Hi & Hser & [_ F2] & Hkeep);
    [|by apply SafeCN_plain|exact Hc|by rewrite (index_rows_same w) by by apply F0].
  apply bind_inr in Hrun as (ca & w3 & Hca & ([] & w4 & Hmk & ([] & w5 & Hw5 & Hrun)%bind_inr)%bind_inr).
  apply (frames_run (fun _ => False)) in Hca as [_ F3]; [|evolve_solve].
  apply (frames_run (fun _ => False)) in Hmk as [_ F4]; [|evolve_solve].
  apply WriteFileAtomic_inr in Hw5 as ->.
  assert (forall l, w_files w4 !! l = w_files w2 !! l) as F24 by (intros; by rewrite F4, F3 by auto).
  apply bind_inr in Hrun as ([] & w6 & Hk6 & ([] & w7 & Hw7 & [= -> ->])%bind_inr). apply WriteFileAtomic_inr in Hw7 as ->.
  cbn [fst snd] in *.
  assert (w_files w6 !! IssuedCertPath cn = Some cert /\ w_files w6 !! ClientKeyPath cn = Some key /\
    forall l, l <> IssuedCertPath cn -> l <> ClientKeyPath cn -> w_files w6 !! l = w_files w2 !! l) as (H1 & H2 & H3).
  { destruct existing as [k|].
    - injection Hk6 as <-. cbn [set_files w_files]. rewrite lookup_insert_eq, lookup_insert_ne by discriminate.
      split; [done|]. split; [|intros l Hl1 Hl2; by rewrite lookup_insert_ne by congruence].
      rewrite F24, F2, F0, Hk by first [discriminate|by intros [|]]. by rewrite (Hkeep k).
    - apply WriteFileAtomic_inr in Hk6 as ->. cbn [set_files w_files]. rewrite lookup_insert_eq, lookup_insert_ne by discriminate.
      rewrite lookup_insert_eq. split; [done|]. split; [done|].
      intros l Hl1 Hl2. by rewrite !lookup_insert_ne by congruence. }
  exists n. split; [done|]. cbn [set_files w_files]. split; [|repeat split].
  - rewrite (index_rows_same w2); [exact Hi|]. cbn [set_files w_files]. rewrite lookup_insert_ne by discriminate. by rewrite H3.
  - rewrite lookup_insert_ne by discriminate. by rewrite H3.
  - by rewrite lookup_insert_ne by discriminate.
  - by rewrite lookup_insert_ne by discriminate.
  - intros k Hkk. rewrite Hk in Hkk. by apply Hkeep.
Qed.

(** A user called like the authority or the server is given its key: nothing
    reserves those names, and their files are the ones of the user. *)
Theorem user_named_ca_is_given_the_ca_key w w' cert key :
  IssueClientCertToTree "ca" w = (inr (cert, key), w') -> w_files w !! CAKey = Some key.
Proof.
  unfold IssueClientCertToTree. intros Hrun%Lock_inr.
  set (w0 := set_files (lock_files IssueLock (w_files w)) w) in *.
  apply bind_inr in Hrun as (existing & w1 & [-> Hk]%existing_key_inr & (pair & w2 & Hiss & Hrun)%bind_inr).
  change (w_files w0 !! CAKey = existing) in Hk. unfold w0 in Hk. cbn [set_files w_files] in Hk.
  rewrite lock_files_ne in Hk by discriminate.
  assert (pair = (cert, key)) as ->.
  { repeat (apply bind_inr in Hrun as (? & ? & _ & Hrun)). by injection Hrun as -> _. }
  unfold issueClientCert in Hiss. apply bind_inr in Hiss as (ca & w3 & Hca & Hiss).
  assert (exists k, existing = Some k) as [k ->].
  { unfold loadCA, loadCASigner in Hca. apply bind_inr in Hca as (? & ? & Hca & _).
    apply bind_inr in Hca as (c & w4 & Hc & (k & w5 & Hread & _)%bind_inr). pose proof (read_file_state w0 CACert) as Hs.
    rewrite Hc in Hs. simpl in Hs. subst w4. pose proof (read_file_state w0 CAKey) as Hs. rewrite Hread in Hs. simpl in Hs. subst w5.
    apply read_file_inv in Hread. unfold w0 in Hread. cbn [set_files w_files] in Hread.
    rewrite lock_files_ne, Hk in Hread by discriminate. eauto. }
  rewrite Hk. repeat (apply bind_inr in Hiss as (? & ? & _ & Hiss)). by injection Hiss as _ <-.
Qed.
End issuing.

(** ** The index *)

(** An index the agent accepts stays one it accepts, whatever it does to
    it: written back it is read as the same rows; with rows revoked it is
    read as those rows, revoked; with a certificate appended under a new
    serial, whether or not the last line was complete, it is read as the old
    rows and the new one. *)
Theorem index_stays_readable data rows now :
  century now -> parseIndex data = inr rows ->
  parseIndex (print_index rows) = inr rows /\
  (forall p, parseIndex (print_index (revoke_rows now p rows)) = inr (revoke_rows now p rows)) /\
  forall cn n, SafeCN cn = Some cn -> n ∉ map serial_of rows ->
    parseIndex (add_row data (new_row cn n (now + lifetime))) = inr (rows ++ [new_row cn n (now + lifetime)]).
Proof.
  intros Hc Hp. pose proof (parse_index_wf _ _ Hp) as Hwf. split; [by apply parse_print_index|]. split.
  - intros p. by apply parse_print_index, wf_revoke_rows.
  - intros cn n [Ht Hn]%SafeCN_plain Hf. destruct (good_new cn n (now + lifetime) Ht Hn) as [Hg Hs].
    + apply (date_ok_century now); [done|unfold lifetime, hour, second; lia].
    + apply parse_add_row; [done|done|by rewrite Hs].
Qed.

(** ** Concrete runs *)

Lemma demo_century : century (w_now demo_pki).
Proof. vm_compute. split; [discriminate|reflexivity]. Qed.

Lemma demo_index : index_rows demo_pki = Some demo_rows.
Proof. vm_compute. reflexivity. Qed.

Lemma index_stays_readable_witness :
  parseIndex (print_index demo_rows) = inr demo_rows /\
  parseIndex (add_row (print_index demo_rows) (new_row "carol" 12 (w_now demo_pki + lifetime))) =
  inr (demo_rows ++ [new_row "carol" 12 (w_now demo_pki + lifetime)]).
Proof.
  assert (parseIndex (print_index demo_rows) = inr demo_rows) as Hp by (vm_compute; reflexivity).
  destruct (index_stays_readable _ _ _ demo_century Hp) as (H1 & _ & H2). split; [exact H1|].
  apply H2; [reflexivity|]. apply not_elem_of_cons. split; [discriminate|]. apply not_elem_of_cons. split; [discriminate|].
  apply not_elem_of_nil.
Defined.

Lemma revocation_is_complete_witness :
  exists l, crl_at (RemoveClientMaterial "alice" demo_pki).2 = Some l /\
    forall f, f ∈ material "alice" -> w_files (RemoveClientMaterial "alice" demo_pki).2 !! f = None.
Proof.
  destruct (revocation_is_complete "alice" demo_pki (RemoveClientMaterial "alice" demo_pki).2 demo_century)
    as (ca & rows & l & _ & _ & _ & H1 & _ & _ & _ & H2).
  - apply run_eta. vm_compute. reflexivity.
  - exists l. split; [exact H1|exact H2].
Defined.

Lemma issued_serial_is_fresh_witness :
  exists n, (n ∉ map serial_of demo_rows) /\
    index_rows (IssueClientCertToTree "carol" demo_pki).2 =
    Some (demo_rows ++ [new_row "carol" n (w_now demo_pki + lifetime)]).
Proof.
  destruct (issued_serial_is_fresh "carol" demo_pki (IssueClientCertToTree "carol" demo_pki).2 demo_rows
    (demo_pem "CERTIFICATE" "carol|12|node|0") (demo_pem "EC PRIVATE KEY" "0123456789abcdef")
    eq_refl demo_century demo_index) as (n & H1 & H2 & _); [apply run_eta; vm_compute; reflexivity|].
  exists n. split; [exact H1|exact H2].
Defined.

