(* ===== verification/Mgmt.v ===== *)
(** * Mgmt: internal/ovpn/mgmt.go.

    The client of the OpenVPN management socket.  The socket is a script: what
    every read and write does and how long it takes (milliseconds); a read
    returns at its deadline at the latest, as Go's deadlines promise. *)

From S2P Require Import Prelude GoString NetIP Names Cache World Status.
From Stdlib Require Import Ascii.

(** ** The socket *)

Record read_event : Type := mkRead { rd_delay : Z; rd_chunk : string; rd_err : option string }.

Record mgmtConn : Type := mkConn {
  k_now : Z;
  k_buf : string;
  k_reads : list read_event;
  k_writes : list (Z * option string);
  k_sent : list string
}.

Definition set_now_k (t : Z) (k : mgmtConn) : mgmtConn :=
  mkConn t (k_buf k) (k_reads k) (k_writes k) (k_sent k).
Definition set_buf (b : string) (k : mgmtConn) : mgmtConn :=
  mkConn (k_now k) b (k_reads k) (k_writes k) (k_sent k).

Definition timeout_error : string := "i/o timeout".

(** [fill]: one chunk, an error, or the deadline. *)
Definition fill (deadline : Z) (k : mgmtConn) : option string * mgmtConn :=
  match k_reads k with
  | [] => (Some timeout_error, set_now_k (Z.max (k_now k) deadline) k)
  | e :: reads =>
      let dt := Z.max 0 (rd_delay e) in
      if (deadline <? k_now k + dt)%Z then
        (Some timeout_error,
         mkConn (Z.max (k_now k) deadline) (k_buf k)
           (mkRead (dt - Z.max 0 (deadline - k_now k)) (rd_chunk e) (rd_err e) :: reads)
           (k_writes k) (k_sent k))
      else
        (rd_err e, mkConn (k_now k + dt) (k_buf k +:+ rd_chunk e) reads (k_writes k) (k_sent k))
  end.

Definition mgmtDialTimeout : Z := 2000.
Definition mgmtReplyBudget : Z := 2000.
Definition mgmtAuthBudget : Z := 200.
Definition mgmtBannerIdle : Z := 150.
Definition mgmtBannerTotal : Z := 1000.
Definition statusBudget : Z := 3000.
Definition verifyBudget : Z := 7000.
Definition verifyPoll : Z := 500.

(** A write under [mgmtReplyBudget]; [sent] keeps what was written. *)
Definition write (data : string) (k : mgmtConn) : option string * mgmtConn :=
  let '(dt, err) := default (0%Z, None) (head (k_writes k)) in
  let t := (k_now k + Z.min mgmtReplyBudget (Z.max 0 dt))%Z in
  match err with
  | Some e => (Some e, mkConn t (k_buf k) (k_reads k) (tail (k_writes k)) (k_sent k))
  | None => (None, mkConn t (k_buf k) (k_reads k) (tail (k_writes k)) (k_sent k ++ [data]))
  end.

(** ** Reading *)

Definition has_password (s : string) : bool := contains (to_upper s) "PASSWORD".

Fixpoint readBanner_go (fuel : nat) (total : Z) (k : mgmtConn) : mgmtConn :=
  match fuel with
  | O => k
  | S f =>
      if has_password (k_buf k) then k
      else
        let idle := Z.min (k_now k + mgmtBannerIdle) total in
        match fill idle k with
        | (Some _, k') => k'
        | (None, k') => readBanner_go f total k'
        end
  end.

(** A read that returns no error uses up one event of the script, so the
    number of events bounds the loops. *)
Definition read_fuel (k : mgmtConn) : nat := S (length (k_reads k)).

Definition readBanner (k : mgmtConn) : string * mgmtConn :=
  let k := readBanner_go (read_fuel k) (k_now k + mgmtBannerTotal) k in
  (k_buf k, set_buf "" k).

Definition marker_seen (markers : list string) (text : string) : bool :=
  existsb (fun line =>
    let upperLine := to_upper (trim_right_set is_cr line) in
    existsb (fun m => has_prefix upperLine (to_upper m)) markers)
  (split nl text).

Fixpoint readUntil_go (fuel : nat) (deadline : Z) (markers : list string) (k : mgmtConn)
  : string * mgmtConn :=
  match fuel with
  | O => (k_buf k, set_buf "" k)
  | S f =>
      let text := k_buf k in
      if marker_seen markers text then (text, set_buf "" k)
      else if negb (k_now k <? deadline)%Z then (text, set_buf "" k)
      else match fill deadline k with
           | (Some _, k') => (text, set_buf "" k')
           | (None, k') => readUntil_go f deadline markers k'
           end
  end.

Definition readUntil (budget : Z) (markers : list string) (k : mgmtConn) : string * mgmtConn :=
  readUntil_go (read_fuel k) (k_now k + budget) markers k.

(** ** Replies *)

(** A [CLIENT_LIST] row of the name. *)
Definition row_has (cn line : string) : bool :=
  let line := trim_right_set is_cr line in
  if negb (has_prefix line "CLIENT_LIST,") then false
  else match split "," line with
       | _ :: p :: _ => String.eqb p cn
       | _ => false
       end.

Definition mgmtHasCN (text cn : string) : bool := existsb (row_has cn) (split nl text).

Definition shorten (s : string) (max : nat) : string :=
  let flat := join " " (fields s) in
  if (max <? String.length flat)%nat then str_take max flat else flat.

Definition crlf_char (c : ascii) : bool := byte_in 13 13 c || byte_in 10 10 c.

Fixpoint first_line (s : string) : string :=
  match s with
  | "" => ""
  | String c s' => if crlf_char c then "" else String c (first_line s')
  end.

(** [None] is the empty path. *)
Definition readPassword (path : option loc) : M (option string) :=
  match path with
  | None => mret None
  | Some p =>
      r <- try (read_file p) ;;
      match r with
      | inl _ => mret None
      | inr data => mret (Some (trim_space (first_line data)))
      end
  end.

(** ** Commands *)

(** [validateMgmtHost]; [allow] is the value of ALLOW_REMOTE_MGMT. *)
Definition validateMgmtHost (allow host0 : string) : option string :=
  let host := trim_space host0 in
  if str_empty host then None
  else if String.eqb host "localhost" then None
  else if match ParseIP host with Some ip => IsLoopback ip | None => false end then None
  else if equal_fold (trim_space allow) "1" then None
  else Some ("management host " +:+ str1 dquote +:+ host +:+ str1 dquote +:+
             " is not loopback; set OVNODE_ALLOW_REMOTE_MGMT=1").

(** [net.JoinHostPort]. *)
Definition JoinHostPort (host port : string) : string :=
  if contains host ":" then "[" +:+ host +:+ "]:" +:+ port else host +:+ ":" +:+ port.

Inductive TakeoverResult : Type := TakeoverVerified | TakeoverTimeout | TakeoverDown.

(** The management service: whether a dial succeeds and the connection then
    opened. *)
Record Service : Type := mkService {
  sv_allow : string;
  sv_dial : string -> option string;
  sv_conn : mgmtConn
}.

Definition auth_refused (reply : string) : bool :=
  let upper := to_upper reply in
  contains upper "BAD PASSWORD" || (contains upper "ERROR" && contains upper "PASSWORD").

(** The password dialogue after the banner: the error text, or the
    connection. *)
Inductive auth_result : Type :=
| AuthUnreadable
| AuthWrite (err : string)
| AuthBad
| AuthOK.

Definition authenticate (passFile : option loc) (k : mgmtConn) : M (auth_result * mgmtConn) :=
  let '(banner, k) := readBanner k in
  if has_password banner then
    pw <- readPassword passFile ;;
    match pw with
    | None => mret (AuthUnreadable, k)
    | Some pw =>
        match write (pw +:+ str1 nl) k with
        | (Some e, k) => mret (AuthWrite e, k)
        | (None, k) =>
            let '(reply, k) := readUntil mgmtAuthBudget ["SUCCESS"; "ERROR"] k in
            if auth_refused reply then mret (AuthBad, k) else mret (AuthOK, k)
        end
    end
  else mret (AuthOK, k).

(** The kill commands, one log line each. *)
Fixpoint kill_all (cids : list string) (k : mgmtConn) : list string * mgmtConn :=
  match cids with
  | [] => ([], k)
  | cid :: cids' =>
      let cmd := "client-kill " +:+ cid +:+ " max-login-takeover" in
      match write (cmd +:+ str1 nl) k with
      | (Some e, k) =>
          let '(lines, k) := kill_all cids' k in
          (("KILL FAIL " +:+ cmd +:+ " (" +:+ e +:+ ")") :: lines, k)
      | (None, k) =>
          let '(reply, k) := readUntil mgmtReplyBudget ["SUCCESS"; "ERROR"] k in
          let verdict := if contains (to_upper reply) "SUCCESS" then "OK" else "FAIL" in
          let '(lines, k) := kill_all cids' k in
          (("KILL " +:+ verdict +:+ " " +:+ cmd +:+ " (" +:+ shorten reply 120 +:+ ")") :: lines, k)
      end
  end.

(** The verify loop: whether a status reply without the name was read. *)
Fixpoint verify_go (fuel : nat) (deadline : Z) (cn : string) (k : mgmtConn) : bool * mgmtConn :=
  match fuel with
  | O => (false, k)
  | S f =>
      if negb (k_now k <? deadline)%Z then (false, k)
      else match write ("status 2" +:+ str1 nl) k with
           | (Some _, k) => (false, k)
           | (None, k) =>
               let '(text, k) := readUntil statusBudget ["END"] k in
               if negb (mgmtHasCN text cn) then (true, k)
               else verify_go f deadline cn (set_now_k (k_now k + verifyPoll) k)
           end
  end.

Definition verify_fuel : nat := 14.

Definition Takeover (sv : Service) (host : string) (port : Z) (passFile : option loc)
    (cn : string) (cids : list string) : M (TakeoverResult * list string * mgmtConn) :=
  match validateMgmtHost (sv_allow sv) host with
  | Some err => mret (TakeoverDown, ["RESULT DOWN (" +:+ err +:+ ")"], sv_conn sv)
  | None =>
      match sv_dial sv (JoinHostPort host (itoa port)) with
      | Some err => mret (TakeoverDown, ["RESULT DOWN (" +:+ err +:+ ")"], sv_conn sv)
      | None =>
          a <- authenticate passFile (sv_conn sv) ;;
          match a with
          | (AuthUnreadable, k) =>
              mret (TakeoverDown, ["RESULT DOWN (management password unreadable)"], k)
          | (AuthWrite e, k) =>
              mret (TakeoverDown, ["RESULT DOWN (password write failed: " +:+ e +:+ ")"], k)
          | (AuthBad, k) => mret (TakeoverDown, ["RESULT DOWN (bad management password)"], k)
          | (AuthOK, k) =>
              let '(lines, k) := kill_all cids k in
              let '(verified, k) := verify_go verify_fuel (k_now k + verifyBudget) cn k in
              let '(_, k) := write ("quit" +:+ str1 nl) k in
              if verified then mret (TakeoverVerified, lines ++ ["RESULT VERIFIED"], k)
              else mret (TakeoverTimeout, lines ++ ["RESULT TIMEOUT"], k)
          end
      end
  end.

Fixpoint send_all (cmds : list string) (k : mgmtConn) : list string * mgmtConn :=
  match cmds with
  | [] => ([], k)
  | cmd :: cmds' =>
      match write (cmd +:+ str1 nl) k with
      | (Some e, k) =>
          let '(replies, k) := send_all cmds' k in (("ERROR: " +:+ e) :: replies, k)
      | (None, k) =>
          let '(reply, k) := readUntil mgmtReplyBudget ["SUCCESS"; "ERROR"] k in
          let '(replies, k) := send_all cmds' k in (reply :: replies, k)
      end
  end.

(** [mgmtHost]: the two variables of the environment. *)
Definition mgmtHost (management_host mgmt_host : string) : string :=
  if negb (str_empty management_host) then management_host
  else if negb (str_empty mgmt_host) then mgmt_host
  else "127.0.0.1".

Definition dialManagement (sv : Service) (host : string) (port : Z) : M mgmtConn :=
  match validateMgmtHost (sv_allow sv) host with
  | Some err => throw (Errorf err)
  | None =>
      match sv_dial sv (JoinHostPort host (itoa port)) with
      | Some err => throw (Errorf err)
      | None => mret (sv_conn sv)
      end
  end.

Definition SendCommands (sv : Service) (host : string) (port : Z) (passFile : option loc)
    (cmds : list string) : M (list string) :=
  match cmds with
  | [] => mret []
  | _ =>
      k <- dialManagement sv host port ;;
      a <- authenticate passFile k ;;
      match a with
      | (AuthUnreadable, _) => throw (Errorf "management password unreadable")
      | (AuthWrite e, _) => throw (Errorf e)
      | (AuthBad, _) => throw (Errorf "bad management password")
      | (AuthOK, k) =>
          let '(replies, k) := send_all cmds k in
          mret replies
      end
  end.

(** ** The loops end

    A read that returns no error consumes one event of the script. *)

Lemma fill_consumes d k k' : fill d k = (None, k') -> length (k_reads k) = S (length (k_reads k')).
Proof.
  unfold fill. destruct (k_reads k) as [|e reads]; [done|]. case_match; [done|].
  intros [= _ <-]. done.
Qed.

Lemma readBanner_fuel f f' total k :
  (length (k_reads k) < f)%nat -> (length (k_reads k) < f')%nat ->
  readBanner_go f total k = readBanner_go f' total k.
Proof.
  revert f' k. induction f as [|f IH]; intros f' k H1 H2; [lia|]. destruct f' as [|f']; [lia|].
  simpl. case_match; [done|]. destruct (fill _ k) as [[e|] k'] eqn:Hf; [done|].
  apply fill_consumes in Hf. apply IH; lia.
Qed.

Lemma readUntil_fuel f f' d ms k :
  (length (k_reads k) < f)%nat -> (length (k_reads k) < f')%nat ->
  readUntil_go f d ms k = readUntil_go f' d ms k.
Proof.
  revert f' k. induction f as [|f IH]; intros f' k H1 H2; [lia|]. destruct f' as [|f']; [lia|].
  simpl. case_match; [done|]. case_match; [done|].
  destruct (fill _ k) as [[e|] k'] eqn:Hf; [done|].
  apply fill_consumes in Hf. apply IH; lia.
Qed.

(** ** Time

    The clock never runs back, and a read with a deadline passes it by
    nothing. *)

Lemma fill_time d k r k' : fill d k = (r, k') -> (k_now k <= k_now k' <= Z.max (k_now k) d)%Z.
Proof.
  unfold fill. destruct (k_reads k) as [|e reads]; [intros [= <- <-]; simpl; lia|]. cbv zeta.
  destruct (Z.ltb_spec d (k_now k + Z.max 0 (rd_delay e))); intros [= <- <-]; simpl; lia.
Qed.

Lemma readUntil_go_time f d ms k t k' :
  readUntil_go f d ms k = (t, k') -> (k_now k <= k_now k' <= Z.max (k_now k) d)%Z.
Proof.
  revert k. induction f as [|f IH]; intros k; simpl; [intros [= <- <-]; simpl; lia|].
  case_match; [intros [= <- <-]; simpl; lia|]. case_match; [intros [= <- <-]; simpl; lia|].
  destruct (fill d k) as [[e|] k1] eqn:Hf; apply fill_time in Hf.
  - intros [= <- <-]. simpl. lia.
  - intros H1%IH. lia.
Qed.

Lemma readUntil_time b ms k t k' :
  (0 <= b)%Z -> readUntil b ms k = (t, k') -> (k_now k <= k_now k' <= k_now k + b)%Z.
Proof. intros Hb H%readUntil_go_time. lia. Qed.

Lemma readBanner_time k t k' :
  readBanner k = (t, k') -> (k_now k <= k_now k' <= k_now k + mgmtBannerTotal)%Z.
Proof.
  intros Heq. assert (k' = (readBanner k).2) as -> by by rewrite Heq. clear Heq.
  unfold readBanner. cbn [snd k_now set_buf].
  assert (forall f total k, (k_now k <= total)%Z ->
    (k_now k <= k_now (readBanner_go f total k) <= total)%Z) as H.
  { clear. induction f as [|f IH]; intros total k Ht; simpl; [lia|].
    case_match; [lia|]. destruct (fill _ k) as [[e|] k1] eqn:Hf; apply fill_time in Hf.
    - lia.
    - assert (k_now k1 <= total)%Z as Ht1 by lia. specialize (IH total k1 Ht1). lia. }
  apply H. unfold mgmtBannerTotal. lia.
Qed.

Lemma write_time data k r k' :
  write data k = (r, k') -> (k_now k <= k_now k' <= k_now k + mgmtReplyBudget)%Z.
Proof.
  unfold write, mgmtReplyBudget. destruct (default _ _) as [dt err].
  destruct err; intros [= <- <-]; simpl; lia.
Qed.

Lemma kill_all_time cids k lines k' :
  kill_all cids k = (lines, k') ->
  (k_now k <= k_now k' <= k_now k + 2 * mgmtReplyBudget * Z.of_nat (length cids))%Z.
Proof.
  revert k lines. induction cids as [|cid cids IH]; intros k lines; simpl.
  - intros [= <- <-]. lia.
  - destruct (write _ k) as [[e|] k1] eqn:Hw; apply write_time in Hw.
    + destruct (kill_all cids k1) as [l k2] eqn:Hk. intros [= <- <-]. apply IH in Hk.
      unfold mgmtReplyBudget in *. lia.
    + destruct (readUntil mgmtReplyBudget _ k1) as [reply k2] eqn:Hr.
      apply readUntil_time in Hr; [|unfold mgmtReplyBudget; lia].
      destruct (kill_all cids k2) as [l k3] eqn:Hk. intros [= <- <-]. apply IH in Hk.
      unfold mgmtReplyBudget in *. lia.
Qed.

Lemma verify_time f d cn k v k' :
  verify_go f d cn k = (v, k') ->
  (k_now k <= k_now k' <= Z.max (k_now k) (d + mgmtReplyBudget + statusBudget + verifyPoll))%Z.
Proof.
  revert k. induction f as [|f IH]; intros k; simpl; [intros [= <- <-]; lia|].
  destruct (Z.ltb_spec (k_now k) d); simpl; [|intros [= <- <-]; lia].
  destruct (write _ k) as [[e|] k1] eqn:Hw; apply write_time in Hw.
  - intros [= <- <-]. unfold mgmtReplyBudget, statusBudget, verifyPoll in *. lia.
  - destruct (readUntil statusBudget _ k1) as [t k2] eqn:Hr.
    apply readUntil_time in Hr; [|unfold statusBudget; lia].
    case_match.
    + intros [= <- <-]. unfold mgmtReplyBudget, statusBudget, verifyPoll in *. lia.
    + intros H1%IH. unfold mgmtReplyBudget, statusBudget, verifyPoll in *. simpl in H1. lia.
Qed.

(** Fourteen polls exhaust the verify budget. *)
Lemma verify_fuel_enough f f' d cn k :
  (d - k_now k <= verifyPoll * Z.of_nat f)%Z -> (f <= f')%nat ->
  verify_go f d cn k = verify_go f' d cn k.
Proof.
  revert f' k. induction f as [|f IH]; intros f' k Hd Hle.
  - destruct f' as [|f']; [done|]. simpl. destruct (Z.ltb_spec (k_now k) d); [lia|done].
  - destruct f' as [|f']; [lia|]. simpl. case_match; [done|].
    destruct (write _ k) as [[e|] k1] eqn:Hw; [done|]. apply write_time in Hw.
    destruct (readUntil statusBudget _ k1) as [t k2] eqn:Hr.
    apply readUntil_time in Hr; [|unfold statusBudget; lia].
    case_match; [done|]. apply IH; [|lia]. unfold verifyPoll in *. simpl. lia.
Qed.

(** ** What is sent *)

Definition writes_ok (k : mgmtConn) : Prop := Forall (fun e => e.2 = None) (k_writes k).

Lemma write_ok data k :
  writes_ok k -> exists k', write data k = (None, k') /\ writes_ok k' /\ k_sent k' = k_sent k ++ [data] /\
    k_reads k' = k_reads k /\ k_buf k' = k_buf k.
Proof.
  unfold writes_ok, write. intros Hw. destruct (k_writes k) as [|[dt err] ws]; simpl.
  - by eexists.
  - inversion Hw; subst. simpl in *. subst. eexists. split; [done|]. by split.
Qed.

Lemma fill_keeps d k r k' : fill d k = (r, k') -> k_writes k' = k_writes k /\ k_sent k' = k_sent k.
Proof.
  unfold fill. destruct (k_reads k) as [|e reads]; [by intros [= <- <-]|].
  case_match; by intros [= <- <-].
Qed.

Lemma readUntil_go_keeps f d ms k t k' :
  readUntil_go f d ms k = (t, k') -> k_writes k' = k_writes k /\ k_sent k' = k_sent k.
Proof.
  revert k. induction f as [|f IH]; intros k; simpl; [by intros [= <- <-]|].
  case_match; [by intros [= <- <-]|]. case_match; [by intros [= <- <-]|].
  destruct (fill d k) as [[e|] k1] eqn:Hf; apply fill_keeps in Hf as [Hw Hs].
  - by intros [= <- <-].
  - intros [-> ->]%IH. done.
Qed.

Lemma readUntil_keeps b ms k t k' :
  readUntil b ms k = (t, k') -> k_writes k' = k_writes k /\ k_sent k' = k_sent k.
Proof. apply readUntil_go_keeps. Qed.

Lemma readBanner_keeps k t k' :
  readBanner k = (t, k') -> k_writes k' = k_writes k /\ k_sent k' = k_sent k.
Proof.
  intros Heq. assert (k' = (readBanner k).2) as -> by by rewrite Heq. clear Heq.
  unfold readBanner. cbn [snd k_writes k_sent set_buf].
  assert (forall f total k, k_writes (readBanner_go f total k) = k_writes k /\
    k_sent (readBanner_go f total k) = k_sent k) as H; [|apply H].
  clear. induction f as [|f IH]; intros total k; simpl; [done|].
  case_match; [done|]. destruct (fill _ k) as [[e|] k1] eqn:Hf; apply fill_keeps in Hf as [Hw Hs];
    [by rewrite Hw, Hs|]. destruct (IH total k1) as [-> ->]. done.
Qed.

Definition kill_cmd (cid : string) : string := "client-kill " +:+ cid +:+ " max-login-takeover" +:+ str1 nl.
Definition status_cmd : string := "status 2" +:+ str1 nl.
Definition quit_cmd : string := "quit" +:+ str1 nl.

Lemma kill_all_sent cids k lines k' :
  writes_ok k -> kill_all cids k = (lines, k') ->
  writes_ok k' /\ k_sent k' = k_sent k ++ map kill_cmd cids /\ length lines = length cids.
Proof.
  revert k lines. induction cids as [|cid cids IH]; intros k lines Hw; cbn [kill_all].
  - intros [= <- <-]. by rewrite app_nil_r.
  - destruct (write_ok (("client-kill " +:+ cid +:+ " max-login-takeover") +:+ str1 nl) k Hw)
      as (k1 & -> & Hw1 & Hs1 & _).
    destruct (readUntil mgmtReplyBudget _ k1) as [reply k2] eqn:Hr.
    apply readUntil_keeps in Hr as [Hw2 Hs2].
    destruct (kill_all cids k2) as [l k3] eqn:Hk. intros [= <- <-].
    apply IH in Hk as (H1 & H2 & H3); [|unfold writes_ok; by rewrite Hw2].
    split; [done|]. rewrite H2, Hs2, Hs1. simpl. split; [|by rewrite H3].
    rewrite <- app_assoc. simpl. unfold kill_cmd. by autorewrite with gostr.
Qed.

Lemma verify_sent f d cn k v k' :
  writes_ok k -> verify_go f d cn k = (v, k') ->
  writes_ok k' /\ exists n, k_sent k' = k_sent k ++ repeat status_cmd n /\ (n <= f)%nat /\
    (v = true -> 0 < n)%nat.
Proof.
  revert k. induction f as [|f IH]; intros k Hw; cbn [verify_go].
  - intros [= <- <-]. split; [done|]. exists 0%nat. by rewrite app_nil_r.
  - case_match; [intros [= <- <-]; split; [done|]; exists 0%nat; rewrite app_nil_r; by split; [|split; [lia|]]|].
    destruct (write_ok status_cmd k Hw) as (k1 & Hwr & Hw1 & Hs1 & _).
    unfold status_cmd in Hwr at 1. rewrite Hwr.
    destruct (readUntil statusBudget _ k1) as [t k2] eqn:Hr. apply readUntil_keeps in Hr as [Hw2 Hs2].
    assert (writes_ok k2) as Hok by (unfold writes_ok; by rewrite Hw2).
    case_match.
    + intros [= <- <-]. split; [done|]. exists 1%nat. rewrite Hs2, Hs1. split; [done|]. split; lia.
    + intros Hg. apply IH in Hg as (H1 & n & H2 & H3 & H4); [|done]. split; [done|].
      exists (S n). simpl in H2. rewrite H2, Hs2, Hs1, <- app_assoc. split; [done|]. split; lia.
Qed.

(** The outcome of the verify loop. *)
Lemma verify_outcome f d cn k k' :
  verify_go f d cn k = (true, k') ->
  exists k0 k1 text, write status_cmd k0 = (None, k1) /\
    readUntil statusBudget ["END"] k1 = (text, k') /\ mgmtHasCN text cn = false.
Proof.
  revert k. induction f as [|f IH]; intros k; cbn [verify_go]; [done|].
  case_match; [done|]. destruct (write _ k) as [[e|] k1] eqn:Hw; [done|].
  destruct (readUntil statusBudget _ k1) as [t k2] eqn:Hr.
  destruct (mgmtHasCN t cn) eqn:Hcn; simpl; [apply IH|].
  intros [= <-]. by exists k, k1, t.
Qed.

Lemma readPassword_state p w : exists r, readPassword p w = (inr r, w).
Proof.
  unfold readPassword. destruct p as [p|]; [|by eexists].
  rewrite bind_run, try_run, read_file_state. by destruct (read_file p w).1; eexists.
Qed.

Lemma authenticate_state p k w :
  exists r k', authenticate p k w = (inr (r, k'), w) /\
    (k_now k <= k_now k' <= k_now k + mgmtBannerTotal + mgmtReplyBudget + mgmtAuthBudget)%Z.
Proof.
  unfold authenticate. destruct (readBanner k) as [banner k1] eqn:Hb. apply readBanner_time in Hb.
  unfold mgmtReplyBudget, mgmtAuthBudget, mgmtBannerTotal in *.
  destruct (has_password banner); [|eexists _, _; split; [done|lia]].
  rewrite bind_run. destruct (readPassword_state p w) as [r ->].
  destruct r as [pw|]; [|eexists _, _; split; [done|lia]].
  destruct (write _ k1) as [[e|] k2] eqn:Hw; apply write_time in Hw; unfold mgmtReplyBudget in *.
  - eexists _, _. split; [done|lia].
  - destruct (readUntil _ _ k2) as [reply k3] eqn:Hr. apply readUntil_time in Hr; [|lia].
    destruct (auth_refused reply); eexists _, _; (split; [done|lia]).
Qed.

Lemma authenticate_open p k w :
  has_password (readBanner k).1 = false -> authenticate p k w = (inr (AuthOK, (readBanner k).2), w).
Proof. intros Hb. unfold authenticate. destruct (readBanner k) as [b k1]. simpl in *. by rewrite Hb. Qed.

(** A connection that sends nothing. *)
Lemma readBanner_silent k :
  k_reads k = [] -> k_buf k = "" ->
  exists k1, readBanner k = ("", k1) /\ k_reads k1 = [] /\ k_buf k1 = "" /\ k_writes k1 = k_writes k.
Proof.
  intros Hr Hb. unfold readBanner, read_fuel. rewrite Hr. cbn [length readBanner_go]. rewrite Hb.
  change (has_password "") with false. cbv iota. unfold fill. rewrite Hr. cbv iota.
  cbn [set_now_k k_buf]. rewrite Hb. by eexists.
Qed.

Lemma readUntil_silent b ms k :
  k_reads k = [] -> k_buf k = "" -> marker_seen ms "" = false -> exists k1, readUntil b ms k = ("", k1).
Proof.
  intros Hr Hb Hm. unfold readUntil, read_fuel. rewrite Hr. cbn [length readUntil_go]. rewrite Hb, Hm.
  destruct (negb _); [by eexists|]. unfold fill. rewrite Hr. by eexists.
Qed.

Lemma silent_poll d cn k f :
  k_reads k = [] -> k_buf k = "" -> writes_ok k -> (k_now k < d)%Z ->
  exists k1, verify_go (S f) d cn k = (true, k1).
Proof.
  intros Hr Hb Hw Hd. cbn [verify_go]. apply Z.ltb_lt in Hd. rewrite Hd. cbn [negb].
  destruct (write_ok ("status 2" +:+ str1 nl) k Hw) as (k1 & -> & _ & _ & Hr1 & Hb1).
  destruct (readUntil_silent statusBudget ["END"] k1) as [k2 ->]; [by rewrite Hr1|by rewrite Hb1|done|].
  by eexists.
Qed.

Lemma Takeover_run sv host port pass cn cids w :
  exists res lines k, Takeover sv host port pass cn cids w = (inr (res, lines, k), w) /\
    (k_now (sv_conn sv) <= k_now k <= k_now (sv_conn sv) + 17700 + 4000 * Z.of_nat (length cids))%Z.
Proof.
  unfold Takeover. destruct (validateMgmtHost _ _) as [e|]; [eexists _, _, _; split; [done|lia]|].
  destruct (sv_dial _ _) as [e|]; [eexists _, _, _; split; [done|lia]|].
  rewrite bind_run. destruct (authenticate_state pass (sv_conn sv) w) as (a & k1 & -> & Ht1).
  unfold mgmtReplyBudget, mgmtAuthBudget, mgmtBannerTotal in *.
  destruct a; [eexists _, _, _; split; [done|lia]..|].
  destruct (kill_all cids k1) as [lines k2] eqn:Hk. apply kill_all_time in Hk.
  destruct (verify_go verify_fuel _ cn k2) as [v k3] eqn:Hv. apply verify_time in Hv.
  destruct (write _ k3) as [r k4] eqn:Hq. apply write_time in Hq.
  unfold mgmtReplyBudget, statusBudget, verifyPoll, verifyBudget in *.
  destruct v; eexists _, _, _; (split; [done|lia]).
Qed.

(** ** Properties *)


(** A connection that answers a kill and one status poll. *)
Definition demo_conn : mgmtConn :=
  mkConn 0 "" [mkRead 10 (">INFO:OpenVPN Management Interface" +:+ str1 nl) None;
               mkRead 400 ("SUCCESS: client-kill command succeeded" +:+ str1 nl) None;
               mkRead 20 ("TITLE,OpenVPN" +:+ str1 nl +:+ "END" +:+ str1 nl) None] [] [].
Definition demo_service : Service := mkService "" (fun _ => None) demo_conn.


(** The commands of a takeover.  On a connection without a password prompt
    whose writes succeed, the node sends one kill per client id, in order, then
    polls the status between one and fourteen times and says goodbye, and logs
    one line per kill and the result.  It reports VERIFIED only after a poll
    was written and the text read in reply lists no row of the name. *)
Theorem takeover_protocol sv host port pass cn cids w res lines k :
  validateMgmtHost (sv_allow sv) host = None -> sv_dial sv (JoinHostPort host (itoa port)) = None ->
  has_password (readBanner (sv_conn sv)).1 = false -> writes_ok (sv_conn sv) ->
  Takeover sv host port pass cn cids w = (inr (res, lines, k), w) ->
  (exists n, k_sent k = k_sent (sv_conn sv) ++ map kill_cmd cids ++ repeat status_cmd n ++ [quit_cmd]
     /\ (n <= 14)%nat /\ (res = TakeoverVerified -> 0 < n)%nat) /\
  length lines = S (length cids) /\ res <> TakeoverDown /\
  (res = TakeoverVerified -> exists k0 k1 k2 text, write status_cmd k0 = (None, k1) /\
     readUntil statusBudget ["END"] k1 = (text, k2) /\ mgmtHasCN text cn = false).
Proof.
  intros Hv Hd Hb Hw. unfold Takeover. rewrite Hv, Hd, bind_run. unfold authenticate.
  destruct (readBanner (sv_conn sv)) as [banner k1] eqn:Hban. simpl in Hb. rewrite Hb.
  apply readBanner_keeps in Hban as [Hw1 Hs1]. unfold mret, M_ret.
  destruct (kill_all cids k1) as [ls k2] eqn:Hk.
  apply kill_all_sent in Hk as (Hw2 & Hs2 & Hlen); [|unfold writes_ok; by rewrite Hw1].
  destruct (verify_go verify_fuel _ cn k2) as [v k3] eqn:Hg.
  pose proof (verify_sent _ _ _ _ _ _ Hw2 Hg) as (Hw3 & n & Hs3 & Hn & Hpos).
  destruct (write_ok quit_cmd k3 Hw3) as (k4 & Hq & _ & Hs4 & _).
  unfold quit_cmd in Hq at 1. rewrite Hq.
  assert (k_sent k4 = k_sent (sv_conn sv) ++ map kill_cmd cids ++ repeat status_cmd n ++ [quit_cmd]) as Hsent.
  { rewrite Hs4, Hs3, Hs2, Hs1. by rewrite !app_assoc. }
  destruct v; intros Heq; injection Heq as <- <- <-; split_and!.
  - exists n. split; [done|]. split; [done|]. intros _. by apply Hpos.
  - rewrite length_app, Hlen. simpl. lia.
  - done.
  - intros _. apply verify_outcome in Hg as (k5 & k6 & text & H1 & H2 & H3). by exists k5, k6, k3, text.
  - exists n. split; [done|]. split; [done|]. done.
  - rewrite length_app, Hlen. simpl. lia.
  - done.
  - done.
Qed.

Lemma takeover_protocol_witness :
  exists lines k, Takeover demo_service "127.0.0.1" 7505 None "42" ["7"] demo_world =
    (inr (TakeoverVerified, lines, k), demo_world) /\ length lines = 2%nat /\
    exists n, k_sent k = [kill_cmd "7"] ++ repeat status_cmd n ++ [quit_cmd].
Proof.
  destruct (Takeover demo_service "127.0.0.1" 7505 None "42" ["7"] demo_world)
    as [[e|[[res lines] k]] w'] eqn:Hrun; [exfalso; vm_compute in Hrun; discriminate|].
  assert (res = TakeoverVerified /\ w' = demo_world) as [-> ->].
  { split; [vm_compute in Hrun; congruence|].
    destruct (Takeover_run demo_service "127.0.0.1" 7505 None "42" ["7"] demo_world)
      as (r & l & k' & H & _). rewrite Hrun in H. congruence. }
  destruct (takeover_protocol demo_service "127.0.0.1" 7505 None "42" ["7"] demo_world
    TakeoverVerified lines k eq_refl eq_refl eq_refl (Forall_nil_2 _) Hrun)
    as ((n & H1 & _ & _) & H2 & _).
  exists lines, k. split; [reflexivity|]. split; [exact H2|]. exists n. exact H1.
Defined.

(** The verify loop does not require a status to be read.  A connection
    that accepts the kill and then stays silent (or is closed by OpenVPN) is
    reported as VERIFIED for every name: the empty text read until the
    deadline lists no client. *)
Theorem silent_socket_is_verified sv host port pass cn w :
  validateMgmtHost (sv_allow sv) host = None -> sv_dial sv (JoinHostPort host (itoa port)) = None ->
  k_reads (sv_conn sv) = [] -> k_buf (sv_conn sv) = "" -> writes_ok (sv_conn sv) ->
  exists k, Takeover sv host port pass cn [] w = (inr (TakeoverVerified, ["RESULT VERIFIED"], k), w).
Proof.
  intros Hv Hd Hr Hb Hw. unfold Takeover. rewrite Hv, Hd, bind_run.
  destruct (readBanner_silent (sv_conn sv) Hr Hb) as (k1 & Hban & Hr1 & Hb1 & Hw1).
  rewrite authenticate_open by by rewrite Hban. rewrite Hban. cbn [snd kill_all].
  destruct (silent_poll (k_now k1 + verifyBudget) cn k1 13) as [k2 Hp];
    [done|done|unfold writes_ok; by rewrite Hw1|unfold verifyBudget; lia|].
  unfold verify_fuel. rewrite Hp. destruct (write _ k2) as [r k3]. by eexists.
Qed.

Definition silent_service : Service := mkService "" (fun _ => None) (mkConn 0 "" [] [] []).

Lemma silent_socket_is_verified_witness :
  exists k, Takeover silent_service "127.0.0.1" 7505 None "42" [] demo_world =
    (inr (TakeoverVerified, ["RESULT VERIFIED"], k), demo_world).
Proof.
  exact (silent_socket_is_verified silent_service "127.0.0.1" 7505 None "42" demo_world
    eq_refl eq_refl eq_refl eq_refl (Forall_nil_2 _)).
Defined.

(** The management password never leaves for another host.  Unless the
    operator allows it, a host that is not empty, [localhost] or a loopback
    address is refused before anything is dialled or written, and the takeover
    is DOWN. *)
Theorem remote_management_refused sv host port pass cn cids w cmds :
  trim_space host <> "" -> trim_space host <> "localhost" ->
  (forall ip, ParseIP (trim_space host) = Some ip -> IsLoopback ip = false) ->
  equal_fold (trim_space (sv_allow sv)) "1" = false ->
  exists line err, Takeover sv host port pass cn cids w =
      (inr (TakeoverDown, [line], sv_conn sv), w) /\
    (cmds <> [] -> SendCommands sv host port pass cmds w = (inl (Errorf err), w)).
Proof.
  intros H1 H2 H3 H4.
  assert (exists err, validateMgmtHost (sv_allow sv) host = Some err) as [err Hv].
  { unfold validateMgmtHost. destruct (str_empty (trim_space host)) eqn:He; [by apply str_empty_true in He|].
    destruct (String.eqb_spec (trim_space host) "localhost"); [done|].
    assert (match ParseIP (trim_space host) with Some ip => IsLoopback ip | None => false end = false) as ->.
    { destruct (ParseIP (trim_space host)); [by apply H3|done]. }
    rewrite H4. by eexists. }
  unfold Takeover. rewrite Hv. eexists _, err. split; [reflexivity|].
  intros Hc. unfold SendCommands. destruct cmds; [done|]. unfold dialManagement. by rewrite Hv.
Qed.

Lemma remote_management_refused_witness :
  exists line err, Takeover demo_service "192.0.2.7" 7505 None "42" ["7"] demo_world =
      (inr (TakeoverDown, [line], demo_conn), demo_world) /\
    SendCommands demo_service "192.0.2.7" 7505 None ["kill 42"] demo_world = (inl (Errorf err), demo_world).
Proof.
  destruct (remote_management_refused demo_service "192.0.2.7" 7505 None "42" ["7"] demo_world ["kill 42"])
    as (line & err & H1 & H2).
  - vm_compute. discriminate.
  - vm_compute. discriminate.
  - intros ip H. vm_compute in H. injection H as <-. reflexivity.
  - reflexivity.
  - exists line, err. split; [exact H1|]. apply H2. discriminate.
Defined.

Lemma has_cn_row s cn :
  clean_session "," s -> row_has cn (client_line "," s) = String.eqb (s_cn s) cn.
Proof.
  intros Hs. assert (is_delim ",") as Hd by by right. unfold row_has.
  destruct (row_char_no_cr "," _ Hd (client_line_chars "," s Hd Hs)) as [-> _].
  assert (split "," (client_line "," s) = client_fields s) as ->.
  { apply split_join; [done|]. eapply Forall_impl; [by apply client_fields_clean|].
    simpl. intros f Hf. apply (clean_graph "," f Hf). }
  assert (exists t, client_line "," s = "CLIENT_LIST," +:+ t) as [t ->] by by eexists.
  rewrite has_prefix_app. reflexivity.
Qed.

(** The two readers of a status agree: on a status in the format OpenVPN
    sends over the management socket, the verify loop finds the name exactly
    when the status reader of the hooks finds a session of that name. *)
Theorem verify_agrees_with_status updated rows cn :
  (0 <= updated < two63)%Z -> Forall (clean_session ",") rows ->
  mgmtHasCN (status_text "," updated rows) cn =
  match snapshot_of (status_text "," updated rows) with
  | inr snap => negb (bool_decide (filter (fun s => s_cn s = cn) (sn_sessions snap) = []))
  | inl _ => false
  end.
Proof.
  intros Hu Hr. assert (is_delim ",") as Hd by by right.
  assert (snapshot_of (status_text "," updated rows) = inr (mkSnap rows updated true)) as ->.
  { unfold snapshot_of, status_text. rewrite scan_lines_plain; [|done|by apply status_lines_plain].
    by rewrite snapshot_status_lines. }
  unfold mgmtHasCN, status_text. rewrite split_join.
  - unfold status_lines. rewrite !existsb_app. cbn [existsb app].
    assert (row_has cn (join (str1 ",") ["TIME"; "now"; itoa updated]) = false) as ->.
    { unfold row_has. rewrite trim_right_set_no; [done|]. apply join_forall; [done|]. forall_list.
      eapply str_forall_impl; [|apply (itoa_graph updated)]. intros a. by destruct a as [[][][][][][][][]]. }
    change (row_has cn (join (str1 ",") ["TITLE"; "OpenVPN"])) with false.
    change (row_has cn (join (str1 ",") header_names)) with false.
    change (row_has cn "END") with false. change (row_has cn "") with false.
    change (row_has cn "END") with false. cbn [existsb orb]. rewrite !orb_false_r.
    cbn [sn_sessions]. induction Hr as [|s rows Hs Hrows IH]; [done|]. cbn [map existsb]. rewrite has_cn_row by done.
    rewrite IH, filter_cons. destruct (String.eqb_spec (s_cn s) cn) as [He|He].
    + by rewrite decide_True.
    + by rewrite decide_False.
  - done.
  - apply Forall_app. split; [|by repeat constructor].
    eapply Forall_impl; [by apply status_lines_plain|]. simpl. tauto.
Qed.

Lemma demo_session_clean_comma : clean_session "," demo_session.
Proof.
  split; [forall_list|done|done|split; unfold is_u64, two64; simpl; lia
    |unfold two63; simpl; lia|vm_compute; done].
Qed.

Lemma verify_agrees_with_status_witness :
  mgmtHasCN (status_text "," 1700000000 [demo_session]) "42" =
  match snapshot_of (status_text "," 1700000000 [demo_session]) with
  | inr snap => negb (bool_decide (filter (fun s => s_cn s = "42") (sn_sessions snap) = []))
  | inl _ => false
  end.
Proof.
  apply (verify_agrees_with_status 1700000000 [demo_session] "42").
  - unfold two63. lia.
  - constructor; [exact demo_session_clean_comma|constructor].
Defined.
