(* ===== verification/Hooks.v ===== *)
(** * Hooks: internal/hooks/connect.go, disconnect.go and purge.go.

    The three OpenVPN hooks: admission of a client, accounting of a session
    that ends, and the purge of stale markers. *)

From S2P Require Import Prelude GoString Json Names Cache World Counter CounterSpec Markers UserPolicy Status Mgmt.
From Stdlib Require Import Ascii.

(** ** Configuration and environment *)

(** The fields of [config.Hook] the hooks use, and the management service the
    host offers. *)
Record HookCfg : Type := mkHook {
  h_users_dir : string;
  h_status : loc;
  h_mgmt_host : string;
  h_mgmt_port : Z;
  h_mgmt_pass : option loc;
  h_ttl : Z;
  h_service : Service
}.

(** [config.DefaultLimit]. *)
Definition DefaultLimit : Z := 1.

(** The environment of the hook process; an unset variable is empty. *)
Record HookEnv : Type := mkEnv {
  e_common_name : string;
  e_ip : string;
  e_port : string;
  e_pool : string;
  e_time_unix : string;
  e_rx : string;
  e_tx : string;
  e_pid : Z
}.

Definition orUnknown (v : string) : string := if str_empty v then "?" else v.
Definition orNone (v : string) : string := if str_empty v then "none" else v.

Definition liveRows (sessions : list Session) : list Session :=
  filter (fun s => ~ (s_virtual s = "" /\ s_client s = "" /\ s_real s = "")) sessions.

Definition hookTimeUnix (env : HookEnv) : M Z :=
  let v := trim_space (e_time_unix env) in
  match (if str_empty v then None else parse_int v) with
  | Some n => if (0 <? n)%Z then mret n else gets now_unix
  | None => gets now_unix
  end.

(** The next 64-bit random generation; when the source of entropy fails, one
    derived from the clock. *)
Definition newGeneration (env : HookEnv) : M string := fun w =>
  match w_gens w with
  | g :: gs => (inr g, set_gens gs w)
  | [] => (inr (hex_encode (str_take 8 (itoa (w_now w) +:+ "-" +:+ itoa (e_pid env) +:+ "-x"))), w)
  end.

Definition session_lock (safeCN : string) : loc := LSession (".lock." +:+ safeCN).

(** ** Connect *)

(** The row of the displaced generation: the first at the pool address. *)
Definition displaced_row (poolIP : string) (sessions : list Session) : option Session :=
  head (filter (fun s => poolIP <> "" /\ s_virtual s = poolIP) sessions).

Definition bankDisplacedGeneration (safeCN key poolIP : string) (sessions : list Session) : M unit :=
  old <- ReadMarker (LSession key) ;;
  match old with
  | None => mret tt
  | Some old =>
      if str_empty (m_session old) then mret tt
      else match displaced_row poolIP sessions with
           | None => mret tt
           | Some s =>
               RecordSessionUsage safeCN (m_session old) (u64_add (s_rx s) (s_tx s)) true ;;
               mret tt
           end
  end.

Definition last_kill_text (at_ : Z) (safeCN : string) : string :=
  "{" +:+ str1 dquote +:+ "reason" +:+ str1 dquote +:+ ":" +:+ str1 dquote +:+
  "replaced by newer session (limit=1)" +:+ str1 dquote +:+ "," +:+ str1 dquote +:+ "at" +:+ str1 dquote +:+
  ":" +:+ itoa at_ +:+ "," +:+ str1 dquote +:+ "cn" +:+ str1 dquote +:+ ":" +:+ str1 dquote +:+ safeCN +:+
  str1 dquote +:+ "," +:+ str1 dquote +:+ "reason_code" +:+ str1 dquote +:+ ":" +:+ str1 dquote +:+
  "max_login_takeover" +:+ str1 dquote +:+ "}" +:+ str1 nl.

Definition writeLastKill (usersDir safeCN : string) (at_ : Z) : M string :=
  ignore (mkdir_user safeCN) ;;
  ignore (WriteFileAtomic (LUser safeCN "last_kill.json") (last_kill_text at_ safeCN)) ;;
  mret (usersDir +:+ "/" +:+ safeCN +:+ "/last_kill.json").

Definition takeover (cfg : HookCfg) (cn safeCN trustedIP trustedPort poolIP : string)
    (sessions : list Session) (count : Z) : M bool :=
  let safeIP := Sanitize (orUnknown trustedIP) in
  let safePort := Sanitize (orUnknown trustedPort) in
  let cids := filter (fun c => isDigits c = true) (map s_client sessions) in
  Event ("CN=" +:+ safeCN +:+ " ip=" +:+ safeIP +:+ ":" +:+ safePort +:+ " pool=" +:+ orNone poolIP +:+
         " limit=1 status=" +:+ itoa count +:+ "; TAKEOVER (" +:+ itoa (Z.of_nat (length cids)) +:+
         " mgmt cmds, one session)") ;;
  now <- gets now_unix ;;
  sidecar <- writeLastKill (h_users_dir cfg) safeCN now ;;
  Event ("CN=" +:+ safeCN +:+ " wrote kill sidecar=" +:+ sidecar) ;;
  r <- Takeover (h_service cfg) (h_mgmt_host cfg) (h_mgmt_port cfg) (h_mgmt_pass cfg) cn cids ;;
  let '(result, lines, _) := r in
  for_each (fun line => Event ("CN=" +:+ safeCN +:+ " mgmt: " +:+ line)) lines ;;
  match result with
  | TakeoverVerified => mret true
  | TakeoverTimeout =>
      Event ("CN=" +:+ cn +:+ " ip=" +:+ orUnknown trustedIP +:+ ":" +:+ orUnknown trustedPort +:+
             " pool=" +:+ orNone poolIP +:+
             " takeover could not verify old session termination; REJECT") ;;
      mret false
  | TakeoverDown =>
      Event ("CN=" +:+ cn +:+ " ip=" +:+ orUnknown trustedIP +:+ ":" +:+ orUnknown trustedPort +:+
             " pool=" +:+ orNone poolIP +:+ " limit=1 status=" +:+ itoa count +:+
             "; management unavailable; DEGRADE (markers replaced, corpse reaped by ping-restart)") ;;
      mret true
  end.

(** The marker of a new session. *)
Definition new_marker (safeCN trustedIP trustedPort poolIP key gen : string) (created connStart : Z)
  : Marker :=
  mkMarker safeCN trustedIP trustedPort poolIP created (key +:+ "." +:+ gen) connStart "" 0 0.

(** The tail of [connectLocked]: bank the displaced generation, write the
    marker, admit. *)
Definition admitLocked (env : HookEnv) (safeCN trustedIP trustedPort poolIP key : string)
    (sessions : list Session) (limit count connStart : Z) : M Z :=
  let safeIP := Sanitize (orUnknown trustedIP) in
  let safePort := Sanitize (orUnknown trustedPort) in
  gen <- newGeneration env ;;
  created <- gets now_unix ;;
  let marker := new_marker safeCN trustedIP trustedPort poolIP key gen created connStart in
  r <- try (bankDisplacedGeneration safeCN key poolIP sessions) ;;
  match r with
  | inl err =>
      Event ("CN=" +:+ safeCN +:+ " takeover banking failed: " +:+ err_text err +:+ "; REJECT") ;;
      mret 1%Z
  | inr _ =>
      r <- try (WriteMarker (LSession key) marker) ;;
      match r with
      | inl err =>
          Event ("CN=" +:+ safeCN +:+ " could not write the session marker: " +:+ err_text err +:+
                 "; REJECT") ;;
          mret 1%Z
      | inr _ =>
          Event ("CN=" +:+ safeCN +:+ " ip=" +:+ safeIP +:+ ":" +:+ safePort +:+ " pool=" +:+
                 orNone poolIP +:+ " limit=" +:+ itoa limit +:+ " status=" +:+ itoa count +:+
                 "; ALLOW session=" +:+ key) ;;
          mret 0%Z
      end
  end.

Definition connectLocked (cfg : HookCfg) (env : HookEnv)
    (cn safeCN trustedIP trustedPort poolIP key : string) (limit connStart : Z) : M Z :=
  let safeIP := Sanitize (orUnknown trustedIP) in
  let safePort := Sanitize (orUnknown trustedPort) in
  sessions <- SessionsForCN (h_status cfg) safeCN ;;
  let sessions := liveRows sessions in
  let count := Z.of_nat (length sessions) in
  if (limit <=? count)%Z then
    if negb (limit =? 1)%Z then
      Event ("CN=" +:+ safeCN +:+ " ip=" +:+ safeIP +:+ ":" +:+ safePort +:+ " pool=" +:+ orNone poolIP +:+
             " limit=" +:+ itoa limit +:+ " status=" +:+ itoa count +:+ "; REJECT") ;;
      mret 1%Z
    else
      ok <- takeover cfg cn safeCN trustedIP trustedPort poolIP sessions count ;;
      if negb ok then mret 1%Z
      else admitLocked env safeCN trustedIP trustedPort poolIP key sessions limit count connStart
  else admitLocked env safeCN trustedIP trustedPort poolIP key sessions limit count connStart.

Definition reject (msg : string) : M Z := Event msg ;; mret 1%Z.

(** [os.Stat] of the users directory: it exists and is a directory. *)
Definition users_dir_ok : M bool := gets (fun w =>
  negb (w_fault w (OpStat (LUsersRoot ""))) && w_users_dir w).

(** The exit code of the hook: 0 admits the client, 1 refuses it. *)
Definition Connect (cfg : HookCfg) (env : HookEnv) (arg : string) : M Z :=
  let cn := if str_empty (e_common_name env) then arg else e_common_name env in
  let trustedIP := e_ip env in
  let trustedPort := e_port env in
  let poolIP := e_pool env in
  let safeCN := Sanitize cn in
  let safeIP := Sanitize (orUnknown trustedIP) in
  let safePort := Sanitize (orUnknown trustedPort) in
  if negb (String.eqb safeCN cn) then
    reject ("CN=" +:+ safeCN +:+ " (sanitized=" +:+ safeCN +:+ ") rejected: malformed; REJECT")
  else if negb (HookCNValid safeCN) then
    reject ("CN=" +:+ safeCN +:+ " (sanitized=" +:+ safeCN +:+ ") rejected: malformed; REJECT")
  else
  tree <- users_dir_ok ;;
  if negb tree then
    reject ("CN=" +:+ safeCN +:+ " ip=" +:+ safeIP +:+ ":" +:+ safePort +:+
            "; USERS_DIR missing or not a directory — fail-closed; REJECT")
  else
  d <- try (mkdir "sessions") ;;
  match d with
  | inl err => reject ("CN=" +:+ safeCN +:+ " could not prepare session directory: " +:+ err_text err +:+
                       "; REJECT")
  | inr _ =>
  st <- try (ReadUserState (h_users_dir cfg) safeCN) ;;
  match st with
  | inl err => reject ("CN=" +:+ safeCN +:+ " could not read user state: " +:+ err_text err +:+ "; REJECT")
  | inr state =>
  let limit := if u_limit_set state then u_limit state else DefaultLimit in
  if u_disabled state then
    reject ("CN=" +:+ safeCN +:+ " ip=" +:+ safeIP +:+ ":" +:+ safePort +:+ " is disabled; REJECT")
  else
  let poolKey := if str_empty poolIP then "" else Sanitize poolIP in
  let key := SessionKey safeCN poolKey (Sanitize (orUnknown trustedIP)) (Sanitize (orUnknown trustedPort)) in
  connStart <- hookTimeUnix env ;;
  if (limit =? 0)%Z then
    gen <- newGeneration env ;;
    created <- gets now_unix ;;
    let marker := new_marker safeCN trustedIP trustedPort poolIP key gen created connStart in
    r <- try_err (Lock (session_lock safeCN) (
      sessions <- SessionsForCN (h_status cfg) safeCN ;;
      bankDisplacedGeneration safeCN key poolIP (liveRows sessions) ;;
      WriteMarker (LSession key) marker)) ;;
    match r with
    | inl err => reject ("CN=" +:+ safeCN +:+ " could not write the session marker: " +:+ err_text err +:+
                         "; REJECT")
    | inr _ => Event ("CN=" +:+ safeCN +:+ " limit=unlimited; LOCAL_ALLOW") ;; mret 0%Z
    end
  else
    r <- try_err (Lock (session_lock safeCN)
           (connectLocked cfg env cn safeCN trustedIP trustedPort poolIP key limit connStart)) ;;
    match r with
    | inl err => reject ("CN=" +:+ safeCN +:+ " could not take the session lock: " +:+ err_text err +:+
                         "; REJECT")
    | inr exit => mret exit
    end
  end
  end.

(** ** Disconnect *)

Definition hookTimeUnixEnv (env : HookEnv) : Z :=
  let v := trim_space (e_time_unix env) in
  if str_empty v then 0
  else match parse_int v with
       | Some n => if (n <? 0)%Z then 0 else n
       | None => 0
       end.

(** A byte counter of the environment. *)
Definition counter (v : string) : Z := default 0%Z (parse_uint (trim_space v)).

Definition marker_session_id (m : Marker) (key : string) : string :=
  if str_empty (m_session m) then key else m_session m.

Definition disconnectMatches (m : Marker) (key trustedIP trustedPort : string) (startUnix : Z) : bool :=
  let sessionID := marker_session_id m key in
  if negb (HasGeneration sessionID) then true
  else
    let mStart := if (m_started m =? 0)%Z then m_connected_at m else m_started m in
    if (0 <? startUnix)%Z && (0 <? mStart)%Z && negb (startUnix =? mStart)%Z then false
    else if negb (str_empty (m_ip m)) && negb (str_empty trustedIP) && negb (String.eqb (m_ip m) trustedIP)
    then false
    else if negb (str_empty (m_port m)) && negb (str_empty trustedPort)
            && negb (String.eqb (m_port m) trustedPort) then false
    else true.

(** The body of the hook under the session lock. *)
Definition disconnectLocked (env : HookEnv) (safeCN poolKey ipKey portKey key : string) : M unit :=
  let trustedIP := e_ip env in
  let trustedPort := e_port env in
  let rx := counter (e_rx env) in
  let tx := counter (e_tx env) in
  let total := u64_add rx tx in
  markerExists <- stat_file (LSession key) ;;
  if negb markerExists then
    RemoveLegacyMarkers safeCN poolKey ipKey portKey ;;
    Syslog ("CN=" +:+ safeCN +:+ " disconnect fallback cleanup session=" +:+ key)
  else
    m <- ReadMarker (LSession key) ;;
    match m with
    | None => mret tt
    | Some m =>
        if negb (disconnectMatches m key trustedIP trustedPort (hookTimeUnixEnv env)) then
          Syslog ("CN=" +:+ safeCN +:+
                  " delayed disconnect for a previous generation; ignored session=" +:+ key)
        else
          r <- try (RecordSessionUsage safeCN (marker_session_id m key) total true) ;;
          match r with
          | inl err => Syslog ("CN=" +:+ safeCN +:+ " usage accounting failed: " +:+ err_text err)
          | inr _ =>
              (if (0 <? total)%Z then
                 Syslog ("CN=" +:+ safeCN +:+ " session ended rx=" +:+ itoa rx +:+ " tx=" +:+ itoa tx)
               else mret tt) ;;
              r <- try (remove_if_exists (LSession key)) ;;
              match r with
              | inl err => Syslog ("CN=" +:+ safeCN +:+ " marker removal failed: " +:+ err_text err)
              | inr _ => Syslog ("CN=" +:+ safeCN +:+ " disconnect removed session=" +:+ key)
              end
          end
    end.

Definition Disconnect (env : HookEnv) (arg : string) : M Z :=
  let cn := if str_empty (e_common_name env) then arg else e_common_name env in
  if str_empty cn then Syslog "disconnect without common_name" ;; mret 0%Z
  else
  let safeCN := Sanitize cn in
  if negb (String.eqb safeCN cn) || negb (HookCNValid safeCN) then
    Syslog ("disconnect rejected malformed CN=" +:+ safeCN) ;; mret 0%Z
  else
  let poolKey := if str_empty (e_pool env) then "" else Sanitize (e_pool env) in
  let ipKey := Sanitize (orUnknown (e_ip env)) in
  let portKey := Sanitize (orUnknown (e_port env)) in
  let key := SessionKey safeCN poolKey ipKey portKey in
  d <- try (mkdir "sessions") ;;
  match d with
  | inl err => Syslog ("CN=" +:+ safeCN +:+ " could not prepare session directory: " +:+ err_text err) ;;
               mret 0%Z
  | inr _ =>
      r <- try (Lock (session_lock safeCN) (disconnectLocked env safeCN poolKey ipKey portKey key)) ;;
      match r with
      | inl err => Syslog ("CN=" +:+ safeCN +:+ " could not take the session lock: " +:+ err_text err) ;;
                   mret 0%Z
      | inr _ => mret 0%Z
      end
  end.

(** ** PurgeStale *)

(** The counts the purge prints, and the users it removed markers of. *)
Record purge_acc : Type := mkPurge {
  pg_removed : Z;
  pg_kept : Z;
  pg_scanned : Z;
  pg_affected : gset string
}.

Definition stale (now ttl : Z) (live : gset string) (m : Marker) : bool :=
  (0 <? m_created m)%Z && (ttl <? i64_sub now (m_created m))%Z && negb (bool_decide (m_pool m ∈ live)).

Fixpoint purge_loop (now ttl : Z) (live : gset string) (names : list string) (a : purge_acc)
  : M purge_acc :=
  match names with
  | [] => mret a
  | name :: names' =>
      if has_prefix name "." then purge_loop now ttl live names' a
      else
        let kept := mkPurge (pg_removed a) (pg_kept a + 1) (pg_scanned a + 1) (pg_affected a) in
        m <- ReadMarker (LSession name) ;;
        match m with
        | None => purge_loop now ttl live names' kept
        | Some m =>
            if stale now ttl live m then
              r <- try (remove_file (LSession name)) ;;
              match r with
              | inl _ => purge_loop now ttl live names' kept
              | inr _ => purge_loop now ttl live names'
                           (mkPurge (pg_removed a + 1) (pg_kept a) (pg_scanned a + 1)
                              ({[m_cn m]} ∪ pg_affected a))
              end
            else purge_loop now ttl live names' kept
        end
  end.

(** The session IDs and marker names still present, per user. *)
Fixpoint present_loop (names : list string) (p : gmap string (gset string)) : M (gmap string (gset string)) :=
  match names with
  | [] => mret p
  | name :: names' =>
      if has_prefix name "." then present_loop names' p
      else
        m <- ReadMarker (LSession name) ;;
        match m with
        | None => present_loop names' p
        | Some m =>
            present_loop names'
              (<[m_cn m := {[name]} ∪ ({[m_session m]} ∪ default ∅ (p !! m_cn m))]> p)
        end
  end.

(** Retire the completed receipts of the users whose markers were removed. *)
Definition retire_receipts (affected : gset string) : M unit :=
  if bool_decide (affected = ∅) then mret tt
  else
    remaining <- try read_sessions_dir ;;
    match remaining with
    | inl _ => mret tt
    | inr remaining =>
        present <- present_loop remaining ∅ ;;
        for_each (fun cn => ignore (PruneReceipts cn (default ∅ (present !! cn)))) (elements affected)
    end.

(** The hook's exit code is 0; the result is the summary it prints. *)
Definition PurgeStale (cfg : HookCfg) : M (Z * Z * Z) :=
  now <- gets now_unix ;;
  snap <- try_err (ReadStatusSnapshot (h_status cfg)) ;;
  match snap with
  | inl _ => mret (0, 0, 0)%Z
  | inr snap =>
      let live := list_to_set (map s_virtual (sn_sessions snap)) : gset string in
      names <- try read_sessions_dir ;;
      let names := match names with inl _ => [] | inr l => l end in
      a <- purge_loop now (h_ttl cfg) live names (mkPurge 0 0 0 ∅) ;;
      retire_receipts (pg_affected a) ;;
      mret (pg_removed a, pg_kept a, pg_scanned a)
  end.
