(* ===== verification/HookProps.v ===== *)
(** * HookProps: the properties of the hooks.

    What a hook may touch, what an admission guarantees, how the decision is
    made, and how the end of a session is accounted. *)

From S2P Require Import Prelude GoString Names Cache World Counter CounterSpec Markers UserPolicy Status Mgmt Hooks.
From Stdlib Require Import Ascii.

(** ** What a hook may touch *)

(** The files of one user's session: its marker and lock, its counter and
    lock, and the kill sidecar. *)
Definition hook_files (safe key : string) (l : loc) : Prop :=
  l = LSession key \/ l = session_lock safe \/ l = LUsage safe \/ l = usage_lock safe \/
  l = LUser safe "last_kill.json".

Lemma ReadUserState_touches L d cn : touches L (ReadUserState d cn).
Proof. unfold ReadUserState, read_optional, readPolicyFile. touch_solve. Qed.

Lemma readPassword_touches L p : touches L (readPassword p).
Proof. unfold readPassword. touch_solve. Qed.

Lemma Takeover_touches L sv h p pw cn cids : touches L (Takeover sv h p pw cn cids).
Proof.
  intros w l _. destruct (Takeover_run sv h p pw cn cids w) as (res & lines & k & -> & _). done.
Qed.

Lemma RecordSessionUsage_touches (L : loc -> Prop) cn id b c :
  (forall safe, SafeCN cn = Some safe -> L (LUsage safe) /\ L (usage_lock safe)) ->
  touches L (RecordSessionUsage cn id b c).
Proof.
  intros HL. unfold RecordSessionUsage, writeUsageState. destruct (SafeCN cn) as [safe|]; [|touch_solve].
  destruct (HL safe eq_refl) as [H1 H2]. touch_solve.
Qed.

Lemma hookTimeUnix_touches L env : touches L (hookTimeUnix env).
Proof. unfold hookTimeUnix. touch_solve. Qed.

Lemma newGeneration_touches L env : touches L (newGeneration env).
Proof. intros w l _. unfold newGeneration. by case_match. Qed.

#[export] Hint Resolve ReadUserState_touches readPassword_touches Takeover_touches
  hookTimeUnix_touches newGeneration_touches : touch.

Lemma bank_touches safe key pool rows :
  StoreKeyRe safe = true -> touches (hook_files safe key) (bankDisplacedGeneration safe key pool rows).
Proof.
  intros Hk. unfold bankDisplacedGeneration. touch_solve. apply RecordSessionUsage_touches.
  rewrite SafeCN_key by done. intros ? [= <-]. unfold hook_files. tauto.
Qed.

Lemma writeLastKill_touches safe key d t : touches (hook_files safe key) (writeLastKill d safe t).
Proof. unfold writeLastKill, hook_files. touch_solve. Qed.

Lemma takeover_touches cfg cn safe key ip port pool rows n :
  touches (hook_files safe key) (takeover cfg cn safe ip port pool rows n).
Proof. unfold takeover. touch_solve. apply writeLastKill_touches. Qed.

Lemma admitLocked_touches env safe ip port pool key rows limit n start :
  StoreKeyRe safe = true ->
  touches (hook_files safe key) (admitLocked env safe ip port pool key rows limit n start).
Proof.
  intros Hk. unfold admitLocked. touch_solve; first [by apply bank_touches | idtac].
  all: apply WriteMarker_touches; unfold hook_files; tauto.
Qed.

Lemma connectLocked_touches cfg env cn safe ip port pool key limit start :
  StoreKeyRe safe = true ->
  touches (hook_files safe key) (connectLocked cfg env cn safe ip port pool key limit start).
Proof.
  intros Hk. unfold connectLocked. touch_solve;
    first [by apply admitLocked_touches | apply takeover_touches].
Qed.

Lemma reject_touches L msg : touches L (reject msg).
Proof. unfold reject. touch_solve. Qed.
#[export] Hint Resolve reject_touches : touch.

(** The name, key and user a hook works on. *)
Definition hook_cn (env : HookEnv) (arg : string) : string :=
  if str_empty (e_common_name env) then arg else e_common_name env.
Definition pool_key (env : HookEnv) : string := if str_empty (e_pool env) then "" else Sanitize (e_pool env).
Definition hook_key (env : HookEnv) (arg : string) : string :=
  SessionKey (Sanitize (hook_cn env arg)) (pool_key env) (Sanitize (orUnknown (e_ip env)))
    (Sanitize (orUnknown (e_port env))).

Lemma Connect_touches cfg env arg :
  touches (hook_files (hook_cn env arg) (hook_key env arg)) (Connect cfg env arg).
Proof.
  unfold Connect. fold (hook_cn env arg). cbv zeta. fold (pool_key env). fold (hook_key env arg).
  destruct (String.eqb_spec (Sanitize (hook_cn env arg)) (hook_cn env arg)) as [He|]; [|cbn [negb orb]; touch_solve].
  cbn [negb]. rewrite He. destruct (HookCNValid (hook_cn env arg)) eqn:Hv; [|cbn [negb]; touch_solve].
  rewrite HookCNValid_StoreKeyRe in Hv. cbn [negb]. unfold users_dir_ok. touch_solve.
  all: first [ by apply bank_touches | by apply connectLocked_touches
             | apply WriteMarker_touches; unfold hook_files; tauto
             | unfold hook_files; tauto | idtac ].
Qed.

Lemma Disconnect_touches env arg :
  touches (fun l => hook_files (hook_cn env arg) (hook_key env arg) l \/ is_session l) (Disconnect env arg).
Proof.
  unfold Disconnect. fold (hook_cn env arg). cbv zeta. fold (pool_key env). fold (hook_key env arg).
  destruct (str_empty (hook_cn env arg)); [touch_solve|].
  destruct (String.eqb_spec (Sanitize (hook_cn env arg)) (hook_cn env arg)) as [He|]; [|cbn [negb orb]; touch_solve].
  cbn [negb orb]. rewrite He. destruct (HookCNValid (hook_cn env arg)) eqn:Hv; [|cbn [negb]; touch_solve].
  rewrite HookCNValid_StoreKeyRe in Hv. cbn [negb]. unfold disconnectLocked, RemoveLegacyMarkers. touch_solve.
  all: first [ apply RecordSessionUsage_touches; rewrite SafeCN_key by done; intros ? [= <-];
               unfold hook_files; tauto
             | unfold hook_files; tauto | right; exact I | idtac ].
Qed.

Lemma PruneReceipts_touches (L : loc -> Prop) cn p :
  (forall safe, SafeCN cn = Some safe -> L (LUsage safe) /\ L (usage_lock safe)) ->
  touches L (PruneReceipts cn p).
Proof.
  intros HL. unfold PruneReceipts, writeUsageState. destruct (SafeCN cn) as [safe|]; [|touch_solve].
  destruct (HL safe eq_refl) as [H1 H2]. touch_solve.
Qed.

Definition is_usage (l : loc) : Prop := match l with LUsage _ => True | _ => False end.

Lemma purge_loop_touches now ttl live names a : touches is_session (purge_loop now ttl live names a).
Proof.
  revert a. induction names as [|n names IH]; intros a; simpl; [touch_solve|]. case_match; [apply IH|].
  touch_solve; first [apply IH | exact I | idtac].
Qed.

Lemma present_loop_touches L names p : touches L (present_loop names p).
Proof.
  revert p. induction names as [|n names IH]; intros p; simpl; [touch_solve|]. case_match; [apply IH|].
  touch_solve; apply IH.
Qed.

Lemma PurgeStale_touches cfg : touches (fun l => is_session l \/ is_usage l) (PurgeStale cfg).
Proof.
  unfold PurgeStale, retire_receipts. touch_solve.
  - eapply touches_weaken; [|apply purge_loop_touches]. tauto.
  - apply present_loop_touches.
  - apply PruneReceipts_touches. intros safe _. split; by right.
Qed.

(** ** Reads that change nothing *)

Lemma ParseSessions_state p w : (ParseSessions p w).2 = w.
Proof.
  unfold ParseSessions, open_status. rewrite bind_run, bind_run, try_run, read_file_state. simpl.
  destruct (read_file p w).1 as [e|d]; simpl; [done|]. by case_match.
Qed.

Lemma SessionsForCN_state p cn w : (SessionsForCN p cn w).2 = w.
Proof.
  unfold SessionsForCN. rewrite bind_run. pose proof (ParseSessions_state p w) as H.
  destruct (ParseSessions p w) as [[e|l] w1]; simpl in *; by subst.
Qed.

Lemma hookTimeUnix_run env w : exists t, hookTimeUnix env w = (inr t, w).
Proof. unfold hookTimeUnix. repeat case_match; by eexists. Qed.

Lemma Event_run msg w : Event msg w = (inr tt, set_log (w_log w ++ [strip_crlf msg]) w).
Proof. done. Qed.

Lemma reject_run msg w : reject msg w = (inr 1%Z, set_log (w_log w ++ [strip_crlf msg]) w).
Proof. done. Qed.

(** ** Admission *)

Lemma write_marker_inr p m w w' :
  WriteMarker p m w = (inr tt, w') -> w' = set_files (<[p := marker_text m]> (w_files w)) w.
Proof. unfold WriteMarker, WriteFileAtomic. repeat case_match; intros; by simplify_eq. Qed.

(** An admission wrote the marker of the session. *)
Definition marker_written (env : HookEnv) (safe key : string) (w' : World) : Prop :=
  exists gen created start, w_files w' !! LSession key =
    Some (marker_text (new_marker safe (e_ip env) (e_port env) (e_pool env) key gen created start)).

Lemma admitLocked_admits env safe key rows limit n start w w' :
  admitLocked env safe (e_ip env) (e_port env) (e_pool env) key rows limit n start w = (inr 0%Z, w') ->
  marker_written env safe key w'.
Proof.
  unfold admitLocked. cbv zeta. rewrite bind_run. destruct (newGeneration env w) as [[e|gen] w1]; [done|].
  rewrite bind_run. cbn [gets]. rewrite bind_run, try_run.
  destruct (bankDisplacedGeneration safe key (e_pool env) rows w1) as [[e|[]] w2]; [done|].
  cbn [fst snd]. rewrite bind_run, try_run.
  destruct (WriteMarker _ _ w2) as [[e|[]] w3] eqn:Hw; [done|]. cbn [fst snd]. rewrite bind_run, Event_run.
  intros [= <-]. apply write_marker_inr in Hw as ->. exists gen, (now_unix w1), start. simpl.
  by rewrite lookup_insert_eq.
Qed.

(** The take-over was tried and did not end in a timeout. *)
Definition taken_over (cfg : HookCfg) (cn : string) (rows : list Session) : Prop :=
  exists w res lines k,
    Takeover (h_service cfg) (h_mgmt_host cfg) (h_mgmt_port cfg) (h_mgmt_pass cfg) cn
      (filter (fun c => isDigits c = true) (map s_client rows)) w = (inr (res, lines, k), w) /\
    res <> TakeoverTimeout.

Lemma takeover_true cfg cn safe ip port pool rows n w w' :
  takeover cfg cn safe ip port pool rows n w = (inr true, w') -> taken_over cfg cn rows.
Proof.
  unfold takeover. cbv zeta. rewrite bind_run, Event_run, bind_run. cbn [gets].
  rewrite bind_run. destruct (writeLastKill _ _ _ _) as [[e|s] w1]; [done|].
  rewrite bind_run, Event_run, bind_run.
  match goal with |- context [Takeover ?a ?b ?c ?d ?e ?f ?w0] =>
    destruct (Takeover_run a b c d e f w0) as (res & lines & k & Hrun & _) end.
  rewrite Hrun, bind_run. destruct (for_each _ lines _) as [[e|[]] w2]; [done|].
  intros Hres. eexists _, res, lines, k. split; [exact Hrun|]. by intros ->.
Qed.

(** The rows the hook counts. *)
Definition live_rows (cfg : HookCfg) (safe : string) (w : World) (rows : list Session) : Prop :=
  exists l, (SessionsForCN (h_status cfg) safe w).1 = inr l /\ rows = liveRows l.

Lemma connectLocked_admits cfg env cn safe key limit start w w' :
  connectLocked cfg env cn safe (e_ip env) (e_port env) (e_pool env) key limit start w = (inr 0%Z, w') ->
  marker_written env safe key w' /\
  exists rows, live_rows cfg safe w rows /\
    ((Z.of_nat (length rows) < limit)%Z \/ (limit = 1%Z /\ taken_over cfg cn rows)).
Proof.
  unfold connectLocked. cbv zeta. rewrite bind_run.
  pose proof (SessionsForCN_state (h_status cfg) safe w) as Hw.
  destruct (SessionsForCN (h_status cfg) safe w) as [[e|l] w1] eqn:Hs; [done|]. simpl in Hw. subst w1.
  assert (live_rows cfg safe w (liveRows l)) as Hlive by (exists l; by rewrite Hs).
  destruct (Z.leb_spec limit (Z.of_nat (length (liveRows l)))) as [Hle|Hlt].
  - destruct (Z.eqb_spec limit 1) as [->|]; simpl.
    + rewrite bind_run. destruct (takeover _ _ _ _ _ _ _ _ w) as [[e|ok] w2] eqn:Ht; [done|].
      destruct ok; simpl; [|done]. intros Ha. apply admitLocked_admits in Ha.
      apply takeover_true in Ht. split; [done|]. exists (liveRows l). split; [done|]. by right.
    + rewrite bind_run, Event_run. done.
  - intros Ha. apply admitLocked_admits in Ha. split; [done|]. exists (liveRows l). split; [done|]. by left.
Qed.

(** The files under the session lock of an existing world. *)
Lemma try_err_inr {A} (m : M A) w r w' :
  try_err m w = (inr r, w') -> m w = (r, w').
Proof. unfold try_err. destruct (m w) as [[[]|] w1]; intros; by simplify_eq. Qed.

(** Locking a session does not change what the status reader sees, unless the
    status file is the lock. *)
Lemma SessionsForCN_lock p cn safe w :
  p <> session_lock safe ->
  (SessionsForCN p cn (set_files (lock_files (session_lock safe) (w_files w)) w)).1 = (SessionsForCN p cn w).1.
Proof.
  intros Hp. unfold SessionsForCN, ParseSessions, open_status. rewrite !bind_run, !try_run.
  unfold read_file. simpl. rewrite lock_files_ne by done.
  destruct (w_fault w (OpRead p)); [done|]. destruct (w_files w !! p); [|done]. simpl. by destruct (parse_rows _ _).
Qed.

Lemma reject_not_admit msg w w' : reject msg w <> (inr 0%Z, w').
Proof. done. Qed.

Lemma Connect_admits cfg env arg w w' :
  h_status cfg <> session_lock (hook_cn env arg) ->
  Connect cfg env arg w = (inr 0%Z, w') ->
  StoreKeyRe (hook_cn env arg) = true /\
  w_users_dir w = true /\
  marker_written env (hook_cn env arg) (hook_key env arg) w' /\
  exists st, ReadUserState (h_users_dir cfg) (hook_cn env arg) w = (inr st, w) /\
    u_disabled st = false /\
    exists rows, live_rows cfg (hook_cn env arg) w rows /\
      let limit := if u_limit_set st then u_limit st else 1%Z in
      (limit = 0%Z \/ (Z.of_nat (length rows) < limit)%Z \/
       (limit = 1%Z /\ taken_over cfg (hook_cn env arg) rows)).
Proof.
  intros Hst. unfold Connect, hook_key. fold (hook_cn env arg). cbv zeta. fold (pool_key env).
  destruct (String.eqb_spec (Sanitize (hook_cn env arg)) (hook_cn env arg)) as [He|]; [|done].
  cbn [negb]. rewrite !He. set (cn := hook_cn env arg) in *.
  destruct (HookCNValid cn) eqn:Hv; [|done]. rewrite HookCNValid_StoreKeyRe in Hv. cbn [negb].
  rewrite bind_run. unfold users_dir_ok, gets at 1.
  destruct (w_users_dir w) eqn:Hd; [|by rewrite andb_false_r].
  destruct (negb (w_fault w (OpStat (LUsersRoot "")))); [|done]. cbn [andb negb].
  rewrite bind_run, try_run. unfold mkdir. destruct (w_fault w (OpMkdir "sessions")); [done|]. cbn [fst snd].
  rewrite bind_run, try_run.
  destruct (ReadUserState (h_users_dir cfg) cn w) as [[e|st] w1] eqn:Hread; [done|]. cbn [fst snd].
  assert (w1 = w) as ->.
  { pose proof (ReadUserState_state (h_users_dir cfg) cn w) as H. by rewrite Hread in H. }
  destruct (u_disabled st) eqn:Hdis; [done|].
  rewrite bind_run. destruct (hookTimeUnix_run env w) as [start ->].
  set (key := SessionKey cn (pool_key env) _ _). set (limit := if u_limit_set st then _ else _).
  intros Hrun.
  assert (marker_written env cn key w' /\ exists rows, live_rows cfg cn w rows /\
    (limit = 0%Z \/ (Z.of_nat (length rows) < limit)%Z \/ (limit = 1%Z /\ taken_over cfg cn rows)))
    as (Hm & rows & Hl & Hlim).
  2: { split; [done|]. split; [done|]. split; [done|]. exists st. split; [done|]. split; [done|]. by exists rows. }
  destruct (Z.eqb_spec limit 0) as [Hz|Hz].
  - rewrite bind_run in Hrun. destruct (newGeneration env w) as [[e|gen] w2] eqn:Hg; [done|].
    rewrite bind_run in Hrun. cbn [gets] in Hrun. rewrite bind_run in Hrun.
    destruct (try_err _ w2) as [[e|r] w3] eqn:Ht; [done|]. apply try_err_inr in Ht.
    destruct r as [e|[]]; [by apply reject_not_admit in Hrun|].
    rewrite bind_run, Event_run in Hrun. injection Hrun as <-.
    apply Lock_inr in Ht as Hbody. rewrite bind_run in Hbody.
    assert (w_files w2 = w_files w /\ w_fault w2 = w_fault w) as [Hf2 Hft2].
    { unfold newGeneration in Hg. destruct (w_gens w); by injection Hg as <- <-. }
    destruct (SessionsForCN _ _ _) as [[e|l] w5] eqn:Hs; [done|].
    pose proof (SessionsForCN_state (h_status cfg) cn
      (set_files (lock_files (session_lock cn) (w_files w2)) w2)) as Hs5. rewrite Hs in Hs5. simpl in Hs5.
    rewrite bind_run in Hbody. destruct (bankDisplacedGeneration _ _ _ _ w5) as [[e|[]] w6]; [done|].
    apply write_marker_inr in Hbody as ->. split.
    + exists gen, (now_unix w2), start. simpl. by rewrite lookup_insert_eq.
    + exists (liveRows l). split; [|by left]. exists l. split; [|done].
      pose proof (SessionsForCN_lock (h_status cfg) cn cn w2 Hst) as Hlk. rewrite Hs in Hlk. simpl in Hlk.
      rewrite Hlk. unfold SessionsForCN, ParseSessions, open_status.
      rewrite !bind_run, !try_run. unfold read_file. rewrite Hf2, Hft2.
      destruct (w_fault w _); [done|]. destruct (w_files w !! h_status cfg); [|done]. simpl.
      by destruct (parse_rows _ _).
  - rewrite bind_run in Hrun.
    destruct (try_err _ w) as [[e|r] w3] eqn:Ht; [done|]. apply try_err_inr in Ht.
    destruct r as [e|exit]; [by apply reject_not_admit in Hrun|].
    injection Hrun as -> ->. apply Lock_inr in Ht as Hbody.
    apply connectLocked_admits in Hbody as (Hm & rows & (l & Hl & ->) & Hlim). split; [done|].
    exists (liveRows l). split; [|by right]. exists l. split; [|done].
    by rewrite <- Hl, SessionsForCN_lock.
Qed.

(** ** The decision *)

Lemma RecordSessionUsage_faults cn id b c : keeps_faults (RecordSessionUsage cn id b c).
Proof.
  unfold RecordSessionUsage, ReadUsageState, writeUsageState, upgrade, with_epoch. fault_solve.
  all: by intros w.
Qed.
#[export] Hint Resolve RecordSessionUsage_faults : fault.

Lemma record_fails w safe id b c e :
  faultless w -> StoreKeyRe safe = true -> id <> "" -> loaded w safe = inl e ->
  exists w', RecordSessionUsage safe id b c w = (inl e, w') /\
    w_files w' !! LUsage safe = w_files w !! LUsage safe.
Proof.
  intros Hf Hk Hid Hl. unfold RecordSessionUsage. rewrite SafeCN_key by done.
  destruct (str_empty id) eqn:He; [by destruct id|]. rewrite bind_run. unfold mkdir. rewrite (Hf _).
  by apply locked_read_fails.
Qed.

(** Whether banking the displaced generation succeeds: there is nothing to
    bank, or the counter is readable and the new total fits. *)
Definition bank_ok (f : gmap loc string) (safe key pool : string) (rows : list Session) : bool :=
  match f !! LSession key with
  | None => true
  | Some d =>
      let id := m_session (parse_marker d) in
      if str_empty id then true
      else match displaced_row pool rows with
           | None => true
           | Some s =>
               let b := u64_add (s_rx s) (s_tx s) in
               match f !! LUsage safe with
               | None => true
               | Some data =>
                   match decode_counter data with
                   | inl _ => false
                   | inr st => (lg_total (spec_observe (abs st) id b true) <? two64)%Z
                   end
               end
           end
  end.

(** Accounting never panics. *)
Definition no_panic {A} (m : M A) : Prop := forall w p w', m w <> (inl (Panic p), w').

Lemma np_bind {A B} (m : M A) (k : A -> M B) :
  no_panic m -> (forall a, no_panic (k a)) -> no_panic (x <- m ;; k x).
Proof.
  intros Hm Hk w p w'. rewrite bind_run. specialize (Hm w). destruct (m w) as [[e|a] w1].
  - intros [= -> <-]. by eapply Hm.
  - apply Hk.
Qed.
Lemma np_try {A} (m : M A) : no_panic (try m).
Proof. intros w p w'. by rewrite try_run. Qed.
Lemma np_ret {A} (a : A) : no_panic (mret a : M A).
Proof. done. Qed.
Lemma np_lock {A} l (m : M A) : no_panic m -> no_panic (Lock l m).
Proof. intros Hm w p w'. unfold Lock. repeat case_match; try done; apply Hm. Qed.
Lemma np_write l d : no_panic (WriteFileAtomic l d).
Proof. intros w p w'. unfold WriteFileAtomic. by repeat case_match. Qed.
Lemma np_read l : no_panic (read_file l).
Proof. intros w p w'. unfold read_file. by repeat case_match. Qed.

Lemma np_epoch : no_panic newEpoch.
Proof. done. Qed.
Lemma np_usage cn : no_panic (ReadUsageState cn).
Proof.
  unfold ReadUsageState. destruct (SafeCN cn); [|done].
  apply np_bind; [apply np_bind; [apply np_try|done]|intros _].
  intros w p w'. rewrite bind_run, try_run. unfold read_file. repeat (case_match; simplify_eq/=; try done).
  all: unfold decode_counter in *; repeat (case_match; simplify_eq/=; try done).
Qed.

Lemma np_record cn id b c : no_panic (RecordSessionUsage cn id b c).
Proof.
  unfold RecordSessionUsage. destruct (SafeCN cn); [|done]. case_match; [done|].
  apply np_bind; [intros w p w'; unfold mkdir; by case_match|intros _]. apply np_lock.
  apply np_bind; [apply np_usage|intros st].
  apply np_bind; [unfold upgrade; repeat case_match; done|intros st1]. case_match; [|done].
  apply np_bind; [unfold with_epoch; case_match; done|intros st2].
  apply np_bind; [apply np_write|done].
Qed.

Lemma bank_no_panic safe key pool rows : no_panic (bankDisplacedGeneration safe key pool rows).
Proof.
  unfold bankDisplacedGeneration. apply np_bind.
  { intros w p w'. unfold ReadMarker. rewrite bind_run, try_run. by repeat case_match. }
  intros old. repeat case_match; try done. apply np_bind; [apply np_record|done].
Qed.

Lemma bank_run w safe key pool rows :
  faultless w -> StoreKeyRe safe = true ->
  exists r w', bankDisplacedGeneration safe key pool rows w = (r, w') /\ faultless w' /\
    (if bank_ok (w_files w) safe key pool rows then r = inr tt else exists e, r = inl e).
Proof.
  intros Hf Hk. unfold bankDisplacedGeneration, bank_ok. rewrite bind_run, ReadMarker_run by apply Hf.
  destruct (w_files w !! LSession key) as [d|]; simpl; [|by eexists _, _].
  destruct (str_empty (m_session (parse_marker d))) eqn:Hid; [by eexists _, _|].
  destruct (displaced_row pool rows) as [s|]; [|by eexists _, _]. rewrite bind_run.
  set (b := u64_add (s_rx s) (s_tx s)). set (id := m_session (parse_marker d)) in *.
  assert (is_u64 b) as Hb by apply u64_add_range.
  assert (id <> "") as Hne by (intros He; by rewrite He in Hid).
  assert (SafeCN safe = Some safe) as Hcn by by apply SafeCN_key.
  assert (forall st, loaded w safe = inr st ->
    exists r w', (let (s0, w') := RecordSessionUsage safe id b true w in
       match s0 with inl e => (inl e, w') | inr _ => (mret tt : M unit) w' end) = (r, w') /\ faultless w' /\
      (if (lg_total (spec_observe (abs st) id b true) <? two64)%Z then r = inr tt else exists e, r = inl e)) as Hrec.
  { intros st Hl. pose proof (record_run w safe safe st id b true Hf Hcn Hne Hb Hl) as Hr.
    pose proof (faultless_keeps _ w (RecordSessionUsage_faults safe id b true) Hf) as Hfl.
    destruct (RecordSessionUsage safe id b true w) as [[e|st'] w'].
    - destruct Hr as [Ho _]. eexists _, _. split; [done|]. split; [done|].
      destruct (Z.ltb_spec (lg_total (spec_observe (abs st) id b true)) two64); [lia|]. by eexists.
    - destruct Hr as (Ha & Hwf & _). eexists _, _. split; [done|]. split; [done|].
      rewrite <- Ha, abs_total. destruct Hwf as [_ _ Ht _].
      destruct (Z.ltb_spec (st_total st') two64); [done|]. unfold is_u64 in Ht. lia. }
  destruct (w_files w !! LUsage safe) as [data|] eqn:Hd.
  - destruct (decode_counter data) as [e|st] eqn:Hdec.
    + destruct (record_fails w safe id b true e Hf Hk Hne) as (w' & Hrun & _);
        [unfold loaded; by rewrite Hd|].
      pose proof (faultless_keeps _ w (RecordSessionUsage_faults safe id b true) Hf) as Hfl.
      rewrite Hrun in Hfl |- *. eexists _, _. split; [done|]. split; [done|]. by eexists.
    + apply Hrec. unfold loaded. by rewrite Hd.
  - destruct (Hrec (fresh_state w)) as (r & w' & H1 & H2 & H3); [unfold loaded; by rewrite Hd|].
    exists r, w'. split; [done|]. split; [done|].
    assert (lg_total (spec_observe (abs (fresh_state w)) id b true) = b) as Ht.
    { unfold lg_total, spec_observe, abs, fresh_state. simpl. unfold marks_of.
      rewrite fmap_empty, insert_empty, lookup_empty, map_sum_empty.
      rewrite <- insert_empty, map_sum_insert, map_sum_empty by done. unfold is_u64 in Hb. simpl. lia. }
    rewrite Ht in H3. destruct (Z.ltb_spec b two64); [done|]. unfold is_u64 in Hb. lia.
Qed.

Lemma newGeneration_run env w :
  exists gen w1, newGeneration env w = (inr gen, w1) /\ w_files w1 = w_files w /\ w_fault w1 = w_fault w.
Proof. unfold newGeneration. destruct (w_gens w); by eexists _, _. Qed.

Lemma SessionsForCN_ext p cn w w' :
  w_files w' !! p = w_files w !! p -> w_fault w' = w_fault w ->
  (SessionsForCN p cn w').1 = (SessionsForCN p cn w).1.
Proof.
  intros Hp Hf. unfold SessionsForCN, ParseSessions, open_status. rewrite !bind_run, !try_run.
  unfold read_file. rewrite Hp, Hf.
  destruct (w_fault w (OpRead p)); [done|]. destruct (w_files w !! p); [|done].
  simpl. by destruct (parse_rows _ _).
Qed.

(** The locked body for an unlimited user. *)
Lemma unlimited_run w cfg safe key pool marker l :
  faultless w -> StoreKeyRe safe = true -> (SessionsForCN (h_status cfg) safe w).1 = inr l ->
  exists r w', (sessions <- SessionsForCN (h_status cfg) safe ;;
      bankDisplacedGeneration safe key pool (liveRows sessions) ;;
      WriteMarker (LSession key) marker) w = (r, w') /\
    (if bank_ok (w_files w) safe key pool (liveRows l) then r = inr tt else
     exists e, r = inl e /\ forall p, e <> Panic p).
Proof.
  intros Hf Hk Hl. rewrite bind_run. pose proof (SessionsForCN_state (h_status cfg) safe w) as Hw.
  destruct (SessionsForCN _ _ w) as [r w0]. simpl in Hw, Hl. subst. rewrite bind_run.
  destruct (bank_run w safe key pool (liveRows l) Hf Hk) as (r & w1 & Hb & Hf1 & Hr).
  pose proof (bank_no_panic safe key pool (liveRows l) w) as Hnp. rewrite Hb in Hnp |- *.
  destruct (bank_ok _ _ _ _ _).
  - subst r. unfold WriteMarker. rewrite write_file_ok by (apply Hf1 || done). by eexists _, _.
  - destruct Hr as [e ->]. eexists _, _. split; [done|]. exists e. split; [done|]. intros p ->. by eapply Hnp.
Qed.

Lemma admit_run w env safe ip port pool key rows limit n start :
  faultless w -> StoreKeyRe safe = true ->
  exists w', admitLocked env safe ip port pool key rows limit n start w =
    (inr (if bank_ok (w_files w) safe key pool rows then 0 else 1)%Z, w').
Proof.
  intros Hf Hk. unfold admitLocked. cbv zeta. rewrite bind_run.
  destruct (newGeneration_run env w) as (gen & w1 & -> & Hf1 & Hft1).
  assert (faultless w1) as Hfl1 by (intros op; rewrite Hft1; apply Hf).
  rewrite bind_run. cbn [gets]. rewrite bind_run, try_run.
  destruct (bank_run w1 safe key pool rows Hfl1 Hk) as (r & w2 & -> & Hfl2 & Hr). rewrite Hf1 in Hr.
  cbn [fst snd]. destruct (bank_ok (w_files w) safe key pool rows).
  - subst r. rewrite bind_run, try_run. unfold WriteMarker. rewrite write_file_ok by (apply Hfl2 || done).
    cbn [fst snd]. rewrite bind_run, Event_run. by eexists.
  - destruct Hr as [e ->]. rewrite bind_run, Event_run. by eexists.
Qed.

(** The take-over of a fault-free node: the result decides, and neither the
    markers nor the counters change. *)
Lemma takeover_decides w cfg cn safe ip port pool rows n :
  faultless w ->
  exists ok w', takeover cfg cn safe ip port pool rows n w = (inr ok, w') /\ faultless w' /\
    (forall l, l <> LUser safe "last_kill.json" -> w_files w' !! l = w_files w !! l) /\
    exists w1 res lines k,
      Takeover (h_service cfg) (h_mgmt_host cfg) (h_mgmt_port cfg) (h_mgmt_pass cfg) cn
        (filter (fun c => isDigits c = true) (map s_client rows)) w1 = (inr (res, lines, k), w1) /\
      ok = match res with TakeoverTimeout => false | _ => true end.
Proof.
  intros Hf. unfold takeover. cbv zeta. rewrite bind_run, Event_run, bind_run. cbn [gets].
  rewrite bind_run. set (w1 := set_log _ w).
  assert (exists s w2, writeLastKill (h_users_dir cfg) safe (now_unix w1) w1 = (inr s, w2) /\ faultless w2 /\
    forall l, l <> LUser safe "last_kill.json" -> w_files w2 !! l = w_files w !! l)
    as (s & w2 & -> & Hf2 & Hl2).
  { unfold writeLastKill, mkdir_user, ignore. rewrite bind_run, bind_run, try_run.
    change (w_fault w1) with (w_fault w). rewrite (Hf _). cbn [fst snd].
    unfold mret at 1, M_ret at 1. rewrite bind_run, bind_run, try_run.
    rewrite write_file_ok; [|apply Hf|apply bool_decide_eq_true_2; set_solver].
    eexists _, _. split; [done|]. split; [done|]. intros l Hl. simpl. by rewrite lookup_insert_ne. }
  rewrite bind_run, Event_run, bind_run. set (w3 := set_log _ w2).
  destruct (Takeover_run (h_service cfg) (h_mgmt_host cfg) (h_mgmt_port cfg) (h_mgmt_pass cfg) cn
    (filter (fun c => isDigits c = true) (map s_client rows)) w3) as (res & lines & k & Hrun & _).
  rewrite Hrun, bind_run.
  assert (forall ls w0, exists w4, for_each (fun line => Event ("CN=" +:+ safe +:+ " mgmt: " +:+ line)) ls w0
    = (inr tt, w4) /\ w_fault w4 = w_fault w0 /\ w_files w4 = w_files w0) as Hlog.
  { induction ls as [|x ls IH]; intros w0; simpl; [by eexists|]. rewrite bind_run, Event_run.
    destruct (IH (set_log (w_log w0 ++ [strip_crlf ("CN=" +:+ safe +:+ " mgmt: " +:+ x)]) w0))
      as (w4 & -> & H1 & H2). by exists w4. }
  destruct (Hlog lines w3) as (w4 & -> & H4 & H5).
  assert (faultless w4) as Hf4 by (intros op; rewrite H4; apply Hf2).
  assert (forall l, l <> LUser safe "last_kill.json" -> w_files w4 !! l = w_files w !! l) as Hl4
    by (intros l Hl; rewrite H5; by apply Hl2).
  destruct res; (eexists _, _; split; [done|]; split; [done|]; split; [done|]; eexists w3, _, lines, k; by split).
Qed.

(** The policy, as a function of the user, the live rows and the outcome of a
    take-over. *)
Definition decision (st : UserState) (rows : list Session) (res : TakeoverResult) (bank : bool) : Z :=
  let limit := if u_limit_set st then u_limit st else 1%Z in
  let n := Z.of_nat (length rows) in
  if u_disabled st then 1
  else if (limit =? 0)%Z || (n <? limit)%Z then (if bank then 0 else 1)
  else if (limit =? 1)%Z then
    match res with
    | TakeoverTimeout => 1
    | _ => if bank then 0 else 1
    end
  else 1.

Lemma bank_ok_ext f f' safe key pool rows :
  f !! LSession key = f' !! LSession key -> f !! LUsage safe = f' !! LUsage safe ->
  bank_ok f safe key pool rows = bank_ok f' safe key pool rows.
Proof. intros H1 H2. unfold bank_ok. by rewrite H1, H2. Qed.

Lemma connectLocked_decides w cfg env cn safe ip port pool key limit start l :
  faultless w -> StoreKeyRe safe = true -> (SessionsForCN (h_status cfg) safe w).1 = inr l ->
  exists res w', connectLocked cfg env cn safe ip port pool key limit start w =
    (inr (let n := Z.of_nat (length (liveRows l)) in
          let bank := bank_ok (w_files w) safe key pool (liveRows l) in
          if (n <? limit)%Z then (if bank then 0 else 1)
          else if (limit =? 1)%Z
               then match res with TakeoverTimeout => 1 | _ => if bank then 0 else 1 end
               else 1)%Z, w') /\
    ((limit = 1 /\ 1 <= Z.of_nat (length (liveRows l)))%Z ->
     exists w1 lines k, Takeover (h_service cfg) (h_mgmt_host cfg) (h_mgmt_port cfg) (h_mgmt_pass cfg) cn
        (filter (fun c => isDigits c = true) (map s_client (liveRows l))) w1 = (inr (res, lines, k), w1)).
Proof.
  intros Hf Hk Hl. unfold connectLocked. cbv zeta. rewrite bind_run.
  pose proof (SessionsForCN_state (h_status cfg) safe w) as Hw.
  destruct (SessionsForCN _ _ w) as [r w0]. simpl in Hw, Hl. subst.
  destruct (Z.leb_spec limit (Z.of_nat (length (liveRows l)))) as [Hle|Hlt].
  - destruct (Z.ltb_spec (Z.of_nat (length (liveRows l))) limit); [lia|].
    destruct (Z.eqb_spec limit 1) as [->|Hne]; cbn [negb].
    + rewrite bind_run.
      destruct (takeover_decides w cfg cn safe ip port pool (liveRows l) (Z.of_nat (length (liveRows l))) Hf)
        as (ok & w1 & -> & Hf1 & Hl1 & w2 & res & lines & k & Hrun & ->).
      exists res. destruct res; cbn [negb].
      * destruct (admit_run w1 env safe ip port pool key (liveRows l) 1 (Z.of_nat (length (liveRows l))) start
          Hf1 Hk) as [w3 ->]. rewrite (bank_ok_ext (w_files w1) (w_files w)) by by apply Hl1.
        eexists. split; [done|]. eauto.
      * eexists. split; [done|]. eauto.
      * destruct (admit_run w1 env safe ip port pool key (liveRows l) 1 (Z.of_nat (length (liveRows l))) start
          Hf1 Hk) as [w3 ->]. rewrite (bank_ok_ext (w_files w1) (w_files w)) by by apply Hl1.
        eexists. split; [done|]. eauto.
    + rewrite bind_run, Event_run. exists TakeoverDown. eexists. split; [done|]. lia.
  - destruct (Z.ltb_spec (Z.of_nat (length (liveRows l))) limit); [|lia].
    destruct (admit_run w env safe ip port pool key (liveRows l) limit (Z.of_nat (length (liveRows l))) start
      Hf Hk) as [w3 ->]. exists TakeoverDown. eexists. split; [done|]. lia.
Qed.

Lemma valid_cn cn : StoreKeyRe cn = true -> Sanitize cn = cn.
Proof. intros H. apply Sanitize_id. by apply StoreKeyRe_key. Qed.

Lemma Connect_decides w cfg env arg st l :
  faultless w -> w_users_dir w = true -> StoreKeyRe (hook_cn env arg) = true ->
  h_status cfg <> session_lock (hook_cn env arg) ->
  policy_of (h_users_dir cfg) (hook_cn env arg) w = inr st ->
  (SessionsForCN (h_status cfg) (hook_cn env arg) w).1 = inr l ->
  hook_key env arg <> ".lock." +:+ hook_cn env arg ->
  exists res w', Connect cfg env arg w =
    (inr (decision st (liveRows l) res
            (bank_ok (w_files w) (hook_cn env arg) (hook_key env arg) (e_pool env) (liveRows l))), w') /\
    ((if u_limit_set st then u_limit st else 1%Z) = 1%Z -> (1 <= Z.of_nat (length (liveRows l)))%Z ->
     u_disabled st = false ->
     exists w1 lines k, Takeover (h_service cfg) (h_mgmt_host cfg) (h_mgmt_port cfg) (h_mgmt_pass cfg)
        (hook_cn env arg) (filter (fun c => isDigits c = true) (map s_client (liveRows l))) w1 =
        (inr (res, lines, k), w1)).
Proof.
  intros Hf Hd Hk Hst Hpol Hl Hkey. unfold Connect, hook_key in *. fold (hook_cn env arg) in *. cbv zeta.
  fold (pool_key env). rewrite (valid_cn _ Hk) in *. set (cn := hook_cn env arg) in *.
  rewrite String.eqb_refl. cbn [negb]. rewrite HookCNValid_StoreKeyRe, Hk. cbn [negb].
  rewrite bind_run. unfold users_dir_ok, gets at 1. rewrite (Hf _), Hd. cbn [negb andb].
  rewrite bind_run, try_run. unfold mkdir. rewrite (Hf _). cbn [fst snd].
  rewrite bind_run, try_run, (read_user_run w (h_users_dir cfg) cn cn Hf (SafeCN_key _ Hk)), Hpol.
  cbn [fst snd]. unfold decision. cbv zeta.
  destruct (u_disabled st) eqn:Hdis; [exists TakeoverDown; eexists; split; [done|done]|].
  rewrite bind_run. destruct (hookTimeUnix_run env w) as [start ->].
  set (key := SessionKey cn (pool_key env) _ _) in *.
  change DefaultLimit with 1%Z. set (limit := if u_limit_set st then u_limit st else 1%Z) in *.
  set (w1 := set_files (lock_files (session_lock cn) (w_files w)) w).
  assert (bank_ok (w_files w1) cn key (e_pool env) (liveRows l) =
          bank_ok (w_files w) cn key (e_pool env) (liveRows l)) as Hbank.
  { apply bank_ok_ext; simpl; apply lock_files_ne; unfold session_lock; congruence. }
  destruct (Z.eqb_spec limit 0) as [Hz|Hz]; cbn [orb].
  - rewrite bind_run. destruct (newGeneration_run env w) as (gen & w2 & -> & Hf2 & Hft2).
    assert (faultless w2) as Hfl2 by (intros op; rewrite Hft2; apply Hf).
    rewrite bind_run. cbn [gets]. rewrite bind_run. unfold try_err. rewrite Lock_ok by (apply Hfl2 || done).
    match goal with |- context [WriteMarker _ ?mk] =>
      destruct (unlimited_run (set_files (lock_files (session_lock cn) (w_files w2)) w2) cfg cn key (e_pool env)
        mk l) as (r & w3 & -> & Hr) end; [done|done| |].
    { rewrite <- Hl. apply SessionsForCN_ext; [|done]. simpl. rewrite lock_files_ne by done. by rewrite Hf2. }
    simpl in Hr. rewrite Hf2 in Hr. fold w1 in Hr. simpl in Hbank. rewrite Hbank in Hr.
    exists TakeoverDown. destruct (bank_ok (w_files w) cn key (e_pool env) (liveRows l)).
    + subst r. rewrite bind_run, Event_run. eexists. split; [done|]. intros Hone _ _. lia.
    + destruct Hr as (e & -> & Hnp). destruct e as [| |msg|p]; [..|by destruct (Hnp p)];
        (eexists; split; [done|]; intros Hone _ _; lia).
  - rewrite bind_run. unfold try_err. rewrite Lock_ok by (apply Hf || done). fold w1.
    destruct (connectLocked_decides w1 cfg env cn cn (e_ip env) (e_port env) (e_pool env) key limit start l)
      as (res & w2 & -> & Ht); [done|done|by rewrite <- Hl; apply SessionsForCN_lock|].
    rewrite Hbank. exists res. eexists. split; [done|]. intros -> Hn _. by apply Ht.
Qed.

(** ** Properties of the connect hook *)

Definition demo_cfg : HookCfg :=
  mkHook "/u" (LAbs "status") "127.0.0.1" 7505 None 86400 demo_service.
Definition demo_env : HookEnv :=
  mkEnv "42" "203.0.113.9" "51000" "10.8.0.3" "1700000000" "700" "300" 1234.

(** A node with one live session of user 42, whose limit is one. *)
Definition busy_world : World :=
  set_user_dirs true {["42"]} (set_files
    (<[LAbs "status" := status_text tab 1700000000 [demo_session]]>
      (<[LUser "42" "state" := print_lines [("limit", "1"); ("disabled", "0")]]> ∅)) demo_world).

(** C18: an admission is always justified, whatever file or socket operation
    fails.  If the connect hook exits with 0, the name passed unchanged
    through the sanitizer and is a store key, the users directory exists, the
    policy of the user was read without error and does not disable it, a
    marker of this session was written, and the limit allows it: it is 0, or
    above the number of live rows, or 1 with a take-over that did not time
    out.  Every failure on the way refuses the client. *)
Theorem admission_is_justified cfg env arg w w' :
  h_status cfg <> session_lock (hook_cn env arg) ->
  Connect cfg env arg w = (inr 0%Z, w') ->
  Sanitize (hook_cn env arg) = hook_cn env arg /\ StoreKeyRe (hook_cn env arg) = true /\
  w_users_dir w = true /\ marker_written env (hook_cn env arg) (hook_key env arg) w' /\
  exists st, ReadUserState (h_users_dir cfg) (hook_cn env arg) w = (inr st, w) /\
    u_disabled st = false /\
    exists rows, live_rows cfg (hook_cn env arg) w rows /\
      let limit := if u_limit_set st then u_limit st else 1%Z in
      (limit = 0%Z \/ (Z.of_nat (length rows) < limit)%Z \/
       (limit = 1%Z /\ taken_over cfg (hook_cn env arg) rows)).
Proof.
  intros Hst Hrun. destruct (Connect_admits cfg env arg w w' Hst Hrun) as (Hk & Hd & Hm & Hst').
  split; [by apply valid_cn|]. done.
Qed.

Lemma admission_is_justified_witness :
  exists w', Connect demo_cfg demo_env "" busy_world = (inr 0%Z, w') /\
    marker_written demo_env "42" "42.10.8.0.3" w'.
Proof.
  destruct (Connect demo_cfg demo_env "" busy_world) as [r w'] eqn:Hrun.
  assert (r = inr 0%Z) as ->.
  { change r with (r, w').1. rewrite <- Hrun. vm_compute. reflexivity. }
  destruct (admission_is_justified demo_cfg demo_env "" busy_world w' ltac:(discriminate) Hrun)
    as (_ & _ & _ & H & _).
  exists w'. split; [reflexivity|exact H].
Defined.

(** C15: the connect hook implements its policy.  When no file operation fails,
    for every user state, status file and management service the exit code is
    that of the policy: a disabled user is refused; below the limit, or
    without one, the client is admitted; at a limit of one the result of the
    take-over decides, and only a timeout refuses; at any other limit the
    client is refused; and an admission whose displaced generation cannot be
    banked (unreadable counter, overflow) is refused. *)
Theorem connect_implements_policy w cfg env arg st l :
  faultless w -> w_users_dir w = true -> StoreKeyRe (hook_cn env arg) = true ->
  h_status cfg <> session_lock (hook_cn env arg) ->
  policy_of (h_users_dir cfg) (hook_cn env arg) w = inr st ->
  (SessionsForCN (h_status cfg) (hook_cn env arg) w).1 = inr l ->
  hook_key env arg <> ".lock." +:+ hook_cn env arg ->
  exists res, (Connect cfg env arg w).1 =
    inr (decision st (liveRows l) res
           (bank_ok (w_files w) (hook_cn env arg) (hook_key env arg) (e_pool env) (liveRows l))) /\
    ((if u_limit_set st then u_limit st else 1%Z) = 1%Z -> (1 <= Z.of_nat (length (liveRows l)))%Z ->
     u_disabled st = false ->
     exists w1 lines k, Takeover (h_service cfg) (h_mgmt_host cfg) (h_mgmt_port cfg) (h_mgmt_pass cfg)
        (hook_cn env arg) (filter (fun c => isDigits c = true) (map s_client (liveRows l))) w1 =
        (inr (res, lines, k), w1)).
Proof.
  intros Hf Hd Hk Hst Hpol Hl Hkey.
  destruct (Connect_decides w cfg env arg st l Hf Hd Hk Hst Hpol Hl Hkey) as (res & w' & Hrun & Ht).
  exists res. by rewrite Hrun.
Qed.

(** The same user with a limit of two and two live sessions. *)
Definition full_world : World :=
  set_user_dirs true {["42"]} (set_files
    (<[LAbs "status" := status_text tab 1700000000
         [demo_session; mkSession "42" "198.51.100.7:4000" "198.51.100.7" "4000" "10.8.0.9" 5 6 "8" 1699999000]]>
      (<[LUser "42" "state" := print_lines [("limit", "2"); ("disabled", "0")]]> ∅)) demo_world).

Lemma connect_implements_policy_witness : (Connect demo_cfg demo_env "" full_world).1 = inr 1%Z.
Proof.
  destruct (connect_implements_policy full_world demo_cfg demo_env "" (mkUser 2 true false "" false)
    [demo_session; mkSession "42" "198.51.100.7:4000" "198.51.100.7" "4000" "10.8.0.9" 5 6 "8" 1699999000])
    as (res & H & _).
  - exact demo_faultless.
  - reflexivity.
  - reflexivity.
  - discriminate.
  - vm_compute. reflexivity.
  - vm_compute. reflexivity.
  - discriminate.
  - rewrite H. reflexivity.
Defined.

(** The connect hook stays in the files of its session: the marker and the
    lock of the session, the counter and the lock of the user and the kill
    sidecar.  No other file of the node changes, whoever connects and whatever
    fails: policies, other users' markers, counters and profiles are safe
    from a connecting client. *)
Theorem connect_frame cfg env arg w l :
  ~ hook_files (hook_cn env arg) (hook_key env arg) l ->
  w_files (Connect cfg env arg w).2 !! l = w_files w !! l.
Proof. apply Connect_touches. Qed.

Lemma connect_frame_witness :
  w_files (Connect demo_cfg demo_env "" busy_world).2 !! LUser "42" "state" =
  Some (print_lines [("limit", "1"); ("disabled", "0")]).
Proof.
  rewrite (connect_frame demo_cfg demo_env "" busy_world (LUser "42" "state")).
  - reflexivity.
  - unfold hook_files. intros [H|[H|[H|[H|H]]]]; discriminate H.
Defined.

(** ** The end of a session *)

Lemma Syslog_run msg w : Syslog msg w = (inr tt, set_sys (w_sys w ++ [trim_space msg]) w).
Proof. done. Qed.

(** The bytes a disconnect reports. *)
Definition reported (env : HookEnv) : Z := u64_add (counter (e_rx env)) (counter (e_tx env)).

(** A fault-free disconnect of a valid name is its locked body. *)
Lemma disconnect_body w env arg :
  faultless w -> StoreKeyRe (hook_cn env arg) = true ->
  exists w1, w1 = set_files (lock_files (session_lock (hook_cn env arg)) (w_files w)) w /\
    Disconnect env arg w =
    let '(r, w2) := disconnectLocked env (hook_cn env arg) (pool_key env) (Sanitize (orUnknown (e_ip env)))
                      (Sanitize (orUnknown (e_port env))) (hook_key env arg) w1 in
    match r with
    | inl err => (Syslog ("CN=" +:+ hook_cn env arg +:+ " could not take the session lock: " +:+ err_text err) ;;
                  mret 0%Z) w2
    | inr _ => (inr 0%Z, w2)
    end.
Proof.
  intros Hf Hk. eexists. split; [done|]. unfold Disconnect, hook_key. fold (hook_cn env arg). cbv zeta.
  fold (pool_key env). rewrite (valid_cn _ Hk). set (cn := hook_cn env arg) in *.
  destruct (str_empty cn) eqn:He; [by destruct cn|].
  rewrite String.eqb_refl, HookCNValid_StoreKeyRe, Hk. cbn [negb orb].
  rewrite bind_run, try_run. unfold mkdir. rewrite (Hf _). cbn [fst snd].
  rewrite bind_run, try_run, Lock_ok by (apply Hf || done).
  destruct (disconnectLocked _ _ _ _ _ _ _) as [[e|[]] w2]; done.
Qed.

(** The body when the marker matches. *)
Lemma disconnect_matched w env safe pk ik pok key d m st :
  faultless w -> StoreKeyRe safe = true -> key <> "" -> w_files w !! LSession key = Some d ->
  parse_marker d = m -> disconnectMatches m key (e_ip env) (e_port env) (hookTimeUnixEnv env) = true ->
  loaded w safe = inr st ->
  let l' := spec_observe (abs st) (marker_session_id m key) (reported env) true in
  exists w', disconnectLocked env safe pk ik pok key w = (inr tt, w') /\
    if (lg_total l' <? two64)%Z
    then (exists st', loaded w' safe = inr st' /\ abs st' = l') /\ w_files w' !! LSession key = None
    else w_files w' !! LUsage safe = w_files w !! LUsage safe /\ w_files w' !! LSession key = Some d.
Proof.
  intros Hf Hk Hkey Hd Hm Hmatch Hl. cbv zeta. unfold disconnectLocked. rewrite bind_run.
  unfold stat_file. rewrite (Hf _), Hd. rewrite bool_decide_eq_true_2 by by eexists. cbn [negb andb].
  rewrite bind_run, ReadMarker_run, Hd by apply Hf. simpl fmap. cbn [fmap option_fmap option_map].
  rewrite Hm, Hmatch. cbn [negb]. fold (reported env). set (id := marker_session_id m key).
  assert (id <> "") as Hid.
  { subst id. unfold marker_session_id. destruct (str_empty (m_session m)) eqn:He; [done|].
    intros Heq. by rewrite Heq in He. }
  rewrite bind_run, try_run.
  assert (is_u64 (reported env)) as Hb by apply u64_add_range.
  pose proof (record_run w safe safe st id (reported env) true Hf (SafeCN_key _ Hk) Hid Hb Hl) as Hrec.
  pose proof (faultless_keeps _ w (RecordSessionUsage_faults safe id (reported env) true) Hf) as Hfl.
  pose proof (RecordSessionUsage_touches (fun l => ~ is_session l) safe id (reported env) true) as Htouch.
  specialize (Htouch ltac:(intros; split; intros []) w (LSession key) ltac:(intros H; apply H; exact I)).
  destruct (RecordSessionUsage safe id (reported env) true w) as [[e|st'] w1]; cbn [fst snd] in *.
  - destruct Hrec as [Ho Hfile]. rewrite Syslog_run. eexists. split; [done|].
    destruct (Z.ltb_spec (lg_total (spec_observe (abs st) id (reported env) true)) two64); [lia|].
    cbn [w_files set_sys]. by rewrite Htouch.
  - destruct Hrec as (Ha & Hwf & Hfile & _ & _). rewrite bind_run.
    assert (exists w2, (if (0 <? reported env)%Z then
       Syslog ("CN=" +:+ safe +:+ " session ended rx=" +:+ itoa (counter (e_rx env)) +:+ " tx=" +:+
               itoa (counter (e_tx env))) else mret tt) w1 = (inr tt, w2) /\ w_files w2 = w_files w1 /\
       faultless w2) as (w2 & -> & Hw2 & Hf2) by (case_match; by eexists).
    rewrite bind_run, try_run, remove_if_run by done. cbn [fst snd]. rewrite Syslog_run.
    eexists. split; [done|]. rewrite <- Ha, abs_total.
    destruct (Z.ltb_spec (st_total st') two64) as [_|Hge]; [|destruct (wf_total _ Hwf); lia].
    cbn [w_files set_sys set_files]. rewrite lookup_delete_eq. split; [|done].
    exists st'. split; [|done]. unfold loaded. cbn [w_files set_sys set_files].
    rewrite lookup_delete_ne by done. rewrite Hw2, Hfile. by apply decode_encode.
Qed.

(** The body when the counter cannot be read. *)
Lemma disconnect_unreadable w env safe pk ik pok key d m e :
  faultless w -> StoreKeyRe safe = true -> key <> "" -> w_files w !! LSession key = Some d ->
  parse_marker d = m -> disconnectMatches m key (e_ip env) (e_port env) (hookTimeUnixEnv env) = true ->
  loaded w safe = inl e ->
  exists w', disconnectLocked env safe pk ik pok key w = (inr tt, w') /\
    w_files w' !! LSession key = Some d /\ w_files w' !! LUsage safe = w_files w !! LUsage safe.
Proof.
  intros Hf Hk Hkey Hd Hm Hmatch Hl. unfold disconnectLocked. rewrite bind_run.
  unfold stat_file. rewrite (Hf _), Hd. rewrite bool_decide_eq_true_2 by by eexists. cbn [negb andb].
  rewrite bind_run, ReadMarker_run, Hd by apply Hf. cbn [fmap option_fmap option_map].
  rewrite Hm, Hmatch. cbn [negb]. fold (reported env). set (id := marker_session_id m key).
  assert (id <> "") as Hid.
  { subst id. unfold marker_session_id. destruct (str_empty (m_session m)) eqn:He; [done|].
    intros Heq. by rewrite Heq in He. }
  rewrite bind_run, try_run.
  destruct (record_fails w safe id (reported env) true e Hf Hk Hid Hl) as (w1 & Hrun & Hfile).
  pose proof (RecordSessionUsage_touches (fun l => ~ is_session l) safe id (reported env) true) as Htouch.
  specialize (Htouch ltac:(intros; split; intros []) w (LSession key) ltac:(intros H; apply H; exact I)).
  rewrite Hrun in Htouch |- *. cbn [fst snd] in *. rewrite Syslog_run. eexists. split; [done|].
  cbn [w_files set_sys]. by rewrite Htouch.
Qed.

(** A disconnect whose marker belongs to another generation. *)
Lemma disconnect_foreign w env safe pk ik pok key d :
  faultless w -> w_files w !! LSession key = Some d ->
  disconnectMatches (parse_marker d) key (e_ip env) (e_port env) (hookTimeUnixEnv env) = false ->
  exists w', disconnectLocked env safe pk ik pok key w = (inr tt, w') /\ w_files w' = w_files w.
Proof.
  intros Hf Hd Hmatch. unfold disconnectLocked. rewrite bind_run.
  unfold stat_file. rewrite (Hf _), Hd. rewrite bool_decide_eq_true_2 by by eexists. cbn [negb andb].
  rewrite bind_run, ReadMarker_run, Hd by apply Hf. simpl. rewrite Hmatch. simpl. by eexists.
Qed.

Lemma disconnectLocked_faults env safe pk ik pok key :
  keeps_faults (disconnectLocked env safe pk ik pok key).
Proof. unfold disconnectLocked, RemoveLegacyMarkers, ReadMarker. fault_solve. Qed.

Lemma disconnect_unmarked_touches w env arg :
  faultless w -> StoreKeyRe (hook_cn env arg) = true -> w_files w !! LSession (hook_key env arg) = None ->
  hook_key env arg <> ".lock." +:+ hook_cn env arg ->
  forall l, ~ is_session l -> w_files (Disconnect env arg w).2 !! l = w_files w !! l.
Proof.
  intros Hf Hk Hn Hkey l Hl. destruct (disconnect_body w env arg Hf Hk) as (w1 & -> & ->).
  set (w1 := set_files _ w).
  assert (w_files w1 !! l = w_files w !! l) as Hl1.
  { simpl. apply lock_files_ne. intros ->. by apply Hl. }
  unfold disconnectLocked. rewrite bind_run. unfold stat_file.
  assert (w_files w1 !! LSession (hook_key env arg) = None) as ->.
  { simpl. rewrite lock_files_ne; [done|]. unfold session_lock. congruence. }
  rewrite bool_decide_eq_false_2 by by intros []. rewrite andb_false_r. cbn [negb].
  rewrite bind_run.
  assert (touches is_session (RemoveLegacyMarkers (hook_cn env arg) (pool_key env)
    (Sanitize (orUnknown (e_ip env))) (Sanitize (orUnknown (e_port env))))) as Ht.
  { unfold RemoveLegacyMarkers. touch_solve. exact I. }
  specialize (Ht w1 l Hl). destruct (RemoveLegacyMarkers _ _ _ _ w1) as [[e|[]] w2]; simpl in *.
  - by rewrite Ht.
  - by rewrite Ht.
Qed.

Lemma new_marker_parse safe ip port pool key gen created start :
  clean_marker (new_marker safe ip port pool key gen created start) -> (0 < start)%Z -> key <> "" ->
  exists m, parse_marker (marker_text (new_marker safe ip port pool key gen created start)) = m /\
    m_session m = key +:+ "." +:+ gen /\ m_started m = start /\ m_ip m = ip /\ m_port m = port.
Proof.
  intros Hc Hs Hk. eexists. split; [by apply parse_marker_text|]. unfold stored_marker, new_marker. simpl.
  destruct (Z.eqb_spec start 0); [lia|]. simpl.
  destruct (str_empty (key +:+ "." +:+ gen)) eqn:He; [|done].
  apply str_empty_true in He. by destruct key.
Qed.

(** C20: a session is accounted when it ends, once.  For a marker the connect
    hook wrote and a disconnect from the same address with the same start, the
    hook removes the marker and closes the generation: the total grows by what
    the final counters exceed the highest bytes already polled for it (and by
    nothing if it was already closed), and a repeated disconnect of the same
    session leaves every counter unchanged. *)
Theorem disconnect_accounts_session w env arg gen created start st :
  faultless w -> StoreKeyRe (hook_cn env arg) = true ->
  hook_key env arg <> ".lock." +:+ hook_cn env arg -> hook_key env arg <> "" -> (0 < start)%Z ->
  let key := hook_key env arg in
  let id := key +:+ "." +:+ gen in
  let mk := new_marker (hook_cn env arg) (e_ip env) (e_port env) (e_pool env) key gen created start in
  clean_marker mk -> hookTimeUnixEnv env = start ->
  w_files w !! LSession key = Some (marker_text mk) -> loaded w (hook_cn env arg) = inr st ->
  let moved := if (sess_of st id).2 then 0%Z else Z.max 0 (reported env - (sess_of st id).1) in
  (st_total st + moved < two64)%Z ->
  exists w' st', Disconnect env arg w = (inr 0%Z, w') /\ w_files w' !! LSession key = None /\
    loaded w' (hook_cn env arg) = inr st' /\ st_total st' = (st_total st + moved)%Z /\
    sess_of st' id = spec_mark (sess_of st id) (reported env) true /\
    forall l, ~ is_session l -> w_files (Disconnect env arg w').2 !! l = w_files w' !! l.
Proof.
  intros Hf Hk Hkey Hne Hpos key id mk Hc Htime Hmark Hl moved Hfits.
  destruct (disconnect_body w env arg Hf Hk) as (w1 & Hw1 & Hrun).
  destruct (new_marker_parse _ _ _ _ _ _ _ _ Hc Hpos Hne) as (m & Hm & Hid & Hstart & Hip & Hport).
  assert (marker_session_id m key = id) as Hsid.
  { unfold marker_session_id. rewrite Hid. fold id.
    destruct (str_empty id) eqn:He; [|done]. apply str_empty_true in He. unfold id in He.
    unfold key in He. by destruct (hook_key env arg). }
  assert (disconnectMatches m key (e_ip env) (e_port env) (hookTimeUnixEnv env) = true) as Hmatch.
  { unfold disconnectMatches. rewrite Hip, Hport, Hstart, Htime, !String.eqb_refl.
    destruct (Z.eqb_spec start 0); [lia|]. rewrite Z.eqb_refl. cbn [negb andb].
    rewrite !andb_false_r. simpl. by repeat case_match. }
  assert (w_files w1 !! LSession key = Some (marker_text mk)) as Hmark1.
  { rewrite Hw1. simpl. rewrite lock_files_ne; [done|]. unfold session_lock, key. congruence. }
  assert (loaded w1 (hook_cn env arg) = inr st) as Hl1.
  { rewrite <- Hl, Hw1. unfold loaded. simpl. by rewrite lock_files_ne. }
  assert (faultless w1) as Hf1 by by rewrite Hw1.
  destruct (disconnect_matched w1 env (hook_cn env arg) (pool_key env) (Sanitize (orUnknown (e_ip env)))
    (Sanitize (orUnknown (e_port env))) key (marker_text mk) m st Hf1 Hk Hne Hmark1 Hm Hmatch Hl1)
    as (w2 & Hbody & Hres).
  fold key in Hrun. rewrite Hbody in Hrun. rewrite Hsid, spec_observe_total in Hres. fold moved in Hres.
  destruct (Z.ltb_spec (st_total st + moved) two64) as [_|]; [|lia].
  destruct Hres as [(st' & Hl' & Ha) Hgone].
  exists w2, st'. split; [done|]. split; [done|]. split; [done|]. split; [|split].
  - rewrite <- abs_total, Ha, spec_observe_total. done.
  - unfold sess_of at 1. change (marks_of (st_sessions st')) with (lg_marks (abs st')).
    rewrite Ha. simpl. by rewrite lookup_insert_eq.
  - intros l Hns. apply disconnect_unmarked_touches; [|done|done|done|done].
    intros op. assert (w_fault w2 = w_fault w1) as ->; [|apply Hf1].
    pose proof (disconnectLocked_faults env (hook_cn env arg) (pool_key env) (Sanitize (orUnknown (e_ip env)))
      (Sanitize (orUnknown (e_port env))) key w1) as Hfl. by rewrite Hbody in Hfl.
Qed.

Definition session_env : HookEnv :=
  mkEnv "42" "203.0.113.9" "51000" "10.8.0.2" "1699999990" "700" "300" 1234.
Definition session_marker : Marker :=
  new_marker "42" "203.0.113.9" "51000" "10.8.0.2" "42.10.8.0.2" "0123456789abcdef" 1700000000 1699999990.

(** User 42 with one open session, of which 400 bytes were polled. *)
Definition session_state : UsageState :=
  mkUsage 2 "17-1" 1400 (<["42.10.8.0.2.0123456789abcdef" := mkSess 400 false "42.10.8.0.2"]> ∅).
Definition session_world : World :=
  set_files (<[LSession "42.10.8.0.2" := marker_text session_marker]>
    (<[LUsage "42" := encode_counter session_state]> ∅)) demo_world.

Lemma session_state_wf : wf_state session_state.
Proof.
  split; [done|done|unfold is_u64, two64; simpl; lia|].
  intros id s. unfold session_state. cbn [st_sessions]. intros H.
  apply lookup_insert_Some in H as [[<- <-]|[_ H]]; [|by rewrite lookup_empty in H].
  split; [unfold is_u64, two64; simpl; lia|done].
Qed.

Lemma session_marker_clean : clean_marker session_marker.
Proof. split; forall_list; unfold is_i64, two63; simpl; lia. Qed.

Lemma disconnect_accounts_session_witness :
  exists w' st', Disconnect session_env "" session_world = (inr 0%Z, w') /\
    w_files w' !! LSession "42.10.8.0.2" = None /\ loaded w' "42" = inr st' /\ st_total st' = 2000%Z.
Proof.
  destruct (disconnect_accounts_session session_world session_env "" "0123456789abcdef" 1700000000
    1699999990 session_state demo_faultless eq_refl ltac:(discriminate) ltac:(discriminate) eq_refl
    session_marker_clean ltac:(vm_compute; reflexivity) eq_refl (decode_encode _ session_state_wf)
    ltac:(vm_compute; reflexivity)) as (w' & st' & H1 & H2 & H3 & H4 & _).
  exists w', st'. split; [exact H1|]. split; [exact H2|]. split; [exact H3|].
  rewrite H4. vm_compute. reflexivity.
Defined.

(** A delayed disconnect cannot touch a later session.  When the marker on
    disk has a generation and its start time, or its address or port, is known
    and differs from that of the disconnect, the hook exits without changing
    any file but its lock: the new session keeps its marker and nothing is
    banked into it. *)
Theorem delayed_disconnect_is_ignored w env arg d m :
  faultless w -> StoreKeyRe (hook_cn env arg) = true ->
  hook_key env arg <> ".lock." +:+ hook_cn env arg ->
  w_files w !! LSession (hook_key env arg) = Some d -> parse_marker d = m ->
  HasGeneration (m_session m) = true ->
  ((0 < hookTimeUnixEnv env)%Z /\ (0 < m_started m)%Z /\ hookTimeUnixEnv env <> m_started m) \/
  (m_ip m <> "" /\ e_ip env <> "" /\ m_ip m <> e_ip env) \/
  (m_port m <> "" /\ e_port env <> "" /\ m_port m <> e_port env) ->
  exists w', Disconnect env arg w = (inr 0%Z, w') /\
    forall l, l <> session_lock (hook_cn env arg) -> w_files w' !! l = w_files w !! l.
Proof.
  intros Hf Hk Hkey Hd Hm Hgen Hdiff.
  destruct (disconnect_body w env arg Hf Hk) as (w1 & Hw1 & Hrun).
  assert (forall l, l <> session_lock (hook_cn env arg) -> w_files w1 !! l = w_files w !! l) as Hl1.
  { intros l Hl. rewrite Hw1. simpl. by apply lock_files_ne. }
  assert (disconnectMatches (parse_marker d) (hook_key env arg) (e_ip env) (e_port env)
            (hookTimeUnixEnv env) = false) as Hno.
  { rewrite Hm. unfold disconnectMatches, marker_session_id.
    destruct (str_empty (m_session m)) eqn:He; [apply str_empty_true in He; by rewrite He in Hgen|].
    rewrite Hgen. cbn [negb].
    assert (forall s, s <> "" -> str_empty s = false) as Hne by by intros [].
    destruct Hdiff as [(H1 & H2 & H3)|[(H1 & H2 & H3)|(H1 & H2 & H3)]].
    - destruct (Z.eqb_spec (m_started m) 0); [lia|].
      apply Z.ltb_lt in H1, H2. apply Z.eqb_neq in H3. by rewrite H1, H2, H3.
    - apply String.eqb_neq in H3. rewrite H3, (Hne _ H1), (Hne _ H2). cbn [negb andb].
      by repeat case_match.
    - apply String.eqb_neq in H3. rewrite H3, (Hne _ H1), (Hne _ H2). cbn [negb andb].
      by repeat case_match. }
  destruct (disconnect_foreign w1 env (hook_cn env arg) (pool_key env) (Sanitize (orUnknown (e_ip env)))
    (Sanitize (orUnknown (e_port env))) (hook_key env arg) d) as (w2 & Hb & Hw2).
  - by rewrite Hw1.
  - rewrite Hl1; [done|]. unfold session_lock. congruence.
  - done.
  - rewrite Hb in Hrun. exists w2. split; [done|]. intros l Hl. rewrite Hw2. by apply Hl1.
Qed.

Definition late_env : HookEnv :=
  mkEnv "42" "198.51.100.7" "4000" "10.8.0.2" "1699990000" "999" "1" 1234.

Lemma delayed_disconnect_is_ignored_witness :
  exists w', Disconnect late_env "" session_world = (inr 0%Z, w') /\
    w_files w' !! LSession "42.10.8.0.2" = Some (marker_text session_marker) /\
    w_files w' !! LUsage "42" = Some (encode_counter session_state).
Proof.
  destruct (delayed_disconnect_is_ignored session_world late_env "" (marker_text session_marker)
    (stored_marker session_marker) demo_faultless eq_refl ltac:(discriminate) eq_refl
    (parse_marker_text _ session_marker_clean) eq_refl
    ltac:(left; vm_compute; split; [reflexivity|split; [reflexivity|discriminate]])) as (w' & H1 & H2).
  exists w'. split; [exact H1|]. split; rewrite H2; [reflexivity|discriminate|reflexivity|discriminate].
Defined.

(** An accounting that fails loses nothing.  When the counter of the user
    is unreadable or the total would overflow, the disconnect still exits with
    0, and both the marker and the counter keep their bytes, so that the
    session can be accounted later. *)
Theorem failed_accounting_keeps_marker w env arg d m :
  faultless w -> StoreKeyRe (hook_cn env arg) = true ->
  hook_key env arg <> ".lock." +:+ hook_cn env arg -> hook_key env arg <> "" ->
  w_files w !! LSession (hook_key env arg) = Some d -> parse_marker d = m ->
  disconnectMatches m (hook_key env arg) (e_ip env) (e_port env) (hookTimeUnixEnv env) = true ->
  match loaded w (hook_cn env arg) with
  | inl _ => True
  | inr st => (two64 <= lg_total (spec_observe (abs st) (marker_session_id m (hook_key env arg))
                                   (reported env) true))%Z
  end ->
  exists w', Disconnect env arg w = (inr 0%Z, w') /\ w_files w' !! LSession (hook_key env arg) = Some d /\
    w_files w' !! LUsage (hook_cn env arg) = w_files w !! LUsage (hook_cn env arg).
Proof.
  intros Hf Hk Hkey Hne Hd Hm Hmatch Hl.
  destruct (disconnect_body w env arg Hf Hk) as (w1 & Hw1 & Hrun).
  assert (forall l, l <> session_lock (hook_cn env arg) -> w_files w1 !! l = w_files w !! l) as Hl1.
  { intros l Hls. rewrite Hw1. simpl. by apply lock_files_ne. }
  assert (w_files w1 !! LSession (hook_key env arg) = Some d) as Hd1.
  { rewrite Hl1; [done|]. unfold session_lock. congruence. }
  assert (loaded w1 (hook_cn env arg) = loaded w (hook_cn env arg)) as Hload.
  { unfold loaded. rewrite Hl1 by done. by rewrite Hw1. }
  assert (faultless w1) as Hf1 by by rewrite Hw1.
  destruct (loaded w (hook_cn env arg)) as [e|st] eqn:Hload0.
  - destruct (disconnect_unreadable w1 env (hook_cn env arg) (pool_key env) (Sanitize (orUnknown (e_ip env)))
      (Sanitize (orUnknown (e_port env))) (hook_key env arg) d m e) as (w2 & Hb & H1 & H2); [done..|].
    rewrite Hb in Hrun. exists w2. split; [done|]. split; [done|]. rewrite H2. by apply Hl1.
  - destruct (disconnect_matched w1 env (hook_cn env arg) (pool_key env) (Sanitize (orUnknown (e_ip env)))
      (Sanitize (orUnknown (e_port env))) (hook_key env arg) d m st) as (w2 & Hb & Hres); [done..|].
    destruct (Z.ltb_spec (lg_total (spec_observe (abs st) (marker_session_id m (hook_key env arg))
      (reported env) true)) two64); [lia|].
    destruct Hres as [H1 H2]. rewrite Hb in Hrun. exists w2. split; [done|]. split; [done|].
    rewrite H1. by apply Hl1.
Qed.

Definition corrupt_session_world : World :=
  set_files (<[LSession "42.10.8.0.2" := marker_text session_marker]>
    (<[LUsage "42" := "{}"]> ∅)) demo_world.

Lemma failed_accounting_keeps_marker_witness :
  exists w', Disconnect session_env "" corrupt_session_world = (inr 0%Z, w') /\
    w_files w' !! LSession "42.10.8.0.2" = Some (marker_text session_marker) /\
    w_files w' !! LUsage "42" = Some "{}".
Proof.
  destruct (failed_accounting_keeps_marker corrupt_session_world session_env "" (marker_text session_marker)
    (stored_marker session_marker) demo_faultless eq_refl ltac:(discriminate) ltac:(discriminate) eq_refl
    (parse_marker_text _ session_marker_clean) ltac:(vm_compute; reflexivity)
    ltac:(vm_compute; exact I)) as (w' & H1 & H2 & H3).
  exists w'. split; [exact H1|]. split; [exact H2|exact H3].
Defined.

(** ** The purge *)

(** A file may only disappear, and only as a stale marker. *)
Definition purged (now ttl : Z) (live : gset string) (f f' : gmap loc string) : Prop :=
  forall l, f' !! l = f !! l \/
    exists name d, l = LSession name /\ f !! l = Some d /\ f' !! l = None /\
      has_prefix name "." = false /\ stale now ttl live (parse_marker d) = true.

Lemma purged_refl now ttl live f : purged now ttl live f f.
Proof. intros l. by left. Qed.

Lemma purged_trans now ttl live f g h :
  purged now ttl live f g -> purged now ttl live g h -> purged now ttl live f h.
Proof.
  intros Hfg Hgh l. destruct (Hfg l) as [Hl|(n & d & -> & Hd & Hn & Hp & Hs)].
  - destruct (Hgh l) as [Hl'|(n & d & -> & Hd & Hn & Hp & Hs)]; [left; congruence|].
    right. exists n, d. rewrite <- Hl. done.
  - right. exists n, d. split; [done|]. split; [done|]. split; [|done].
    destruct (Hgh (LSession n)) as [Hl'|(n' & d' & _ & Hd' & _)]; congruence.
Qed.

Lemma purge_loop_purged now ttl live names a w r w' :
  purge_loop now ttl live names a w = (r, w') -> purged now ttl live (w_files w) (w_files w').
Proof.
  revert a w. induction names as [|name names IH]; intros a w; cbn [purge_loop].
  - intros [= _ <-]. apply purged_refl.
  - destruct (has_prefix name ".") eqn:Hp; [apply IH|]. cbv zeta. rewrite bind_run.
    assert (forall m w0, ReadMarker (LSession name) w = (inr (Some m), w0) ->
      exists d, w_files w !! LSession name = Some d /\ m = parse_marker d) as Hm.
    { intros m w0. unfold ReadMarker. rewrite bind_run, try_run. unfold read_file.
      destruct (w_fault w _); [done|]. destruct (w_files w !! _) as [d|]; [|done].
      intros [= <- <-]. by exists d. }
    pose proof (ReadMarker_state (LSession name) w) as Hst.
    destruct (ReadMarker (LSession name) w) as [[e|m] w0] eqn:Hread; simpl in Hst; subst w0.
    { intros [= _ <-]. apply purged_refl. }
    destruct m as [m|]; [|apply IH].
    destruct (stale now ttl live m) eqn:Hstale; [|apply IH].
    destruct (Hm m w eq_refl) as (d & Hd & ->).
    rewrite bind_run, try_run. unfold remove_file.
    destruct (w_fault w _); [apply IH|]. rewrite Hd. cbn [fst snd]. intros Hrun%IH.
    eapply purged_trans; [|exact Hrun]. intros l. simpl.
    destruct (decide (l = LSession name)) as [->|Hne].
    + right. exists name, d. rewrite lookup_delete_eq. done.
    + left. by apply lookup_delete_ne.
Qed.

(** Total and epoch a counter file holds; [None] without a file, an error for
    a file the reader refuses. *)
Definition persisted (f : gmap loc string) (safe : string) : option (goerr + Z * string) :=
  (fun d => match decode_counter d with inl e => inl e | inr st => inr (st_total st, st_epoch st) end)
    <$> (f !! LUsage safe).

(** The persisted total of a user, [None] for a file the reader rejects. *)
Definition total_of (f : gmap loc string) (safe : string) : option Z :=
  match persisted f safe with None => Some 0%Z | Some (inr (t, _)) => Some t | Some (inl _) => None end.

Lemma persisted_ext f f' safe :
  f !! LUsage safe = f' !! LUsage safe -> persisted f safe = persisted f' safe.
Proof. intros H. unfold persisted. by rewrite H. Qed.

Lemma total_of_ext f f' safe : f !! LUsage safe = f' !! LUsage safe -> total_of f safe = total_of f' safe.
Proof. intros H. unfold total_of. by rewrite (persisted_ext _ _ _ H). Qed.

Lemma read_usage_inr safe w st w' :
  ReadUsageState safe w = (inr st, w') ->
  w_files w' = w_files w /\ exists safe', SafeCN safe = Some safe' /\
  match w_files w !! LUsage safe' with
  | None => st_sessions st = ∅ /\ st_total st = 0%Z
  | Some d => decode_counter d = inr st
  end.
Proof.
  unfold ReadUsageState. destruct (SafeCN safe) as [safe'|] eqn:Hs; [|done].
  rewrite bind_run, ignore_mkdir, bind_run, try_run. unfold read_file.
  destruct (w_fault w _); [done|]. destruct (w_files w !! LUsage safe') as [d|] eqn:Hd; simpl.
  - destruct (decode_counter d) as [e|st'] eqn:Hdec; [done|]. intros [= -> <-].
    split; [done|]. exists safe'. by rewrite Hd.
  - intros [= <- <-]. split; [done|]. exists safe'. by rewrite Hd.
Qed.

Lemma prune_view cn p w r w' safe :
  StoreKeyRe safe = true -> PruneReceipts cn p w = (r, w') ->
  persisted (w_files w') safe = persisted (w_files w) safe.
Proof.
  intros Hk Hrun. destruct r as [e|[]].
  { apply persisted_ext. by apply (prune_keeps cn p safe Hk w e w' Hrun). }
  unfold PruneReceipts in Hrun. destruct (SafeCN cn) as [s0|] eqn:Hcn; [|done].
  pose proof (SafeCN_Some _ _ Hcn) as [_ Hk0]. rewrite bind_run in Hrun. unfold mkdir in Hrun.
  destruct (w_fault w _); [done|]. apply Lock_inr in Hrun.
  rewrite bind_run in Hrun. set (w1 := set_files _ w) in *.
  assert (persisted (w_files w1) safe = persisted (w_files w) safe) as <-.
  { apply persisted_ext. simpl. rewrite lock_files_ne; [done|]. by apply usage_lock_ne. }
  clearbody w1. destruct (ReadUsageState s0 w1) as [[e|st] w2] eqn:Hread; [done|].
  apply read_usage_inr in Hread as (Hf2 & s1 & Hs1 & Hst). rewrite SafeCN_key in Hs1 by done.
  injection Hs1 as <-. cbv zeta in Hrun.
  destruct (Nat.eqb_spec (size (retained p (st_sessions st))) (size (st_sessions st))) as [Hsz|Hsz].
  { injection Hrun as <-. by rewrite Hf2. }
  rewrite bind_run in Hrun. unfold writeUsageState, WriteFileAtomic in Hrun.
  destruct (w_fault w2 _); [done|]. simpl in Hrun. injection Hrun as <-. simpl. rewrite Hf2.
  unfold persisted. destruct (decide (safe = s0)) as [->|Hne]; [|by rewrite lookup_insert_ne by congruence].
  rewrite lookup_insert_eq. destruct (w_files w1 !! LUsage s0) as [d|] eqn:Hd; simpl.
  - rewrite Hst. destruct (decode_counter_inv _ _ Hst) as [(n & _ & ->)|Hwf].
    + exfalso. apply Hsz. simpl. unfold retained. by rewrite map_filter_empty.
    + by rewrite (decode_encode _ (retained_wf _ _ Hwf)).
  - exfalso. apply Hsz. destruct Hst as [-> _]. unfold retained. by rewrite map_filter_empty.
Qed.

Lemma prune_total cn p w r w' safe :
  StoreKeyRe safe = true -> PruneReceipts cn p w = (r, w') ->
  total_of (w_files w') safe = total_of (w_files w) safe.
Proof. intros Hk Hrun. unfold total_of. by rewrite (prune_view _ _ _ _ _ _ Hk Hrun). Qed.

Lemma prune_all_total (present : gmap string (gset string)) cns w safe :
  StoreKeyRe safe = true ->
  total_of (w_files (for_each (fun cn => ignore (PruneReceipts cn (default ∅ (present !! cn)))) cns w).2) safe
  = total_of (w_files w) safe.
Proof.
  intros Hk. revert w. induction cns as [|cn cns IH]; intros w; [done|]. cbn [for_each]. rewrite bind_run.
  unfold ignore at 1. rewrite bind_run, try_run.
  destruct (PruneReceipts cn (default ∅ (present !! cn)) w) as [r w1] eqn:Hp.
  apply (prune_total _ _ _ _ _ safe Hk) in Hp. cbn [fst snd]. unfold mret at 1, M_ret at 1. by rewrite IH.
Qed.

Lemma retire_receipts_frame affected w :
  (forall l, ~ is_usage l -> w_files (retire_receipts affected w).2 !! l = w_files w !! l) /\
  (forall safe, StoreKeyRe safe = true ->
     total_of (w_files (retire_receipts affected w).2) safe = total_of (w_files w) safe).
Proof.
  split.
  - assert (touches is_usage (retire_receipts affected)) as Ht; [|apply Ht].
    unfold retire_receipts. touch_solve.
    + apply present_loop_touches.
    + apply PruneReceipts_touches. intros safe _. by split.
  - intros safe Hk. unfold retire_receipts. case_bool_decide; [done|]. rewrite bind_run, try_run.
    assert ((read_sessions_dir w).2 = w) as -> by (unfold read_sessions_dir; by case_match).
    destruct (read_sessions_dir w).1 as [e|names]; [done|]. rewrite bind_run.
    pose proof (present_loop_touches (fun _ => False) names ∅ w (LUsage safe) ltac:(intros [])) as Hp.
    destruct (present_loop names ∅ w) as [[e|p] w1]; simpl in Hp.
    + simpl. by apply total_of_ext.
    + rewrite prune_all_total by done. by apply total_of_ext.
Qed.

(** ** Properties of the purge *)

(** C35: the purge removes only what is proved dead.  Whatever fails, a file
    outside the usage directory is left alone unless it is a marker that was
    created longer ago than the time to live and whose pool address is in no
    session of a complete status snapshot; a torn or missing snapshot removes
    nothing at all; and no user's persisted total changes. *)
Theorem purge_is_safe cfg w r w' :
  PurgeStale cfg w = (r, w') ->
  (forall l, ~ is_usage l -> w_files w' !! l <> w_files w !! l ->
     exists name d snap, l = LSession name /\ w_files w !! l = Some d /\ w_files w' !! l = None /\
       snapshot_of (default "" (w_files w !! h_status cfg)) = inr snap /\
       (0 < m_created (parse_marker d))%Z /\
       (h_ttl cfg < i64_sub (now_unix w) (m_created (parse_marker d)))%Z /\
       m_pool (parse_marker d) ∉ map s_virtual (sn_sessions snap)) /\
  (forall safe, StoreKeyRe safe = true -> total_of (w_files w') safe = total_of (w_files w) safe).
Proof.
  unfold PurgeStale. rewrite bind_run. unfold gets at 1. rewrite bind_run.
  unfold try_err, ReadStatusSnapshot. rewrite bind_run. unfold read_file.
  destruct (w_fault w _).
  { intros Heq. assert (w' = w) as -> by by injection Heq. split; [|done]. intros l _ Hne. by destruct Hne. }
  destruct (w_files w !! h_status cfg) as [data|] eqn:Hdata.
  2: { intros Heq. assert (w' = w) as -> by by injection Heq. split; [|done]. intros l _ Hne. by destruct Hne. }
  cbn [default from_option id]. destruct (snapshot_of data) as [e|snap] eqn:Hsnap.
  { intros Heq. assert (w' = w) as -> by by (destruct e; injection Heq).
    split; [|done]. intros l _ Hne. by destruct Hne. }
  unfold mret at 1, M_ret at 1. rewrite bind_run, try_run.
  set (live := list_to_set (map s_virtual (sn_sessions snap)) : gset string).
  assert ((read_sessions_dir w).2 = w) as -> by (unfold read_sessions_dir; by case_match).
  set (names := match (read_sessions_dir w).1 with inl _ => [] | inr l => l end). rewrite bind_run.
  destruct (purge_loop _ _ live names _ w) as [r1 w1] eqn:Hloop.
  pose proof (purge_loop_purged _ _ _ _ _ _ _ _ Hloop) as Hp.
  pose proof (purge_loop_touches (now_unix w) (h_ttl cfg) live names (mkPurge 0 0 0 ∅) w) as Ht.
  rewrite Hloop in Ht. simpl in Ht. intros Hrun.
  assert ((forall l, ~ is_usage l -> w_files w' !! l = w_files w1 !! l) /\
    (forall safe, StoreKeyRe safe = true -> total_of (w_files w') safe = total_of (w_files w1) safe)) as [Hl Htot].
  { destruct r1 as [e|a]; [by injection Hrun as _ <-|]. rewrite bind_run in Hrun.
    destruct (retire_receipts_frame (pg_affected a) w1) as [H1 H2].
    destruct (retire_receipts (pg_affected a) w1) as [[e|[]] w2]; by injection Hrun as _ <-. }
  split.
  - intros l Hu Hne. rewrite Hl in Hne |- * by done.
    destruct (Hp l) as [|(name & d & -> & Hd & Hn & _ & Hst)]; [done|].
    exists name, d, snap. split; [done|]. split; [done|]. split; [done|]. split; [done|].
    unfold stale in Hst. boolify. split; [done|]. split; [done|].
    apply bool_decide_eq_false in H0. intros Hin. apply H0. unfold live. by apply elem_of_list_to_set.
  - intros safe Hk. rewrite Htot by done. apply total_of_ext, Ht. intros [].
Qed.

Definition purge_world : World :=
  set_files (<[LAbs "status" := status_text tab 1700000000 [demo_session]]>
    (<[LSession "7.10.8.0.8" := marker_text (new_marker "7" "1.2.3.4" "5" "10.8.0.8" "7.10.8.0.8"
        "00112233445566aa" 1600000000 1600000000)]>
    (<[LSession "42.10.8.0.2" := marker_text session_marker]> ∅))) demo_world.

Lemma purge_is_safe_witness :
  exists r w', PurgeStale demo_cfg purge_world = (r, w') /\
    w_files w' !! LSession "7.10.8.0.8" = None /\
    w_files w' !! LSession "42.10.8.0.2" = w_files purge_world !! LSession "42.10.8.0.2".
Proof.
  destruct (PurgeStale demo_cfg purge_world) as [r w'] eqn:Hrun.
  destruct (purge_is_safe demo_cfg purge_world r w' Hrun) as [H _].
  exists r, w'. split; [reflexivity|]. split.
  - change w' with (r, w').2. rewrite <- Hrun. vm_compute. reflexivity.
  - destruct (decide (w_files w' !! LSession "42.10.8.0.2" = w_files purge_world !! LSession "42.10.8.0.2"))
      as [He|He]; [exact He|]. exfalso.
    destruct (H (LSession "42.10.8.0.2") ltac:(intros []) He) as (name & d & snap & Hn & Hd & _ & Hs & _ & _ & Hp).
    injection Hn as <-. apply Hp.
    assert (snap = mkSnap [demo_session] 1700000000 true) as -> by (vm_compute in Hs; injection Hs as <-; reflexivity).
    vm_compute in Hd. injection Hd as <-. apply list_elem_of_here.
Defined.

Lemma legacy_sibling cn x pool ip port :
  pool <> "" -> legacy_marker cn pool ip port (SessionKey (cn +:+ "." +:+ x) pool ip port) = true.
Proof.
  intros Hp. assert (str_empty pool = false) as He by by destruct pool.
  unfold legacy_marker, SessionKey. rewrite He. cbn [negb].
  assert (str_empty ("." +:+ pool) = false) as -> by done. cbn [negb andb].
  replace ((cn +:+ "." +:+ x) +:+ "." +:+ pool) with ((cn +:+ ".") +:+ (x +:+ "." +:+ pool)) at 2
    by by autorewrite with gostr.
  rewrite has_prefix_app. unfold has_suffix.
  replace ((cn +:+ "." +:+ x) +:+ "." +:+ pool) with ((cn +:+ "." +:+ x) +:+ ("." +:+ pool)) by done.
  rewrite (rev_append_s (cn +:+ "." +:+ x) ("." +:+ pool)).
  pose proof (has_prefix_app (String.rev ("." +:+ pool)) (String.rev (cn +:+ "." +:+ x))) as H.
  unfold has_prefix in H. rewrite H. apply orb_true_r.
Qed.

(** The fallback cleanup of a disconnect reaches beyond its user.  When the
    marker of the disconnecting session is already gone, the cleanup of the
    legacy marker names also matches the current marker of any user whose name
    extends this one by a dot and who now holds the same pool address, and
    removes it. *)
Theorem fallback_removes_sibling_marker w env arg x d :
  faultless w -> StoreKeyRe (hook_cn env arg) = true -> e_pool env <> "" ->
  w_files w !! LSession (hook_key env arg) = None ->
  hook_key env arg <> ".lock." +:+ hook_cn env arg ->
  let other := SessionKey (hook_cn env arg +:+ "." +:+ x) (pool_key env) (Sanitize (orUnknown (e_ip env)))
                 (Sanitize (orUnknown (e_port env))) in
  other <> ".lock." +:+ hook_cn env arg ->
  w_files w !! LSession other = Some d ->
  w_files (Disconnect env arg w).2 !! LSession other = None.
Proof.
  intros Hf Hk Hpool Hn Hkey other Ho Hd. destruct (disconnect_body w env arg Hf Hk) as (w1 & Hw1 & ->).
  unfold disconnectLocked. rewrite bind_run. unfold stat_file.
  assert (w_files w1 !! LSession (hook_key env arg) = None) as ->.
  { rewrite Hw1. simpl. rewrite lock_files_ne; [done|]. unfold session_lock. congruence. }
  rewrite bool_decide_eq_false_2 by by intros []. rewrite andb_false_r. cbn [negb].
  rewrite bind_run. unfold RemoveLegacyMarkers. rewrite bind_run, try_run. unfold read_sessions_dir.
  assert (faultless w1) as Hf1 by by rewrite Hw1.
  rewrite (Hf1 _). cbn [fst snd]. rewrite remove_loop_run by done. rewrite Syslog_run.
  cbn [snd w_files set_sys set_files]. rewrite lookup_drop_sessions. unfold dropped.
  assert (pool_key env <> "") as Hp.
  { unfold pool_key. destruct (str_empty (e_pool env)) eqn:He; [by apply str_empty_true in He|].
    intros Hs. apply (f_equal String.length) in Hs. rewrite Sanitize_length in Hs.
    destruct (e_pool env); done. }
  unfold other at 1. rewrite legacy_sibling by done. fold other.
  rewrite bool_decide_eq_true_2; [done|]. apply elem_of_session_names. exists d.
  rewrite Hw1. simpl. rewrite lock_files_ne; [done|]. unfold session_lock. congruence.
Qed.

Definition sibling_world : World :=
  set_files (<[LSession "42.a.10.8.0.2" := "session of 42.a"]> ∅) demo_world.

Lemma fallback_removes_sibling_marker_witness :
  w_files (Disconnect session_env "" sibling_world).2 !! LSession "42.a.10.8.0.2" = None.
Proof.
  apply (fallback_removes_sibling_marker sibling_world session_env "" "a" "session of 42.a").
  - exact demo_faultless.
  - reflexivity.
  - discriminate.
  - reflexivity.
  - discriminate.
  - discriminate.
  - reflexivity.
Defined.
