(* ===== verification/Usage.v ===== *)
(** * Usage: internal/ovpn/usage.go and the markers of sessions.go.

    The poll of the panel: each live session is matched with its marker and
    recorded in the counter of its user; the totals are those of the counters. *)

From S2P Require Import Prelude GoString Names Cache World Counter CounterSpec Markers UserPolicy Status Hooks.
From Stdlib Require Import Ascii.

(** ** Markers *)

Record lmarker : Type := mkLive {
  lm_key : string;
  lm_cn : string;
  lm_ip : string;
  lm_port : string;
  lm_pool : string;
  lm_created : Z;
  lm_session : string;
  lm_connected : Z
}.

(** The marker of a file, with the defaults of the reader. *)
Definition live_marker (name : string) (m : Marker) : lmarker :=
  let cn := if str_empty (m_cn m)
            then match cut "." name with (a, _, true) => a | _ => name end
            else m_cn m in
  mkLive name cn (m_ip m) (m_port m) (m_pool m) (m_created m)
    (if str_empty (m_session m) then name else m_session m)
    (if (m_connected_at m =? 0)%Z then m_created m else m_connected_at m).

Definition key_le (a b : lmarker) : Prop := String.le (lm_key a) (lm_key b).
#[export] Instance key_le_dec : RelDecision key_le.
Proof. intros a b. unfold key_le. apply _. Defined.

Fixpoint collect_markers (names : list string) : M (list lmarker) :=
  match names with
  | [] => mret []
  | name :: names' =>
      if has_prefix name "." then collect_markers names'
      else
        m <- ReadMarker (LSession name) ;;
        rest <- collect_markers names' ;;
        match m with
        | None => mret rest
        | Some m => mret (live_marker name m :: rest)
        end
  end.

Definition readMarkers : M (list lmarker) :=
  r <- try read_sessions_dir ;;
  match r with
  | inl _ => mret []
  | inr names => l <- collect_markers names ;; mret (merge_sort key_le l)
  end.

(** ** Live sessions *)

Record liveIndex : Type := mkIndex { ix_pool : gset string; ix_real : gset string }.

Definition pool_id (cn pool : string) : string := cn +:+ "|" +:+ pool.
Definition real_id (cn ip port : string) : string := cn +:+ "|" +:+ ip +:+ "|" +:+ port.

Definition newLiveIndex (sessions : list Session) : liveIndex :=
  mkIndex (list_to_set (map (fun s => pool_id (s_cn s) (s_virtual s)) sessions))
          (list_to_set (map (fun s => real_id (s_cn s) (s_ip s) (s_port s)) sessions)).

Definition isLive (idx : liveIndex) (m : lmarker) : bool :=
  if negb (str_empty (lm_pool m))
  then bool_decide (pool_id (lm_cn m) (lm_pool m) ∈ ix_pool idx)
  else bool_decide (real_id (lm_cn m) (lm_ip m) (lm_port m) ∈ ix_real idx).

(** ** Matching a status row with a marker *)

Definition marker_time (m : lmarker) : Z :=
  if (lm_connected m =? 0)%Z then lm_created m else lm_connected m.

(** The marker may account for the row. *)
Definition eligible (s : Session) (updatedAt : Z) (mk : lmarker) : bool :=
  let ts := marker_time mk in
  if (0 <? updatedAt)%Z && (0 <? ts)%Z && (updatedAt <=? ts)%Z then false
  else if negb (str_empty (lm_pool mk)) && negb (String.eqb (lm_pool mk) (s_virtual s)) then false
  else if str_empty (lm_pool mk)
          && (negb (String.eqb (lm_ip mk) (s_ip s)) || negb (String.eqb (lm_port mk) (s_port s))) then false
  else true.

Definition choose_step (s : Session) (updatedAt : Z) (chosen : option lmarker) (mk : lmarker)
  : option lmarker :=
  if negb (eligible s updatedAt mk) then chosen
  else match chosen with
       | None => Some mk
       | Some c => if (marker_time c <? marker_time mk)%Z then Some mk else chosen
       end.

Definition chooseMarker (s : Session) (cands : list lmarker) (updatedAt : Z) : option lmarker :=
  foldl (choose_step s updatedAt) None cands.

Definition derivedSessionID (s : Session) : string :=
  s_cn s +:+ "." +:+ s_virtual s +:+ "." +:+ s_client s +:+ "." +:+ itoa (s_connected s).

(** ** The poll *)

Definition row_total (s : Session) : Z := u64_add (s_rx s) (s_tx s).

(** The accounting ID of a row; [None] when no marker may account for it. *)
Definition row_id (s : Session) (cands : list lmarker) (updatedAt : Z) : option string :=
  match chooseMarker s cands updatedAt with
  | Some c => Some (lm_session c)
  | None => match cands with [] => Some (derivedSessionID s) | _ => None end
  end.

Fixpoint record_rows (cn : string) (cands : list lmarker) (updatedAt : Z) (rows : list Session)
    (present : gset string) : M (gset string) :=
  match rows with
  | [] => mret present
  | s :: rows' =>
      match row_id s cands updatedAt with
      | None => record_rows cn cands updatedAt rows' present
      | Some sessionID =>
          RecordSessionUsage cn sessionID (row_total s) false ;;
          record_rows cn cands updatedAt rows' ({[sessionID]} ∪ present)
      end
  end.

Fixpoint record_users (cns : list string) (sessions : list Session) (updatedAt : Z)
    (present : gmap string (gset string)) : M (gmap string (gset string)) :=
  match cns with
  | [] => mret present
  | cn :: cns' =>
      ids <- Lock (LSession (".lock." +:+ cn)) (
        markers <- readMarkers ;;
        record_rows cn (filter (fun m => lm_cn m = cn) markers) updatedAt
          (filter (fun s => s_cn s = cn) sessions) ∅) ;;
      record_users cns' sessions updatedAt (<[cn := ids]> present)
  end.

Fixpoint read_totals (cns : list string) : M (list (string * UsageState)) :=
  match cns with
  | [] => mret []
  | cn :: cns' =>
      st <- ReadUsageState cn ;;
      rest <- read_totals cns' ;;
      mret ((cn, st) :: rest)
  end.

(** Marker IDs count as present. *)
Definition marker_present (markers : list lmarker) (present : gmap string (gset string))
  : gmap string (gset string) :=
  foldl (fun p m => <[lm_cn m := {[lm_key m]} ∪ ({[lm_session m]} ∪ default ∅ (p !! lm_cn m))]> p)
    present markers.

(** Add to an entry of a map of counters. *)
Definition bump (m : gmap string Z) (k : string) (v : Z) : gmap string Z :=
  <[k := u64_add (default 0%Z (m !! k)) v]> m.

Definition display (names : gmap string string) (cn : string) : string :=
  match names !! cn with
  | Some name => if str_empty name then cn else name
  | None => cn
  end.

Definition per_session (sessions : list Session) : gmap string (gmap string Z) :=
  foldl (fun p s =>
    let per := default ∅ (p !! s_cn s) in
    <[s_cn s := match per !! s_real s with
                | Some t => if (t <? row_total s)%Z then <[s_real s := row_total s]> per else per
                | None => <[s_real s := row_total s]> per
                end]> p) ∅ sessions.

(** The epochs of the contributors of a displayed name. *)
Definition epoch_of (contributors : list (string * UsageState)) : string :=
  match contributors with
  | [(_, st)] => st_epoch st
  | _ => join "," (map (fun c => c.1 +:+ "=" +:+ st_epoch c.2) contributors)
  end.

Record usage_report : Type := mkReport {
  rp_users : gmap string Z;
  rp_sessions : gmap string (gmap string Z);
  rp_totals : gmap string Z;
  rp_epochs : gmap string string
}.

Definition live_totals (sessions : list Session) : gmap string Z :=
  foldl (fun m s => bump m (s_cn s) (row_total s)) ∅ sessions.

(** The rows by name: [order] is the order in which the map is visited. *)
Definition session_rows (names : gmap string string) (order : list string)
    (per : gmap string (gmap string Z)) : gmap string (gmap string Z) :=
  foldl (fun m cn =>
    match per !! cn with
    | None => m
    | Some rows =>
        let m := <[cn := rows]> m in
        match names !! cn with
        | Some name => if negb (str_empty name) && negb (String.eqb name cn) then <[name := rows]> m else m
        | None => m
        end
    end) ∅ order.

Definition build_report (names : gmap string string) (order : list string) (sessions : list Session)
    (contributors : list (string * UsageState)) : usage_report :=
  let shown := remove_dups (map (fun c => display names c.1) contributors) in
  mkReport
    (map_fold (fun cn t m => bump m (display names cn) t) ∅ (live_totals sessions))
    (session_rows names order (per_session sessions))
    (foldl (fun m c => bump m (display names c.1) (st_total c.2)) ∅ contributors)
    (list_to_map (map (fun name => (name, epoch_of
       (filter (fun c => display names c.1 = name) contributors))) shown)).

Definition UsersUsage (usersDir : string) (status : loc)
    (order : gmap string (gmap string Z) -> list string) : M usage_report :=
  snap <- ReadStatusSnapshot status ;;
  let sessions := sn_sessions snap in
  names <- NameMap usersDir ;;
  let cns := sort_strings (remove_dups (map s_cn sessions)) in
  present <- record_users cns sessions (sn_updated snap) ∅ ;;
  entries <- read_usage_dir ;;
  markers <- readMarkers ;;
  let present := marker_present markers present in
  let allCNs := sort_strings (filter (fun n => is_counter_name n = true) entries) in
  contributors <- read_totals allCNs ;;
  for_each (fun cn => PruneReceipts cn (default ∅ (present !! cn))) allCNs ;;
  mret (build_report names (order (per_session sessions)) sessions contributors).
