(* ===== verification/Accounting.v ===== *)
(** * Accounting: what every operation of the agent keeps of the counters.

    The total and the epoch a counter file holds, the order in which they may
    evolve, and the rules by which a program that only records usage follows
    that order. *)

From S2P Require Import Prelude GoString Names Cache World Counter CounterSpec Markers UserPolicy Status Mgmt Hooks HookProps Usage.
From Stdlib Require Import Ascii.

(** ** The persisted counter *)

(** [b] may follow [a]: totals grow, an epoch stays once it is set, a readable
    counter stays readable, and a file the reader refuses stays as it is. *)
Definition grows (a b : option (goerr + Z * string)) : Prop :=
  match a with
  | None => match b with Some (inl _) => False | _ => True end
  | Some (inl _) => b = a
  | Some (inr (t, e)) => exists t' e', b = Some (inr (t', e')) /\ (t <= t')%Z /\ (e <> "" -> e' = e)
  end.

#[export] Instance grows_refl : Reflexive grows.
Proof. intros [[e|[t e]]|]; simpl; [done| |done]. exists t, e. split; [done|]. split; [lia|done]. Qed.

#[export] Instance grows_trans : Transitive grows.
Proof.
  intros a b c. destruct a as [[e|[t e]]|]; simpl.
  - intros ->. done.
  - intros (t1 & e1 & -> & Ht & He). simpl. intros (t2 & e2 & -> & Ht2 & He2).
    exists t2, e2. split; [done|]. split; [lia|]. intros H. rewrite <- (He H). apply He2. by rewrite He.
  - destruct b as [[e|[t e]]|]; simpl; [done| |done]. intros _ (t2 & e2 & -> & _). done.
Qed.

(** Between two states of the node, for every user. *)
Definition grows_all (w w' : World) : Prop :=
  forall safe, StoreKeyRe safe = true -> grows (persisted (w_files w) safe) (persisted (w_files w') safe).

#[export] Instance grows_all_refl : Reflexive grows_all.
Proof. intros w safe _. reflexivity. Qed.
#[export] Instance grows_all_trans : Transitive grows_all.
Proof. intros w1 w2 w3 H1 H2 safe Hs. etrans; [by apply H1|by apply H2]. Qed.

Lemma grows_all_files w w' :
  (forall safe, StoreKeyRe safe = true -> w_files w' !! LUsage safe = w_files w !! LUsage safe) -> grows_all w w'.
Proof. intros H safe Hs. unfold persisted. rewrite H by done. reflexivity. Qed.

(** However [m] ends, the counters evolved in that order. *)
Definition accounting {A} (m : M A) : Prop := forall w, grows_all w (m w).2.

(** A counter file, as opposed to the lock file of one. *)
Definition is_counter (l : loc) : Prop := match l with LUsage n => StoreKeyRe n = true | _ => False end.

Section rules.
Context {A B : Type}.

Lemma acc_ret (a : A) : accounting (mret a : M A).
Proof. intros w. reflexivity. Qed.

Lemma acc_bind (m : M A) (k : A -> M B) :
  accounting m -> (forall a, accounting (k a)) -> accounting (x <- m ;; k x).
Proof.
  intros Hm Hk w. rewrite bind_run. specialize (Hm w). destruct (m w) as [[e|a] w1]; simpl in *; [done|].
  etrans; [done|]. apply Hk.
Qed.

Lemma acc_touches L (m : M A) : touches L m -> (forall l, L l -> ~ is_counter l) -> accounting m.
Proof. intros Ht HL w. apply grows_all_files. intros safe Hs. apply Ht. intros Hl. by apply (HL _ Hl). Qed.

Lemma acc_try (m : M A) : accounting m -> accounting (try m).
Proof. intros Hm w. rewrite try_run. apply Hm. Qed.

Lemma acc_try_err (m : M A) : accounting m -> accounting (try_err m).
Proof. intros Hm w. specialize (Hm w). unfold try_err. by destruct (m w) as [[[]|] w1]. Qed.

Lemma acc_lock l (fn : M A) : ~ is_counter l -> accounting fn -> accounting (Lock l fn).
Proof.
  intros Hl Hfn w. unfold Lock. destruct (w_fault w _); [reflexivity|].
  destruct (parent_ok w l); [|reflexivity]. etrans; [|apply Hfn].
  apply grows_all_files. intros safe Hs. apply (lock_files_ne l (LUsage safe) (w_files w)).
  intros <-. by apply Hl.
Qed.

Lemma acc_for_each (f : B -> M unit) l : (forall b, accounting (f b)) -> accounting (for_each f l).
Proof.
  intros Hf. induction l as [|b l IH]; intros w; [reflexivity|]. simpl. rewrite bind_run.
  pose proof (Hf b w) as Hb. destruct (f b w) as [[e|[]] w1]; simpl in *; [done|]. etrans; [done|apply IH].
Qed.
End rules.

Lemma acc_ignore {A} (m : M A) : accounting m -> accounting (ignore m).
Proof. intros Hm. apply acc_bind; [by apply acc_try|]. intros _. apply acc_ret. Qed.

Create HintDb accounting.

(** Side conditions: a location is not a counter. *)
Ltac not_counter :=
  intros; unfold usage_lock, session_lock in *; subst; simpl in *; try tauto; try discriminate;
  try (match goal with H : StoreKeyRe _ = true |- _ => apply StoreKeyRe_first in H as [H _]; discriminate end).

Ltac acc_step :=
  match goal with
  | |- accounting (mbind _ _) => apply acc_bind; [|intro]
  | |- accounting (mret _) => apply acc_ret
  | |- accounting (match ?x with _ => _ end) => destruct x
  | |- accounting (let _ := _ in _) => cbv zeta
  | |- accounting (Lock _ _) => apply acc_lock; [solve [not_counter]|]
  | |- accounting (try _) => apply acc_try
  | |- accounting (try_err _) => apply acc_try_err
  | |- accounting (ignore _) => apply acc_ignore
  | |- accounting (for_each _ _) => apply acc_for_each; intros
  | |- accounting _ => solve [eauto with accounting]
  | |- accounting _ => solve [apply (acc_touches (fun _ => False)); [solve [touch_solve]|tauto]]
  end.
Ltac acc_solve := repeat acc_step.

(** ** The counter operations *)

Lemma ReadUsageState_inr cn safe w st w1 :
  SafeCN cn = Some safe -> ReadUsageState cn w = (inr st, w1) -> loaded w safe = inr st /\ same_tree w w1.
Proof.
  intros Hcn. unfold ReadUsageState. rewrite Hcn, bind_run, ignore_mkdir, bind_run, try_run.
  unfold read_file, loaded. destruct (w_fault w _); [done|].
  destruct (w_files w !! LUsage safe) as [d|]; cbn [fst snd].
  - destruct (decode_counter d); intros [= <- <-]. by split.
  - cbn. intros [= <- <-]. split; [done|by split].
Qed.

(** What the file holds, given what the reader made of it. *)
Lemma persisted_loaded w safe st :
  loaded w safe = inr st ->
  persisted (w_files w) safe = None /\ st_total st = 0%Z \/
  persisted (w_files w) safe = Some (inr (st_total st, st_epoch st)).
Proof.
  unfold loaded, persisted. destruct (w_files w !! LUsage safe) as [d|]; simpl.
  - intros ->. by right.
  - intros [= <-]. by left.
Qed.

(** Writing a well-formed counter that continues the one that was read. *)
Lemma grows_write f w safe st0 st :
  loaded w safe = inr st0 -> f !! LUsage safe = Some (encode_counter st) -> wf_state st ->
  (st_total st0 <= st_total st)%Z -> (st_epoch st0 <> "" -> st_epoch st = st_epoch st0) ->
  grows (persisted (w_files w) safe) (persisted f safe).
Proof.
  intros Hl Hf Hwf Ht He. unfold persisted at 2. rewrite Hf. simpl. rewrite decode_encode by done.
  destruct (persisted_loaded _ _ _ Hl) as [[-> _]| ->]; simpl; [done|].
  eexists _, _. split; [done|]. by split.
Qed.

(** A locked update of one counter: read, compute, write, and nothing after
    the write can fail. *)
Definition locked_update {A} (safe : string) (body : UsageState -> M A) : M A :=
  Lock (usage_lock safe) (st <- ReadUsageState safe ;; body st).

(** A body keeps the other files, and leaves the counter alone or replaces it
    by a continuation of [st]. *)
Definition continues {A} (safe : string) (st : UsageState) (body : M A) : Prop :=
  forall w, let w' := (body w).2 in
    (forall l, l <> LUsage safe -> w_files w' !! l = w_files w !! l) /\
    (w_files w' !! LUsage safe = w_files w !! LUsage safe \/
     exists st', w_files w' !! LUsage safe = Some (encode_counter st') /\ wf_state st' /\
       (st_total st <= st_total st')%Z /\ (st_epoch st <> "" -> st_epoch st' = st_epoch st)).

Lemma acc_locked_update {A} safe (body : UsageState -> M A) :
  StoreKeyRe safe = true ->
  (forall w st, loaded w safe = inr st -> continues safe st (body st)) ->
  accounting (locked_update safe body).
Proof.
  intros Hk Hbody w. unfold locked_update, Lock. destruct (w_fault w _); [reflexivity|].
  cbn [parent_ok usage_lock]. set (w0 := set_files _ w). rewrite bind_run.
  assert (grows_all w w0) as H0.
  { apply grows_all_files. intros s Hs. apply (lock_files_ne (usage_lock safe) (LUsage s) (w_files w)).
    by apply usage_lock_ne. }
  etrans; [exact H0|]. clearbody w0. clear H0 w.
  destruct (ReadUsageState safe w0) as [[e|st] w1] eqn:Hr.
  - apply grows_all_files. intros s _. pose proof (read_usage_touches (fun _ => False) safe w0 (LUsage s)) as H.
    rewrite Hr in H. apply H. tauto.
  - apply (ReadUsageState_inr safe safe) in Hr as [Hl [Hfs _ _ _]]; [|by apply SafeCN_key].
    specialize (Hbody w0 st Hl w1). cbv zeta in Hbody. rewrite Hfs in Hbody.
    destruct Hbody as [Hother Hself]. intros s Hs.
    destruct (decide (s = safe)) as [->|Hne].
    + destruct Hself as [Heq|(st' & Heq & Hwf & Ht & He)].
      * unfold persisted. rewrite Heq. reflexivity.
      * by eapply grows_write.
    + unfold persisted. rewrite Hother by congruence. reflexivity.
Qed.

Lemma continues_throw {A} safe st e : continues safe st (throw e : M A).
Proof. intros w. split; [done|by left]. Qed.
Lemma continues_ret {A} safe st (a : A) : continues safe st (mret a).
Proof. intros w. split; [done|by left]. Qed.

Lemma continues_write {A} safe st st' (a : A) :
  wf_state st' -> (st_total st <= st_total st')%Z -> (st_epoch st <> "" -> st_epoch st' = st_epoch st) ->
  continues safe st (writeUsageState safe st' ;; InvalidateUsageCache ;; mret a).
Proof.
  intros Hwf Ht He w. unfold writeUsageState, WriteFileAtomic. rewrite bind_run.
  destruct (w_fault w _); [split; [done|by left]|]. simpl. split.
  - intros l Hl. by apply lookup_insert_ne.
  - right. exists st'. split; [by rewrite lookup_insert_eq|done].
Qed.

Lemma continues_gen {A B} safe st (m : M A) (k : A -> M B) :
  (forall w, exists a w1, m w = (inr a, w1) /\ w_files w1 = w_files w /\ continues safe st (k a)) ->
  continues safe st (x <- m ;; k x).
Proof.
  intros Hm w. rewrite bind_run. destruct (Hm w) as (a & w1 & -> & Hf & Hk).
  specialize (Hk w1). cbv zeta in Hk. by rewrite Hf in Hk.
Qed.

Lemma record_accounting cn id b c : is_u64 b -> accounting (RecordSessionUsage cn id b c).
Proof.
  intros Hb. unfold RecordSessionUsage. destruct (SafeCN cn) as [safe|] eqn:Hcn; [|acc_solve].
  apply SafeCN_Some in Hcn as [_ Hk]. destruct (str_empty id); [acc_solve|].
  apply acc_bind; [acc_solve|intros _].
  apply (acc_locked_update safe _ Hk). intros w st Hl.
  apply continues_gen. intros w0.
  destruct (upgrade_run st w0) as (st1 & w1 & Hu & [Hfs _ _ _] & _ & Hs & Ht & Hv & Hsame & Hne).
  exists st1, w1. split; [done|]. split; [done|].
  pose proof (upgrade_wf _ _ _ _ _ _ Hl Hu) as Hwf.
  destruct (observe st1 id b c) as [st2|] eqn:Hobs; [|apply continues_throw].
  pose proof (observe_wf _ _ _ _ _ Hwf Hb Hobs) as Hwf2.
  destruct (observe_refines _ _ _ _ _ (wf_in_range _ Hwf) Hb Hobs) as (Habs & _ & _ & He).
  unfold with_epoch. destruct (str_empty (st_epoch st2)) eqn:Hep.
  { exfalso. apply (wf_epoch _ Hwf2). by apply str_empty_true. }
  apply continues_gen. intros w2. exists st2, w2. split; [done|]. split; [done|].
  apply continues_write; [done| |].
  - rewrite <- Ht, <- (abs_total st2), Habs, spec_observe_total. case_match; lia.
  - rewrite He. destruct (Z.eq_dec (st_version st) counterVersion) as [Hc|Hc]; [by rewrite Hsame|].
    destruct (loaded_cases _ _ _ Hl) as [Hw|(n & _ & ->)]; [by destruct Hw|done].
Qed.

Lemma prune_accounting cn present : accounting (PruneReceipts cn present).
Proof.
  unfold PruneReceipts. destruct (SafeCN cn) as [safe|] eqn:Hcn; [|acc_solve].
  apply SafeCN_Some in Hcn as [_ Hk]. apply acc_bind; [acc_solve|intros _].
  apply (acc_locked_update safe _ Hk). intros w st Hl. cbv zeta.
  case_match eqn:Hsz; [apply continues_ret|].
  assert (wf_state st) as Hwf.
  { destruct (loaded_cases _ _ _ Hl) as [Hw|(n & _ & ->)]; [done|]. exfalso. simpl in Hsz.
    unfold retained in Hsz. by rewrite map_filter_empty in Hsz. }
  pose proof (retained_wf st present Hwf) as Hwf'.
  intros w0. pose proof (continues_write safe st (mkUsage (st_version st) (st_epoch st) (st_total st)
    (retained present (st_sessions st))) tt Hwf' ltac:(simpl; lia) ltac:(done) w0) as H.
  cbv zeta in *. unfold InvalidateUsageCache in *. rewrite bind_run in *.
  by destruct (writeUsageState safe _ w0) as [[e|[]] w1].
Qed.
