(* ===== verification/UsageProps.v ===== *)
(** * UsageProps: the properties of the usage poll. *)

From S2P Require Import Prelude GoString Names Cache World Counter CounterSpec Markers UserPolicy Status Mgmt Hooks HookProps Usage Accounting.
From Stdlib Require Import Ascii.

(** ** Choosing a marker *)

Lemma choose_step_inv s u (P : option lmarker -> list lmarker -> Prop) cands :
  P None [] ->
  (forall c seen mk, P c seen -> P (choose_step s u c mk) (seen ++ [mk])) ->
  P (chooseMarker s cands u) cands.
Proof.
  intros H0 Hs. unfold chooseMarker.
  assert (forall c seen, P c seen -> P (foldl (choose_step s u) c cands) (seen ++ cands)) as H.
  { induction cands as [|mk cands IH]; intros c seen Hc; simpl; [by rewrite app_nil_r|].
    replace (seen ++ mk :: cands) with ((seen ++ [mk]) ++ cands) by by rewrite <- app_assoc.
    by apply IH, Hs. }
  apply (H None []). done.
Qed.

Lemma eligible_spec s u mk :
  eligible s u mk = true <->
  ~ (0 < u /\ 0 < marker_time mk /\ u <= marker_time mk)%Z /\
  (lm_pool mk <> "" /\ lm_pool mk = s_virtual s \/
   lm_pool mk = "" /\ lm_ip mk = s_ip s /\ lm_port mk = s_port s).
Proof.
  unfold eligible. cbv zeta. set (t := marker_time mk).
  assert ((0 <? u)%Z && (0 <? t)%Z && (u <=? t)%Z = true <-> (0 < u /\ 0 < t /\ u <= t)%Z) as Ht by lia.
  destruct ((0 <? u)%Z && (0 <? t)%Z && (u <=? t)%Z).
  { split; [done|]. intros [H _]. exfalso. by apply H, Ht. }
  assert (~ (0 < u /\ 0 < t /\ u <= t)%Z) as Hn by (rewrite <- Ht; done). clear Ht.
  destruct (str_empty (lm_pool mk)) eqn:He; simpl.
  - apply str_empty_true in He. rewrite He.
    destruct (String.eqb_spec (lm_ip mk) (s_ip s)), (String.eqb_spec (lm_port mk) (s_port s)); simpl;
      naive_solver.
  - assert (lm_pool mk <> "") as Hne by (intros H; by rewrite H in He).
    destruct (String.eqb_spec (lm_pool mk) (s_virtual s)); simpl; naive_solver.
Qed.

(** The latest eligible candidate seen so far. *)
Definition latest (s : Session) (u : Z) (c : option lmarker) (seen : list lmarker) : Prop :=
  match c with
  | None => forall mk, mk ∈ seen -> eligible s u mk = false
  | Some m => m ∈ seen /\ eligible s u m = true /\
      forall mk, mk ∈ seen -> eligible s u mk = true -> (marker_time mk <= marker_time m)%Z
  end.

Lemma choose_latest s u cands : latest s u (chooseMarker s cands u) cands.
Proof.
  apply choose_step_inv; [intros mk H; by apply elem_of_nil in H|].
  intros c seen mk Hc. unfold choose_step. destruct (eligible s u mk) eqn:He; simpl.
  - destruct c as [m|]; simpl in *.
    + destruct Hc as (Hin & Hel & Hmax). destruct (Z.ltb_spec (marker_time m) (marker_time mk)); simpl.
      * split; [set_solver|]. split; [done|]. intros mk'. rewrite elem_of_app, list_elem_of_singleton.
        intros [H'| ->]; [|lia]. intros He'. specialize (Hmax mk' H' He'). lia.
      * split; [set_solver|]. split; [done|]. intros mk'. rewrite elem_of_app, list_elem_of_singleton.
        intros [H'| ->]; [by apply Hmax|]. lia.
    + split; [set_solver|]. split; [done|]. intros mk'. rewrite elem_of_app, list_elem_of_singleton.
      intros [H'| ->]; [|lia]. intros He'. specialize (Hc mk' H'). congruence.
  - destruct c as [m|]; simpl in *.
    + destruct Hc as (Hin & Hel & Hmax). split; [set_solver|]. split; [done|]. intros mk'.
      rewrite elem_of_app, list_elem_of_singleton. intros [H'| ->]; [by apply Hmax|congruence].
    + intros mk'. rewrite elem_of_app, list_elem_of_singleton. intros [H'| ->]; [by apply Hc|done].
Qed.

(** ** The markers on disk *)

(** The marker a reader finds in a session file. *)
Definition marker_at (w : World) (name : string) : option lmarker :=
  if has_prefix name "." || w_fault w (OpRead (LSession name)) then None
  else (fun d => live_marker name (parse_marker d)) <$> (w_files w !! LSession name).

Lemma ReadMarker_view p w :
  ReadMarker p w =
  (inr (if w_fault w (OpRead p) then None else parse_marker <$> (w_files w !! p)), w).
Proof.
  unfold ReadMarker. rewrite bind_run, try_run. unfold read_file.
  destruct (w_fault w (OpRead p)); [done|]. by destruct (w_files w !! p).
Qed.

Lemma collect_markers_run names w :
  collect_markers names w = (inr (omap (marker_at w) names), w).
Proof.
  induction names as [|name names IH]; simpl; [done|]. unfold marker_at at 1.
  destruct (has_prefix name "."); simpl; [done|].
  rewrite bind_run, ReadMarker_view, bind_run, IH.
  destruct (w_fault w _); [done|]. by destruct (w_files w !! LSession name).
Qed.

Lemma readMarkers_run w :
  exists ms, readMarkers w = (inr ms, w) /\
    (forall m, m ∈ ms -> exists name, name ∈ session_names w /\ marker_at w name = Some m) /\
    (w_fault w (OpReadDir "sessions") = false ->
     forall name m, name ∈ session_names w -> marker_at w name = Some m -> m ∈ ms).
Proof.
  unfold readMarkers. rewrite bind_run, try_run. unfold read_sessions_dir.
  destruct (w_fault w _) eqn:Hf; cbn [fst snd].
  - exists []. split; [done|]. split; [|done]. intros m H. by apply elem_of_nil in H.
  - rewrite bind_run, collect_markers_run. eexists. split; [done|].
    split; intros; [|intros]; rewrite merge_sort_Permutation, list_elem_of_omap in *; eauto.
Qed.

Lemma marker_at_Some w name m :
  marker_at w name = Some m ->
  lm_key m = name /\ exists d, w_files w !! LSession name = Some d /\ m = live_marker name (parse_marker d).
Proof.
  unfold marker_at. case_match; [done|]. rewrite fmap_Some. intros (d & Hd & ->). split; [done|]. eauto.
Qed.

Lemma ReadStatusSnapshot_same p w r w' : ReadStatusSnapshot p w = (r, w') -> w' = w.
Proof.
  unfold ReadStatusSnapshot. rewrite bind_run. unfold read_file.
  destruct (w_fault w _); [by intros [= _ <-]|]. destruct (w_files w !! p); [|by intros [= _ <-]].
  repeat (case_match; try by intros [= _ <-]).
Qed.

(** ** Sums in a map of counters *)

Section sums.
Context {A : Type} (f : A -> string) (g : A -> Z).

(** The sum of the entries under one name. *)
Definition sum_for (name : string) (l : list A) : Z :=
  foldr (fun c z => ((if decide (f c = name) then g c else 0) + z)%Z) 0%Z l.

Lemma bump_all (l : list A) : forall m name,
  is_u64 (default 0%Z (m !! name)) ->
  default 0%Z (foldl (fun m c => bump m (f c) (g c)) m l !! name)
    = ((default 0%Z (m !! name) + sum_for name l) mod two64)%Z.
Proof.
  induction l as [|c l IH]; intros m name Hm; simpl.
  - rewrite Z.add_0_r. symmetry. by apply Z.mod_small.
  - destruct (decide (f c = name)) as [<-|Hne].
    + rewrite IH; unfold bump; rewrite lookup_insert_eq; simpl; [|apply u64_add_range].
      unfold u64_add. rewrite Zplus_mod_idemp_l. f_equal. lia.
    + rewrite IH; unfold bump; rewrite lookup_insert_ne by done; done.
Qed.

Lemma bump_all_dom (l : list A) : forall m name,
  is_Some (foldl (fun m c => bump m (f c) (g c)) m l !! name) <->
  is_Some (m !! name) \/ exists c, c ∈ l /\ f c = name.
Proof.
  induction l as [|c l IH]; intros m name; simpl.
  - split; [by left|]. intros [H|(c & H & _)]; [done|by apply elem_of_nil in H].
  - rewrite IH. unfold bump. setoid_rewrite elem_of_cons. destruct (decide (f c = name)) as [<-|Hne].
    + rewrite lookup_insert_eq. naive_solver.
    + rewrite lookup_insert_ne by done. naive_solver.
Qed.
End sums.

(** ** The reads of the poll *)

Lemma NoDup_sort_strings l : NoDup l -> NoDup (sort_strings l).
Proof. unfold sort_strings. by rewrite merge_sort_Permutation. Qed.

Lemma usage_names_nodup w : NoDup (usage_names w).
Proof.
  apply NoDup_sort_strings.
  induction (NoDup_elements (dom (w_files w))) as [|l ls Hl _ IH]; simpl; [constructor|].
  destruct l; simpl; try done. constructor; [|done]. rewrite list_elem_of_omap.
  intros (l & Hin & Heq). destruct l; simplify_eq. done.
Qed.

Lemma read_totals_inr cns : forall w cs w1,
  (forall cn, cn ∈ cns -> StoreKeyRe cn = true /\ is_Some (w_files w !! LUsage cn)) ->
  read_totals cns w = (inr cs, w1) ->
  map fst cs = cns /\ w_files w1 = w_files w /\
  forall c, c ∈ cs -> persisted (w_files w) c.1 = Some (inr (st_total c.2, st_epoch c.2)).
Proof.
  induction cns as [|cn cns IH]; intros w cs w1 Hc; simpl.
  { intros [= <- <-]. split; [done|]. split; [done|]. intros c H. by apply elem_of_nil in H. }
  destruct (Hc cn ltac:(left)) as [Hk [d Hd]].
  rewrite bind_run. destruct (ReadUsageState cn w) as [[e|st] w2] eqn:Hr; [done|].
  apply (ReadUsageState_inr cn cn) in Hr as [Hl [Hfs _ _ _]]; [|by apply SafeCN_key].
  rewrite bind_run. destruct (read_totals cns w2) as [[e|rest] w3] eqn:Hrest; [done|].
  intros [= <- <-]. apply IH in Hrest as (Hm & Hf & Hp).
  2: { intros cn' H. rewrite Hfs. apply Hc. by right. }
  split; [by rewrite <- Hm|]. split; [by rewrite Hf|].
  intros c [->|H]%elem_of_cons; [|by rewrite <- Hfs; apply Hp].
  destruct (persisted_loaded _ _ _ Hl) as [[Hnone _]|H]; [|done].
  unfold persisted in Hnone. by rewrite Hd in Hnone.
Qed.

Lemma prune_each_persisted (f : string -> gset string) cns safe : forall w r w',
  StoreKeyRe safe = true -> for_each (fun cn => PruneReceipts cn (f cn)) cns w = (r, w') ->
  persisted (w_files w') safe = persisted (w_files w) safe.
Proof.
  induction cns as [|cn cns IH]; intros w r w' Hk; simpl; [by intros [= _ <-]|]. rewrite bind_run.
  destruct (PruneReceipts cn (f cn) w) as [r1 w1] eqn:Hp. apply (prune_view _ _ _ _ _ safe Hk) in Hp.
  rewrite <- Hp. destruct r1 as [e|[]]; [by intros [= _ <-]|]. by apply IH.
Qed.

Lemma persisted_is_Some f safe : is_Some (persisted f safe) <-> is_Some (f !! LUsage safe).
Proof. unfold persisted. by rewrite fmap_is_Some. Qed.

Lemma is_counter_name_key n : is_counter_name n = true -> StoreKeyRe n = true.
Proof. unfold is_counter_name. intros H. by boolify. Qed.

Lemma key_is_counter_name n : StoreKeyRe n = true -> is_counter_name n = true.
Proof.
  intros H. unfold is_counter_name. rewrite H, andb_true_r. destruct (has_prefix n ".lock.") eqn:Hp; [|done].
  exfalso. apply StoreKeyRe_first in H as [H _]. destruct n as [|a n]; [done|].
  destruct a as [[][][][][][][][]]; done.
Qed.

(** ** Properties *)

(** [chooseMarker] accounts a status row to the latest generation that can
    be its own: a marker of the same pool address (or, for a marker without
    one, of the same peer address) that was made before the snapshot; it
    answers none only when no candidate is such a marker. *)
Theorem chosen_marker_is_latest s updated cands :
  match chooseMarker s cands updated with
  | None => forall mk, mk ∈ cands ->
      (0 < updated)%Z /\ (0 < marker_time mk)%Z /\ (updated <= marker_time mk)%Z \/
      (lm_pool mk <> "" /\ lm_pool mk <> s_virtual s) \/
      (lm_pool mk = "" /\ ~ (lm_ip mk = s_ip s /\ lm_port mk = s_port s))
  | Some m => m ∈ cands /\
      ((0 < updated)%Z -> (0 < marker_time m)%Z -> (marker_time m < updated)%Z) /\
      (lm_pool m = s_virtual s \/ (lm_pool m = "" /\ lm_ip m = s_ip s /\ lm_port m = s_port s)) /\
      forall mk, mk ∈ cands -> eligible s updated mk = true -> (marker_time mk <= marker_time m)%Z
  end.
Proof.
  pose proof (choose_latest s updated cands) as H. unfold latest in H.
  destruct (chooseMarker s cands updated) as [m|].
  - destruct H as (Hin & Hel & Hmax). split; [done|]. apply eligible_spec in Hel as [H1 H2].
    split; [intros; lia|]. split; [naive_solver|done].
  - intros mk Hmk. specialize (H mk Hmk).
    assert (~ ((~ (0 < updated /\ 0 < marker_time mk /\ updated <= marker_time mk)%Z) /\
      (lm_pool mk <> "" /\ lm_pool mk = s_virtual s \/ lm_pool mk = "" /\ lm_ip mk = s_ip s /\ lm_port mk = s_port s)))
      as Hn by (rewrite <- eligible_spec; congruence).
    destruct (decide (0 < updated /\ 0 < marker_time mk /\ updated <= marker_time mk)%Z) as [Ht|Ht]; [by left|].
    right. destruct (decide (lm_pool mk = "")), (decide (lm_pool mk = s_virtual s)),
      (decide (lm_ip mk = s_ip s)), (decide (lm_port mk = s_port s)); tauto.
Qed.

(** The epochs are those of the same contributors. *)
Lemma epochs_lookup (g : string -> string) (l : list string) name :
  (list_to_map (map (fun name => (name, g name)) (remove_dups l)) : gmap string string) !! name =
  if decide (name ∈ l) then Some (g name) else None.
Proof.
  destruct (decide (name ∈ l)) as [Hin|Hni].
  - apply elem_of_list_to_map.
    + rewrite <- list_fmap_compose. simpl.
      replace (fst ∘ (fun name => (name, g name))) with (id : string -> string) by done.
      rewrite list_fmap_id. apply NoDup_remove_dups.
    + apply list_elem_of_fmap. exists name. split; [done|]. by apply elem_of_remove_dups.
  - apply not_elem_of_list_to_map. rewrite list_elem_of_fmap. intros ([k v] & -> & Hk).
    apply list_elem_of_fmap in Hk as (k' & Hk & Hin). simplify_eq/=. by apply Hni, elem_of_remove_dups.
Qed.

(** C32: the totals of a report are those of the counter files and of nothing
    else.  When the poll answers, there is one contributor per counter file
    left on the node, read at its persisted total and epoch; the total under a
    name is the [uint64] sum of the totals of its contributors, so no live
    byte is added a second time; and the totals and the epochs list the same
    names, each epoch naming exactly the contributors of the total. *)
Theorem report_totals_are_persisted usersDir status order w rp w' :
  UsersUsage usersDir status order w = (inr rp, w') ->
  exists names cs,
    (NameMap usersDir w).1 = inr names /\
    NoDup (map fst cs) /\
    (forall cn, cn ∈ map fst cs <-> StoreKeyRe cn = true /\ is_Some (w_files w' !! LUsage cn)) /\
    (forall c, c ∈ cs -> persisted (w_files w') c.1 = Some (inr (st_total c.2, st_epoch c.2))) /\
    (forall name, default 0%Z (rp_totals rp !! name) =
       (sum_for (fun c => display names c.1) (fun c => st_total c.2) name cs mod two64)%Z) /\
    (forall name, is_Some (rp_totals rp !! name) <-> exists c, c ∈ cs /\ display names c.1 = name) /\
    (forall name, rp_epochs rp !! name =
       if decide (name ∈ map (fun c => display names c.1) cs)
       then Some (epoch_of (filter (fun c => display names c.1 = name) cs)) else None).
Proof.
  unfold UsersUsage. rewrite bind_run.
  destruct (ReadStatusSnapshot status w) as [[e|snap] w0] eqn:Hsnap; [done|].
  apply ReadStatusSnapshot_same in Hsnap as ->. cbv zeta.
  rewrite bind_run. destruct (NameMap usersDir w) as [[e|names] w1] eqn:Hn; [done|].
  rewrite bind_run. destruct (record_users _ _ _ _ w1) as [[e|present] w2]; [done|].
  rewrite bind_run. unfold read_usage_dir. destruct (w_fault w2 _); [done|].
  rewrite bind_run. destruct (readMarkers_run w2) as (ms & -> & _). rewrite bind_run.
  set (cns := sort_strings _). destruct (read_totals cns w2) as [[e|cs] w3] eqn:Hr; [done|].
  rewrite bind_run. destruct (for_each _ cns w3) as [[e|[]] w4] eqn:Hp; [done|]. intros [= <- <-].
  assert (forall cn, cn ∈ cns <-> StoreKeyRe cn = true /\ is_Some (w_files w2 !! LUsage cn)) as Hcns.
  { intros cn. unfold cns. rewrite elem_of_sort_strings, list_elem_of_filter, elem_of_usage_names.
    split; intros [H1 H2]; (split; [|done]); [by apply is_counter_name_key|by apply key_is_counter_name]. }
  apply read_totals_inr in Hr as (Hfst & Hfs & Hper); [|by intros; apply Hcns].
  assert (forall cn, StoreKeyRe cn = true -> persisted (w_files w4) cn = persisted (w_files w2) cn) as Hsame.
  { intros cn Hk. rewrite <- Hfs. 
    exact (prune_each_persisted (fun cn => default ∅ (marker_present ms present !! cn)) cns cn w3
             (inr tt) w4 Hk Hp). }
  exists names, cs. split; [done|]. rewrite Hfst. split.
  { apply NoDup_sort_strings, NoDup_filter, usage_names_nodup. }
  split.
  { intros cn. rewrite Hcns, <- !persisted_is_Some.
    split; intros [Hk H]; (split; [done|]); specialize (Hsame cn Hk); congruence. }
  split.
  { intros c Hc. rewrite Hsame; [by apply Hper|]. apply Hcns. rewrite <- Hfst.
    apply list_elem_of_fmap. by exists c. }
  split; [|split].
  - intros name. simpl. rewrite bump_all by by rewrite lookup_empty. by rewrite lookup_empty.
  - intros name. simpl. rewrite bump_all_dom. split; [|by right].
    intros [[z Hz]|H]; [by rewrite lookup_empty in Hz|done].
  - intros name. apply epochs_lookup.
Qed.

(** User 42 ("alice") with the session of the status file, 400 bytes of which
    were polled before. *)
Definition poll_world : World :=
  set_files (<[LUsage "42" := encode_counter session_state]>
    (<[LUser "42" "state" := print_lines [("limit", "1"); ("disabled", "0"); ("name", "alice")]]>
      (w_files purge_world))) (set_user_dirs true {["42"]} demo_world).
Definition poll_order (m : gmap string (gmap string Z)) : list string := (map_to_list m).*1.

Example poll_counts_once :
  match UsersUsage "/u" (LAbs "status") poll_order poll_world with
  | (inr rp, w') => rp_totals rp !! "alice" = Some 4500%Z /\
      match UsersUsage "/u" (LAbs "status") poll_order w' with
      | (inr rp', _) => rp_totals rp' !! "alice" = Some 4500%Z /\ rp_epochs rp' !! "alice" = Some "17-1"
      | _ => False
      end
  | _ => False
  end.
Proof. vm_compute. done. Qed.

Lemma report_totals_are_persisted_witness :
  exists rp w' c, UsersUsage "/u" (LAbs "status") poll_order poll_world = (inr rp, w') /\
    c.1 = "42" /\ persisted (w_files w') "42" = Some (inr (st_total c.2, st_epoch c.2)).
Proof.
  destruct (UsersUsage "/u" (LAbs "status") poll_order poll_world) as [[e|rp] w'] eqn:Hrun.
  - exfalso. assert ((UsersUsage "/u" (LAbs "status") poll_order poll_world).1 = inl e) as H by (rewrite Hrun; reflexivity).
    vm_compute in H. discriminate.
  - destruct (report_totals_are_persisted _ _ _ _ _ _ Hrun) as (names & cs & _ & _ & Hdom & Hper & _).
    assert ("42" ∈ map fst cs) as Hin.
    { apply Hdom. split; [reflexivity|]. change w' with (inr rp : goerr + usage_report, w').2.
      rewrite <- Hrun. vm_compute. eexists. reflexivity. }
    apply list_elem_of_fmap in Hin as (c & Hc & Hin). exists rp, w', c. split; [reflexivity|].
    split; [symmetry; exact Hc|]. rewrite Hc. apply Hper. exact Hin.
Defined.
