(* ===== verification/Disconnect.v ===== *)
(** * Disconnect: internal/ovpn/disconnect.go.

    Dropping the sessions of a user: the live ones are killed over the
    management socket, or, in the safe mode, only the markers whose session is
    gone are removed. *)

From S2P Require Import Prelude GoString Names Cache World Counter CounterSpec Markers UserPolicy Status Mgmt Hooks HookProps Usage UsageProps.
From Stdlib Require Import Ascii.

(** The management access of the node: service, host, port, password file. *)
Record mgmt_cfg : Type := mkMgmtCfg {
  mc_service : Service;
  mc_host : string;
  mc_port : Z;
  mc_pass : option loc
}.

(** Every reply says SUCCESS, and there is one. *)
Definition replyOK (replies : list string) : bool :=
  forallb (fun r => contains (to_upper r) "SUCCESS") replies && negb (Nat.eqb (length replies) 0).

(** The client ids of a user's sessions. *)
Definition kill_ids (cn : string) (sessions : list Session) : list string :=
  map s_client (filter (fun s => s_cn s = cn /\ isDigits (s_client s) = true) sessions).

Definition killSessions (mc : mgmt_cfg) (cn : string) (sessions : list Session) : M (Z * bool) :=
  let send := SendCommands (mc_service mc) (mc_host mc) (mc_port mc) (mc_pass mc) in
  let cids := kill_ids cn sessions in
  match cids with
  | [] =>
      r <- try (send ["kill " +:+ cn]) ;;
      match r with
      | inl _ => mret (0%Z, false)
      | inr replies => mret (0%Z, replyOK replies)
      end
  | _ =>
      r <- try (send (map (fun cid => "client-kill " +:+ cid) cids)) ;;
      match r with
      | inl _ => mret (0%Z, false)
      | inr replies =>
          let killed := length (filter (fun r => replyOK [r] = true) replies) in
          mret (Z.of_nat killed, Nat.eqb killed (length cids))
      end
  end.

(** The [mgmt] map of the answer. *)
Inductive mgmt_answer : Type :=
| MgmtOnlyStale
| MgmtNotRunning
| MgmtAsked (ok : bool) (killed : Z).

Fixpoint sweep (cn : string) (idx : liveIndex) (ms : list lmarker) : M (list string) :=
  match ms with
  | [] => mret []
  | m :: ms' =>
      if negb (String.eqb (lm_cn m) cn) then sweep cn idx ms'
      else if isLive idx m then sweep cn idx ms'
      else
        r <- try (remove_file (LSession (lm_key m))) ;;
        if match r with inl e => negb (IsNotExist e) | inr _ => false end
        then sweep cn idx ms'
        else rest <- sweep cn idx ms' ;; mret (lm_key m :: rest)
  end.

(** [running] is [TreeOpenVPNRunning], which looks at the process table. *)
Definition DisconnectUser (status : loc) (mc : mgmt_cfg) (running : bool) (cn : string) (onlyStale : bool)
  : M (list string * Z * mgmt_answer) :=
  sessions <- ParseSessions status ;;
  let idx := newLiveIndex sessions in
  if onlyStale then
    ms <- readMarkers ;;
    removed <- sweep cn idx ms ;;
    mret (removed, 0%Z, MgmtOnlyStale)
  else if negb running then mret ([], 0%Z, MgmtNotRunning)
  else
    r <- killSessions mc cn sessions ;;
    mret ([], r.1, MgmtAsked r.2 r.1).

(** ** The sweep and the status file *)

(** A marker that is not live has no row in the status file. *)
Definition no_row (sessions : list Session) (m : lmarker) : Prop :=
  forall s, s ∈ sessions -> s_cn s = lm_cn m ->
    if str_empty (lm_pool m) then ~ (s_ip s = lm_ip m /\ s_port s = lm_port m)
    else s_virtual s <> lm_pool m.

Lemma not_live_no_row sessions m : isLive (newLiveIndex sessions) m = false -> no_row sessions m.
Proof.
  unfold isLive, newLiveIndex, no_row. simpl. intros H s Hs Hcn.
  destruct (str_empty (lm_pool m)); simpl in H; apply bool_decide_eq_false in H;
    rewrite elem_of_list_to_set in H.
  - intros [Hi Hp]. apply H. apply list_elem_of_fmap. exists s. by rewrite Hcn, Hi, Hp.
  - intros Hv. apply H. apply list_elem_of_fmap. exists s. by rewrite Hcn, Hv.
Qed.


(** The sweep may drop this marker. *)
Definition droppable (cn : string) (idx : liveIndex) (m : lmarker) : Prop :=
  lm_cn m = cn /\ isLive idx m = false.

Lemma remove_file_run l w :
  exists r w1, remove_file l w = (r, w1) /\ w_fault w1 = w_fault w /\
    ((match r with inl e => negb (IsNotExist e) | inr _ => false end = true /\ w1 = w /\
      w_fault w (OpRemove l) = true) \/
     (match r with inl e => negb (IsNotExist e) | inr _ => false end = false /\
      w_files w1 = delete l (w_files w))).
Proof.
  unfold remove_file. destruct (w_fault w (OpRemove l)) eqn:Hf.
  - eexists _, _. split; [done|]. split; [done|]. by left.
  - destruct (w_files w !! l) eqn:Hl; eexists _, _; (split; [done|]); (split; [done|]); right;
      (split; [done|]); [done|]. by rewrite delete_id.
Qed.

(** What a sweep over [ms] leaves. *)
Record swept (cn : string) (idx : liveIndex) (ms : list lmarker) (w w' : World) (removed : list string)
  : Prop := {
  sw_only : forall key, key ∈ removed -> exists m, m ∈ ms /\ lm_key m = key /\ droppable cn idx m;
  sw_gone : forall key, key ∈ removed -> w_files w' !! LSession key = None;
  sw_frame : forall l, (forall key, key ∈ removed -> l <> LSession key) -> w_files w' !! l = w_files w !! l;
  sw_all : forall m, m ∈ ms -> droppable cn idx m ->
    w_fault w (OpRemove (LSession (lm_key m))) = false -> lm_key m ∈ removed;
  sw_fault : w_fault w' = w_fault w
}.

Lemma swept_skip cn idx m ms w w' removed :
  (droppable cn idx m -> w_fault w (OpRemove (LSession (lm_key m))) = true) ->
  swept cn idx ms w w' removed -> swept cn idx (m :: ms) w w' removed.
Proof.
  intros Hno [Ho Hg Hf Ha Hw]. split; [|done|done| |done].
  - intros key Hk. destruct (Ho key Hk) as (m' & Hm & ?). exists m'. split; [by right|done].
  - intros m' [->|Hm]%elem_of_cons Hd Hok; [|by apply Ha]. rewrite Hno in Hok by done. done.
Qed.

Lemma swept_drop cn idx m ms w w1 w' removed :
  droppable cn idx m -> w_fault w1 = w_fault w ->
  w_files w1 = delete (LSession (lm_key m)) (w_files w) ->
  swept cn idx ms w1 w' removed -> swept cn idx (m :: ms) w w' (lm_key m :: removed).
Proof.
  intros Hd Hft Hfs [Ho Hg Hf Ha Hw].
  assert (w_files w' !! LSession (lm_key m) = None) as Hgone.
  { destruct (decide (lm_key m ∈ removed)) as [Hin|Hni]; [by apply Hg|].
    rewrite Hf by (intros key Hk [= Heq]; by subst). by rewrite Hfs, lookup_delete_eq. }
  split.
  - intros key [->|Hk]%elem_of_cons; [exists m; split; [by left|done]|].
    destruct (Ho key Hk) as (m' & Hm & ?). exists m'. split; [by right|done].
  - intros key [->|Hk]%elem_of_cons; [done|by apply Hg].
  - intros l Hl. rewrite Hf by (intros key Hk; apply Hl; by right). rewrite Hfs.
    apply lookup_delete_ne. intros <-. by apply (Hl (lm_key m)); [left|].
  - intros m' [->|Hm]%elem_of_cons Hd' Hok; [by left|]. right. apply Ha; [done|done|by rewrite Hft].
  - by rewrite Hw.
Qed.

Lemma sweep_run cn idx ms : forall w,
  exists removed w', sweep cn idx ms w = (inr removed, w') /\ swept cn idx ms w w' removed.
Proof.
  induction ms as [|m ms IH]; intros w; simpl.
  { exists [], w. split; [done|]. split; try done; intros ? H; by apply elem_of_nil in H. }
  destruct (String.eqb_spec (lm_cn m) cn) as [Hcn|Hcn]; simpl.
  2: { destruct (IH w) as (removed & w' & -> & Hs). exists removed, w'. split; [done|].
       apply swept_skip; [|done]. by intros []. }
  destruct (isLive idx m) eqn:Hl.
  { destruct (IH w) as (removed & w' & -> & Hs). exists removed, w'. split; [done|].
    apply swept_skip; [|done]. intros []. congruence. }
  rewrite bind_run, try_run.
  destruct (remove_file_run (LSession (lm_key m)) w) as (r & w1 & -> & Hf & Hr). cbn [fst snd].
  destruct Hr as [(-> & -> & Hbad)|(-> & Hdel)].
  - destruct (IH w) as (removed & w' & -> & Hs). exists removed, w'. split; [done|].
    by apply swept_skip.
  - rewrite bind_run. destruct (IH w1) as (removed & w' & -> & Hs). exists (lm_key m :: removed), w'.
    split; [done|]. by apply (swept_drop cn idx m ms w w1).
Qed.

(** ** Properties *)

(** The safe mode of [DisconnectUser] never asks OpenVPN to kill a session
    and never removes the marker of a session of the status file: every name
    it reports is a marker of that user whose session has no row at the
    marker's pool address (or peer address), the file is gone afterwards, no
    other file of the node changes, and on a node whose file operations work
    every such marker is removed. *)
Theorem stale_sweep_is_safe status mc running cn w removed killed a w' :
  DisconnectUser status mc running cn true w = (inr (removed, killed, a), w') ->
  killed = 0%Z /\ a = MgmtOnlyStale /\
  exists sessions, (ParseSessions status w).1 = inr sessions /\
    (forall key, key ∈ removed -> exists m, marker_at w key = Some m /\ lm_cn m = cn /\ no_row sessions m) /\
    (forall key, key ∈ removed -> w_files w' !! LSession key = None) /\
    (forall l, (forall key, key ∈ removed -> l <> LSession key) -> w_files w' !! l = w_files w !! l) /\
    (faultless w -> forall key m, marker_at w key = Some m -> lm_cn m = cn ->
       isLive (newLiveIndex sessions) m = false -> key ∈ removed).
Proof.
  unfold DisconnectUser. rewrite bind_run. pose proof (ParseSessions_state status w) as Hst.
  destruct (ParseSessions status w) as [[e|sessions] w1]; [done|]. simpl in Hst. subst w1. cbv zeta.
  rewrite bind_run. destruct (readMarkers_run w) as (ms & -> & Hms & Hall). rewrite bind_run.
  destruct (sweep_run cn (newLiveIndex sessions) ms w) as (rm & w2 & -> & [Ho Hg Hf Ha _]).
  intros [= <- <- <- <-]. split; [done|]. split; [done|]. exists sessions. split; [done|].
  split; [|split; [done|split; [done|]]].
  - intros key Hk. destruct (Ho key Hk) as (m & Hm & <- & Hcn & Hlive).
    destruct (Hms m Hm) as (name & _ & Hat). destruct (marker_at_Some w name m Hat) as [<- _].
    exists m. split; [done|]. split; [done|]. by apply not_live_no_row.
  - intros Hok key m Hat Hcn Hlive. destruct (marker_at_Some w key m Hat) as [<- (d & Hd & _)].
    apply Ha; [|done|apply Hok]. apply (Hall (Hok _) (lm_key m)); [|done].
    apply elem_of_session_names. by exists d.
Qed.

(** User 42 with a live session at 10.8.0.2 and a marker left at 10.8.0.9. *)
Definition left_marker : Marker :=
  new_marker "42" "203.0.113.9" "40000" "10.8.0.9" "42.10.8.0.9" "fedcba9876543210" 1600000000 1600000000.
Definition sweep_world : World :=
  set_files (<[LSession "42.10.8.0.9" := marker_text left_marker]> (w_files purge_world)) demo_world.
Definition demo_mgmt : mgmt_cfg := mkMgmtCfg demo_service "127.0.0.1" 7505 None.

Lemma stale_sweep_is_safe_witness :
  exists w', DisconnectUser (LAbs "status") demo_mgmt true "42" true sweep_world =
      (inr (["42.10.8.0.9"], 0%Z, MgmtOnlyStale), w') /\
    w_files w' !! LSession "42.10.8.0.9" = None /\
    w_files w' !! LSession "42.10.8.0.2" = w_files sweep_world !! LSession "42.10.8.0.2".
Proof.
  destruct (DisconnectUser (LAbs "status") demo_mgmt true "42" true sweep_world) as [r w'] eqn:Hrun.
  assert (r = inr (["42.10.8.0.9"], 0%Z, MgmtOnlyStale)) as ->.
  { change r with (r, w').1. rewrite <- Hrun. vm_compute. reflexivity. }
  destruct (stale_sweep_is_safe _ _ _ _ _ _ _ _ _ Hrun) as (_ & _ & sessions & _ & _ & Hg & Hf & _).
  exists w'. split; [reflexivity|]. split.
  - apply Hg. left.
  - apply Hf. intros key Hk. apply list_elem_of_singleton in Hk. subst. discriminate.
Defined.

Lemma send_all_length cmds : forall k, length (send_all cmds k).1 = length cmds.
Proof.
  induction cmds as [|c cmds IH]; intros k; simpl; [done|].
  destruct (write _ k) as [[e|] k1].
  - specialize (IH k1). destruct (send_all cmds k1). simpl in *. by rewrite IH.
  - destruct (readUntil _ _ k1) as [reply k2]. specialize (IH k2). destruct (send_all cmds k2).
    simpl in *. by rewrite IH.
Qed.

(** Sending commands changes nothing on the node and yields a reply each. *)
Lemma SendCommands_run sv h p pw cmds w :
  exists r, SendCommands sv h p pw cmds w = (r, w) /\
    forall replies, r = inr replies -> length replies = length cmds.
Proof.
  unfold SendCommands. destruct cmds as [|c cmds]; [eexists; split; [done|]; by intros ? [= <-]|].
  rewrite bind_run. unfold dialManagement.
  destruct (validateMgmtHost _ _); [by eexists|]. destruct (sv_dial _ _); [by eexists|]. cbn [mret M_ret].
  rewrite bind_run. destruct (authenticate_state pw (sv_conn sv) w) as (a & k & -> & _).
  destruct a; try by eexists.
  pose proof (send_all_length (c :: cmds) k) as Hl. destruct (send_all _ k) as [replies k1].
  eexists. split; [done|]. by intros ? [= <-].
Qed.

Lemma kill_ids_spec cn sessions cid :
  cid ∈ kill_ids cn sessions <-> exists s, s ∈ sessions /\ s_cn s = cn /\ s_client s = cid /\ isDigits cid = true.
Proof.
  unfold kill_ids. rewrite list_elem_of_fmap. setoid_rewrite list_elem_of_filter. naive_solver.
Qed.

(** The full mode of [DisconnectUser] changes no file of the node. With the
    OpenVPN of the tree down it reports that; otherwise it names the client
    ids of exactly the user's rows of the status file, counts at most one kill
    per row, and reports success only when OpenVPN confirmed every one of
    them. *)
Theorem full_disconnect_reports status mc running cn sessions w :
  (ParseSessions status w).1 = inr sessions ->
  exists killed a, DisconnectUser status mc running cn false w = (inr ([], killed, a), w) /\
    (running = false -> a = MgmtNotRunning /\ killed = 0%Z) /\
    (running = true -> exists ok, a = MgmtAsked ok killed /\
       (0 <= killed <= Z.of_nat (length (kill_ids cn sessions)))%Z /\
       (kill_ids cn sessions <> [] -> ok = true -> killed = Z.of_nat (length (kill_ids cn sessions))) /\
       (forall cid, cid ∈ kill_ids cn sessions <->
          exists s, s ∈ sessions /\ s_cn s = cn /\ s_client s = cid /\ isDigits cid = true)).
Proof.
  intros Hs. unfold DisconnectUser. rewrite bind_run. pose proof (ParseSessions_state status w) as Hst.
  destruct (ParseSessions status w) as [[e|l] w1]; simpl in Hs, Hst; [done|]. simplify_eq. cbv zeta.
  destruct running; simpl; [|exists 0%Z, MgmtNotRunning; by split_and!].
  rewrite bind_run.
  assert (exists killed ok, killSessions mc cn sessions w = (inr (killed, ok), w) /\
    (0 <= killed <= Z.of_nat (length (kill_ids cn sessions)))%Z /\
    (kill_ids cn sessions <> [] -> ok = true -> killed = Z.of_nat (length (kill_ids cn sessions))))
    as (killed & ok & -> & Hk & Hok).
  - unfold killSessions. cbv zeta. destruct (kill_ids cn sessions) as [|c cids].
    + rewrite bind_run, try_run. destruct (SendCommands_run (mc_service mc) (mc_host mc) (mc_port mc) (mc_pass mc)
        ["kill " +:+ cn] w) as (r & -> & _). cbn [fst snd]. destruct r; eexists _, _; (split; [done|]); done.
    + rewrite bind_run, try_run. destruct (SendCommands_run (mc_service mc) (mc_host mc) (mc_port mc) (mc_pass mc)
        (map (fun cid => "client-kill " +:+ cid) (c :: cids)) w) as (r & -> & Hl). cbn [fst snd].
      destruct r as [e|replies]; eexists _, _; (split; [done|]); [split; [lia|done]|].
      specialize (Hl _ eq_refl). rewrite length_map in Hl.
      pose proof (length_filter (fun r => replyOK [r] = true) replies) as Hle.
      split; [lia|]. intros _ He%Nat.eqb_eq. by f_equal.
  - exists killed, (MgmtAsked ok killed). split; [done|]. split; [done|]. intros _. exists ok.
    split; [done|]. split; [done|]. split; [done|]. intros cid. apply kill_ids_spec.
Qed.

Lemma full_disconnect_reports_witness :
  exists killed a, DisconnectUser (LAbs "status") demo_mgmt true "42" false sweep_world =
      (inr ([], killed, a), sweep_world) /\ (killed <= 1)%Z.
Proof.
  destruct (full_disconnect_reports (LAbs "status") demo_mgmt true "42" [demo_session] sweep_world
    ltac:(vm_compute; reflexivity)) as (killed & a & Hrun & _ & Ht).
  destruct (Ht eq_refl) as (ok & _ & [_ Hk] & _). exists killed, a. split; [exact Hrun|]. exact Hk.
Defined.
