(* ===== verification/Users.v ===== *)
(** * Users: internal/ovpn/users.go, lifecycle.go and profile.go.

    Creating, changing and deleting a user under the lock of its lifecycle:
    the certificate, the policy, the cached profile and the live sessions. *)

From S2P Require Import Prelude GoString Json Names Cache World Evolve Time PkiIndex NetIP Pki UserPolicy Status Mgmt Hooks Usage Disconnect.
From Stdlib Require Import Ascii.

(** What happens while the lock of a user is waited for: other processes act
    on the node, and the folder found afterwards may be another one
    ([os.SameFile]). *)
Record waiting : Type := mkWait { meanwhile : World -> World; same_file : bool }.

(** [errUserGenerationChanged]. *)
Definition errUserGenerationChanged : goerr := Errorf "user generation was deleted or replaced".
Definition generation_changed (e : goerr) : bool :=
  match e with Errorf m => String.eqb m "user generation was deleted or replaced" | _ => false end.

(** [os.Lstat] of the folder of a user. *)
Definition lstat_user_dir (safe : string) : M unit := fun w =>
  if w_fault w (OpStat (LUser safe "")) then (inl ErrIO, w)
  else if bool_decide (safe ∈ w_user_dirs w) then (inr tt, w) else (inl ErrNotExist, w).

(** What the lifecycle of a user opened before it took the lock. *)
Inductive generation : Type := GenFolder | GenCert.

Definition open_generation (safe cn : string) : M (option generation) :=
  r <- try (read_user_dir safe) ;;
  match r with
  | inr _ => mret (Some GenFolder)
  | inl e =>
      if negb (IsNotExist e) then throw e
      else
        r <- try (read_file (IssuedCertPath cn)) ;;
        match r with
        | inr _ => mret (Some GenCert)
        | inl e => if IsNotExist e then mret None else throw e
        end
  end.

(** The same file is still there. *)
Definition same_generation (wt : waiting) (safe cn : string) (g : generation) : M unit :=
  r <- try (match g with GenFolder => lstat_user_dir safe | GenCert => lstat_file (IssuedCertPath cn) end) ;;
  match r with
  | inl e => throw (if IsNotExist e then errUserGenerationChanged else e)
  | inr _ => if same_file wt then mret tt else throw errUserGenerationChanged
  end.

Definition LifecycleLock (cn : string) : loc := LUsersRoot (".lifecycle." +:+ cn).

Definition withUserLifecycle {A} (wt : waiting) (cn : string) (fn : M A) : M A :=
  match SafeCN cn with
  | None => throw (Errorf "invalid common name")
  | Some safe =>
      previous <- open_generation safe cn ;;
      SetPermissions "group" ;;        (* the runtime group must resolve *)
      mkdir_users ;;
      SetPermissions "users" ;;
      Lock (LifecycleLock cn) (
        modify (meanwhile wt) ;;
        match previous with Some g => same_generation wt safe cn g | None => mret tt end ;;
        fn)
  end.

(** ** The profile *)

Record Parts : Type := mkParts { p_cert : string; p_key : string; p_ca : string; p_tls : string }.

(** The template without its comment lines. *)
Definition template_body (raw : string) : string :=
  foldr (fun line body => if has_prefix (trim_space line) "#" then body else line +:+ String nl body) "" (split nl raw).

Definition profile_block (tag text : string) : string :=
  if str_empty text then ""
  else String nl ("<" +:+ tag +:+ ">" +:+ String nl (text +:+ String nl ("</" +:+ tag +:+ ">" +:+ str1 nl))).

(** [readFirstFile]. *)
Fixpoint readFirstFile (paths : list loc) : M string :=
  match paths with
  | [] => mret ""
  | p :: paths' =>
      r <- try (read_file p) ;;
      match r with inr data => mret (trim_space data) | inl _ => readFirstFile paths' end
  end.

(** [ensureTrailingNewline]. *)
Definition ensureTrailingNewline (s : string) : string := if last_is nl s then s else s +:+ str1 nl.

Definition ClientTemplate : loc := LConf "client-common.txt".

(** [materialExists]. *)
Definition materialExists (l : loc) : M bool := present_file l.

(** An operation whose error ends a deletion with [found]. *)
Definition or_return {A} (found : bool) (m : M A) (k : A -> M (bool * option goerr)) : M (bool * option goerr) :=
  r <- try m ;; match r with inl e => mret (found, Some e) | inr a => k a end.

Section users.
Context `{Crypto}.
Variables (usersDir openvpnRoot : string) (status : loc) (mc : mgmt_cfg) (running : bool).
Variable order : gmap string string -> list string.

(** The PEM as [CleanPEM] prints it, or as it was. *)
Definition cleaned (s : string) : string :=
  if str_empty s then s else match CleanPEM s with inr c => c | inl _ => s end.

Definition render_profile (raw : string) (p : Parts) : string :=
  template_body raw +:+ profile_block "ca" (cleaned (p_ca p)) +:+ profile_block "cert" (cleaned (p_cert p)) +:+
  profile_block "key" (cleaned (p_key p)) +:+ profile_block "tls-crypt" (p_tls p).

Definition BuildTemplate (path : loc) (p : Parts) : M string :=
  raw <- read_file path ;; mret (render_profile raw p).

Definition buildUserProfileLocked (cn : string) : M loc :=
  match SafeCN cn with
  | None => throw (Errorf "invalid common name")
  | Some safe =>
      certPEM <- readFirstFile [LUser safe "cert.pem"; IssuedCertPath cn] ;;
      keyPEM <- readFirstFile [LUser safe "key.pem"; ClientKeyPath cn] ;;
      if str_empty certPEM || str_empty keyPEM then throw (Errorf ("no certificate material for " +:+ cn))
      else
        caPEM <- readFirstFile [LUser safe "ca.pem"; CACert] ;;
        tls <- ReadTLSCryptKey ;;
        text <- BuildTemplate ClientTemplate (mkParts certPEM keyPEM caPEM tls) ;;
        mkdir_user safe ;;
        WriteFileAtomic (LUser safe "client.ovpn") text ;;
        mret (LUser safe "client.ovpn")
  end.

(** ** Creating *)

Definition both_exist (a b : loc) : M bool := x <- stat_file a ;; if x : bool then stat_file b else mret false.

Definition hasCertMaterial (cn : string) : M bool :=
  match SafeCN cn with
  | None => mret false
  | Some safe =>
      pushed <- both_exist (LUser safe "cert.pem") (LUser safe "key.pem") ;;
      if pushed : bool then mret true else both_exist (IssuedCertPath cn) (ClientKeyPath cn)
  end.

(** A certificate from the node's own authority, when nothing was pushed. *)
Definition provision (cn : string) : M unit :=
  match SafeCN cn with
  | None => throw (Errorf "invalid common name")
  | Some safe =>
      c <- stat_file (LUser safe "cert.pem") ;;
      k <- stat_file (LUser safe "key.pem") ;;
      if c || k then throw (Errorf ("incomplete pushed credentials for " +:+ cn))
      else
        ca <- stat_file CACert ;;
        if negb ca then throw (Errorf ("no PKI and no pushed certificate for " +:+ cn))
        else IssueClientCertToTree cn ;; mret tt
  end.

Definition createUserLocked (cn name : string) (maxLogins : Z) (disabled : option bool) : M unit :=
  CreateUser cn ;;
  has <- hasCertMaterial cn ;;
  (if has : bool then mret tt else provision cn) ;;
  buildUserProfileLocked cn ;;
  WriteUserPolicy usersDir cn (if str_empty name then None else Some name)
    (if (0 <=? maxLogins)%Z then Some maxLogins else None) disabled ;;
  InvalidateNameCache.

Definition CreateUser (wt : waiting) (cn name : string) (maxLogins : Z) (disabled : option bool) : M unit :=
  withUserLifecycle wt cn (createUserLocked cn name maxLogins disabled).

(** The CA of a pushed user: the pushed copy, or a mirror of the node's own. *)
Definition mirror_ca (safe caPEM : string) : M unit :=
  if negb (str_empty caPEM) then WriteFileAtomic (LUser safe "ca.pem") (ensureTrailingNewline caPEM)
  else
    there <- stat_file (LUser safe "ca.pem") ;;
    if there : bool then mret tt
    else
      r <- try (read_file CACert) ;;
      match r with
      | inr body => ignore (WriteFileAtomic (LUser safe "ca.pem") body)
      | inl _ => mret tt
      end.

Definition createUserWithCredentialsLocked (cn certPEM keyPEM caPEM : string) (maxLogins : option Z)
    (disabled : option bool) : M unit :=
  if str_empty certPEM || str_empty keyPEM then throw (Errorf "cert_pem and key_pem are required")
  else
    now <- gets w_now ;;
    check (ValidateClientCert now cn certPEM keyPEM caPEM) ;;
    match SafeCN cn with
    | None => throw (Errorf "invalid common name")
    | Some safe =>
        mkdir_user safe ;;
        WriteFileAtomic (LUser safe "cert.pem") (ensureTrailingNewline (cleaned certPEM)) ;;
        WriteFileAtomic (LUser safe "key.pem") (ensureTrailingNewline (cleaned keyPEM)) ;;
        mirror_ca safe (cleaned caPEM) ;;
        WriteUserPolicy usersDir cn None maxLogins disabled ;;
        buildUserProfileLocked cn ;;
        InvalidateNameCache
    end.

Definition CreateUserWithCredentials (wt : waiting) (cn certPEM keyPEM caPEM : string) (maxLogins : option Z)
    (disabled : option bool) : M unit :=
  withUserLifecycle wt cn (createUserWithCredentialsLocked cn certPEM keyPEM caPEM maxLogins disabled).

(** ** Deleting *)

(** The probes of the material; [inl] is the path that cannot be looked at. *)
Fixpoint probe_material (paths : list loc) : M (goerr + bool) :=
  match paths with
  | [] => mret (inr false)
  | p :: paths' =>
      r <- try (materialExists p) ;;
      match r with
      | inl e => mret (inl e)
      | inr here => rest <- probe_material paths' ;; mret (match rest with inl e => inl e | inr b => inr (here || b) end)
      end
  end.

(** The answer is not looked at; a panic is not caught. *)
Definition drop_sessions (cn : string) : M unit := try_err (DisconnectUser status mc running cn false) ;; mret tt.

Definition ccd_file (cn : string) : loc := LAbs (openvpnRoot +:+ "/ccd/" +:+ cn).

(** The user is disabled and disconnected before anything is destroyed. *)
Definition disable_and_remove (cn : string) : M (bool * option goerr) :=
  or_return true (SetDisabled usersDir cn true) (fun _ =>
  drop_sessions cn ;;
  or_return true (RemoveClientMaterial cn) (fun _ =>
  or_return true (remove_if_exists (ccd_file cn)) (fun _ =>
  or_return true (DeleteUser false false cn) (fun _ =>
  InvalidateNameCache ;; mret (true, None))))).

Definition deleteUserLocked (cn : string) : M (bool * option goerr) :=
  match SafeCN cn with
  | None => mret (false, Some (Errorf "invalid common name"))
  | Some safe =>
      probed <- probe_material [IssuedCertPath cn; LUser safe "cert.pem"; LUser safe "client.ovpn"] ;;
      match probed with
      | inl e =>
          or_return true (SetDisabled usersDir cn true) (fun _ => drop_sessions cn ;; mret (true, Some e))
      | inr true => disable_and_remove cn
      | inr false =>
          or_return false (ReadUserState usersDir cn) (fun state =>
          if u_disabled state then disable_and_remove cn
          else or_return false (DeleteUser false false cn) (fun _ => mret (false, None)))
      end
  end.

(** Deleting a user whose generation has changed finds nothing. *)
Definition deleted (r : goerr + (bool * option goerr)) : bool * option goerr :=
  match r with
  | inr answer => answer
  | inl e => if generation_changed e then (false, None) else (false, Some e)
  end.

Definition DeleteUser (wt : waiting) (cn : string) : M (bool * option goerr) :=
  r <- try_err (withUserLifecycle wt cn (deleteUserLocked cn)) ;; mret (deleted r).

(** ** Policy and profile *)

Definition applyUserPolicyLocked (cn name : string) (maxLogins : Z) (disabled : bool) : M unit :=
  WriteUserPolicy usersDir cn (if str_empty name then None else Some name)
    (if (0 <=? maxLogins)%Z then Some maxLogins else None) (Some disabled) ;;
  InvalidateNameCache ;;
  if disabled then drop_sessions cn else mret tt.

Definition ApplyUserPolicy (wt : waiting) (cn name : string) (maxLogins : Z) (disabled : bool) : M unit :=
  withUserLifecycle wt cn (applyUserPolicyLocked cn name maxLogins disabled).

Definition SetUserStatus (wt : waiting) (cn st : string) : M unit :=
  if String.eqb st "deactivate" then ApplyUserPolicy wt cn "" (-1) true
  else if String.eqb st "activate" then ApplyUserPolicy wt cn "" (-1) false
  else throw (Errorf ("unknown status " +:+ st)).

Definition SetUserLimit (wt : waiting) (ident : string) (maxLogins : Z) : M unit :=
  known <- UserExists ident ;;
  cn <- (if known : bool then mret ident
         else resolved <- CNForName usersDir order ident ;;
              mret (if str_empty resolved then ident else resolved)) ;;
  withUserLifecycle wt cn
    (WriteUserState usersDir cn (if (0 <=? maxLogins)%Z then Some maxLogins else None) None).

Definition BuildUserProfile (wt : waiting) (cn : string) : M loc :=
  withUserLifecycle wt cn (buildUserProfileLocked cn).

(** The cached profile; a user without one is created or repaired first. *)
Definition ReadUserProfile (wt : waiting) (cn : string) : M string :=
  withUserLifecycle wt cn (
    match SafeCN cn with
    | None => throw (Errorf "invalid common name")
    | Some safe =>
        r <- try (lstat_file (LUser safe "client.ovpn")) ;;
        match r with
        | inl e => if IsNotExist e then createUserLocked cn "" (-1) None else throw e
        | inr _ => mret tt
        end ;;
        read_file (LUser safe "client.ovpn")
    end).
End users.
