(* ===== verification/UsersProps.v ===== *)
(** * UsersProps: what the lifecycle of a user promises.

    A deletion never leaves access behind, and nothing is done to a user
    whose folder was replaced while the lock was waited for. *)

From S2P Require Import Prelude GoString Json Names Cache World Evolve Time PkiIndex NetIP Pki PkiDemo PkiProps UserPolicy Status Mgmt Hooks Usage Disconnect Users.
From Stdlib Require Import Ascii.

#[local] Set Default Proof Using "Type*".

(** ** A policy that was written *)

Lemma read_optional_reads l : evolves eq (read_optional l).
Proof. unfold read_optional, readPolicyFile. evolve_solve. Qed.

Lemma read_optional_inr l w o : (read_optional l w).1 = inr o -> w_files w !! l = o.
Proof.
  unfold read_optional, readPolicyFile. rewrite bind_run, try_run. pose proof (read_file_state w l) as Hs.
  destruct (read_file l w) as [r w1] eqn:Hr. simpl in Hs. subst w1. apply read_file_inv in Hr. cbn [fst snd].
  destruct r as [e|d]; simpl; [|by intros [= <-]]. destruct (IsNotExist e); [|done]. intros [= <-]. by apply Hr.
Qed.

(** What the reader accepts is what is on the disk, whichever reads fail. *)
Lemma read_user_inr usersDir cn safe w st :
  SafeCN cn = Some safe -> (ReadUserState usersDir cn w).1 = inr st -> policy_of usersDir safe w = inr st.
Proof.
  intros Hcn. unfold ReadUserState, policy_of. rewrite Hcn, bind_run, try_run. unfold read_user_dir.
  destruct (w_fault w _); [done|]. case_bool_decide; cbn [fst snd]; [|by intros [= <-]].
  rewrite reads_bind by apply read_optional_reads. destruct ((read_optional (LUser safe "state") w).1) as [e|m] eqn:Hm; [done|].
  apply read_optional_inr in Hm. rewrite Hm. cbv zeta. destruct (match m with Some _ => _ | None => _ end) as [e|a]; [done|].
  assert (forall u, ((if u_limit_set u then mret u
     else l <- read_optional (LUser safe "limit") ;;
          match l with
          | None => mret u
          | Some raw => match parse_legacy_limit (usersDir +:+ "/" +:+ safe) raw with
                        | inl e => throw e
                        | inr n => mret (mkUser n true (u_disabled u) (u_name u) (u_name_set u))
                        end
          end) w).1 = inr st ->
    (if u_limit_set u then inr u
     else match w_files w !! LUser safe "limit" with
          | None => inr u
          | Some raw => match parse_legacy_limit (usersDir +:+ "/" +:+ safe) raw with
                        | inl e => inl e
                        | inr n => inr (mkUser n true (u_disabled u) (u_name u) (u_name_set u))
                        end
          end) = @inr goerr _ st) as Hlim.
  { intros u. destruct (u_limit_set u); [by intros [= <-]|]. rewrite reads_bind by apply read_optional_reads.
    destruct ((read_optional (LUser safe "limit") w).1) as [e|l] eqn:Hl; [done|]. apply read_optional_inr in Hl. rewrite Hl.
    destruct l as [raw|]; [|by intros [= <-]]. destruct (parse_legacy_limit _ raw); [done|]. by intros [= <-]. }
  destruct (pa_disabled_set a); [apply Hlim|].
  rewrite bind_run. rewrite reads_bind by apply read_optional_reads.
  destruct ((read_optional (LUser safe "disabled") w).1) as [e|d] eqn:Hd; [done|]. apply read_optional_inr in Hd.
  rewrite Hd. apply Hlim.
Qed.

(** The user is disabled on the disk. *)
Definition is_off (usersDir safe : string) (w : World) : Prop :=
  exists st, policy_of usersDir safe w = inr st /\ u_disabled st = true.

Definition policy_names : list string := ["state"; ".state.lock"; "limit"; "disabled"; "name"].

(** The files of the policy of a user. *)
Definition policy_loc (safe : string) (l : loc) : Prop := exists f, l = LUser safe f /\ f ∈ policy_names.

Lemma policy_locs safe f : f ∈ policy_names -> policy_loc safe (LUser safe f).
Proof. by exists f. Qed.

#[export] Hint Extern 1 (policy_loc _ _) => (apply policy_locs; unfold policy_names; set_solver) : evolve.

Lemma ReadUserState_reads usersDir cn : evolves eq (ReadUserState usersDir cn).
Proof. intros w. by rewrite ReadUserState_state. Qed.

Lemma WriteUserPolicy_frames usersDir cn safe name limit disabled :
  SafeCN cn = Some safe -> evolves (frames (policy_loc safe)) (WriteUserPolicy usersDir cn name limit disabled).
Proof.
  intros Hcn. unfold WriteUserPolicy, UserPolicy.CreateUser, legacy_name. rewrite Hcn.
  repeat first [apply (evolves_weaken eq), read_optional_reads; by intros w ? <- |
    apply (evolves_weaken eq), ReadUserState_reads; by intros w ? <- | evolve_rule]; eauto with evolve.
Qed.

Lemma legacy_name_inr safe cur w st : (legacy_name safe cur w).1 = inr st -> wf_user cur -> wf_user st.
Proof.
  unfold legacy_name. destruct (u_name_set cur) eqn:Hs; [by intros [= <-]|].
  rewrite reads_bind by apply read_optional_reads. destruct ((read_optional _ w).1) as [e|d]; [done|].
  destruct d as [data|]; [|by intros [= <-]]. cbv zeta. destruct (validateName _) eqn:Hv; [|done].
  intros [= <-] [H1 H2 H3 H4]. split; simpl; [done|done|done|by intros].
Qed.

(** A write that succeeded took effect, whatever fails later. *)
Lemma SetDisabled_off usersDir cn safe w w' :
  SafeCN cn = Some safe -> SetDisabled usersDir cn true w = (inr tt, w') ->
  is_off usersDir safe w' /\ frames (policy_loc safe) w w'.
Proof.
  intros Hcn Hrun. split; [|pose proof (WriteUserPolicy_frames usersDir cn safe None None (Some true) Hcn w) as HF;
    unfold SetDisabled, WriteUserState in Hrun; by rewrite Hrun in HF].
  unfold SetDisabled, WriteUserState, WriteUserPolicy in Hrun. rewrite Hcn in Hrun.
  apply bind_inr in Hrun as ([] & w0 & _ & ([] & w1 & _ & Hrun%Lock_inr)%bind_inr).
  set (w2 := set_files _ w1) in Hrun. apply bind_inr in Hrun as (cur & w3 & Hcur & Hrun).
  pose proof (ReadUserState_state usersDir cn w2) as H3. rewrite Hcur in H3. simpl in H3. subst w3.
  apply (f_equal fst), (read_user_inr _ _ safe) in Hcur; [|done]. apply policy_of_wf in Hcur.
  apply bind_inr in Hrun as (st & w3 & Hst & Hrun). apply (f_equal fst) in Hst. apply legacy_name_inr in Hst; [|done].
  cbv zeta in Hrun. apply bind_inr in Hrun as ([] & w4 & Hw & ([] & w5 & Hsync & ([] & w6 & [= <-] & Hrm)%bind_inr)%bind_inr).
  apply WriteFileAtomic_inr in Hw as ->. unfold sync_user_dir in Hsync.
  destruct (w_fault _ (OpSync safe)); [done|]. cbn [set_files w_user_dirs] in Hsync. case_bool_decide as Hd; [|done].
  injection Hsync as <-.
  assert (w_files w' !! LUser safe "limit" = None) as Hlim.
  { change (for_each (fun legacy => remove_if_exists (LUser safe legacy)) ["limit"; "disabled"; "name"])
      with (for_each remove_if_exists (map (LUser safe) ["limit"; "disabled"; "name"])) in Hrm.
    eapply remove_all_done; [exact Hrm|]. apply list_elem_of_fmap. exists "limit". split; [done|left]. }
  assert (stays (fun l => exists f, l = LUser safe f /\ f ∈ ["limit"; "disabled"; "name"])
    (set_name_cache (cache_invalidate (w_name_cache w3))
      (set_files (<[LUser safe "state":=policy_body st None None (Some true)]> (w_files w3)) w3)) w') as [[_ HF] HD].
  { match type of Hrm with for_each ?g ?fs ?v = _ => enough (stays (fun l => exists f, l = LUser safe f /\ f ∈ ["limit"; "disabled"; "name"]) v (for_each g fs v).2) as HS by by rewrite Hrm in HS end.
    apply evolves_for_each; [apply _|]. intros f Hf. apply stays_remove_if. eauto. }
  cbn [set_name_cache set_files w_user_dirs] in HD. exists (merged_user st None None (Some true)). split; [|done].
  apply policy_of_written; [done|done|by rewrite HD| |done].
  rewrite HF by (intros (f & [= <-] & Hf); set_solver). cbn [set_name_cache set_files w_files]. apply lookup_insert_eq.
Qed.

(** ** Dropping sessions only reads *)

Lemma SendCommands_reads sv host port pass cmds : evolves eq (SendCommands sv host port pass cmds).
Proof. unfold SendCommands, authenticate, dialManagement, readPassword. evolve_solve. Qed.

Lemma DisconnectUser_reads status mc running cn : evolves eq (DisconnectUser status mc running cn false).
Proof.
  unfold DisconnectUser, ParseSessions, open_status, killSessions.
  repeat first [apply SendCommands_reads | evolve_rule].
Qed.

Lemma drop_sessions_reads status mc running cn : evolves eq (drop_sessions status mc running cn).
Proof. unfold drop_sessions. repeat first [apply DisconnectUser_reads | evolve_rule]. Qed.

(** ** The authority does not touch the users *)

Definition not_user (l : loc) : Prop := match l with LUser _ _ => False | _ => True end.
#[export] Hint Extern 0 (not_user _) => exact I : evolve.

Lemma is_off_stays usersDir safe w w' : stays not_user w w' -> is_off usersDir safe w -> is_off usersDir safe w'.
Proof.
  intros [[_ F] D] (st & Hp & Ho). exists st. split; [|done]. rewrite <- Hp. apply policy_of_ext; [by rewrite D|].
  intros f _. apply F. by intros [].
Qed.

Section pki.
Context `{Crypto}.

Lemma GenerateCRL_stays : evolves (stays not_user) GenerateCRL.
Proof.
  unfold GenerateCRL, loadCASigner, readIndex, previousCRL, readCRL, crl_number. evolve_solve.
Qed.

Lemma RemoveClientMaterial_stays cn : evolves (stays not_user) (RemoveClientMaterial cn).
Proof.
  unfold RemoveClientMaterial. destruct (SafeCN cn); [|evolve_solve]. apply stays_lock; [done|].
  apply evolves_bind; [apply _| |intros _].
  - unfold revokeCertByCN, loadCASigner, readIndex, check_material, writeIndex, readCRL.
    repeat first [apply GenerateCRL_stays | evolve_rule].
  - apply evolves_for_each; [apply _|]. intros l Hl. apply stays_remove_if.
    set_unfold. destruct_or!; subst; exact I.
Qed.
End pki.

(** ** Deleting *)

Lemma or_return_run {A} found (m : M A) k w :
  or_return found m k w = match (m w).1 with inl e => (inr (found, Some e), (m w).2) | inr a => k a (m w).2 end.
Proof. unfold or_return. rewrite bind_run, try_run. by destruct ((m w).1). Qed.

Lemma remove_user_dir_after cn w w' :
  SafeCN cn = Some cn -> (UserPolicy.DeleteUser false false cn w).1 = inr tt -> w' = (UserPolicy.DeleteUser false false cn w).2 ->
  (cn ∉ w_user_dirs w') /\ (forall f, w_files w' !! LUser cn f = None) /\
  forall l, user_of l <> Some cn -> w_files w' !! l = w_files w !! l.
Proof.
  intros Hcn. unfold UserPolicy.DeleteUser. rewrite Hcn, bind_run. unfold remove_user_dir.
  destruct (w_fault w _); [done|]. intros _ ->. cbn -[filter difference union singleton]. split; [set_solver|]. split.
  - intros f. apply map_lookup_filter_None. right. intros d _ Hn. by apply Hn.
  - intros l Hl. change (filter (fun kv => user_of kv.1 <> Some cn) (w_files w) !! l = w_files w !! l).
    rewrite map_lookup_filter. destruct (w_files w !! l); simpl; [|done]. by rewrite option_guard_True.
Qed.

Lemma remove_user_dir_failed cn w e :
  (UserPolicy.DeleteUser false false cn w).1 = inl e -> (UserPolicy.DeleteUser false false cn w).2 = w.
Proof.
  unfold UserPolicy.DeleteUser. destruct (SafeCN cn); [|done]. rewrite bind_run. unfold remove_user_dir.
  by destruct (w_fault w _).
Qed.

Lemma SetDisabled_faults usersDir cn off : keeps_faults (SetDisabled usersDir cn off).
Proof.
  unfold SetDisabled, WriteUserState, WriteUserPolicy, UserPolicy.CreateUser, ReadUserState, legacy_name, read_optional,
    readPolicyFile. fault_solve.
Qed.

Lemma probe_material_reads paths : evolves eq (probe_material paths).
Proof. induction paths as [|p paths IH]; cbn [probe_material]; unfold materialExists; evolve_solve; apply IH. Qed.

Lemma present_file_inr l w b : (present_file l w).1 = inr b -> w_files w !! l = None \/ b = true.
Proof.
  unfold present_file, lstat_file. rewrite bind_run, try_run. destruct (w_fault w _); [done|].
  case_bool_decide as H; cbn; [intros [= <-]; by right|]. intros _. left. by apply eq_None_not_Some.
Qed.

Lemma probe_material_none paths w :
  (probe_material paths w).1 = inr (inr false) -> forall l, l ∈ paths -> w_files w !! l = None.
Proof.
  induction paths as [|p paths IH]; cbn [probe_material]; intros Hp l Hl; [by apply elem_of_nil in Hl|].
  rewrite reads_bind in Hp by (unfold materialExists; evolve_solve). rewrite try_run in Hp. cbn [fst snd] in Hp.
  destruct ((materialExists p w).1) as [e|b] eqn:Hm; [done|]. apply present_file_inr in Hm.
  rewrite reads_bind in Hp by apply probe_material_reads. destruct ((probe_material paths w).1) as [e|rest] eqn:Hr; [done|].
  destruct rest as [e|b']; [done|]. cbn in Hp. injection Hp as Hb. apply orb_false_iff in Hb as [-> ->].
  apply elem_of_cons in Hl as [->|Hl]; [by destruct Hm|by apply IH].
Qed.

Section delete.
Context `{CryptoSpec}.
Variables (usersDir openvpnRoot : string) (status : loc) (mc : mgmt_cfg) (running : bool).

(** Nothing the user could connect with is left: no folder, no material, and
    every certificate issued for the name is revoked in the list OpenVPN
    reads. *)
Definition access_gone (cn : string) (w w' : World) : Prop :=
  (cn ∉ w_user_dirs w') /\ (forall f, w_files w' !! LUser cn f = None) /\
  (forall l, l ∈ material cn -> w_files w' !! l = None) /\ w_files w' !! ccd_file openvpnRoot cn = None /\
  exists ca rows l, (loadCASigner w).1 = inr ca /\ index_rows w' = Some rows /\ crl_at w' = Some l /\
    crl_signed l ca.1 = None /\ (exists r, r ∈ rows /\ indexHasCN cn r = true) /\
    forall r, r ∈ rows -> indexHasCN cn r = true -> r_status r = "R" /\ Z.of_N (serial_of r) ∈ crl_serials l.

(** A deletion that stopped: the user is disabled, or nothing but its policy
    was touched. *)
Definition kept_out (cn : string) (w w' : World) : Prop := is_off usersDir cn w' \/ frames (policy_loc cn) w w'.

Lemma loadCASigner_policy cn w w' :
  w_fault w' = w_fault w -> frames (policy_loc cn) w w' -> (loadCASigner w').1 = (loadCASigner w).1.
Proof. intros Hf [_ F]. apply loadCASigner_ext; [done|apply F; by intros (? & ? & _)..]. Qed.

(** The state after a verified revocation and the removals. *)
Lemma access_gone_after cn w w1 w2 w3 w4 :
  century (w_now w) -> w_fault w1 = w_fault w -> frames (policy_loc cn) w w1 ->
  RemoveClientMaterial cn w1 = (inr tt, w2) -> remove_if_exists (ccd_file openvpnRoot cn) w2 = (inr tt, w3) ->
  (cn ∉ w_user_dirs w4) -> (forall f, w_files w4 !! LUser cn f = None) ->
  (forall l, user_of l <> Some cn -> w_files w4 !! l = w_files w3 !! l) -> access_gone cn w w4.
Proof.
  intros Hc Hflt HF Hrm Hccd Hd Hf Hrest. pose proof HF as [[Hnow _] _].
  apply RemoveClientMaterial_done in Hrm as ((ca & rows & Hca & _ & Hi & l & Hl & Hs & Hcov & r0 & Hin & Hcn) & Hgone);
    [|by rewrite Hnow].
  pose proof (stays_remove_if (eq (ccd_file openvpnRoot cn)) _ eq_refl w2) as [[_ F3] _]. rewrite Hccd in F3. cbn [snd] in F3.
  assert (forall l, l <> ccd_file openvpnRoot cn -> user_of l <> Some cn -> w_files w4 !! l = w_files w2 !! l) as F24.
  { intros l' Hl1 Hl2. rewrite Hrest by done. apply F3. by intros <-. }
  split; [done|]. split; [done|]. split; [|split].
  - intros l' Hl'. rewrite F24; [by apply Hgone|..]; unfold material in Hl'; set_unfold; by destruct_or!; subst.
  - rewrite Hrest by done. by eapply remove_if_done.
  - exists ca, (revoke_rows (w_now w1) (to_revoke cn) rows), l.
    rewrite <- (loadCASigner_policy cn w w1) by done. split; [done|].
    split; [by rewrite (index_rows_same w2) by by apply F24|].
    split; [unfold crl_at in *; by rewrite F24|]. split; [done|]. split.
    + exists (if to_revoke cn r0 then revoke_row (w_now w1) r0 else r0).
      split; [apply list_elem_of_fmap; by exists r0|by destruct (to_revoke cn r0)].
    + intros r Hr Hrcn. destruct (revoked_row_of _ _ _ _ Hr Hrcn) as (Hst & r1 & Hin1 & Hcn1 & Hser).
      split; [done|]. rewrite <- Hser. by apply Hcov.
Qed.

(** The destructive steps, after the user was disabled. *)
Lemma disable_and_remove_outcome cn w r w' :
  SafeCN cn = Some cn -> century (w_now w) ->
  disable_and_remove usersDir openvpnRoot status mc running cn w = (r, w') ->
  match r with
  | inr (true, None) => access_gone cn w w'
  | inr (false, _) => False
  | _ => kept_out cn w w'
  end.
Proof.
  intros Hcn Hc. unfold disable_and_remove. rewrite or_return_run.
  destruct (SetDisabled usersDir cn true w) as [[e|[]] w1] eqn:Hset; cbn [fst snd].
  { intros [= <- <-]. right. pose proof (WriteUserPolicy_frames usersDir cn cn None None (Some true) Hcn w) as HF.
    unfold SetDisabled, WriteUserState in Hset. by rewrite Hset in HF. }
  pose proof (SetDisabled_faults usersDir cn true w) as Hflt. rewrite Hset in Hflt. simpl in Hflt.
  apply (SetDisabled_off _ _ cn) in Hset as [Hoff HF]; [|done].
  rewrite reads_bind by apply drop_sessions_reads.
  destruct ((drop_sessions status mc running cn w1).1) as [e|[]]; [intros [= <- <-]; by left|].
  rewrite or_return_run. pose proof (RemoveClientMaterial_stays cn w1) as S2.
  destruct (RemoveClientMaterial cn w1) as [r2 w2] eqn:Hrm. cbn [fst snd] in *.
  pose proof (is_off_stays _ _ _ _ S2 Hoff) as Hoff2. destruct r2 as [e|[]]; [intros [= <- <-]; by left|].
  rewrite or_return_run. pose proof (stays_remove_if (eq (ccd_file openvpnRoot cn)) _ eq_refl w2) as S3.
  destruct (remove_if_exists (ccd_file openvpnRoot cn) w2) as [r3 w3] eqn:Hccd. cbn [fst snd] in *.
  assert (is_off usersDir cn w3) as Hoff3 by (eapply is_off_stays; [|exact Hoff2];
    destruct S3 as [[N3 F3] D3]; split; [split; [done|intros l Hl; apply F3; by intros <-]|done]).
  destruct r3 as [e|[]]; [intros [= <- <-]; by left|]. rewrite or_return_run.
  destruct ((UserPolicy.DeleteUser false false cn w3).1) as [e|[]] eqn:Hdel.
  { rewrite (remove_user_dir_failed _ _ _ Hdel). intros [= <- <-]. by left. }
  destruct (remove_user_dir_after cn w3 _ Hcn Hdel eq_refl) as (G1 & G2 & G3).
  intros [= <- <-]. eapply access_gone_after; eauto.
Qed.

End delete.

(** ** A user that was replaced *)

Section replaced.
Context `{Crypto}.
Variables (usersDir openvpnRoot : string) (status : loc) (mc : mgmt_cfg) (running : bool).

Lemma open_generation_reads safe cn : evolves eq (open_generation safe cn).
Proof. unfold open_generation. evolve_solve. Qed.

(** A deletion that waited for the lock of a user while the user was
    deleted, or deleted and created again, finds nothing and does nothing:
    the node is left as the others left it. *)
Theorem replaced_user_is_untouched wt cn safe g w :
  faultless w -> (forall v, w_fault (meanwhile wt v) = w_fault v) -> SafeCN cn = Some safe ->
  (open_generation safe cn w).1 = inr (Some g) ->
  (forall v, same_file wt = false \/
     match g with
     | GenFolder => safe ∉ w_user_dirs (meanwhile wt v)
     | GenCert => w_files (meanwhile wt v) !! IssuedCertPath cn = None
     end) ->
  exists w1, frames (eq (LifecycleLock cn)) w w1 /\
    Users.DeleteUser usersDir openvpnRoot status mc running wt cn w = (inr (false, None), meanwhile wt w1).
Proof.
  intros Hf Hm Hcn Hg Hgone.
  set (w0 := set_user_dirs true (w_user_dirs w) w).
  set (w1 := set_files (lock_files (LifecycleLock cn) (w_files w0)) w0). exists w1.
  split; [split; [done|]; intros l Hl; by apply lock_files_ne; intros ->|].
  unfold Users.DeleteUser, withUserLifecycle. rewrite Hcn, bind_run. unfold try_err.
  rewrite reads_bind by apply open_generation_reads. rewrite Hg.
  unfold SetPermissions, mkdir_users. rewrite !bind_run. rewrite (Hf _), bind_run, (Hf _), bind_run.
  cbn [set_user_dirs w_fault]. rewrite (Hf _), Lock_ok by (apply Hf || done). fold w0. fold w1.
  rewrite bind_run. cbn [modify]. rewrite bind_run. unfold same_generation. rewrite bind_run, try_run.
  assert (forall op, w_fault (meanwhile wt w1) op = false) as Hf1 by (intros op; rewrite Hm; apply Hf).
  destruct (Hgone w1) as [Hs|Hno].
  - destruct g; unfold lstat_user_dir, lstat_file; rewrite Hf1; case_bool_decide; cbn; rewrite ?Hs; done.
  - destruct g; unfold lstat_user_dir, lstat_file; rewrite Hf1; rewrite bool_decide_eq_false_2; cbn; rewrite ?Hno;
      done || by intros [].
Qed.
End replaced.

(** ** The certificate in a profile *)

Lemma contains_nil sub : sub <> "" -> contains "" sub = false.
Proof. by destruct sub. Qed.

(** A separator is not across a byte it does not have. *)
Lemma contains_break c a b sub :
  sub <> "" -> no_char c sub = true -> contains a sub = false -> contains b sub = false -> contains (a +:+ String c b) sub = false.
Proof.
  intros Hne Hc Ha Hb. induction a as [|d a IH].
  - rewrite app_nil_l_s. cbn [contains]. rewrite Hb, orb_false_r.
    destruct (has_prefix (String c b) sub) eqn:Hp; [|done].
    apply (has_prefix_before c sub "" b) in Hp; [by destruct sub|done].
  - rewrite app_cons_s. cbn [contains] in Ha |- *. boolify. rewrite IH by done. rewrite orb_false_r.
    destruct (has_prefix (String d (a +:+ String c b)) sub) eqn:Hp; [|done].
    rewrite <- app_cons_s in Hp. apply has_prefix_before in Hp; [congruence|done].
Qed.

(** The first occurrence of a separator whose first byte does not come back. *)
Lemma cut_at_first c p a b :
  no_char c p = true -> contains a (String c p) = false -> cut_at (String c p) (a +:+ String c p +:+ b) = Some (a, b).
Proof.
  intros Hp. induction a as [|d a IH]; intros Ha.
  - rewrite app_nil_l_s. rewrite app_cons_s. cbn [cut_at]. rewrite <- app_cons_s, has_prefix_app.
    by rewrite str_drop_app.
  - cbn [contains] in Ha. boolify. rewrite app_cons_s. cbn [cut_at].
    destruct (has_prefix (String d (a +:+ String c p +:+ b)) (String c p)) eqn:Hx.
    + exfalso. rewrite has_prefix_cons in Hx. apply andb_true_iff in Hx as [Hd Hx]. rewrite app_cons_s in Hx.
      apply has_prefix_before in Hx; [|done]. rewrite has_prefix_cons, Hd, Hx in H. done.
    + by rewrite IH.
Qed.

(** What the revocation finds in a cached profile. *)
Definition embedded (text : string) : option string :=
  match cut_at "<cert>" text with
  | Some (_, body) => fst <$> cut_at "</cert>" body
  | None => None
  end.

Section profile.
Context `{Crypto}.

Lemma profile_block_clean tag text sep :
  sep <> "" -> no_char nl sep = true -> contains text sep = false ->
  contains ("<" +:+ tag +:+ ">") sep = false -> contains ("</" +:+ tag +:+ ">") sep = false ->
  forall a, contains a sep = false -> contains (a +:+ profile_block tag text) sep = false.
Proof.
  intros Hne Hnl Ht Ho Hc a Ha. unfold profile_block. destruct (str_empty text); [by rewrite app_nil_r_s|].
  apply contains_break; [done|done|done|].
  replace ("<" +:+ tag +:+ ">" +:+ String nl (text +:+ String nl ("</" +:+ tag +:+ ">" +:+ str1 nl)))
    with (("<" +:+ tag +:+ ">") +:+ String nl (text +:+ String nl (("</" +:+ tag +:+ ">") +:+ str1 nl)))
    by by rewrite !app_assoc_s.
  do 3 (apply contains_break; [done|done|done|]). by apply contains_nil.
Qed.

Lemma embedded_render raw p :
  contains (template_body raw) "<cert>" = false -> contains (cleaned (p_ca p)) "<cert>" = false ->
  contains (cleaned (p_cert p)) "</cert>" = false -> str_empty (cleaned (p_cert p)) = false ->
  embedded (render_profile raw p) = Some (String nl (cleaned (p_cert p) +:+ str1 nl)).
Proof.
  intros Hb Hca Hcert Hne. unfold embedded, render_profile.
  set (rest := profile_block "key" (cleaned (p_key p)) +:+ profile_block "tls-crypt" (p_tls p)).
  assert (profile_block "cert" (cleaned (p_cert p)) =
    String nl ("<cert>" +:+ (String nl (cleaned (p_cert p)) +:+ str1 nl) +:+ "</cert>" +:+ str1 nl)) as ->
    by (unfold profile_block; rewrite Hne; by rewrite !app_assoc_s).
  set (body := (String nl (cleaned (p_cert p)) +:+ str1 nl) +:+ "</cert>" +:+ str1 nl).
  replace (template_body raw +:+ profile_block "ca" (cleaned (p_ca p)) +:+ String nl ("<cert>" +:+ body) +:+ rest)
    with (((template_body raw +:+ profile_block "ca" (cleaned (p_ca p))) +:+ str1 nl) +:+ "<cert>" +:+ body +:+ rest)
    by (by rewrite !app_assoc_s).
  rewrite cut_at_first; [|done|].
  - subst body. replace (((String nl (cleaned (p_cert p)) +:+ str1 nl) +:+ "</cert>" +:+ str1 nl) +:+ rest)
      with ((String nl (cleaned (p_cert p)) +:+ str1 nl) +:+ "</cert>" +:+ (str1 nl +:+ rest)) by (by rewrite !app_assoc_s).
    rewrite cut_at_first; [done|done|]. rewrite app_cons_s. apply (contains_break nl ""); [done|done|done|].
    by apply contains_break.
  - apply contains_break; [done|done| |done]. by apply profile_block_clean.
Qed.

Lemma readFirstFile_reads paths : evolves eq (readFirstFile paths).
Proof. induction paths as [|p paths IH]; cbn [readFirstFile]; evolve_solve; apply IH. Qed.

Lemma ReadTLSCryptKey_reads : evolves eq ReadTLSCryptKey.
Proof. unfold ReadTLSCryptKey. evolve_solve. Qed.

(** A profile that is written carries the certificate it was built from:
    the pushed one when there is one, the issued one otherwise; and the
    revocation, which looks for the certificate in the cached profile, finds
    exactly it, unless the client template or the CA holds a line that looks
    like the start of a certificate block. *)
Theorem profile_carries_certificate cn safe w l w' :
  SafeCN cn = Some safe -> buildUserProfileLocked cn w = (inr l, w') ->
  l = LUser safe "client.ovpn" /\ exists raw cert key ca tls,
    w_files w !! ClientTemplate = Some raw /\
    (readFirstFile [LUser safe "cert.pem"; IssuedCertPath cn] w).1 = inr cert /\
    (readFirstFile [LUser safe "ca.pem"; CACert] w).1 = inr ca /\
    w_files w' !! l = Some (render_profile raw (mkParts cert key ca tls)) /\
    (contains (template_body raw) "<cert>" = false -> contains (cleaned ca) "<cert>" = false ->
     contains (cleaned cert) "</cert>" = false -> str_empty (cleaned cert) = false ->
     embedded (render_profile raw (mkParts cert key ca tls)) = Some (String nl (cleaned cert +:+ str1 nl))).
Proof.
  intros Hcn. unfold buildUserProfileLocked. rewrite Hcn. rewrite reads_bind by apply readFirstFile_reads.
  destruct ((readFirstFile [LUser safe "cert.pem"; IssuedCertPath cn] w).1) as [e|cert]; [done|].
  rewrite reads_bind by apply readFirstFile_reads. destruct ((readFirstFile _ w).1) as [e|key]; [done|].
  destruct (_ || _); [done|]. rewrite reads_bind by apply readFirstFile_reads.
  destruct ((readFirstFile [LUser safe "ca.pem"; CACert] w).1) as [e|ca]; [done|].
  rewrite reads_bind by apply ReadTLSCryptKey_reads. destruct ((ReadTLSCryptKey w).1) as [e|tls]; [done|].
  unfold BuildTemplate. intros (text & w1 & Htext & ([] & w2 & _ & ([] & w3 & Hw & [= <- <-])%bind_inr)%bind_inr)%bind_inr.
  split; [done|]. rewrite reads_bind in Htext by (apply evolves_reads; apply _).
  destruct (read_file ClientTemplate w) as [[e|raw] w0] eqn:Hr; [done|]. pose proof (read_file_state w ClientTemplate) as Hs.
  rewrite Hr in Hs. simpl in Hs. subst w0. apply read_file_inv in Hr. injection Htext as <- <-.
  apply WriteFileAtomic_inr in Hw as ->. exists raw, cert, key, ca, tls. repeat (split; [done|]).
  split; [apply lookup_insert_eq|]. intros. by apply embedded_render.
Qed.

(** ** Pushed credentials *)

(** What [ValidateClientCert] accepts. *)
Definition credentials_ok (now : Z) (cn certPEM keyPEM caPEM : string) : Prop :=
  exists c, parseCert now certPEM = inr c /\ c_cn c = cn /\ (c_from c <= now <= c_until c)%Z /\
    (exists pair, X509KeyPair certPEM keyPEM = inr pair) /\
    (str_empty caPEM = false -> exists ca, ValidateCA now caPEM = inr ca /\ CheckSignatureFrom c ca = None).

Lemma parseCert_dates now s c : parseCert now s = inr c -> (c_from c <= now <= c_until c)%Z.
Proof.
  unfold parseCert. intros Hp. crush_hyp Hp. boolify. lia.
Qed.

Lemma ValidateClientCert_ok now cn certPEM keyPEM caPEM :
  ValidateClientCert now cn certPEM keyPEM caPEM = None -> credentials_ok now cn certPEM keyPEM caPEM.
Proof.
  unfold ValidateClientCert, check_pair, check_chain. destruct (existsb _ _); [done|].
  destruct (parseCert now certPEM) as [e|c] eqn:Hc; [done|]. destruct (ensureSinglePEM keyPEM); [done|].
  destruct (String.eqb_spec (c_cn c) cn) as [Hcn|]; [|done]. simpl. destruct (X509KeyPair certPEM keyPEM) as [e|pair] eqn:Hp; [done|].
  intros Hrest. exists c. split; [done|]. split; [done|]. split; [by eapply parseCert_dates|]. split; [by exists pair|].
  intros He. rewrite He in Hrest. destruct (ValidateCA now caPEM) as [|ca]; [done|]. exists ca. split; [done|].
  by destruct (CheckSignatureFrom c ca).
Qed.

Definition in_folder (safe : string) (l : loc) : Prop := user_of l = Some safe.

Lemma policy_in_folder safe w w' : frames (policy_loc safe) w w' -> frames (in_folder safe) w w'.
Proof. intros [N F]. split; [done|]. intros l Hl. apply F. intros (f & -> & _). by apply Hl. Qed.

Lemma buildUserProfileLocked_frames cn safe :
  SafeCN cn = Some safe -> evolves (frames (eq (LUser safe "client.ovpn"))) (buildUserProfileLocked cn).
Proof.
  intros Hcn. unfold buildUserProfileLocked, BuildTemplate. rewrite Hcn.
  assert (forall A (m : M A), evolves eq m -> evolves (frames (eq (LUser safe "client.ovpn"))) m) as Heq
    by (intros A m; apply evolves_weaken; by intros w ? <-).
  repeat first [apply Heq, readFirstFile_reads | apply Heq, ReadTLSCryptKey_reads | evolve_rule].
Qed.

Lemma mirror_ca_frames safe ca : evolves (frames (eq (LUser safe "ca.pem"))) (mirror_ca safe ca).
Proof. unfold mirror_ca. evolve_solve. Qed.

(** C36: the credentials the panel pushes are stored only when they are what
    they should be: a certificate for this very name, valid today, with the
    key that belongs to it and, when a CA came along, signed by that CA.
    Otherwise nothing changes.  Nothing is ever written outside the user's
    folder, and once the push succeeded the folder holds the pushed
    certificate and key. *)
Theorem pushed_credentials_are_checked usersDir cn safe certPEM keyPEM caPEM limit disabled w r w' :
  SafeCN cn = Some safe ->
  createUserWithCredentialsLocked usersDir cn certPEM keyPEM caPEM limit disabled w = (r, w') ->
  (w' = w /\ exists e, r = inl e) \/
  (credentials_ok (w_now w) cn certPEM keyPEM caPEM /\ frames (in_folder safe) w w' /\
   (r = inr tt ->
      w_files w' !! LUser safe "cert.pem" = Some (ensureTrailingNewline (cleaned certPEM)) /\
      w_files w' !! LUser safe "key.pem" = Some (ensureTrailingNewline (cleaned keyPEM)))).
Proof.
  intros Hcn. unfold createUserWithCredentialsLocked. destruct (_ || _); [intros [= <- <-]; left; eauto|].
  rewrite bind_run. cbn [gets]. rewrite reads_bind by (apply evolves_check; apply _). unfold check.
  destruct (ValidateClientCert (w_now w) cn certPEM keyPEM caPEM) as [e|] eqn:Hv; [intros [= <- <-]; left; eauto|].
  apply ValidateClientCert_ok in Hv. rewrite Hcn. cbn [fst throw mret M_ret]. intros Hrun. right. split; [done|].
  split.
  - assert (forall f, in_folder safe (LUser safe f)) as Hin by done.
    match type of Hrun with ?m w = _ => enough (evolves (frames (in_folder safe)) m) as HF by (specialize (HF w); by rewrite Hrun in HF) end.
    repeat first [apply (evolves_weaken _ _ _ (policy_in_folder safe)), WriteUserPolicy_frames, Hcn |
      apply (evolves_weaken (frames (eq (LUser safe "client.ovpn")))), buildUserProfileLocked_frames, Hcn;
        intros v v' [N F]; split; [done|intros l Hl; apply F; by intros <-] |
      apply (evolves_weaken (frames (eq (LUser safe "ca.pem")))), mirror_ca_frames;
        intros v v' [N F]; split; [done|intros l Hl; apply F; by intros <-] |
      by apply frames_write | evolve_rule].
  - intros ->. apply bind_inr in Hrun as ([] & w1 & _ & ([] & w2 & Hc & ([] & w3 & Hk & Hrun)%bind_inr)%bind_inr).
    apply bind_inr in Hrun as ([] & w4 & Hca & ([] & w5 & Hp & (l & w6 & Hb & [= <-])%bind_inr)%bind_inr).
    apply (frames_run _ _ _ _ _ (mirror_ca_frames safe _)) in Hca as [_ F4].
    apply (frames_run _ _ _ _ _ (WriteUserPolicy_frames _ _ _ _ _ _ Hcn)) in Hp as [_ F5].
    apply (frames_run _ _ _ _ _ (buildUserProfileLocked_frames _ _ Hcn)) in Hb as [_ F6].
    apply WriteFileAtomic_inr in Hc as ->. apply WriteFileAtomic_inr in Hk as ->. cbn [set_name_cache w_files].
    rewrite !F6, !F5, !F4 by first [discriminate | by intros (f & [= <-] & Hf); unfold policy_names in Hf; set_solver].
    cbn [set_files w_files]. rewrite lookup_insert_ne, !lookup_insert_eq by discriminate. done.
Qed.
End profile.

(** ** Concrete runs *)

Definition demo_node : World :=
  set_user_dirs true {["alice"]}
    (set_files (<[ClientTemplate:="client" +:+ str1 nl +:+ "# a comment" +:+ str1 nl]> (w_files demo_pki)) demo_pki).

Definition demo_status : loc := LConf "status.log".


Lemma replaced_user_is_untouched_witness :
  exists w1, Users.DeleteUser "/u" "/etc/openvpn" demo_status demo_mgmt false (mkWait (set_user_dirs true ∅) true) "alice"
    demo_node = (inr (false, None), set_user_dirs true ∅ w1).
Proof.
  destruct (replaced_user_is_untouched "/u" "/etc/openvpn" demo_status demo_mgmt false
    (mkWait (set_user_dirs true ∅) true) "alice" "alice" GenFolder demo_node demo_faultless) as (w1 & _ & H1).
  - intros v. reflexivity.
  - reflexivity.
  - vm_compute. reflexivity.
  - intros v. right. apply not_elem_of_empty.
  - exists w1. exact H1.
Defined.

Lemma profile_carries_certificate_witness :
  exists l w', buildUserProfileLocked "alice" demo_node = (inr l, w') /\ l = LUser "alice" "client.ovpn".
Proof.
  exists (LUser "alice" "client.ovpn"), (buildUserProfileLocked "alice" demo_node).2.
  assert (buildUserProfileLocked "alice" demo_node =
    (inr (LUser "alice" "client.ovpn"), (buildUserProfileLocked "alice" demo_node).2)) as Hr
    by (apply run_eta; vm_compute; reflexivity).
  split; [exact Hr|]. exact (proj1 (profile_carries_certificate "alice" "alice" demo_node _ _ eq_refl Hr)).
Defined.

Lemma pushed_credentials_are_checked_witness :
  credentials_ok (w_now demo_node) "bob" (demo_pem "CERTIFICATE" "bob|5|panel|0") (demo_pem "EC PRIVATE KEY" "k")
    (demo_pem "CERTIFICATE" "panel|1|panel|1").
Proof.
  set (run := createUserWithCredentialsLocked "/u" "bob" (demo_pem "CERTIFICATE" "bob|5|panel|0")
    (demo_pem "EC PRIVATE KEY" "k") (demo_pem "CERTIFICATE" "panel|1|panel|1") None None demo_node).
  assert (run.1 = inr tt) as Hr by (vm_compute; reflexivity). apply run_eta in Hr.
  destruct (pushed_credentials_are_checked "/u" "bob" "bob" _ _ _ None None demo_node _ _ eq_refl Hr)
    as [[_ [e He]]|[Hok _]]; [discriminate He|exact Hok].
Defined.
