(* ===== verification/Node.v ===== *)
(** * Node: the agent as a transition system.

    The hooks, the polls and the requests of the panel act on one tree of
    files, in any order, while the host rewrites the status file, moves the
    clock and lets file operations fail. *)

From S2P Require Import Prelude GoString Names Cache World Counter CounterSpec Markers UserPolicy Status Mgmt Hooks HookProps Usage Accounting UsageProps Disconnect.
From Stdlib Require Import Ascii.

(** ** The components record usage only *)

#[export] Hint Resolve prune_accounting : accounting.

Lemma acc_session {A} (m : M A) : touches is_session m -> accounting m.
Proof. intros H. apply (acc_touches _ _ H). intros l Hl Hc. by destruct l. Qed.

Lemma acc_reads {A} (m : M A) : touches (fun _ => False) m -> accounting m.
Proof. intros H. by apply (acc_touches _ _ H). Qed.

Definition is_user (l : loc) : Prop := match l with LUser _ _ => True | _ => False end.

Lemma acc_user {A} (m : M A) : touches is_user m -> accounting m.
Proof. intros H. apply (acc_touches _ _ H). intros l Hl Hc. by destruct l. Qed.

Lemma bank_accounting safe key pool rows : accounting (bankDisplacedGeneration safe key pool rows).
Proof.
  unfold bankDisplacedGeneration. acc_solve. apply record_accounting, u64_add_range.
Qed.

Lemma takeover_accounting cfg cn safe ip port pool rows n :
  accounting (takeover cfg cn safe ip port pool rows n).
Proof.
  apply acc_user. unfold takeover, writeLastKill. touch_solve; done.
Qed.

Lemma marker_accounting key m : accounting (WriteMarker (LSession key) m).
Proof. by apply acc_session, WriteMarker_touches. Qed.

#[export] Hint Resolve bank_accounting takeover_accounting marker_accounting : accounting.

Lemma reject_accounting msg : accounting (reject msg).
Proof. unfold reject. acc_solve. Qed.
#[export] Hint Resolve reject_accounting : accounting.

Lemma admit_accounting env safe ip port pool key rows limit n start :
  accounting (admitLocked env safe ip port pool key rows limit n start).
Proof. unfold admitLocked. acc_solve. Qed.
#[export] Hint Resolve admit_accounting : accounting.

Lemma SessionsForCN_accounting p cn : accounting (SessionsForCN p cn).
Proof. apply acc_reads, SessionsForCN_touches. Qed.
#[export] Hint Resolve SessionsForCN_accounting : accounting.

Lemma Connect_accounting cfg env arg : accounting (Connect cfg env arg).
Proof. unfold Connect, connectLocked, users_dir_ok. acc_solve. Qed.

Lemma Disconnect_accounting env arg : accounting (Disconnect env arg).
Proof.
  unfold Disconnect, disconnectLocked. acc_solve.
  all: first [apply record_accounting, u64_add_range
             |apply acc_session; unfold RemoveLegacyMarkers; touch_solve; exact I].
Qed.

Lemma PurgeStale_accounting cfg : accounting (PurgeStale cfg).
Proof.
  unfold PurgeStale, retire_receipts. acc_solve.
  - apply acc_session, purge_loop_touches.
  - apply acc_reads, present_loop_touches.
Qed.

Lemma record_rows_accounting cn cands u rows : forall p, accounting (record_rows cn cands u rows p).
Proof.
  induction rows as [|s rows IH]; intros p; simpl; [acc_solve|]. destruct (row_id s cands u); [|apply IH].
  apply acc_bind; [|intros _; apply IH]. apply record_accounting, u64_add_range.
Qed.

Lemma readMarkers_accounting : accounting readMarkers.
Proof. intros w. by destruct (readMarkers_run w) as (ms & -> & _). Qed.
#[export] Hint Resolve record_rows_accounting readMarkers_accounting : accounting.

Lemma record_users_accounting cns sessions u : forall p, accounting (record_users cns sessions u p).
Proof.
  induction cns as [|cn cns IH]; intros p; simpl; [acc_solve|].
  apply acc_bind; [acc_solve|intros ids; apply IH].
Qed.

Lemma collect_names_touches L d cns : forall m, touches L (collect_names d cns m).
Proof.
  induction cns as [|cn cns IH]; intros m; simpl; [touch_solve|].
  unfold ReadName, readPolicyFile. touch_solve; apply IH.
Qed.

Lemma NameMap_touches L d : touches L (NameMap d).
Proof.
  unfold NameMap, NameCacheGet, ListUsers, NameCacheSet. touch_solve. apply collect_names_touches.
Qed.

Lemma read_totals_touches L cns : touches L (read_totals cns).
Proof. induction cns as [|cn cns IH]; simpl; touch_solve. Qed.

Lemma UsersUsage_accounting d status order : accounting (UsersUsage d status order).
Proof.
  unfold UsersUsage. apply acc_bind.
  { apply acc_reads, ReadStatusSnapshot_touches. }
  intros snap. cbv zeta. apply acc_bind; [apply acc_reads, NameMap_touches|intros names].
  apply acc_bind; [apply record_users_accounting|intros present]. acc_solve.
  apply acc_reads, read_totals_touches.
Qed.

(** ** Users *)

Lemma WriteUserPolicy_touches d cn name limit disabled :
  touches is_user (WriteUserPolicy d cn name limit disabled).
Proof.
  unfold WriteUserPolicy, CreateUser, legacy_name, read_optional, readPolicyFile. touch_solve; exact I.
Qed.

Lemma remove_user_dir_accounting cn : accounting (remove_user_dir cn).
Proof.
  intros w. apply grows_all_files. intros safe _. unfold remove_user_dir.
  destruct (w_fault w _); [done|]. simpl. apply option_eq. intros d.
  rewrite map_lookup_filter_Some. simpl. naive_solver.
Qed.
#[export] Hint Resolve remove_user_dir_accounting : accounting.

(** The lock file of a user is not a counter, whatever the name given. *)
Lemma lock_not_counter cn : ~ is_counter (LUsage (".lock." +:+ cn)).
Proof. done. Qed.

Lemma DeleteUser_accounting sessions usage cn : accounting (DeleteUser sessions usage cn).
Proof.
  unfold DeleteUser. acc_solve.
  - by apply acc_session, touches_remove_if.
  - apply (acc_touches (eq (LUsage (".lock." +:+ cn)))); [by apply touches_remove_if|].
    intros l <-. apply lock_not_counter.
Qed.

Lemma CreateUser_accounting cn : accounting (CreateUser cn).
Proof. apply acc_user. unfold CreateUser. touch_solve. Qed.

Lemma DisconnectUser_accounting status mc running cn only :
  accounting (DisconnectUser status mc running cn only).
Proof.
  unfold DisconnectUser. apply acc_bind; [apply acc_reads, ParseSessions_touches|intros sessions].
  cbv zeta. destruct only; [|destruct running; simpl; [|apply acc_ret]].
  - apply acc_bind; [apply readMarkers_accounting|intros ms]. apply acc_bind; [|intros; apply acc_ret].
    apply acc_session. induction ms as [|m ms IH]; simpl; [touch_solve|]. touch_solve; done.
  - apply acc_bind; [|intros; apply acc_ret]. intros w. unfold killSessions.
    destruct (kill_ids cn sessions); rewrite bind_run, try_run;
      match goal with |- context [SendCommands ?a ?b ?c ?d ?e w] =>
        destruct (SendCommands_run a b c d e w) as (r & -> & _) end; destruct r; reflexivity.
Qed.

(** ** Steps *)

Inductive event : Type :=
| EvConnect (cfg : HookCfg) (env : HookEnv) (arg : string)
| EvDisconnect (env : HookEnv) (arg : string)
| EvPurge (cfg : HookCfg)
| EvPoll (usersDir : string) (status : loc) (order : gmap string (gmap string Z) -> list string)
| EvPolicy (usersDir cn : string) (name : option string) (limit : option Z) (disabled : option bool)
| EvCreate (cn : string)
| EvDelete (sessions usage : bool) (cn : string)
| EvDrop (status : loc) (mc : mgmt_cfg) (running : bool) (cn : string) (onlyStale : bool)
| EvReset (cn : string)
| EvHost.

(** The files of the agent's own trees. *)
Definition own_file (l : loc) : Prop :=
  match l with LUser _ _ | LSession _ | LUsage _ => True | _ => False end.

(** One step.  A program step leaves the state its run ends in, also when the
    run fails or panics; the host may change everything but the agent's own
    files. *)
Inductive step : event -> World -> World -> Prop :=
| step_connect cfg env arg w : step (EvConnect cfg env arg) w (Connect cfg env arg w).2
| step_disconnect env arg w : step (EvDisconnect env arg) w (Disconnect env arg w).2
| step_purge cfg w : step (EvPurge cfg) w (PurgeStale cfg w).2
| step_poll d p order w : step (EvPoll d p order) w (UsersUsage d p order w).2
| step_policy d cn name limit dis w :
    step (EvPolicy d cn name limit dis) w (WriteUserPolicy d cn name limit dis w).2
| step_create cn w : step (EvCreate cn) w (CreateUser cn w).2
| step_delete s u cn w : step (EvDelete s u cn) w (DeleteUser s u cn w).2
| step_drop p mc r cn o w : step (EvDrop p mc r cn o) w (DisconnectUser p mc r cn o w).2
| step_reset cn w : step (EvReset cn) w (ResetUsage cn w).2
| step_host w w' : (forall l, own_file l -> w_files w' !! l = w_files w !! l) -> step EvHost w w'.

Inductive trace : list event -> World -> World -> Prop :=
| trace_nil w : trace [] w w
| trace_cons ev evs w w1 w' : step ev w w1 -> trace evs w1 w' -> trace (ev :: evs) w w'.

Lemma ResetUsage_other cn w safe :
  SafeCN cn <> Some safe -> StoreKeyRe safe = true ->
  w_files (ResetUsage cn w).2 !! LUsage safe = w_files w !! LUsage safe.
Proof.
  intros Hcn Hk. unfold ResetUsage. destruct (SafeCN cn) as [s|] eqn:Hs; [|done].
  match goal with |- context [mbind ?k ?m] =>
    assert (touches (fun l => l = LUsage s \/ l = usage_lock s) (mbind k m)) as Ht end.
  { unfold writeUsageState. touch_solve; tauto. }
  apply Ht. intros [[= ->]|H]; [done|]. by apply (usage_lock_ne s safe Hk).
Qed.

Lemma step_grows ev w w' safe :
  StoreKeyRe safe = true -> (forall cn, ev = EvReset cn -> SafeCN cn <> Some safe) -> step ev w w' ->
  grows (persisted (w_files w) safe) (persisted (w_files w') safe).
Proof.
  intros Hk Hr Hstep. destruct Hstep.
  - by apply Connect_accounting.
  - by apply Disconnect_accounting.
  - by apply PurgeStale_accounting.
  - by apply UsersUsage_accounting.
  - by apply (acc_user _ (WriteUserPolicy_touches _ _ _ _ _)).
  - by apply CreateUser_accounting.
  - by apply DeleteUser_accounting.
  - by apply DisconnectUser_accounting.
  - unfold persisted. rewrite ResetUsage_other; [reflexivity|by apply Hr|done].
  - unfold persisted. rewrite H by done. reflexivity.
Qed.

(** C1: whatever the hooks, the polls and the panel do, in any order and with
    any file operation failing, the persisted traffic of a user is never lost:
    as long as no step resets that user's counter, a counter that can be read
    stays readable with the same epoch and its total never decreases, no
    counter becomes unreadable, and a counter file the agent cannot read is
    never overwritten.  The host may change everything but the agent's own
    files meanwhile. *)
Theorem traffic_is_never_lost evs w w' safe :
  StoreKeyRe safe = true ->
  trace evs w w' ->
  (forall cn, EvReset cn ∈ evs -> SafeCN cn <> Some safe) ->
  grows (persisted (w_files w) safe) (persisted (w_files w') safe).
Proof.
  intros Hk Ht. induction Ht as [w|ev evs w w1 w' Hs Ht IH]; intros Hr; [reflexivity|].
  etrans.
  - apply (step_grows ev w w1 safe Hk); [|done]. intros cn ->. apply Hr. left.
  - apply IH. intros cn H. apply Hr. by right.
Qed.

(** A poll, the end of the session, a stale-session sweep and the removal of
    the user. *)
Definition demo_events : list event :=
  [EvPoll "/u" (LAbs "status") poll_order; EvDisconnect session_env ""; EvPurge demo_cfg;
   EvReset "7"; EvDelete true true "42"].

Lemma demo_resets cn : EvReset cn ∈ demo_events -> cn = "7".
Proof.
  intros H. unfold demo_events in H.
  repeat (apply elem_of_cons in H as [H|H]; [try discriminate; by injection H as ->|]).
  by apply elem_of_nil in H.
Qed.

Lemma traffic_is_never_lost_witness :
  exists w', trace demo_events poll_world w' /\
    exists t, persisted (w_files w') "42" = Some (inr (t, "17-1")) /\ (1400 <= t)%Z.
Proof.
  assert (exists w', trace demo_events poll_world w') as [w' Ht].
  { eexists. repeat (eapply trace_cons; [constructor|]). apply trace_nil. }
  exists w'. split; [exact Ht|].
  pose proof (traffic_is_never_lost demo_events poll_world w' "42" eq_refl Ht) as Hg.
  assert (persisted (w_files poll_world) "42" = Some (inr (1400%Z, "17-1"))) as Hp by (vm_compute; reflexivity).
  rewrite Hp in Hg. destruct Hg as (t & e & Hf & Hle & He).
  - intros cn Hcn H. apply demo_resets in Hcn. subst cn. vm_compute in H. discriminate.
  - exists t. split; [|exact Hle]. rewrite Hf. rewrite He; [reflexivity|discriminate].
Defined.
