(* ===== verification/RateLimit.v ===== *)
(** * RateLimit: internal/ratelimit/ratelimit.go.

    The sliding-window limiter of the API.  Times and durations are
    nanoseconds; the map entries are values that each operation writes back.
    The tie order of an eviction is the order in which the map is visited,
    which Go leaves open: it is the parameter [order]. *)

From S2P Require Import Prelude GoString Json.
From Stdlib Require Import Ascii.

Definition second : Z := 1000000000.
Definition window : Z := 60 * second.
Definition failedWindow : Z := 300 * second.
Definition maxRequests : Z := 120.
Definition globalMax : Z := 600.
Definition heavyMax : Z := 60.
Definition failedMax : Z := 10.
Definition maxBuckets : Z := 10000.

Record bucket : Type := mkBucket { b_ts : list Z; b_last : Z }.

Record Limiter : Type := mkLimiter {
  l_lastPrune : option Z;      (** [None] is the zero time *)
  l_buckets : gmap string bucket;
  l_global : bucket;
  l_heavy : gmap string bucket;
  l_failed : gmap string bucket
}.

Definition no_bucket : bucket := mkBucket [] 0.
Definition New : Limiter := mkLimiter None ∅ no_bucket ∅ ∅.

Fixpoint drop_expired (now w : Z) (ts : list Z) : list Z :=
  match ts with
  | [] => []
  | t :: ts' => if (w <=? now - t)%Z then drop_expired now w ts' else ts
  end.

Definition trimExpired (b : bucket) (now w : Z) : bucket :=
  mkBucket (drop_expired now w (b_ts b)) (b_last b).

Definition len {A} (l : list A) : Z := Z.of_nat (length l).
Definition msize (m : gmap string bucket) : Z := Z.of_nat (size m).

(** Keys by the time of their last use. *)
Definition last_le (m : gmap string bucket) (a b : string) : Prop :=
  (b_last (default no_bucket (m !! a)) <= b_last (default no_bucket (m !! b)))%Z.
#[export] Instance last_le_dec m : RelDecision (last_le m).
Proof. intros a b. unfold last_le. apply _. Defined.

Section limiter.
(** SHA-256, and the order in which a map is visited. *)
Context (sha256 : string -> string) (order : gmap string bucket -> list string).

Definition keyFor (client : string) : string := str_take 32 (hex_encode (sha256 client)).

Definition evict (m : gmap string bucket) : gmap string bucket :=
  if (msize m <? maxBuckets)%Z then m
  else
    let target := (maxBuckets - maxBuckets / 10)%Z in
    let keys := merge_sort (last_le m) (order m) in
    foldl (fun m k => delete k m) m (take (Z.to_nat (msize m - target)) keys).

Definition pruneMap (now w : Z) (m : gmap string bucket) : gmap string bucket :=
  evict (filter (fun kv => b_ts kv.2 <> []) ((fun b => trimExpired b now w) <$> m)).

Definition prune (now : Z) (l : Limiter) : Limiter :=
  if (match l_lastPrune l with Some p => now - p <? 10 * second | None => false end)%Z
     && (msize (l_buckets l) <? maxBuckets)%Z && (msize (l_heavy l) <? maxBuckets)%Z
     && (msize (l_failed l) <? maxBuckets)%Z
  then l
  else mkLimiter (Some now) (pruneMap now window (l_buckets l)) (trimExpired (l_global l) now window)
         (pruneMap now window (l_heavy l)) (pruneMap now failedWindow (l_failed l)).

Definition retry_after (now w : Z) (ts : list Z) : Z :=
  Z.max second (w - (now - hd 0%Z ts))%Z.

(** One charge of a bucket: granted, the delay to wait, the new bucket. *)
Definition charge (w max now : Z) (b : bucket) : bool * Z * bucket :=
  let b := trimExpired b now w in
  if (max <=? len (b_ts b))%Z then (false, retry_after now w (b_ts b), mkBucket (b_ts b) now)
  else (true, 0%Z, mkBucket (b_ts b ++ [now]) now).

Definition Allow (client : string) (now : Z) (l : Limiter) : bool * Z * Limiter :=
  let key := keyFor client in
  let l := prune now l in
  let '(ok, retry, b) := charge window maxRequests now (default no_bucket (l_buckets l !! key)) in
  let l := mkLimiter (l_lastPrune l) (<[key := b]> (l_buckets l)) (l_global l) (l_heavy l) (l_failed l) in
  if ok then (true, 0%Z, prune now l) else (false, retry, l).

Definition AllowHeavy (client : string) (now : Z) (l : Limiter) : bool * Z * Limiter :=
  let key := keyFor client in
  let l := prune now l in
  let '(ok, retry, b) := charge window heavyMax now (default no_bucket (l_heavy l !! key)) in
  (ok, retry, mkLimiter (l_lastPrune l) (l_buckets l) (l_global l) (<[key := b]> (l_heavy l)) (l_failed l)).

(** The global bucket keeps no time of last use. *)
Definition AllowGlobal (now : Z) (l : Limiter) : bool * Z * Limiter :=
  let l := prune now l in
  let b := trimExpired (l_global l) now window in
  let put b := mkLimiter (l_lastPrune l) (l_buckets l) b (l_heavy l) (l_failed l) in
  if (globalMax <=? len (b_ts b))%Z then (false, retry_after now window (b_ts b), put b)
  else (true, 0%Z, put (mkBucket (b_ts b ++ [now]) (b_last b))).

Definition set_failed (m : gmap string bucket) (l : Limiter) : Limiter :=
  mkLimiter (l_lastPrune l) (l_buckets l) (l_global l) (l_heavy l) m.

(** The answer is [true] when the client is locked out. *)
Definition FailedBlocked (client : string) (now : Z) (l : Limiter) : bool * Z * Limiter :=
  let key := keyFor client in
  match l_failed l !! key with
  | None => (false, 0%Z, l)
  | Some b =>
      let b := trimExpired b now failedWindow in
      let l := set_failed (<[key := b]> (l_failed l)) l in
      if (failedMax <=? len (b_ts b))%Z then (true, retry_after now failedWindow (b_ts b), l)
      else (false, 0%Z, l)
  end.

Definition RecordFailedAuth (client : string) (now : Z) (l : Limiter) : Limiter :=
  let key := keyFor client in
  let b := trimExpired (default no_bucket (l_failed l !! key)) now failedWindow in
  set_failed (<[key := mkBucket (b_ts b ++ [now]) now]> (l_failed l)) l.

Definition AllowFailedAuth (client : string) (now : Z) (l : Limiter) : bool * Z * Limiter :=
  let key := keyFor client in
  let l := prune now l in
  let '(ok, retry, b) := charge failedWindow failedMax now (default no_bucket (l_failed l !! key)) in
  (ok, retry, set_failed (<[key := b]> (l_failed l)) l).
End limiter.
