(* ===== verification/RateProps.v ===== *)
(** * RateProps: the properties of the rate limiter. *)

From S2P Require Import Prelude GoString Json RateLimit.
From Stdlib Require Import Ascii.

(** ** Sliding windows *)

(** The times of [h] in the window of length [w] that ends at [t]. *)
Definition within (t w : Z) (h : list Z) : list Z := filter (fun x => t - w < x /\ x <= t)%Z h.
Definition bounded (w max : Z) (h : list Z) : Prop := forall t, (len (within t w h) <= max)%Z.

(** [ts] holds the part of the history [h] that has not expired at [now]. *)
Definition tracks (w now : Z) (ts h : list Z) : Prop :=
  exists pre, h = pre ++ ts /\ Forall (fun x => x + w <= now)%Z pre.

Lemma len_app {A} (l l' : list A) : len (l ++ l') = (len l + len l')%Z.
Proof. unfold len. rewrite length_app. lia. Qed.

Lemma within_app t w h h' : within t w (h ++ h') = within t w h ++ within t w h'.
Proof. apply filter_app. Qed.

Lemma within_le t w h : (len (within t w h) <= len h)%Z.
Proof. unfold len, within. pose proof (length_filter (fun x => t - w < x /\ x <= t)%Z h). lia. Qed.

Lemma within_old t w now pre : (now <= t)%Z -> Forall (fun x => x + w <= now)%Z pre -> within t w pre = [].
Proof.
  intros Ht Hp. unfold within. induction Hp as [|x pre Hx _ IH]; [done|].
  rewrite filter_cons_False by lia. done.
Qed.

Lemma drop_split now w ts :
  exists pre, ts = pre ++ drop_expired now w ts /\ Forall (fun x => x + w <= now)%Z pre.
Proof.
  induction ts as [|t ts (pre & Heq & Hp)]; simpl; [by exists []|].
  destruct (Z.leb_spec w (now - t)); [|by exists []].
  exists (t :: pre). split; [by rewrite Heq at 1|]. constructor; [lia|done].
Qed.

Lemma tracks_nil w now : tracks w now [] [].
Proof. by exists []. Qed.

Lemma tracks_later w now now' ts h : (now <= now')%Z -> tracks w now ts h -> tracks w now' ts h.
Proof.
  intros Hle (pre & -> & Hp). exists pre. split; [done|]. eapply Forall_impl; [exact Hp|]. simpl. lia.
Qed.

Lemma tracks_drop w now ts h : tracks w now ts h -> tracks w now (drop_expired now w ts) h.
Proof.
  intros (pre & -> & Hp). destruct (drop_split now w ts) as (pre' & Heq & Hp').
  exists (pre ++ pre'). rewrite Heq at 1. rewrite app_assoc. split; [done|]. by apply Forall_app.
Qed.

Lemma tracks_push w now t ts h : tracks w now ts h -> tracks w now (ts ++ [t]) (h ++ [t]).
Proof. intros (pre & -> & Hp). exists pre. by rewrite app_assoc. Qed.

(** A bucket below its maximum may grant one more. *)
Lemma bounded_push w max now ts h :
  tracks w now ts h -> (len ts < max)%Z -> bounded w max h -> bounded w max (h ++ [now]).
Proof.
  intros (pre & -> & Hp) Hlen Hb t. rewrite within_app, len_app.
  destruct (decide (t - w < now /\ now <= t)%Z) as [[H1 H2]|Hn].
  - rewrite within_app, (within_old t w now pre) by done. pose proof (within_le t w ts).
    unfold within at 2. rewrite filter_cons_True by done. unfold len in *. simpl in *. lia.
  - unfold within at 2. rewrite filter_cons_False by done. specialize (Hb t).
    unfold len in *. simpl. lia.
Qed.

(** What a window still sees is in the bucket. *)
Lemma tracks_within w now ts h : tracks w now ts h -> (len (within now w h) <= len ts)%Z.
Proof.
  intros (pre & -> & Hp). rewrite within_app, (within_old now w now pre) by done. apply within_le.
Qed.

(** ** Buckets *)

Definition ts_of (m : gmap string bucket) (key : string) : list Z := b_ts (default no_bucket (m !! key)).

Lemma ts_of_insert m key b key' :
  ts_of (<[key:=b]> m) key' = if decide (key = key') then b_ts b else ts_of m key'.
Proof.
  unfold ts_of. case_decide as H; [subst; by rewrite lookup_insert_eq|by rewrite lookup_insert_ne].
Qed.

(** The keys in use; an eviction needs [maxBuckets] of them. *)
Definition few (K : gset string) (m : gmap string bucket) : Prop :=
  dom m ⊆ K /\ (Z.of_nat (size K) < maxBuckets)%Z.

Lemma few_size K m : few K m -> (msize m < maxBuckets)%Z.
Proof.
  intros [Hd Hk]. apply subseteq_size in Hd. rewrite size_dom in Hd. unfold msize. lia.
Qed.

Lemma few_insert K m key b : key ∈ K -> few K m -> few K (<[key:=b]> m).
Proof. intros Hk [Hd Hs]. split; [|done]. rewrite dom_insert. set_solver. Qed.

(** The four histories of one client: ordinary and expensive calls granted,
    calls granted globally, failures recorded. *)
Record hist : Type := mkHist { h_allow : list Z; h_heavy : list Z; h_global : list Z; h_failed : list Z }.

Record follows (K : gset string) (key : string) (now : Z) (l : Limiter) (h : hist) : Prop := {
  fo_few : few K (l_buckets l) /\ few K (l_heavy l) /\ few K (l_failed l);
  fo_allow : tracks window now (ts_of (l_buckets l) key) (h_allow h);
  fo_heavy : tracks window now (ts_of (l_heavy l) key) (h_heavy h);
  fo_global : tracks window now (b_ts (l_global l)) (h_global h);
  fo_failed : tracks failedWindow now (ts_of (l_failed l) key) (h_failed h)
}.

Lemma follows_later K key now now' l h :
  (now <= now')%Z -> follows K key now l h -> follows K key now' l h.
Proof. intros Hle []. split; [done|..]; by eapply tracks_later. Qed.

Section pruning.
Context (order : gmap string bucket -> list string).

Lemma pruneMap_few K now w m :
  few K m ->
  few K (pruneMap order now w m) /\
  forall key, ts_of (pruneMap order now w m) key = drop_expired now w (ts_of m key).
Proof.
  intros Hf. unfold pruneMap. set (m' := filter _ _).
  assert (forall key, m' !! key = match m !! key with
    | Some b => if decide (drop_expired now w (b_ts b) = []) then None else Some (trimExpired b now w)
    | None => None end) as Hlook.
  { intros key. unfold m'. rewrite map_lookup_filter, lookup_fmap.
    destruct (m !! key) as [b|]; simpl; [|done]. case_decide as Hd.
    - by rewrite option_guard_False by (intros H; apply H, Hd).
    - by rewrite option_guard_True. }
  assert (dom m' ⊆ dom m) as Hsub.
  { intros key. rewrite !elem_of_dom, Hlook. destruct (m !! key); [by eexists|]. by intros []. }
  assert (few K m') as Hf' by (destruct Hf; split; [set_solver|done]).
  assert (evict order m' = m') as ->.
  { unfold evict. pose proof (few_size _ _ Hf'). by destruct (Z.ltb_spec (msize m') maxBuckets); [|lia]. }
  split; [done|]. intros key. unfold ts_of. rewrite Hlook. destruct (m !! key) as [b|]; simpl; [|done].
  case_decide as Hd; simpl; [by rewrite Hd|done].
Qed.

Lemma follows_prune K key now l h : follows K key now l h -> follows K key now (prune order now l) h.
Proof.
  intros [(F1 & F2 & F3) Ha Hh Hg Hf]. unfold prune. case_match; [by split|].
  destruct (pruneMap_few K now window _ F1) as [P1 Q1], (pruneMap_few K now window _ F2) as [P2 Q2],
    (pruneMap_few K now failedWindow _ F3) as [P3 Q3].
  split; simpl; [done|..]; rewrite ?Q1, ?Q2, ?Q3; by apply tracks_drop.
Qed.
End pruning.

(** ** Calls *)

Inductive call : Type :=
| CAllow (client : string)
| CHeavy (client : string)
| CGlobal
| CBlocked (client : string)
| CFailed (client : string)
| CFailedAuth (client : string).

Definition client_of (c : call) : option string :=
  match c with
  | CAllow a | CHeavy a | CBlocked a | CFailed a | CFailedAuth a => Some a
  | CGlobal => None
  end.

Lemma charge_spec w max now b ok retry b' h :
  charge w max now b = (ok, retry, b') -> tracks w now (b_ts b) h -> bounded w max h ->
  tracks w now (b_ts b') (if ok then h ++ [now] else h) /\ bounded w max (if ok then h ++ [now] else h).
Proof.
  unfold charge. intros Hc Ht Hb. pose proof (tracks_drop _ _ _ _ Ht) as Hd. simpl in Hc.
  destruct (Z.leb_spec max (len (drop_expired now w (b_ts b)))); injection Hc as <- <- <-; simpl.
  - done.
  - split; [by apply tracks_push|]. by eapply bounded_push.
Qed.

Section calls.
Context (sha256 : string -> string) (order : gmap string bucket -> list string).

(** The answer of a call: granted, or locked out for [CBlocked]. *)
Definition do_call (c : call) (now : Z) (l : Limiter) : bool * Limiter :=
  match c with
  | CAllow a => let '(ok, _, l) := Allow sha256 order a now l in (ok, l)
  | CHeavy a => let '(ok, _, l) := AllowHeavy sha256 order a now l in (ok, l)
  | CGlobal => let '(ok, _, l) := AllowGlobal order now l in (ok, l)
  | CBlocked a => let '(ok, _, l) := FailedBlocked sha256 a now l in (ok, l)
  | CFailed a => (true, RecordFailedAuth sha256 a now l)
  | CFailedAuth a => let '(ok, _, l) := AllowFailedAuth sha256 order a now l in (ok, l)
  end.

(** What a call adds to the histories of a bucket key. *)
Definition log_call (key : string) (c : call) (now : Z) (ok : bool) (h : hist) : hist :=
  let mine a := ok && String.eqb (keyFor sha256 a) key in
  match c with
  | CAllow a => mkHist (if mine a then h_allow h ++ [now] else h_allow h) (h_heavy h) (h_global h) (h_failed h)
  | CHeavy a => mkHist (h_allow h) (if mine a then h_heavy h ++ [now] else h_heavy h) (h_global h) (h_failed h)
  | CGlobal => mkHist (h_allow h) (h_heavy h) (if ok then h_global h ++ [now] else h_global h) (h_failed h)
  | CBlocked _ => h
  | CFailed a | CFailedAuth a =>
      mkHist (h_allow h) (h_heavy h) (h_global h) (if mine a then h_failed h ++ [now] else h_failed h)
  end.

Fixpoint run_calls (key : string) (cs : list (Z * call)) (l : Limiter) (h : hist) : Limiter * hist :=
  match cs with
  | [] => (l, h)
  | (now, c) :: cs' =>
      let '(ok, l') := do_call c now l in run_calls key cs' l' (log_call key c now ok h)
  end.

Definition limits (h : hist) : Prop :=
  bounded window maxRequests (h_allow h) /\ bounded window heavyMax (h_heavy h) /\
  bounded window globalMax (h_global h).

Lemma charge_insert w max now m a key h ok retry b' K :
  charge w max now (default no_bucket (m !! keyFor sha256 a)) = (ok, retry, b') ->
  keyFor sha256 a ∈ K -> few K m -> tracks w now (ts_of m key) h -> bounded w max h ->
  few K (<[keyFor sha256 a := b']> m) /\
  tracks w now (ts_of (<[keyFor sha256 a := b']> m) key)
    (if ok && String.eqb (keyFor sha256 a) key then h ++ [now] else h) /\
  bounded w max (if ok && String.eqb (keyFor sha256 a) key then h ++ [now] else h).
Proof using Type.
  intros Hc Hk Hf Ht Hb. split; [by apply few_insert|]. rewrite ts_of_insert.
  destruct (String.eqb_spec (keyFor sha256 a) key) as [<-|Hne].
  - rewrite decide_True, andb_true_r by done. by eapply charge_spec.
  - rewrite decide_False, andb_false_r by done. done.
Qed.

Definition in_keys (K : gset string) (c : call) : Prop :=
  match client_of c with Some a => keyFor sha256 a ∈ K | None => True end.

Lemma failed_push now m a key h K :
  keyFor sha256 a ∈ K -> few K m -> tracks failedWindow now (ts_of m key) h ->
  let b := trimExpired (default no_bucket (m !! keyFor sha256 a)) now failedWindow in
  few K (<[keyFor sha256 a := mkBucket (b_ts b ++ [now]) now]> m) /\
  tracks failedWindow now (ts_of (<[keyFor sha256 a := mkBucket (b_ts b ++ [now]) now]> m) key)
    (if String.eqb (keyFor sha256 a) key then h ++ [now] else h).
Proof using Type.
  intros Hk Hf Ht b. split; [by apply few_insert|]. rewrite ts_of_insert.
  destruct (String.eqb_spec (keyFor sha256 a) key) as [<-|Hne].
  - rewrite decide_True by done. by apply tracks_push, tracks_drop.
  - by rewrite decide_False.
Qed.

Lemma do_call_follows K key c now l h :
  in_keys K c -> follows K key now l h -> limits h ->
  let '(ok, l') := do_call c now l in
  follows K key now l' (log_call key c now ok h) /\ limits (log_call key c now ok h).
Proof using Type.
  intros Hk Hfo (La & Lh & Lg). pose proof (follows_prune order _ _ _ _ _ Hfo) as Hpr.
  destruct c as [a|a| |a|a|a]; simpl in Hk; unfold do_call.
  - unfold Allow. destruct Hpr as [(F1 & F2 & F3) Ta Th Tg Tf].
    destruct (charge _ _ _ _) as [[ok retry] b] eqn:Hc.
    destruct (charge_insert _ _ _ _ _ _ _ _ _ _ _ Hc Hk F1 Ta La) as (G1 & G2 & G3).
    destruct ok; (split; [|by split_and!]); [apply follows_prune|]; by split.
  - unfold AllowHeavy. destruct Hpr as [(F1 & F2 & F3) Ta Th Tg Tf].
    destruct (charge _ _ _ _) as [[ok retry] b] eqn:Hc.
    destruct (charge_insert _ _ _ _ _ _ _ _ _ _ _ Hc Hk F2 Th Lh) as (G1 & G2 & G3).
    split; [by split|by split_and!].
  - unfold AllowGlobal. destruct Hpr as [(F1 & F2 & F3) Ta Th Tg Tf].
    set (b := l_global (prune order now l)) in *. simpl.
    pose proof (tracks_drop _ _ _ _ Tg) as Td.
    destruct (Z.leb_spec globalMax (len (drop_expired now window (b_ts b)))) as [Hle|Hlt].
    + split; [by split|by split_and!].
    + split; [split; [done|done|done| |done]; by apply tracks_push|].
      split_and!; [done|done|]. by eapply bounded_push.
  - unfold FailedBlocked. destruct Hfo as [(F1 & F2 & F3) Ta Th Tg Tf].
    destruct (l_failed l !! keyFor sha256 a) as [b|] eqn:Hb; [|split; [by split|by split_and!]].
    assert (follows K key now (set_failed (<[keyFor sha256 a := trimExpired b now failedWindow]> (l_failed l)) l) h)
      as Hnew.
    { split; simpl; try done.
      - split_and!; [done|done|by apply few_insert].
      - rewrite ts_of_insert. case_decide as He; [|done]. subst key. simpl. apply tracks_drop.
        unfold ts_of in Tf. by rewrite Hb in Tf. }
    cbv zeta. destruct (failedMax <=? _)%Z; (split; [exact Hnew|by split_and!]).
  - unfold RecordFailedAuth. destruct Hfo as [(F1 & F2 & F3) Ta Th Tg Tf].
    destruct (failed_push now _ a key _ K Hk F3 Tf) as [G1 G2].
    split; [by split|by split_and!].
  - unfold AllowFailedAuth. destruct Hpr as [(F1 & F2 & F3) Ta Th Tg Tf].
    destruct (charge _ _ _ _) as [[ok retry] b] eqn:Hc.
    assert (tracks failedWindow now (ts_of (<[keyFor sha256 a := b]> (l_failed (prune order now l))) key)
      (if ok && String.eqb (keyFor sha256 a) key then h_failed h ++ [now] else h_failed h)) as G.
    { unfold charge in Hc. destruct (failed_push now _ a key _ K Hk F3 Tf) as [_ G2].
      rewrite ts_of_insert in *. cbv zeta in Hc.
      destruct (failedMax <=? _)%Z; injection Hc as <- <- <-; simpl.
      - destruct (decide _) as [<-|]; [by apply tracks_drop|done].
      - exact G2. }
    split; [split; simpl; try done; split_and!; try done; by apply few_insert|by split_and!].
Qed.
End calls.

Lemma failed_locks sha256 K key client now l h :
  follows K key now l h -> keyFor sha256 client = key ->
  (failedMax <= len (within now failedWindow (h_failed h)))%Z ->
  (FailedBlocked sha256 client now l).1.1 = true.
Proof.
  intros [_ _ _ _ Tf] Hkey Hmax. unfold FailedBlocked. rewrite Hkey.
  pose proof (tracks_within _ _ _ _ (tracks_drop _ _ _ _ Tf)) as Hle. unfold ts_of in Hle.
  destruct (l_failed l !! key) as [b|] eqn:Hb; simpl in Hle.
  - cbv zeta. simpl. destruct (Z.leb_spec failedMax (len (drop_expired now failedWindow (b_ts b)))); [done|lia].
  - unfold failedMax, len in *. simpl in Hle. lia.
Qed.

(** ** Runs *)

Fixpoint nondecreasing {A} (t : Z) (cs : list (Z * A)) : Prop :=
  match cs with
  | [] => True
  | (now, _) :: cs' => (t <= now)%Z /\ nondecreasing now cs'
  end.

Fixpoint last_time {A} (t : Z) (cs : list (Z * A)) : Z :=
  match cs with [] => t | (now, _) :: cs' => last_time now cs' end.

Definition no_hist : hist := mkHist [] [] [] [].

Lemma follows_new K key t : (Z.of_nat (size K) < maxBuckets)%Z -> follows K key t New no_hist.
Proof.
  intros Hk. assert (few K ∅) as Hf by (split; [by rewrite dom_empty_L; set_solver|done]).
  split; [by split_and!|..]; apply tracks_nil.
Qed.

Lemma limits_nil : limits no_hist.
Proof. split_and!; intros t; done. Qed.

Section runs.
Context (sha256 : string -> string) (order : gmap string bucket -> list string).

Lemma run_calls_follows K key cs : forall t l h,
  nondecreasing t cs -> (forall now c, (now, c) ∈ cs -> in_keys sha256 K c) ->
  follows K key t l h -> limits h ->
  let '(l', h') := run_calls sha256 order key cs l h in
  follows K key (last_time t cs) l' h' /\ limits h'.
Proof using Type.
  induction cs as [|[now c] cs IH]; intros t l h Ht Hk Hf Hl; simpl; [done|]. destruct Ht as [Ht Hts].
  pose proof (do_call_follows sha256 order K key c now l h (Hk now c ltac:(left))
    (follows_later _ _ _ _ _ _ Ht Hf) Hl) as Hstep.
  destruct (do_call _ _ c now l) as [ok l1]. destruct Hstep as [Hf1 Hl1].
  apply IH; [done| |done|done]. intros now' c' H. apply (Hk now'). by right.
Qed.

(** C39: the limits of the API hold over every sliding window.  Whatever the
    callers do, at nondecreasing times and with fewer than [maxBuckets]
    different bucket keys in use, a client is granted at most 120 calls and
    at most 60 expensive ones in any 60 seconds, all clients together at
    most 600 calls, and a client with ten failed attempts in the last five
    minutes is locked out. *)
Theorem rate_limits_hold K key cs :
  (Z.of_nat (size K) < maxBuckets)%Z -> nondecreasing 0 cs ->
  (forall now c, (now, c) ∈ cs -> in_keys sha256 K c) ->
  let '(l, h) := run_calls sha256 order key cs New no_hist in
  bounded window maxRequests (h_allow h) /\ bounded window heavyMax (h_heavy h) /\
  bounded window globalMax (h_global h) /\
  forall client now, keyFor sha256 client = key -> (last_time 0 cs <= now)%Z ->
    (failedMax <= len (within now failedWindow (h_failed h)))%Z ->
    (FailedBlocked sha256 client now l).1.1 = true.
Proof using Type.
  intros HK Ht Hk.
  pose proof (run_calls_follows K key cs 0 New no_hist Ht Hk (follows_new K key 0 HK) limits_nil) as Hrun.
  destruct (run_calls _ _ _ _ _) as [l h]. destruct Hrun as [Hf (L1 & L2 & L3)].
  split; [done|]. split; [done|]. split; [done|]. intros client now Hkey Hnow Hmax.
  apply (failed_locks sha256 K key client now l h); [by eapply follows_later|done|done].
Qed.
End runs.

(** Ten wrong keys of one client, a second apart. *)
Definition demo_sha (s : string) : string := s.
Definition demo_order (m : gmap string bucket) : list string := (map_to_list m).*1.
Definition demo_key : string := keyFor demo_sha "198.51.100.7".
Definition ten_failures : list (Z * call) :=
  map (fun n => ((1000 + Z.of_nat n) * second, CFailed "198.51.100.7")%Z) (seq 0 10).

Lemma ten_failures_keys now c : (now, c) ∈ ten_failures -> in_keys demo_sha {[demo_key]} c.
Proof. intros H. apply list_elem_of_fmap in H as (n & [= -> ->] & _). by apply elem_of_singleton. Qed.

Lemma rate_limits_hold_witness :
  let '(l, h) := run_calls demo_sha demo_order demo_key ten_failures New no_hist in
  (FailedBlocked demo_sha "198.51.100.7" (1100 * second) l).1.1 = true.
Proof.
  pose proof (rate_limits_hold demo_sha demo_order {[demo_key]} demo_key ten_failures eq_refl
    ltac:(vm_compute; repeat split; discriminate) ten_failures_keys) as H.
  destruct (run_calls demo_sha demo_order demo_key ten_failures New no_hist) as [l h] eqn:Hrun.
  destruct H as (_ & _ & _ & H). apply H; [reflexivity|vm_compute; discriminate|].
  change h with (l, h).2. rewrite <- Hrun. vm_compute. discriminate.
Defined.
