(* ===== verification/Pairing.v ===== *)
(** * Pairing: internal/pairing/pairing.go.

    One panel owns a node at a time: the lease of half an hour in
    [state/pairing.json], read and renewed under a lock. *)

From S2P Require Import Prelude GoString Json Names Cache World Counter.
From Stdlib Require Import Ascii.

Definition leaseSeconds : Z := 30 * 60.

Definition pairingPath : loc := LData "state/pairing.json".
Definition pairing_lock : loc := LData "state/pairing.json.lock".

(** [os.ErrPermission]. *)
Definition ErrPermission : goerr := Errorf "permission denied".

Record pairing : Type := mkPairing { pr_panel : string; pr_seen : Z }.

Definition pairing_fields : list string := ["panel_id"; "last_seen"].

Definition pairing_field (p : pairing) (name : string) (v : json) : option pairing :=
  if String.eqb name "panel_id" then
    match v with
    | JNull => Some p
    | JStr s => Some (mkPairing s (pr_seen p))
    | _ => None
    end
  else
    match v with
    | JNull => Some p
    | JNum lit => (fun n => mkPairing (pr_panel p) n) <$> parse_int lit
    | _ => None
    end.

(** The members in order; a name the record does not have is skipped. *)
Definition pairing_members (kvs : list (string * json)) : option pairing :=
  foldl (fun acc kv =>
    match acc, field_of pairing_fields kv.1 with
    | Some p, Some name => pairing_field p name kv.2
    | _, None => acc
    | None, _ => None
    end) (Some (mkPairing "" 0)) kvs.

(** [json.Unmarshal] of the record; [None] is any error of it. *)
Definition decode_pairing (data : string) : option pairing :=
  match json_decode data with
  | Some (j, rest) =>
      if str_empty (skip_ws rest) then
        match j with
        | JNull => Some (mkPairing "" 0)
        | JObj kvs => pairing_members kvs
        | _ => None
        end
      else None
  | None => None
  end.

(** [json.Marshal] of the map: the keys in order. *)
Definition encode_pairing (panelID : string) (now : Z) : string :=
  json_print (JObj [("last_seen", JNum (itoa now)); ("panel_id", JStr panelID)]).

(** The record of the file; [None] for an unpaired node. *)
Definition read_pairing : M (option pairing) :=
  r <- try (read_file pairingPath) ;;
  match r with
  | inl e => if IsNotExist e then mret None else throw (Errorf "pairing file unreadable")
  | inr data =>
      match decode_pairing data with
      | None => throw (Errorf "pairing file corrupt")
      | Some r => if str_empty (pr_panel r) then mret None else mret (Some r)
      end
  end.

(** The seconds since the owner was seen, as the code computes them. *)
Definition age (now : Z) (r : pairing) : Z := i64_sub now (pr_seen r).

(** The locked body, for the lease that was read. *)
Definition enforce_body (panelID : string) (now : Z) (rec : option pairing) : M unit :=
  if str_empty panelID then
    match rec with Some _ => throw ErrPermission | None => mret tt end
  else if match rec with
          | Some r => negb (String.eqb (pr_panel r) panelID) && (age now r <=? leaseSeconds)%Z
          | None => false
          end then throw ErrPermission
  else if match rec with
          | Some r => String.eqb (pr_panel r) panelID && (age now r <? 60)%Z
          | None => false
          end then mret tt
  else WriteFileAtomic pairingPath (encode_pairing panelID now).

Definition Enforce (panelID : string) : M unit :=
  mkdir "state" ;;
  Lock pairing_lock (
    now <- gets now_unix ;;
    rec <- read_pairing ;;
    enforce_body panelID now rec).

(** ** Lemmas *)

Definition is_time (n : Z) : Prop := (0 <= n < two63)%Z.

Lemma decode_encode_pairing p now :
  is_time now -> decode_pairing (encode_pairing p now) = Some (mkPairing p now).
Proof.
  intros [H0 H1]. unfold decode_pairing, encode_pairing. rewrite json_decode_print.
  - cbn [skip_ws str_empty]. unfold pairing_members. cbn [foldl fst snd].
    change (field_of pairing_fields "last_seen") with (Some "last_seen").
    change (field_of pairing_fields "panel_id") with (Some "panel_id").
    unfold pairing_field. cbn [String.eqb Ascii.eqb].
    rewrite parse_int_itoa by (unfold is_i64, two63 in *; lia). done.
  - rewrite itoa_nonneg by done. repeat constructor.
Qed.

(** The lease on disk. *)
Definition lease (f : gmap loc string) : option (option pairing) :=
  match f !! pairingPath with
  | None => Some None
  | Some d => match decode_pairing d with
              | None => None
              | Some r => Some (if str_empty (pr_panel r) then None else Some r)
              end
  end.

Lemma read_pairing_run w :
  exists r, read_pairing w = (r, w) /\
    match r with inr rec => lease (w_files w) = Some rec | inl _ => True end /\
    (w_fault w (OpRead pairingPath) = false -> forall rec, lease (w_files w) = Some rec -> r = inr rec).
Proof.
  unfold read_pairing, lease. rewrite bind_run, try_run. unfold read_file.
  destruct (w_fault w _) eqn:Hf; simpl; [by eexists|].
  destruct (w_files w !! pairingPath) as [d|]; simpl.
  - destruct (decode_pairing d) as [r|]; [|by eexists].
    destruct (str_empty (pr_panel r)); eexists; (split; [done|]); (split; [done|]); by intros _ rec [= <-].
  - eexists. split; [done|]. split; [done|]. by intros _ rec [= <-].
Qed.

(** Who may speak to a node with this lease. *)
Definition admitted (rec : option pairing) (panelID : string) (now : Z) : bool :=
  match rec with
  | None => true
  | Some r => String.eqb (pr_panel r) panelID
              || (negb (str_empty panelID) && negb (age now r <=? leaseSeconds)%Z)
  end.

(** The lease it leaves. *)
Definition renewed (rec : option pairing) (panelID : string) (now : Z) : option pairing :=
  if str_empty panelID then rec
  else match rec with
       | Some r => if String.eqb (pr_panel r) panelID && (age now r <? 60)%Z then rec
                   else Some (mkPairing panelID now)
       | None => Some (mkPairing panelID now)
       end.

Lemma lease_lock f : lease (lock_files pairing_lock f) = lease f.
Proof. unfold lease. by rewrite lock_files_ne. Qed.

Lemma lease_panel f r : lease f = Some (Some r) -> pr_panel r <> "".
Proof.
  unfold lease. destruct (f !! pairingPath) as [d|]; [|done]. destruct (decode_pairing d) as [r'|]; [|done].
  destruct (str_empty (pr_panel r')) eqn:He; [done|]. intros [= ->] Hp. by rewrite Hp in He.
Qed.

(** An admitted panel keeps the lease or writes its own; another one gets an
    error. *)
Lemma enforce_body_run panelID now rec w :
  (forall r, rec = Some r -> pr_panel r <> "") ->
  if admitted rec panelID now
  then enforce_body panelID now rec w = (inr tt, w) /\ renewed rec panelID now = rec \/
       enforce_body panelID now rec w = WriteFileAtomic pairingPath (encode_pairing panelID now) w /\
         panelID <> "" /\ renewed rec panelID now = Some (mkPairing panelID now)
  else enforce_body panelID now rec w = (inl ErrPermission, w).
Proof.
  intros Hne. unfold admitted, renewed, enforce_body.
  destruct (str_empty panelID) eqn:He.
  - apply str_empty_true in He. subst. destruct rec as [r|]; [|by left].
    specialize (Hne r eq_refl). destruct (String.eqb_spec (pr_panel r) ""); [done|]. done.
  - assert (panelID <> "") as Hp by (intros ->; done).
    destruct rec as [r|]; [|by right].
    destruct (String.eqb_spec (pr_panel r) panelID); simpl.
    + destruct (age now r <? 60)%Z; [by left|by right].
    + destruct (age now r <=? leaseSeconds)%Z; simpl; [done|by right].
Qed.

Lemma lease_written panelID now f :
  panelID <> "" -> is_time now ->
  lease (<[pairingPath := encode_pairing panelID now]> f) = Some (Some (mkPairing panelID now)).
Proof.
  intros Hp Hn. unfold lease. rewrite lookup_insert_eq, decode_encode_pairing by done. simpl.
  destruct panelID; done.
Qed.

Lemma Enforce_run panelID w :
  exists r w', Enforce panelID w = (r, w') /\
    match r with
    | inr _ => exists rec, lease (w_files w) = Some rec /\ admitted rec panelID (now_unix w) = true /\
        (is_time (now_unix w) -> lease (w_files w') = Some (renewed rec panelID (now_unix w)))
    | inl _ => w_files w' !! pairingPath = w_files w !! pairingPath
    end /\
    (faultless w -> forall rec, lease (w_files w) = Some rec ->
       if admitted rec panelID (now_unix w) then r = inr tt else r = inl ErrPermission).
Proof.
  unfold Enforce. rewrite bind_run. unfold mkdir. destruct (w_fault w (OpMkdir "state")) eqn:Hm.
  { eexists _, _. split; [done|]. split; [done|]. intros Hf. by rewrite Hf in Hm. }
  unfold Lock. destruct (w_fault w (OpLock pairing_lock)) eqn:Hl.
  { eexists _, _. split; [done|]. split; [done|]. intros Hf. by rewrite Hf in Hl. }
  cbn [parent_ok pairing_lock]. fold (lock_files pairing_lock (w_files w)).
  set (w1 := set_files _ w). rewrite bind_run. cbn [gets].
  assert (w_files w1 !! pairingPath = w_files w !! pairingPath) as Hsame by by apply lock_files_ne.
  assert (lease (w_files w1) = lease (w_files w)) as Hlease by apply lease_lock.
  change (now_unix w1) with (now_unix w). set (now := now_unix w).
  rewrite bind_run. destruct (read_pairing_run w1) as (r & -> & Hr & Hall).
  destruct r as [e|rec].
  { eexists _, _. split; [done|]. split; [done|]. intros Hf rec H.
    by specialize (Hall (Hf _) rec ltac:(by rewrite Hlease)). }
  pose proof (enforce_body_run panelID now rec w1) as Hbody.
  assert (forall r, rec = Some r -> pr_panel r <> "") as Hne.
  { intros r ->. by eapply lease_panel. }
  specialize (Hbody Hne). rewrite Hlease in Hr. destruct (admitted rec panelID now) eqn:Ha.
  - destruct Hbody as [[-> Hren]|(-> & Hp & Hren)].
    + eexists _, _. split; [done|]. split; [|intros _ rec' H; rewrite Hr in H; injection H as <-; by rewrite Ha].
      exists rec. split; [done|]. split; [done|]. intros _. by rewrite Hren, Hlease.
    + unfold WriteFileAtomic. destruct (w_fault w1 (OpWrite pairingPath)) eqn:Hw.
      * eexists _, _. split; [done|]. split; [done|]. intros Hf.
        change (w_fault w (OpWrite pairingPath) = true) in Hw. by rewrite Hf in Hw.
      * cbn [parent_ok pairingPath]. eexists _, _. split; [done|].
        split; [|intros _ rec' H; rewrite Hr in H; injection H as <-; by rewrite Ha].
        exists rec. split; [done|]. split; [done|]. intros Hn. rewrite Hren. by apply lease_written.
  - rewrite Hbody. eexists _, _. split; [done|]. split; [done|].
    intros _ rec' H. rewrite Hr in H. injection H as <-. by rewrite Ha.
Qed.

(** [int64] subtraction of a small difference. *)
Lemma i64_sub_later a a' s k :
  (0 <= a' - a)%Z -> (i64_sub a s < k)%Z -> (k + (a' - a) <= two63)%Z ->
  i64_sub a' s = (i64_sub a s + (a' - a))%Z.
Proof.
  unfold i64_sub, to_i64. intros H0 Hk Hb.
  pose proof (Z.mod_pos_bound (a - s) two64 ltac:(done)) as Hm.
  pose proof (Z_div_mod_eq_full (a - s) two64) as Hd.
  assert (two64 = 2 * two63)%Z as H2 by done.
  destruct (Z.ltb_spec ((a - s) mod two64) two63) as [Hlt|Hge].
  - assert ((a' - s) mod two64 = (a - s) mod two64 + (a' - a))%Z as ->.
    { symmetry. apply (Z.mod_unique_pos _ _ ((a - s) / two64)); lia. }
    destruct (Z.ltb_spec ((a - s) mod two64 + (a' - a)) two63); lia.
  - destruct (Z.lt_ge_cases ((a - s) mod two64 + (a' - a)) two64) as [Hs|Hs].
    + assert ((a' - s) mod two64 = (a - s) mod two64 + (a' - a))%Z as ->.
      { symmetry. apply (Z.mod_unique_pos _ _ ((a - s) / two64)); lia. }
      destruct (Z.ltb_spec ((a - s) mod two64 + (a' - a)) two63); lia.
    + assert ((a' - s) mod two64 = (a - s) mod two64 + (a' - a) - two64)%Z as ->.
      { symmetry. apply (Z.mod_unique_pos _ _ ((a - s) / two64 + 1)); lia. }
      destruct (Z.ltb_spec ((a - s) mod two64 + (a' - a) - two64) two63); lia.
Qed.

(** ** Properties *)

(** How long the owner keeps the node for itself after a request: the lease,
    less the minute during which its record is not renewed. *)
Definition owner_seconds : Z := 1741.


(** A node panel-a spoke to at the time of the demo world. *)
Definition later (n : Z) (w : World) : World := set_now (w_now w + n * 1000000000) w.
Definition paired_world : World := (Enforce "panel-a" demo_world).2.


(** The decision of [Enforce] on a node whose file operations work.  A
    lease file that does not parse refuses everyone and is kept; otherwise the
    owner is let in, a caller without an identity only on an unpaired node,
    another panel only once the owner was not seen for more than half an hour;
    a panel that is let in owns the node afterwards, and a refusal changes
    nothing. *)
Theorem enforce_decides panelID w :
  faultless w -> is_time (now_unix w) ->
  exists r w', Enforce panelID w = (r, w') /\
    match lease (w_files w) with
    | None => (exists e, r = inl e) /\ w_files w' !! pairingPath = w_files w !! pairingPath
    | Some rec =>
        if admitted rec panelID (now_unix w)
        then r = inr tt /\ lease (w_files w') = Some (renewed rec panelID (now_unix w))
        else r = inl ErrPermission /\ w_files w' !! pairingPath = w_files w !! pairingPath
    end.
Proof.
  intros Hf Ht. destruct (Enforce_run panelID w) as (r & w' & Hrun & Hspec & Hdec).
  exists r, w'. split; [done|]. specialize (Hdec Hf). destruct (lease (w_files w)) as [rec|] eqn:Hl.
  - specialize (Hdec rec eq_refl). destruct (admitted rec panelID (now_unix w)) eqn:Ha; subst r; [|done].
    split; [done|]. destruct Hspec as (rec' & [= <-] & _ & Hnew). by apply Hnew.
  - destruct r as [e|[]]; [split; [by exists e|done]|]. by destruct Hspec as (rec & H & _).
Qed.

Lemma enforce_decides_witness :
  exists w', Enforce "panel-b" (later 1801 paired_world) = (inr tt, w') /\
    lease (w_files w') = Some (Some (mkPairing "panel-b" 1700001801)).
Proof.
  destruct (enforce_decides "panel-b" (later 1801 paired_world) demo_faultless
    ltac:(vm_compute; split; [discriminate|reflexivity])) as (r & w' & Hrun & H).
  assert (lease (w_files (later 1801 paired_world)) = Some (Some (mkPairing "panel-a" 1700000000))) as Hl
    by (vm_compute; reflexivity).
  rewrite Hl in H.
  assert (admitted (Some (mkPairing "panel-a" 1700000000)) "panel-b" (now_unix (later 1801 paired_world)) = true)
    as Ha by (vm_compute; reflexivity).
  rewrite Ha in H. destruct H as [-> H]. exists w'. split; [exact Hrun|]. rewrite H. vm_compute. reflexivity.
Defined.
