(* ===== verification/Auth.v ===== *)
(** * Auth: internal/httpapi/auth.go.

    The gate of the API: the key, the rate limits and the lease, in the order
    the handler applies them. *)

From S2P Require Import Prelude GoString Json Names Cache World Counter RateLimit RateProps Pairing.
From Stdlib Require Import Ascii.

Definition ContractVersion : Z := 3.

(** The headers of a request and the peer address of its connection. *)
Record request : Type := mkRequest {
  rq_key : string;
  rq_remote : string;
  rq_panel : string;
  rq_contract : string
}.

(** [net.SplitHostPort], the host only; [None] is its error. *)
Definition SplitHost (hostport : string) : option string :=
  match rcut ":" hostport with
  | None => None
  | Some (before, port) =>
      match hostport with
      | String "[" rest =>
          match cut "]" rest with
          | (_, _, false) => None
          | (host, after, true) =>
              if String.eqb after (":" +:+ port)
                 && no_char "[" rest && no_char "]" after then Some host else None
          end
      | _ => if no_char ":" before && no_char "[" hostport && no_char "]" hostport
             then Some before else None
      end
  end.

Definition clientAddr (r : request) : string := default (rq_remote r) (SplitHost (rq_remote r)).

(** What [authorize] answers: the status, the Retry-After header in seconds,
    the message. *)
Inductive verdict : Type :=
| Granted
| Refused (status : Z) (retry : option Z) (msg : string).

Definition retry_seconds (d : Z) : Z := d / second.

Section auth.
Context (sha256 : string -> string) (order : gmap string bucket -> list string).

Definition keyEqual (given apiKey : string) : bool := String.eqb (sha256 given) (sha256 apiKey).

(** The checks before the lease; [None] when all of them pass.  The calls of
    the limiter read the clock once. *)
Definition screen (apiKey : string) (r : request) (heavy : bool) (now : Z) (l : Limiter)
  : option verdict * Limiter :=
  if (Z.of_nat (String.length apiKey) <? 16)%Z then (Some (Refused 503 None "API key not configured"), l)
  else if str_empty (rq_key r) then (Some (Refused 401 None "Missing API key"), l)
  else
  let client := clientAddr r in
  let '(ok, retry, l) := Allow sha256 order client now l in
  if negb ok then (Some (Refused 429 (Some (retry_seconds retry)) "Rate limit exceeded"), l)
  else
  let '(blocked, retry, l) := FailedBlocked sha256 client now l in
  if blocked
  then (Some (Refused 429 (Some (retry_seconds retry)) "Too many failed authentication attempts"), l)
  else if negb (keyEqual (rq_key r) apiKey)
  then (Some (Refused 401 None "Invalid API key"), RecordFailedAuth sha256 client now l)
  else
  let '(ok, retry, l) := AllowGlobal order now l in
  if negb ok then (Some (Refused 429 (Some (retry_seconds retry)) "Rate limit exceeded"), l)
  else if heavy then
    let '(ok, retry, l) := AllowHeavy sha256 order client now l in
    if negb ok
    then (Some (Refused 429 (Some (retry_seconds retry)) "Too many certificate operations — slow down"), l)
    else (None, l)
  else (None, l).

Definition authorize (apiKey : string) (r : request) (heavy : bool) (l : Limiter) : M (verdict * Limiter) :=
  now <- gets w_now ;;
  let '(v, l) := screen apiKey r heavy now l in
  match v with
  | Some refused => mret (refused, l)
  | None =>
      e <- try (Enforce (trim_space (rq_panel r))) ;;
      match e with
      | inl _ => mret (Refused 409 None ("Node is paired with another panel. Wait for the 30-minute lease " +:+
                   "or run `ovnode auth disconnect` on this node."), l)
      | inr _ =>
          let cv := trim_space (rq_contract r) in
          if str_empty cv then mret (Granted, l)
          else match atoi cv with
               | Some n =>
                   if (ContractVersion <? n)%Z then
                     mret (Refused 409 None ("contract_version_mismatch: panel requires contract " +:+ cv +:+
                       " but this node implements contract " +:+ itoa ContractVersion +:+
                       " — update the node first"), l)
                   else mret (Granted, l)
               | None => mret (Granted, l)
               end
      end
  end.
End auth.

(** ** What the screening lets through *)

Lemma screen_passes sha256 order apiKey r heavy now l :
  match (screen sha256 order apiKey r heavy now l).1 with
  | Some v => v <> Granted
  | None => sha256 (rq_key r) = sha256 apiKey /\ (16 <= Z.of_nat (String.length apiKey))%Z /\ rq_key r <> "" /\
      (Allow sha256 order (clientAddr r) now l).1.1 = true
  end.
Proof.
  unfold screen. destruct (Z.ltb_spec (Z.of_nat (String.length apiKey)) 16); [done|].
  destruct (str_empty (rq_key r)) eqn:He; [done|].
  destruct (Allow sha256 order (clientAddr r) now l) as [[ok retry] l1]. destruct ok; [|done]. cbn [negb].
  destruct (FailedBlocked sha256 (clientAddr r) now l1) as [[blocked retry1] l2]. destruct blocked; [done|].
  unfold keyEqual. destruct (String.eqb_spec (sha256 (rq_key r)) (sha256 apiKey)) as [Hk|]; [|done]. cbn [negb].
  assert (rq_key r <> "") as Hne by (intros H0; by rewrite H0 in He).
  destruct (AllowGlobal order now l2) as [[ok retry2] l3]. destruct ok; [|done]. cbn [negb].
  destruct heavy; [|done]. destruct (AllowHeavy sha256 order (clientAddr r) now l3) as [[ok retry3] l4].
  by destruct ok.
Qed.

(** ** Guessing the key *)

Definition wrong_key (v : verdict) : bool :=
  match v with Refused _ None msg => String.eqb msg "Invalid API key" | _ => false end.
Definition screened_wrong (v : option verdict) : bool := from_option wrong_key false v.

(** The limiter and the refusals before the lease come from [screen]; the
    state of the node changes only in [Enforce]. *)
Lemma authorize_screen sha256 order apiKey r heavy l w :
  let '(v, l') := screen sha256 order apiKey r heavy (w_now w) l in
  exists v' w', authorize sha256 order apiKey r heavy l w = (inr (v', l'), w') /\
    wrong_key v' = screened_wrong v /\
    match v with
    | Some refused => v' = refused /\ w' = w
    | None => exists e, Enforce (trim_space (rq_panel r)) w = (e, w') /\
        (v' = Granted -> e = inr tt /\
           forall n, atoi (trim_space (rq_contract r)) = Some n -> (n <= ContractVersion)%Z)
    end.
Proof.
  unfold authorize. rewrite bind_run. cbn [gets].
  destruct (screen sha256 order apiKey r heavy (w_now w) l) as [v l'].
  destruct v as [v|]; [by exists v, w|]. rewrite bind_run, try_run.
  destruct (Enforce (trim_space (rq_panel r)) w) as [[e|[]] w'] eqn:He; cbn [fst snd].
  - eexists _, w'. split; [done|]. split; [done|]. by exists (inl e).
  - destruct (str_empty (trim_space (rq_contract r))) eqn:Hc.
    { eexists _, w'. split; [done|]. split; [done|]. exists (inr tt). split; [done|]. intros _. split; [done|].
      apply str_empty_true in Hc. rewrite Hc. intros n H. by vm_compute in H. }
    destruct (atoi (trim_space (rq_contract r))) as [n|] eqn:Hn.
    + destruct (Z.ltb_spec ContractVersion n).
      * eexists _, w'. split; [done|]. split; [done|]. by exists (inr tt).
      * eexists _, w'. split; [done|]. split; [done|]. exists (inr tt). split; [done|]. intros _.
        split; [done|]. by intros n' [= <-].
    + eexists _, w'. split; [done|]. split; [done|]. exists (inr tt). split; [done|]. intros _.
      split; [done|]. by intros n'.
Qed.

(** The limiter keeps track of one bucket key, with its limits and at most ten
    recorded failures in any five minutes. *)
Record guarded (K : gset string) (key : string) (now : Z) (l : Limiter) (h : hist) : Prop := {
  gu_follows : follows K key now l h;
  gu_limits : limits h;
  gu_failed : bounded failedWindow failedMax (h_failed h)
}.

Lemma FailedBlocked_open sha256 client now l retry l' :
  FailedBlocked sha256 client now l = (false, retry, l') ->
  (len (ts_of (l_failed l') (keyFor sha256 client)) < failedMax)%Z.
Proof.
  unfold FailedBlocked. destruct (l_failed l !! keyFor sha256 client) as [b|] eqn:Hb.
  - cbv zeta. destruct (Z.leb_spec failedMax (len (b_ts (trimExpired b now failedWindow)))); intros [= <- <-].
    simpl. by rewrite ts_of_insert, decide_True.
  - intros [= <- <-]. unfold ts_of. by rewrite Hb.
Qed.

Section guesses.
Context (sha256 : string -> string) (order : gmap string bucket -> list string).

(** A call of the limiter other than a recorded failure. *)
Lemma guarded_call K key now c l h ok l' :
  do_call sha256 order c now l = (ok, l') -> in_keys sha256 K c ->
  h_failed (log_call sha256 key c now ok h) = h_failed h -> guarded K key now l h ->
  exists h', guarded K key now l' h' /\ h_failed h' = h_failed h.
Proof using Type.
  intros Hc Hk Hf [Hfo Hl Hb]. pose proof (do_call_follows sha256 order K key c now l h Hk Hfo Hl) as H.
  rewrite Hc in H. destruct H as [H1 H2]. exists (log_call sha256 key c now ok h).
  split; [split; [done|done|by rewrite Hf]|done].
Qed.

(** One request: the failures grow by the wrong keys of the client. *)
Lemma screen_guarded K key apiKey r heavy now l h :
  keyFor sha256 (clientAddr r) ∈ K -> guarded K key now l h ->
  let '(v, l') := screen sha256 order apiKey r heavy now l in
  exists h', guarded K key now l' h' /\
    h_failed h' = (if screened_wrong v && String.eqb (keyFor sha256 (clientAddr r)) key
                   then h_failed h ++ [now] else h_failed h).
Proof using Type.
  intros Hk Hg. unfold screen. destruct (_ <? 16)%Z; [by exists h|]. destruct (str_empty (rq_key r)); [by exists h|].
  destruct (Allow sha256 order (clientAddr r) now l) as [[ok retry] l1] eqn:Ha.
  destruct (guarded_call K key now (CAllow (clientAddr r)) l h ok l1) as (h1 & G1 & <-);
    [unfold do_call; by rewrite Ha|done|done|done|].
  destruct ok; cbn [negb]; [|by exists h1].
  destruct (FailedBlocked sha256 (clientAddr r) now l1) as [[blocked retry1] l2] eqn:Hb.
  destruct (guarded_call K key now (CBlocked (clientAddr r)) l1 h1 blocked l2) as (h2 & G2 & <-);
    [unfold do_call; by rewrite Hb|done|done|done|].
  destruct blocked; [by exists h2|].
  destruct (keyEqual sha256 (rq_key r) apiKey); cbn [negb].
  - destruct (AllowGlobal order now l2) as [[ok retry2] l3] eqn:Hgl.
    destruct (guarded_call K key now CGlobal l2 h2 ok l3) as (h3 & G3 & <-);
      [unfold do_call; by rewrite Hgl|done|done|done|].
    destruct ok; cbn [negb]; [|by exists h3]. destruct heavy; [|by exists h3].
    destruct (AllowHeavy sha256 order (clientAddr r) now l3) as [[ok retry3] l4] eqn:Hh.
    destruct (guarded_call K key now (CHeavy (clientAddr r)) l3 h3 ok l4) as (h4 & G4 & <-);
      [unfold do_call; by rewrite Hh|done|done|done|].
    destruct ok; by exists h4.
  - destruct G2 as [Hfo Hl Hbd].
    pose proof (do_call_follows sha256 order K key (CFailed (clientAddr r)) now l2 h2 Hk Hfo Hl) as [H1 H2].
    eexists. split; [split; [exact H1|exact H2|]|done]. simpl.
    destruct (String.eqb_spec (keyFor sha256 (clientAddr r)) key) as [<-|]; [|done].
    eapply bounded_push; [apply Hfo|by eapply FailedBlocked_open|done].
Qed.

(** The requests of a run, each with its time, and the times at which the key
    of one client was found wrong. *)
Fixpoint run_requests (key apiKey : string) (rs : list (Z * (request * bool))) (w : World) (l : Limiter)
    (guesses : list Z) : list Z :=
  match rs with
  | [] => guesses
  | (now, (r, heavy)) :: rs' =>
      match authorize sha256 order apiKey r heavy l (set_now now w) with
      | (inr (v, l'), w') =>
          run_requests key apiKey rs' w' l'
            (if wrong_key v && String.eqb (keyFor sha256 (clientAddr r)) key then guesses ++ [now] else guesses)
      | (inl _, _) => guesses
      end
  end.

Lemma run_requests_guarded (K : gset string) key apiKey rs : forall t w l h,
  nondecreasing t rs -> (forall now r heavy, (now, (r, heavy)) ∈ rs -> keyFor sha256 (clientAddr r) ∈ K) ->
  guarded K key t l h ->
  exists h', run_requests key apiKey rs w l (h_failed h) = h_failed h' /\
    bounded failedWindow failedMax (h_failed h').
Proof using Type.
  induction rs as [|[now [r heavy]] rs IH]; intros t w l h Ht Hk Hg; simpl; [exists h; by destruct Hg|].
  destruct Ht as [Ht Hts].
  assert (guarded K key now l h) as Hg' by (destruct Hg; split; [by eapply follows_later|done|done]).
  pose proof (screen_guarded K key apiKey r heavy now l h (Hk now r heavy ltac:(left)) Hg') as Hs.
  pose proof (authorize_screen sha256 order apiKey r heavy l (set_now now w)) as Ha. cbn [w_now set_now] in Ha.
  destruct (screen _ _ apiKey r heavy now l) as [v l1]. destruct Hs as (h1 & G1 & Hh).
  destruct Ha as (v' & w' & -> & Hw & _). rewrite Hw, <- Hh.
  apply (IH now); [done| |done]. intros now' r' heavy' H. apply (Hk now' r' heavy'). by right.
Qed.


(** What it takes to be let in.  A granted request presented a key with
    the digest of the node's key of at least sixteen characters, was granted
    by the limiter, holds the lease, and asks for no newer contract.  A
    request that is refused before the lease, for whatever reason, leaves the
    node, and so the lease of the owner, untouched. *)
Theorem authorize_is_sound apiKey r heavy l w v l' w' :
  authorize sha256 order apiKey r heavy l w = (inr (v, l'), w') ->
  (v = Granted ->
     sha256 (rq_key r) = sha256 apiKey /\ (16 <= Z.of_nat (String.length apiKey))%Z /\ rq_key r <> "" /\
     (Allow sha256 order (clientAddr r) (w_now w) l).1.1 = true /\
     (exists rec, lease (w_files w) = Some rec /\
        admitted rec (trim_space (rq_panel r)) (now_unix w) = true) /\
     forall n, atoi (trim_space (rq_contract r)) = Some n -> (n <= ContractVersion)%Z) /\
  (sha256 (rq_key r) <> sha256 apiKey -> v <> Granted /\ w' = w).
Proof using Type.
  intros Hrun. pose proof (authorize_screen sha256 order apiKey r heavy l w) as H.
  destruct (screen sha256 order apiKey r heavy (w_now w) l) as [v0 l0] eqn:Hs.
  destruct H as (v1 & w1 & Hrun' & _ & Hv). rewrite Hrun in Hrun'. injection Hrun' as <- <- <-.
  pose proof (screen_passes sha256 order apiKey r heavy (w_now w) l) as Hp. rewrite Hs in Hp. simpl in Hp.
  split.
  - intros ->. destruct v0 as [v0|]; [by destruct Hv as [<- _]|].
    destruct Hp as (H1 & H2 & H3 & H4). destruct Hv as (e & He & Hg).
    destruct (Hg eq_refl) as [-> Hn]. destruct (Enforce_run (trim_space (rq_panel r)) w) as (r0 & w0 & Hr & Hspec & _).
    rewrite He in Hr. injection Hr as <- <-. destruct Hspec as (rec & Hl & Ha & _).
    split_and!; try done. by exists rec.
  - intros Hne. destruct v0 as [v0|].
    + destruct Hv as [-> ->]. done.
    + by destruct Hp as [H1 _].
Qed.
End guesses.

Definition demo_api_key : string := "0123456789abcdef0123456789abcdef".
Definition demo_request (key : string) : request := mkRequest key "198.51.100.7:40000" "panel-a" "3".

(** Twelve guesses a second apart: the last two are not looked at. *)
Definition guess_run : list (Z * (request * bool)) :=
  map (fun n => ((1700000000 + Z.of_nat n) * second, (demo_request "wrong", false))%Z) (seq 0 12).

Lemma guess_keys now r heavy :
  (now, (r, heavy)) ∈ guess_run -> keyFor demo_sha (clientAddr r) ∈ ({[demo_key]} : gset string).
Proof. intros H. apply list_elem_of_fmap in H as (n & [= -> -> ->] & _). by apply elem_of_singleton. Qed.


Lemma authorize_is_sound_witness :
  exists l' w', authorize demo_sha demo_order demo_api_key (demo_request demo_api_key) true New demo_world =
      (inr (Granted, l'), w') /\ (3 <= ContractVersion)%Z /\
    exists rec, lease (w_files demo_world) = Some rec.
Proof.
  destruct (authorize demo_sha demo_order demo_api_key (demo_request demo_api_key) true New demo_world)
    as [[e|[v l']] w'] eqn:Hrun.
  - exfalso. assert ((authorize demo_sha demo_order demo_api_key (demo_request demo_api_key) true New
      demo_world).1 = inl e) as H by (rewrite Hrun; reflexivity). vm_compute in H. discriminate.
  - assert (v = Granted) as ->.
    { assert ((fun r => match r with inr (v, _) => Some v | inl _ => None end)
        (authorize demo_sha demo_order demo_api_key (demo_request demo_api_key) true New demo_world).1 = Some v)
        as H by (rewrite Hrun; reflexivity). vm_compute in H. injection H as <-. reflexivity. }
    destruct (authorize_is_sound demo_sha demo_order _ _ _ _ _ _ _ _ Hrun) as [H _].
    destruct (H eq_refl) as (_ & _ & _ & _ & (rec & Hrec & _) & Hn). exists l', w'. split; [reflexivity|].
    split; [apply Hn; vm_compute; reflexivity|exists rec; exact Hrec].
Defined.
