(* ===== verification/Config.v ===== *)
(** * Config: internal/fsx/paths.go, internal/config/config.go and
    internal/ovpn/settings.go.

    The environment of a node: the .env file and the process environment, the
    paths and the numeric settings derived from them. *)

From S2P Require Import Prelude GoString NetIP.
From Stdlib Require Import Ascii.

(** ** The environment *)

Record environ : Type := mkEnviron {
  ev_file : gmap string string;   (** the values of the .env file *)
  ev_proc : gmap string string    (** the process environment *)
}.

Definition is_quote (c : ascii) : bool := Ascii.eqb c dquote || byte_in 39 39 c.

(** One line of the .env file. *)
Definition env_line (out : gmap string string) (line : string) : gmap string string :=
  let line := trim_space line in
  if str_empty line || has_prefix line "#" || negb (contains line "=") then out
  else
    let '(k, v, _) := cut "=" line in
    let k := trim_space k in
    let v := trim_set is_quote (trim_space v) in
    if str_empty k then out else <[k := v]> out.

Definition parse_env_file (data : string) : gmap string string := foldl env_line ∅ (split nl data).

(** [loadEnvFile]: the candidate files in order, [None] where the file cannot
    be read; the first one that can be read counts. *)
Definition loadEnvFile (files : list (option string)) : gmap string string :=
  match omap id files with
  | data :: _ => parse_env_file data
  | [] => ∅
  end.

Definition envOr (e : environ) (name fallback : string) : string :=
  let v := default "" (ev_file e !! name) in
  if negb (str_empty v) then v
  else match ev_proc e !! name with
       | Some v => if str_empty v then fallback else v
       | None => fallback
       end.

Definition EnvOr : environ -> string -> string -> string := envOr.
Definition Env (e : environ) (name defaultVal : string) : string :=
  envOr e ("OVNODE_" +:+ str_map upper_char name) defaultVal.

(** ** Paths ([path/filepath] on a Unix host) *)

(** [filepath.Clean]: the elements left after dropping empty ones and dots and
    resolving the parents. *)
Definition clean_step (rooted : bool) (out : list string) (e : string) : list string :=
  if str_empty e || String.eqb e "." then out
  else if String.eqb e ".." then
    match out with
    | last :: rest => if String.eqb last ".." then e :: out else rest
    | [] => if rooted then [] else [e]
    end
  else e :: out.

Definition Clean (path : string) : string :=
  let rooted := has_prefix path "/" in
  let body := join "/" (rev (foldl (clean_step rooted) [] (split "/" path))) in
  if rooted then "/" +:+ body else if str_empty body then "." else body.

(** [filepath.Join]. *)
Definition Join (parts : list string) : string :=
  match filter (fun p => str_empty p = false) parts with
  | [] => ""
  | ps => Clean (join "/" ps)
  end.

(** [filepath.Base]. *)
Definition Base (path : string) : string :=
  let p := trim_right_set (fun c => Ascii.eqb c "/") path in
  if str_empty p then (if str_empty path then "." else "/")
  else match rcut "/" p with Some (_, f) => f | None => p end.

Definition DefaultOpenVPNRoot : string := "/etc/openvpn".
Definition OpenVPNRoot (e : environ) : string := envOr e "OVNODE_OPENVPN_ROOT" DefaultOpenVPNRoot.
Definition IsInstalledTree (e : environ) : bool := String.eqb (Clean (OpenVPNRoot e)) DefaultOpenVPNRoot.
Definition joinRoot (e : environ) (parts : list string) : string := Join (OpenVPNRoot e :: parts).

Definition EasyRSADir (e : environ) : string := joinRoot e ["server"; "easy-rsa"].
Definition PKIDir (e : environ) : string := joinRoot e ["server"; "pki"].
Definition ServerConf (e : environ) : string := joinRoot e ["server"; "server.conf"].
Definition ClientTemplate (e : environ) : string := joinRoot e ["server"; "client-common.txt"].
Definition TLSKey (e : environ) : string := joinRoot e ["server"; "tls.key"].
Definition CACert (e : environ) : string := Join [PKIDir e; "ca.crt"].
Definition ServerCert (e : environ) : string := Join [PKIDir e; "issued"; "server.crt"].
Definition ServerKey (e : environ) : string := Join [PKIDir e; "private"; "server.key"].
Definition CRLFile (e : environ) : string := Join [PKIDir e; "crl.pem"].
Definition PIDFile (e : environ) : string := joinRoot e ["server"; "ovnode.pid"].
Definition MgmtPassFile (e : environ) : string :=
  envOr e "OVNODE_MGMT_PASS_FILE" (joinRoot e ["server"; "mgmt-pass"]).
Definition StatusFile (e : environ) : string :=
  envOr e "OVNODE_STATUS_FILE" (joinRoot e ["server"; "status.log"]).
Definition LogDir (e : environ) : string := envOr e "OVNODE_LOG_DIR" "/var/log/ovnode".
Definition LogFile (e : environ) : string := envOr e "OVNODE_LOG_FILE" (Join [LogDir e; "hook-events.log"]).

Definition OVNodeDir (e : environ) : string :=
  let v := envOr e "OVNODE_DATA_DIR" "" in
  if negb (str_empty v) then v
  else
    let v := envOr e "DATA_DIR" "" in
    if negb (str_empty v) then v else "/var/lib/ovnode".

Definition UsersDir (e : environ) : string := envOr e "OVNODE_USERS_DIR" (Join [OVNodeDir e; "users"]).
Definition SessionsDir (e : environ) : string := envOr e "OVNODE_SESSIONS_DIR" (Join [OVNodeDir e; "sessions"]).
Definition UsageDir (e : environ) : string := envOr e "OVNODE_USAGE_DIR" (Join [OVNodeDir e; "usage"]).

(** ** The hook configuration *)

Definition DefaultMgmtHost : string := "127.0.0.1".
Definition DefaultMgmtPort : Z := 7505.
Definition DefaultSessionTTL : Z := 86400.

Record Hook : Type := mkHookConf {
  hk_users : string; hk_sessions : string; hk_usage : string; hk_status : string;
  hk_log_dir : string; hk_log_file : string; hk_mgmt_host : string; hk_mgmt_port : Z;
  hk_mgmt_pass : string; hk_root : string; hk_ttl : Z
}.

(** A number of the environment: its value, and whether it was refused. *)
Definition numeric (v : string) (ok : Z -> bool) (def : Z) : Z * bool :=
  if str_empty v then (def, false)
  else match atoi v with
       | Some n => if ok n then (n, false) else (def, true)
       | None => (def, true)
       end.

(** The configuration and the lines for the hook event log. *)
Definition HookFromEnv (e : environ) : Hook * list string :=
  let pv := EnvOr e "OVNODE_MANAGEMENT_PORT" "" in
  let tv := EnvOr e "OVNODE_SESSION_TTL" "" in
  let '(port, bad_port) := numeric pv (fun p => (1 <=? p)%Z && (p <=? 65535)%Z) DefaultMgmtPort in
  let '(ttl, bad_ttl) := numeric tv (fun t => (0 <? t)%Z) DefaultSessionTTL in
  (mkHookConf (UsersDir e) (SessionsDir e) (UsageDir e) (StatusFile e) (LogDir e) (LogFile e)
     (EnvOr e "OVNODE_MANAGEMENT_HOST" (EnvOr e "OVNODE_MGMT_HOST" DefaultMgmtHost)) port
     (MgmtPassFile e) (OpenVPNRoot e) ttl,
   (if bad_port then ["OVNODE_MANAGEMENT_PORT invalid (" +:+ pv +:+ "); falling back to "
                      +:+ itoa DefaultMgmtPort] else []) ++
   (if bad_ttl then ["OVNODE_SESSION_TTL invalid (" +:+ tv +:+ "); falling back to "
                     +:+ itoa DefaultSessionTTL] else [])).

(** ** Settings of OpenVPN *)

Definition envInt (e : environ) (name : string) (defaultVal : Z) : Z :=
  let v := Env e name "" in
  if str_empty v then defaultVal else default defaultVal (atoi v).

Definition ManagementPort (e : environ) : Z :=
  let port := envInt e "MANAGEMENT_PORT" 7505 in
  if (port <? 1)%Z || (65535 <? port)%Z then 7505 else port.

(** The hash of the instance, in [int] arithmetic; the paths are ASCII. *)
Definition hash_step (h : Z) (c : ascii) : Z := to_i64 (to_i64 (h * 31) + Z.of_N (N_of_ascii c)).
Definition instance_hash (s : string) : Z := foldl hash_step 0%Z (String.list_ascii_of_string s).

(** Go's [%] truncates towards zero. *)
Definition subnet_octet (h : Z) : Z := (Z.rem h 253 + 1)%Z.

Definition VPNNetwork (e : environ) : string :=
  let v := Env e "VPN_NETWORK" "" in
  if negb (str_empty v) then v
  else
    let dataDir := OVNodeDir e in
    let root := OpenVPNRoot e in
    if String.eqb dataDir "/var/lib/ovnode" && String.eqb root "/etc/openvpn" then "10.66.0.0"
    else "10.66." +:+ itoa (subnet_octet (instance_hash (dataDir +:+ "|" +:+ root))) +:+ ".0".

Definition VPNNetmask (e : environ) : string := Env e "VPN_NETMASK" "255.255.255.0".
Definition VPNSubnet (e : environ) : string :=
  let net := VPNNetwork e in
  if negb (has_suffix net ".0") then net +:+ "/24" else net +:+ "/24".
Definition VPNDNS (e : environ) : string * string := (Env e "VPN_DNS1" "1.1.1.1", Env e "VPN_DNS2" "8.8.8.8").
Definition MaxClients (e : environ) : Z :=
  let n := envInt e "MAX_CLIENTS" 250 in if (n <? 1)%Z then 250 else n.

(** The words read as true. *)
Definition truthy (v : string) : bool :=
  String.eqb v "1" || String.eqb v "true" || String.eqb v "yes" || String.eqb v "on".

Definition IPv6Enabled (e : environ) : bool := truthy (to_lower (Env e "ENABLE_IPV6" "0")).
Definition IPv6Prefix (e : environ) : string := Env e "IPV6_PREFIX" "fd42:42:42:42::/64".

Definition OpenVPNPort (e : environ) : Z :=
  let v := EnvOr e "OPENVPN_PORT" "" in
  if str_empty v then 1194 else default 1194%Z (atoi v).
