(* ===== verification/Policy.v ===== *)
(** * Policy: internal/policy/policy.go.

    The desired state of a node the panel pushes: the extra ports, the DNS
    servers and IPv6, kept in small files of the data directory, and the
    rewriting of the DNS lines of server.conf. *)

From S2P Require Import Prelude GoString NetIP Names Cache World Config.
From Stdlib Require Import Ascii.

(** ** Ports *)

(** [envInt] of this package trims the value first. *)
Definition policy_int (e : environ) (name : string) (def : Z) : Z :=
  let v := trim_space (Env e name "") in
  if str_empty v then def else default def (atoi v).

Definition web_switches : list string :=
  ["OVNODE_ALLOW_EXTRA_WEB_PORTS"; "OVNODE_ALLOW_PRIVILEGED_EXTRA_PORTS"; "ALLOW_EXTRA_WEB_PORTS";
   "ALLOW_PRIVILEGED_EXTRA_PORTS"].

Definition allowWebExtraPorts (e : environ) : bool :=
  existsb (fun name => truthy (to_lower (trim_space (Env e name "")))) web_switches.

Definition reservedExtraPorts (e : environ) (primary : Z) : gset Z :=
  let m : gset Z := {[22%Z; primary; 7505%Z; 2083%Z]} in
  let mp := policy_int e "MANAGEMENT_PORT" 7505 in
  let m := if (0 <? mp)%Z then {[mp]} ∪ m else m in
  let ap := policy_int e "SERVICE_PORT" 2083 in
  let m := if (0 <? ap)%Z then {[ap]} ∪ m else m in
  if allowWebExtraPorts e then m else {[80%Z; 443%Z]} ∪ m.

(** [strings.FieldsFunc] with the commas and semicolons as separators. *)
Fixpoint port_fields_go (acc s : string) : list string :=
  match s with
  | "" => if str_empty acc then [] else [acc]
  | String c s' =>
      if Ascii.eqb c "," || Ascii.eqb c ";"
      then (if str_empty acc then port_fields_go "" s' else acc :: port_fields_go "" s')
      else port_fields_go (acc +:+ str1 c) s'
  end.
Definition port_fields (s : string) : list string := port_fields_go "" s.

(** The strict loop over the tokens; [inl] is its error. *)
Fixpoint validate_ports (reserved : gset Z) (toks : list string) (out : list Z) : goerr + list Z :=
  match toks with
  | [] => inr out
  | tok :: toks' =>
      let tok := trim_space tok in
      if str_empty tok then validate_ports reserved toks' out
      else match atoi tok with
           | None => inl (Errorf ("invalid extra port " +:+ tok))
           | Some n =>
               if (n <? 1)%Z || (65535 <? n)%Z then inl (Errorf ("extra port " +:+ itoa n +:+ " out of range"))
               else if bool_decide (n ∈ reserved) then inl (Errorf ("extra port " +:+ itoa n +:+ " is reserved"))
               else if bool_decide (n ∈ out) then validate_ports reserved toks' out
               else if (16 <=? length out)%nat then inl (Errorf "too many extra ports (max 16)")
               else validate_ports reserved toks' (out ++ [n])
           end
  end.

Definition ValidateExtraPorts (e : environ) (raw : string) (primary : Z) : goerr + list Z :=
  validate_ports (reservedExtraPorts e primary) (port_fields raw) [].

(** The lenient loop skips what it cannot use and stops at sixteen ports. *)
Fixpoint lenient_ports (reserved : gset Z) (primary : Z) (toks : list string) (out : list Z) : list Z :=
  match toks with
  | [] => out
  | tok :: toks' =>
      let tok := trim_space tok in
      if str_empty tok then lenient_ports reserved primary toks' out
      else match atoi tok with
           | None => lenient_ports reserved primary toks' out
           | Some n =>
               if (n <? 1)%Z || (65535 <? n)%Z then lenient_ports reserved primary toks' out
               else if bool_decide (n ∈ reserved) || (n =? primary)%Z || bool_decide (n ∈ out)
               then lenient_ports reserved primary toks' out
               else if (16 <=? length out)%nat then out
               else lenient_ports reserved primary toks' (out ++ [n])
           end
  end.

Definition ParseExtraPorts (e : environ) (raw : string) (primary : Z) : list Z :=
  match ValidateExtraPorts e raw primary with
  | inr out => out
  | inl _ => lenient_ports (reservedExtraPorts e primary) primary (port_fields raw) []
  end.

(** [ExtraVPNPorts] of internal/ovpn/settings.go. *)
Definition ExtraVPNPorts (e : environ) : list Z :=
  let raw := Env e "EXTRA_PORTS" "" in
  let raw := default raw (ev_proc e !! "OVNODE_EXTRA_PORTS") in
  ParseExtraPorts e raw (OpenVPNPort e).

Definition joinInts (ns : list Z) : string := join "," (map itoa ns).

Definition PortsStatePath : loc := LData "ports".
Definition DNSStatePath : loc := LData "dns".
Definition IPv6StatePath : loc := LData "ipv6".

Record PortsState : Type := mkPorts { ps_ports : list Z; ps_pinned : bool }.

(** The lines of the file in order; an empty value ends the loop. *)
Fixpoint read_port_lines (e : environ) (lines : list string) (st : PortsState) : PortsState :=
  match lines with
  | [] => st
  | line :: lines' =>
      let line := trim_space line in
      if negb (has_prefix line "ports=") then read_port_lines e lines' st
      else
        let val := trim_prefix line "ports=" in
        if str_empty val then mkPorts [] true
        else read_port_lines e lines' (mkPorts (ParseExtraPorts e val 0) true)
  end.

Definition ReadPortsState (e : environ) : M PortsState :=
  r <- try (read_file PortsStatePath) ;;
  match r with
  | inl _ => mret (mkPorts [] false)
  | inr data => mret (read_port_lines e (split nl data) (mkPorts [] false))
  end.

(** The file says this already; an unreadable file counts as empty. *)
Definition unchanged (path : loc) (desired : string) : M bool :=
  present <- stat_file path ;;
  if present : bool then
    old <- try (read_file path) ;;
    mret (String.eqb (trim_space (match old with inr d => d | inl _ => "" end)) desired)
  else mret false.

Definition WritePortsState (ports : list Z) : M bool :=
  let desired := match ports with [] => "ports=" | _ => "ports=" +:+ joinInts ports end in
  same <- unchanged PortsStatePath desired ;;
  if same : bool then mret false
  else
    ignore (mkdir "data") ;;
    r <- try (WriteFileAtomic PortsStatePath (desired +:+ str1 nl)) ;;
    mret (match r with inl _ => false | inr _ => true end).

Definition PortsEffective (e : environ) (defaultPorts : list Z) : M (list Z) :=
  st <- ReadPortsState e ;;
  mret (if ps_pinned st then ps_ports st else defaultPorts).

(** ** The NAT configuration *)

(** A [key=value] line of the NAT file. *)
Definition nat_enabled_line (st : bool * bool) (line : string) : bool * bool :=
  let '(k, v, ok) := cut "=" (trim_space line) in
  if ok && String.eqb (trim_space k) "VPN_NAT_ENABLED" then
    let v := trim_space v in
    (String.eqb v "1" || equal_fold v "true" || equal_fold v "yes", true)
  else st.

Definition nat_content (enabled : bool) (primaryPort : Z) (extraPorts : list Z) : string :=
  "# OVNode NAT configuration" +:+ str1 nl +:+ "VPN_NAT_ENABLED=" +:+ (if enabled then "1" else "0") +:+ str1 nl +:+
  "VPN_PRIMARY_PORT=" +:+ itoa primaryPort +:+ str1 nl +:+ "VPN_EXTRA_PORTS=" +:+ joinInts extraPorts +:+ str1 nl.

(** [apply] tells whether the node's binary, run as [nat apply], succeeds. *)
Definition SyncNATConfig (natConf : loc) (apply : World -> bool) (primaryPort : Z) (extraPorts : list Z) : M unit :=
  r <- try (read_file natConf) ;;
  match r with
  | inl _ => mret tt
  | inr data =>
      let '(enabled, keySeen) := foldl nat_enabled_line (true, false) (split nl data) in
      let enabled := if keySeen then enabled else true in
      w <- try (WriteFileAtomic natConf (nat_content enabled primaryPort extraPorts)) ;;
      match w with
      | inl _ => throw (Errorf "policy: write nat config")
      | inr _ =>
          if negb enabled then mret tt
          else
            ok <- gets apply ;;
            if ok : bool then mret tt
            else
              ignore (WriteFileAtomic natConf data) ;;
              throw (Errorf "policy: nat apply")
      end
  end.

(** ** DNS *)

Record DNSState : Type := mkDNS { dns1 : string; dns2 : string }.

Definition dns_line (st : DNSState) (line : string) : DNSState :=
  let '(k, v, ok) := cut "=" (trim_space line) in
  if negb ok then st
  else if String.eqb k "dns1" then mkDNS v (dns2 st)
  else if String.eqb k "dns2" then mkDNS (dns1 st) v
  else st.

Definition ReadDNSState : M DNSState :=
  r <- try (read_file DNSStatePath) ;;
  match r with
  | inl _ => mret (mkDNS "" "")
  | inr data => mret (foldl dns_line (mkDNS "" "") (split nl data))
  end.

(** Writing through a temporary file whose errors the code ignores: [reaches]
    is what of the text reaches the file; the location of the temporary file
    decides whether it can be created. *)
Definition write_ignoring (reaches : string -> string) (tmp path : loc) (data : string) : M bool :=
  ignore (mkdir "data") ;;
  t <- try (WriteFileAtomic tmp "") ;;
  match t with
  | inl _ => mret false
  | inr _ =>
      r <- try (WriteFileAtomic path (reaches data)) ;;
      (match r with inl _ => mret tt | inr _ => ignore (remove_file tmp) end) ;;
      mret true
  end.

Definition WriteDNSState (reaches : string -> string) (d1 d2 : string) : M bool :=
  let lines := (if str_empty d1 then [] else ["dns1=" +:+ d1]) ++ (if str_empty d2 then [] else ["dns2=" +:+ d2]) in
  let desired := join (str1 nl) lines in
  same <- unchanged DNSStatePath desired ;;
  if same : bool then mret false
  else write_ignoring reaches (LData ".dns-") DNSStatePath
         (if str_empty desired then "" else desired +:+ str1 nl).

Definition DNSEffective (def1 def2 : string) : M (list string) :=
  st <- ReadDNSState ;;
  let v1 := if str_empty (dns1 st) then def1 else dns1 st in
  let v2 := if str_empty (dns2 st) then def2 else dns2 st in
  mret ((if str_empty v1 then [] else [v1]) ++ (if str_empty v2 then [] else [v2])).

(** An address in the form [net.IP.String] prints, or nothing. *)
Definition ValidateIP (s : string) : string :=
  let ip := trim_space s in
  if str_empty ip then "" else match ParseIP ip with Some a => IPString a | None => "" end.

(** The network of an IPv6 prefix with its length, or nothing. *)
Definition ValidatePrefix (s : string) : string :=
  let candidate := trim_space s in
  if str_empty candidate || negb (contains candidate "/") then ""
  else match ParseCIDR candidate with
       | Some (_, net, n) =>
           match To4 net with Some _ => "" | None => IPString net +:+ "/" +:+ itoa n end
       | None => ""
       end.

(** ** IPv6 *)

Record IPv6State : Type := mkIPv6 { ip6_enabled : string; ip6_prefix : string }.

Definition ipv6_line (st : IPv6State) (line : string) : IPv6State :=
  let '(k, v, ok) := cut "=" (trim_space line) in
  if negb ok then st
  else if String.eqb k "enabled" then mkIPv6 v (ip6_prefix st)
  else if String.eqb k "prefix" then mkIPv6 (ip6_enabled st) v
  else st.

Definition ReadIPv6State : M IPv6State :=
  r <- try (read_file IPv6StatePath) ;;
  match r with
  | inl _ => mret (mkIPv6 "" "")
  | inr data => mret (foldl ipv6_line (mkIPv6 "" "") (split nl data))
  end.

Definition WriteIPv6State (reaches : string -> string) (enabled : bool) (prefix : string) : M bool :=
  let desired := "enabled=" +:+ (if enabled then "1" else "0") +:+ str1 nl +:+ "prefix=" +:+ prefix in
  same <- unchanged IPv6StatePath desired ;;
  if same : bool then mret false
  else write_ignoring reaches (LData ".ipv6-") IPv6StatePath (desired +:+ str1 nl).

Definition IPv6Effective (defEnabled : bool) (defPrefix : string) : M (bool * string) :=
  st <- ReadIPv6State ;;
  let en := trim_space (ip6_enabled st) in
  let pf := trim_space (ip6_prefix st) in
  mret (if str_empty en then defEnabled else truthy (to_lower en), if str_empty pf then defPrefix else pf).

(** ** server.conf *)

Definition dns_mark : string := "push " +:+ str1 dquote +:+ "dhcp-option DNS".
Definition gateway_mark : string := "push " +:+ str1 dquote +:+ "redirect-gateway".
Definition dns_push (s : string) : string :=
  "push " +:+ str1 dquote +:+ "dhcp-option DNS " +:+ s +:+ str1 dquote.

(** The index of the first line with a property. *)
Fixpoint line_index (p : string -> bool) (lines : list string) : option nat :=
  match lines with
  | [] => None
  | ln :: lines' => if p ln then Some 0%nat else S <$> line_index p lines'
  end.

Definition RewritePushDNS (conf : string) (servers : list string) : string :=
  let out := filter (fun ln => contains ln dns_mark = false) (split nl conf) in
  let idx := match line_index (fun ln => contains ln gateway_mark) out with
             | Some i => Some i
             | None => line_index (fun ln => has_prefix (trim_space ln) "server ") out
             end in
  let insert := map dns_push servers in
  let out := match idx with
             | Some i => take (S i) out ++ insert ++ drop (S i) out
             | None => out ++ insert
             end in
  join (str1 nl) out.

Definition IsReservedPrimaryPort (e : environ) (p : Z) : bool :=
  if (p =? 22)%Z || (p =? 2083)%Z || (p =? 7505)%Z then true
  else
    let mp := policy_int e "MANAGEMENT_PORT" 7505 in
    if (0 <? mp)%Z && (p =? mp)%Z then true
    else
      let sp := policy_int e "SERVICE_PORT" 2083 in
      (0 <? sp)%Z && (p =? sp)%Z.
