(* ===== verification/PolicyProps.v ===== *)
(** * PolicyProps: the properties of the environment and of the pushed policy. *)

From S2P Require Import Prelude GoString Names Cache World NetIP Config Policy.
From Stdlib Require Import Ascii.

(** ** The ports of a push *)

(** A port list the node may redirect to the VPN. *)
Record usable_ports (reserved : gset Z) (ports : list Z) : Prop := {
  up_range : Forall (fun p => (1 <= p <= 65535)%Z) ports;
  up_reserved : Forall (fun p => p ∉ reserved) ports;
  up_nodup : NoDup ports;
  up_length : (length ports <= 16)%nat
}.

Lemma usable_snoc reserved ports n :
  usable_ports reserved ports -> (1 <= n <= 65535)%Z -> n ∉ reserved -> n ∉ ports -> (length ports < 16)%nat ->
  usable_ports reserved (ports ++ [n]).
Proof.
  intros [H1 H2 H3 H4] Hn Hr Hp Hl. split.
  - apply Forall_app. split; [done|]. by constructor.
  - apply Forall_app. split; [done|]. by constructor.
  - apply NoDup_app. split; [done|]. split; [|apply NoDup_singleton].
    intros x Hx. rewrite list_elem_of_singleton. by intros ->.
  - rewrite length_app. simpl. lia.
Qed.

Lemma port_in_range n : ((n <? 1)%Z || (65535 <? n)%Z) = false -> (1 <= n <= 65535)%Z.
Proof. intros H. boolify. lia. Qed.

Lemma validate_usable reserved toks : forall out ports,
  usable_ports reserved out -> validate_ports reserved toks out = inr ports -> usable_ports reserved ports.
Proof.
  induction toks as [|tok toks IH]; intros out ports Hu; cbn [validate_ports]; [by intros [= <-]|].
  destruct (str_empty (trim_space tok)); [by apply IH|]. destruct (atoi (trim_space tok)) as [n|]; [|done].
  destruct (_ || _) eqn:Hr; [done|]. apply port_in_range in Hr.
  case_bool_decide as Hn; [done|]. case_bool_decide as Ho; [by apply IH|].
  destruct (Nat.leb_spec 16 (length out)); [done|]. apply IH. by apply usable_snoc.
Qed.

Lemma lenient_usable reserved primary toks : forall out,
  usable_ports reserved out -> usable_ports reserved (lenient_ports reserved primary toks out).
Proof.
  induction toks as [|tok toks IH]; intros out Hu; cbn [lenient_ports]; [done|].
  destruct (str_empty (trim_space tok)); [by apply IH|].
  destruct (atoi (trim_space tok)) as [n|]; [|by apply IH].
  destruct ((n <? 1)%Z || (65535 <? n)%Z) eqn:Hr; [by apply IH|]. apply port_in_range in Hr.
  destruct (bool_decide (n ∈ reserved) || (n =? primary)%Z || bool_decide (n ∈ out)) eqn:Hs; [by apply IH|].
  apply orb_false_iff in Hs as [Hs Ho]. apply orb_false_iff in Hs as [Hn _].
  apply bool_decide_eq_false in Hn, Ho.
  destruct (Nat.leb_spec 16 (length out)); [done|]. apply IH. by apply usable_snoc.
Qed.

Lemma usable_nil reserved : usable_ports reserved [].
Proof. split; [constructor|constructor|constructor|simpl; lia]. Qed.

Lemma ParseExtraPorts_usable e raw primary :
  usable_ports (reservedExtraPorts e primary) (ParseExtraPorts e raw primary).
Proof.
  unfold ParseExtraPorts, ValidateExtraPorts.
  destruct (validate_ports _ _ []) as [err|out] eqn:Hv.
  - apply lenient_usable, usable_nil.
  - eapply validate_usable; [apply usable_nil|exact Hv].
Qed.

Lemma reserved_always e primary :
  {[22%Z; primary; 7505%Z; 2083%Z]} ⊆ reservedExtraPorts e primary.
Proof. unfold reservedExtraPorts. repeat case_match; set_solver. Qed.

(** The primary port is all that tells two sets of reserved ports apart. *)
Lemma reserved_other e p q n : n <> q -> n ∉ reservedExtraPorts e p -> n ∉ reservedExtraPorts e q.
Proof. unfold reservedExtraPorts. repeat case_match; set_solver. Qed.

(** Writing a list of ports and reading it again. *)
Lemma port_fields_app s : forall acc rest,
  str_forall is_digit s = true -> port_fields_go acc (s +:+ rest) = port_fields_go (acc +:+ s) rest.
Proof.
  induction s as [|c s IH]; intros acc rest Hs; [by rewrite app_nil_r_s|].
  rewrite app_cons_s. simpl in Hs. apply andb_true_iff in Hs as [Hc Hs]. simpl port_fields_go.
  assert (Ascii.eqb c "," || Ascii.eqb c ";" = false) as ->.
  { destruct (Ascii.eqb_spec c ","); [by subst|]. by destruct (Ascii.eqb_spec c ";"); [subst|]. }
  rewrite IH by done. f_equal. by rewrite app_assoc_s.
Qed.

Lemma port_fields_join ports :
  Forall (fun p => 1 <= p)%Z ports -> port_fields (joinInts ports) = map itoa ports.
Proof.
  unfold port_fields, joinInts. induction ports as [|p ports IH]; intros Hp; [done|]. inversion Hp; subst.
  assert (str_forall is_digit (itoa p) = true) as Hd.
  { rewrite itoa_nonneg by lia. apply utoa_digits. }
  assert (itoa p <> "") as Hne by (rewrite itoa_nonneg by lia; apply utoa_ne).
  destruct ports as [|q ports].
  - simpl. rewrite <- (app_nil_r_s (itoa p)), port_fields_app by done. simpl.
    rewrite app_nil_r_s. destruct (itoa p); done.
  - cbn [map]. rewrite join_cons, port_fields_app by done. simpl port_fields_go.
    destruct (itoa p); [done|]. simpl. f_equal. by apply IH.
Qed.

Lemma validate_printed reserved ports : forall out,
  usable_ports reserved (out ++ ports) -> validate_ports reserved (map itoa ports) out = inr (out ++ ports).
Proof.
  induction ports as [|p ports IH]; intros out Hu; cbn [validate_ports map]; [by rewrite app_nil_r|].
  pose proof Hu as [H1 H2 H3 H4].
  apply Forall_app in H1 as [_ H1]. apply Forall_cons in H1 as [Hp _].
  apply Forall_app in H2 as [_ H2]. apply Forall_cons in H2 as [Hr _].
  rewrite trim_space_graph by apply itoa_graph.
  assert (itoa p <> "") as Hne by (rewrite itoa_nonneg by lia; apply utoa_ne).
  destruct (str_empty (itoa p)) eqn:He; [by apply str_empty_true in He|].
  unfold atoi. rewrite parse_int_itoa by (unfold is_i64, two63; lia).
  assert ((p <? 1)%Z || (65535 <? p)%Z = false) as -> by lia.
  rewrite bool_decide_eq_false_2 by done.
  assert (p ∉ out) as Hno.
  { apply NoDup_app in H3 as (_ & H3 & _). intros Hin. apply (H3 p Hin). left. }
  rewrite bool_decide_eq_false_2 by done. rewrite length_app in H4. simpl in H4.
  destruct (Nat.leb_spec 16 (length out)); [lia|].
  replace (out ++ p :: ports) with ((out ++ [p]) ++ ports) by by rewrite <- app_assoc. apply IH.
  by rewrite <- app_assoc.
Qed.

Lemma digits_joined ports : Forall (fun p => 1 <= p)%Z ports -> str_forall is_graph (joinInts ports) = true.
Proof.
  unfold joinInts. induction ports as [|p ports IH]; intros Hp; [done|]. inversion Hp; subst.
  destruct ports as [|q ports]; [apply itoa_graph|].
  cbn [map]. rewrite join_cons, !str_forall_app, itoa_graph. cbn [andb]. by apply IH.
Qed.

Lemma ports_line_read e ports :
  usable_ports (reservedExtraPorts e 0) ports -> Forall (fun p => 1 <= p)%Z ports ->
  read_port_lines e (split nl (match ports with [] => "ports=" | _ => "ports=" +:+ joinInts ports end +:+ str1 nl))
    (mkPorts [] false) = mkPorts ports true.
Proof.
  intros Hu Hp. set (line := match ports with [] => _ | _ => _ end).
  assert (line = "ports=" +:+ joinInts ports) as -> by by destruct ports.
  assert (str_forall is_graph ("ports=" +:+ joinInts ports) = true) as Hg.
  { rewrite str_forall_app. by rewrite (digits_joined ports Hp). }
  assert (split nl (("ports=" +:+ joinInts ports) +:+ str1 nl) = ["ports=" +:+ joinInts ports; ""]) as ->.
  { unfold str1. rewrite split_app; [done|]. by eapply str_forall_no_char; [|exact Hg]. }
  cbn [read_port_lines]. rewrite trim_space_graph, has_prefix_app by done. cbn [negb].
  unfold trim_prefix. rewrite has_prefix_app, str_drop_app. rewrite trim_space_empty. cbn [has_prefix String.prefix negb].
  destruct ports as [|p ports]; [done|].
  assert (ParseExtraPorts e (joinInts (p :: ports)) 0 = p :: ports) as ->.
  { unfold ParseExtraPorts, ValidateExtraPorts. rewrite port_fields_join by done.
    by rewrite (validate_printed _ (p :: ports) []). }
  destruct (str_empty (joinInts (p :: ports))) eqn:He; [|done].
  apply str_empty_true in He. exfalso. pose proof (port_fields_join _ Hp) as Hf. by rewrite He in Hf.
Qed.

Lemma unchanged_state path desired w : (unchanged path desired w).2 = w.
Proof.
  unfold unchanged. rewrite bind_run. unfold stat_file. case_match; [|done].
  rewrite bind_run, try_run. by rewrite read_file_state.
Qed.

(** The text of the port file. *)
Definition ports_text (ports : list Z) : string :=
  match ports with [] => "ports=" | _ => "ports=" +:+ joinInts ports end +:+ str1 nl.

Lemma WritePortsState_true ports w w' :
  WritePortsState ports w = (inr true, w') -> w_files w' !! PortsStatePath = Some (ports_text ports) /\
  w_fault w' = w_fault w.
Proof.
  unfold WritePortsState. cbv zeta. rewrite bind_run.
  pose proof (unchanged_state PortsStatePath match ports with [] => "ports=" | _ => "ports=" +:+ joinInts ports end w)
    as Hu.
  destruct (unchanged _ _ w) as [[e|same] w1]; [done|]. simpl in Hu. subst w1. destruct same; [done|].
  rewrite bind_run, ignore_mkdir, bind_run, try_run. unfold WriteFileAtomic.
  destruct (w_fault w _); [done|]. cbn. intros [= <-]. split; [|done]. apply lookup_insert_eq.
Qed.

(** What the panel pushes as extra ports is what the node redirects.  A
    list the strict parser accepts has at most sixteen different ports between
    1 and 65535, none of them the primary port, SSH, the management port or
    the API port; and once the node reports that it stored the list, reading
    the port file back gives exactly that list, marked as pinned. *)
Theorem pushed_ports_round_trip e raw primary ports w w' :
  ValidateExtraPorts e raw primary = inr ports ->
  WritePortsState ports w = (inr true, w') -> w_fault w (OpRead PortsStatePath) = false ->
  (length ports <= 16)%nat /\ NoDup ports /\
  Forall (fun p => (1 <= p <= 65535)%Z /\ p <> primary /\ p <> 22%Z /\ p <> 7505%Z /\ p <> 2083%Z) ports /\
  ReadPortsState e w' = (inr (mkPorts ports true), w').
Proof.
  intros Hv Hw Hf. pose proof (validate_usable _ _ _ _ (usable_nil _) Hv) as Hu.
  destruct Hu as [H1 H2 H3 H4]. split; [done|]. split; [done|]. split.
  { rewrite Forall_forall in H1, H2 |- *. intros p Hp. split; [by apply H1|].
    specialize (H2 p Hp). pose proof (reserved_always e primary). set_solver. }
  apply WritePortsState_true in Hw as [Hfile Hfault]. unfold ReadPortsState.
  rewrite bind_run, try_run, read_file_run by by rewrite Hfault. rewrite Hfile. cbn [fst snd].
  unfold ports_text. rewrite ports_line_read; [done| |].
  - split; [done| |done|done]. rewrite Forall_forall in H1, H2 |- *. intros p Hp.
    apply (reserved_other e primary); [specialize (H1 p Hp); lia|by apply H2].
  - eapply Forall_impl; [exact H1|]. simpl. lia.
Qed.

Definition demo_environ : environ := mkEnviron ∅ ∅.

Lemma pushed_ports_round_trip_witness :
  exists w', WritePortsState [1195%Z; 8443%Z] demo_world = (inr true, w') /\
    ReadPortsState demo_environ w' = (inr (mkPorts [1195%Z; 8443%Z] true), w').
Proof.
  destruct (WritePortsState [1195%Z; 8443%Z] demo_world) as [r w'] eqn:Hw.
  assert (r = inr true) as ->.
  { change r with (r, w').1. rewrite <- Hw. vm_compute. reflexivity. }
  destruct (pushed_ports_round_trip demo_environ "1195; 8443,1195" 1194 [1195%Z; 8443%Z] demo_world w'
    ltac:(vm_compute; reflexivity) Hw eq_refl) as (_ & _ & _ & H).
  exists w'. split; [reflexivity|exact H].
Defined.

(** ** The DNS lines of server.conf *)

Definition is_dns (ln : string) : bool := contains ln dns_mark.

Lemma dns_push_is_dns s : is_dns (dns_push s) = true.
Proof.
  unfold is_dns. replace (dns_push s) with (dns_mark +:+ (" " +:+ s +:+ str1 dquote)); [apply contains_prefix|].
  unfold dns_push, dns_mark. by rewrite !app_assoc_s.
Qed.

(** The lines of the rewritten file, from the lines that are kept. *)
Definition with_dns (out : list string) (insert : list string) : list string :=
  let idx := match line_index (fun ln => contains ln gateway_mark) out with
             | Some i => Some i
             | None => line_index (fun ln => has_prefix (trim_space ln) "server ") out
             end in
  match idx with
  | Some i => take (S i) out ++ insert ++ drop (S i) out
  | None => out ++ insert
  end.

Lemma Rewrite_with_dns conf servers :
  RewritePushDNS conf servers =
  join (str1 nl) (with_dns (filter (fun ln => is_dns ln = false) (split nl conf)) (map dns_push servers)).
Proof. unfold RewritePushDNS, with_dns, is_dns. done. Qed.

Lemma filter_pushes servers :
  filter (fun ln => is_dns ln = false) (map dns_push servers) = [] /\
  filter (fun ln => is_dns ln = true) (map dns_push servers) = map dns_push servers.
Proof.
  induction servers as [|s servers [IH1 IH2]]; [done|]. cbn [map].
  rewrite filter_cons_False by by rewrite dns_push_is_dns.
  rewrite filter_cons_True by by rewrite dns_push_is_dns. split; [done|by rewrite IH2].
Qed.

Lemma with_dns_filter out servers :
  Forall (fun ln => is_dns ln = false) out ->
  filter (fun ln => is_dns ln = false) (with_dns out (map dns_push servers)) = out /\
  filter (fun ln => is_dns ln = true) (with_dns out (map dns_push servers)) = map dns_push servers.
Proof.
  intros Ho. destruct (filter_pushes servers) as [F1 F2].
  assert (forall l, Forall (fun ln => is_dns ln = false) l ->
    filter (fun ln => is_dns ln = false) l = l /\ filter (fun ln => is_dns ln = true) l = []) as Hl.
  { induction 1 as [|x l Hx _ [IH1 IH2]]; [done|].
    rewrite filter_cons_True, filter_cons_False by (try done; by rewrite Hx). by rewrite IH1, IH2. }
  unfold with_dns. destruct (match line_index _ out with Some i => Some i | None => _ end) as [i|].
  - destruct (Hl (take (S i) out)) as [T1 T2]; [by apply Forall_take|].
    destruct (Hl (drop (S i) out)) as [D1 D2]; [by apply Forall_drop|].
    rewrite !filter_app, F1, F2, T1, T2, D1, D2. simpl. rewrite app_nil_r. split; [apply take_drop|done].
  - destruct (Hl out Ho) as [O1 O2]. rewrite !filter_app, F1, F2, O1, O2. by rewrite app_nil_r.
Qed.

Lemma with_dns_ne out insert : out <> [] -> with_dns out insert <> [].
Proof.
  intros Hne H. apply Hne. unfold with_dns in H. case_match; [|by apply app_nil in H as [H _]].
  apply app_nil in H as [H1 H2]. apply app_nil in H2 as [_ H2]. rewrite <- (take_drop (S n) out).
  by rewrite H1, H2.
Qed.

Lemma with_dns_no_nl out insert :
  Forall (fun s => no_char nl s = true) out -> Forall (fun s => no_char nl s = true) insert ->
  Forall (fun s => no_char nl s = true) (with_dns out insert).
Proof.
  intros Ho Hi. unfold with_dns. case_match; rewrite !Forall_app; split_and!; try done.
  - by apply Forall_take.
  - by apply Forall_drop.
Qed.

(** The lines of a rewritten file. *)
Lemma Rewrite_lines conf servers :
  Forall (fun s => no_char nl s = true) servers ->
  (exists ln, ln ∈ split nl conf /\ is_dns ln = false) ->
  split nl (RewritePushDNS conf servers) =
  with_dns (filter (fun ln => is_dns ln = false) (split nl conf)) (map dns_push servers).
Proof.
  intros Hs (ln & Hin & Hln). rewrite Rewrite_with_dns. apply split_join.
  - apply with_dns_ne. intros H. assert (ln ∈ (@nil string)) as Hbad; [|by apply elem_of_nil in Hbad].
    rewrite <- H. by apply list_elem_of_filter.
  - apply with_dns_no_nl.
    + apply Forall_forall. intros x [_ Hx]%list_elem_of_filter.
      pose proof (split_no_char nl conf) as Hall. rewrite Forall_forall in Hall. by apply Hall.
    + apply Forall_map. eapply Forall_impl; [exact Hs|]. intros s Hc. simpl.
      unfold dns_push. rewrite !no_char_app, Hc. done.
Qed.

(** Rewriting the DNS servers of server.conf touches nothing else.  The
    DNS lines of the result are exactly those of the new servers, in order;
    the other lines are those of the file, in their order; and rewriting again
    with the same servers changes nothing. *)
Theorem rewrite_dns_is_exact conf servers :
  Forall (fun s => no_char nl s = true) servers ->
  (exists ln, ln ∈ split nl conf /\ is_dns ln = false) ->
  filter (fun ln => is_dns ln = true) (split nl (RewritePushDNS conf servers)) = map dns_push servers /\
  filter (fun ln => is_dns ln = false) (split nl (RewritePushDNS conf servers)) =
    filter (fun ln => is_dns ln = false) (split nl conf) /\
  RewritePushDNS (RewritePushDNS conf servers) servers = RewritePushDNS conf servers.
Proof.
  intros Hs Hex. pose proof (Rewrite_lines conf servers Hs Hex) as Hl.
  destruct (with_dns_filter (filter (fun ln => is_dns ln = false) (split nl conf)) servers) as [F1 F2].
  { apply Forall_forall. by intros x [Hx _]%list_elem_of_filter. }
  rewrite Hl. split; [done|]. split; [done|].
  rewrite (Rewrite_with_dns (RewritePushDNS conf servers)), Hl, F1. by rewrite <- Rewrite_with_dns.
Qed.

Definition demo_conf : string :=
  join (str1 nl) ["port 1194"; "server 10.66.0.0 255.255.255.0"; dns_push "8.8.8.8"; "keepalive 10 60"; ""].

Lemma rewrite_dns_is_exact_witness :
  filter (fun ln => is_dns ln = true) (split nl (RewritePushDNS demo_conf ["1.1.1.1"; "9.9.9.9"])) =
    [dns_push "1.1.1.1"; dns_push "9.9.9.9"] /\
  RewritePushDNS demo_conf ["1.1.1.1"; "9.9.9.9"] = join (str1 nl)
    ["port 1194"; "server 10.66.0.0 255.255.255.0"; dns_push "1.1.1.1"; dns_push "9.9.9.9"; "keepalive 10 60"; ""].
Proof.
  split; [|vm_compute; reflexivity].
  apply (rewrite_dns_is_exact demo_conf ["1.1.1.1"; "9.9.9.9"]).
  - repeat constructor.
  - exists "port 1194". split; [vm_compute; apply list_elem_of_here|reflexivity].
Defined.

(** ** Numeric settings *)

Lemma numeric_ok v ok def : ok def = true -> ok (numeric v ok def).1 = true.
Proof.
  intros Hd. unfold numeric. destruct (str_empty v); [done|]. destruct (atoi v) as [n|]; [|done].
  by destruct (ok n) eqn:Hn.
Qed.

(** A broken environment never breaks the numbers the node runs on.
    Whatever the .env file and the process environment say, the management
    port of the hooks and of the agent is a port, the session lifetime of the
    purge is positive and the client limit of OpenVPN at least one; and a
    value is replaced by the default only together with a line in the hook
    log. *)
Theorem settings_in_range e :
  let '(h, log) := HookFromEnv e in
  (1 <= hk_mgmt_port h <= 65535)%Z /\ (0 < hk_ttl h)%Z /\
  (1 <= ManagementPort e <= 65535)%Z /\ (1 <= MaxClients e)%Z /\
  (forall n, atoi (EnvOr e "OVNODE_MANAGEMENT_PORT" "") = Some n -> n <> hk_mgmt_port h -> log <> []).
Proof.
  unfold HookFromEnv. cbv zeta.
  pose proof (numeric_ok (EnvOr e "OVNODE_MANAGEMENT_PORT" "") (fun p => (1 <=? p)%Z && (p <=? 65535)%Z)
    DefaultMgmtPort eq_refl) as Hp.
  pose proof (numeric_ok (EnvOr e "OVNODE_SESSION_TTL" "") (fun t => (0 <? t)%Z) DefaultSessionTTL eq_refl) as Ht.
  destruct (numeric _ (fun p => (1 <=? p)%Z && (p <=? 65535)%Z) _) as [port bad] eqn:Hn.
  destruct (numeric _ (fun t => (0 <? t)%Z) _) as [ttl bad']. simpl in Hp, Ht |- *. boolify.
  split; [lia|]. split; [lia|]. split.
  { unfold ManagementPort. cbv zeta. destruct (Z.ltb_spec (envInt e "MANAGEMENT_PORT" 7505) 1); simpl; [lia|].
    destruct (Z.ltb_spec 65535 (envInt e "MANAGEMENT_PORT" 7505)); lia. }
  split.
  { unfold MaxClients. cbv zeta. destruct (Z.ltb_spec (envInt e "MAX_CLIENTS" 250) 1); lia. }
  intros n Ha Hne. unfold numeric in Hn.
  destruct (str_empty (EnvOr e "OVNODE_MANAGEMENT_PORT" "")) eqn:He.
  - apply str_empty_true in He. rewrite He in Ha. by vm_compute in Ha.
  - rewrite Ha in Hn. destruct (_ && _); injection Hn as <- <-; done.
Qed.

(** ** The derived subnet *)

Lemma octet_range h : (-251 <= subnet_octet h <= 253)%Z.
Proof. unfold subnet_octet. pose proof (Z.rem_bound_abs h 253 ltac:(done)). lia. Qed.

(** A second instance on one host. *)
Definition second_instance : environ :=
  mkEnviron ∅ (<["OVNODE_DATA_DIR" := "/var/lib/ovnode1"]> (<["OVNODE_OPENVPN_ROOT" := "/etc/openvpn1"]> ∅)).

(** The subnet derived for an instance need not be a subnet.  Without an
    explicit network, an instance outside the canonical directories gets
    10.66.o.0 where o lies between -251 and 253: the hash wraps around and the
    remainder keeps its sign.  The second instance above gets 10.66.-246.0,
    which is no IP address. *)
Theorem derived_subnet_octet e :
  Env e "VPN_NETWORK" "" = "" -> ~ (OVNodeDir e = "/var/lib/ovnode" /\ OpenVPNRoot e = "/etc/openvpn") ->
  (exists o, VPNNetwork e = "10.66." +:+ itoa o +:+ ".0" /\ (-251 <= o <= 253)%Z) /\
  VPNNetwork second_instance = "10.66.-246.0" /\ ParseIP (VPNNetwork second_instance) = None.
Proof.
  intros He Hdir. split; [|split; [vm_compute; reflexivity|vm_compute; reflexivity]].
  unfold VPNNetwork. cbv zeta. rewrite He. cbn [str_empty negb].
  destruct (String.eqb_spec (OVNodeDir e) "/var/lib/ovnode") as [H1|H1]; cbn [andb].
  - destruct (String.eqb_spec (OpenVPNRoot e) "/etc/openvpn") as [H2|H2]; [by destruct Hdir|].
    eexists. split; [done|]. apply octet_range.
  - eexists. split; [done|]. apply octet_range.
Qed.

Lemma derived_subnet_octet_witness :
  exists o, VPNNetwork second_instance = "10.66." +:+ itoa o +:+ ".0" /\ (-251 <= o <= 253)%Z.
Proof.
  apply (derived_subnet_octet second_instance); [vm_compute; reflexivity|].
  vm_compute. intros [H _]. discriminate.
Defined.
