(* ===== verification/Float.v ===== *)
(** * Float: the [float64] of the agent, and [strconv.ParseFloat].

    Binary64 as the Standard Library specifies it.  [ParseFloat] reads decimal
    numbers, infinities and NaN; hexadecimal digits and underscores, which no
    file of the agent holds, are refused. *)

From S2P Require Import Prelude GoString Json.
From Stdlib Require Import Ascii SpecFloat.

#[local] Open Scope Z_scope.

Definition float : Type := spec_float.

#[export] Instance float_eq_dec : EqDecision float.
Proof. solve_decision. Defined.

Definition f_of_Z (n : Z) : float := binary_normalize 53 1024 n 0 false.
Definition f_sub (x y : float) : float := SFsub 53 1024 x y.
Definition f_div (x y : float) : float := SFdiv 53 1024 x y.
Definition f_add (x y : float) : float := SFadd 53 1024 x y.
Definition f_mul (x y : float) : float := SFmul 53 1024 x y.
Definition f_ltb (x y : float) : bool := SFltb x y.
Definition f_leb (x y : float) : bool := SFleb x y.
Definition f_zero : float := f_of_Z 0.

(** [int(x)]: toward zero; what does not fit becomes the smallest integer, as
    on amd64. *)
Definition f_to_int (x : float) : Z :=
  let out := - 2 ^ 63 in
  match x with
  | S754_zero _ => 0
  | S754_finite s m e =>
      let n := if 0 <=? e then Zpos m * 2 ^ e else Zpos m / 2 ^ (- e) in
      let v := if s then - n else n in
      if (out <=? v) && (v <? 2 ^ 63) then v else out
  | _ => out
  end.

(** The float nearest to [m * 10 ^ e]. *)
Definition f_of_dec (neg : bool) (m e : Z) : float :=
  match m with
  | Zpos p =>
      if 0 <=? e then binary_normalize 53 1024 (if neg then - (m * 10 ^ e) else m * 10 ^ e) 0 neg
      else let '(q, ex, l) := SFdiv_core_binary 53 1024 m 0 (10 ^ (- e)) 0 in binary_round_aux 53 1024 neg q ex l
  | _ => S754_zero neg
  end.

(** The mantissa and the exponent of a decimal literal; the scan of the
    exponent stops counting at 10000. *)
Definition parse_decimal (s : string) : option (Z * Z) :=
  let '(i, s1) := take_digits s in
  let '(f, s2) := match s1 with String "." t => take_digits t | _ => ("", s1) end in
  if str_empty (i +:+ f) then None
  else
    let m := Z.of_N (default 0%N (parse_digits (i +:+ f))) in
    let shift := - Z.of_nat (String.length f) in
    match s2 with
    | "" => Some (m, shift)
    | String c s3 =>
        if Ascii.eqb c "e" || Ascii.eqb c "E" then
          let '(neg, s4) := match s3 with String "-" t => (true, t) | String "+" t => (false, t) | _ => (false, s3) end in
          let '(x, rest) := take_digits s4 in
          if str_empty x || negb (str_empty rest) then None
          else
            let e := foldl (fun acc c => if acc <? 10000 then acc * 10 + (Z.of_N (N_of_ascii c) - 48) else acc) 0
                       (String.list_ascii_of_string x) in
            Some (m, (if neg : bool then - e else e) + shift)
        else None
    end.

(** [None] is an error, the one of a number out of range included. *)
Definition ParseFloat (s : string) : option float :=
  let '(signed, neg, t) :=
    match s with String "-" t => (true, true, t) | String "+" t => (true, false, t) | _ => (false, false, s) end in
  let l := to_lower t in
  if String.eqb l "inf" || String.eqb l "infinity" then Some (S754_infinity neg)
  else if String.eqb l "nan" then (if signed then None else Some S754_nan)
  else match parse_decimal t with
       | Some (m, e) =>
           let x := f_of_dec neg m e in
           match x with S754_infinity _ => None | _ => Some x end
       | None => None
       end.

(** ** Integers below 2^53 are exact *)

Lemma digits2_spec p : 2 ^ (Zpos (digits2_pos p) - 1) <= Zpos p < 2 ^ Zpos (digits2_pos p).
Proof.
  induction p as [p IH|p IH|]; cbn [digits2_pos]; [| |cbn; lia].
  all: rewrite Pos2Z.inj_succ; replace (Z.succ (Zpos (digits2_pos p)) - 1) with (Z.succ (Zpos (digits2_pos p) - 1)) by lia;
    rewrite !Z.pow_succ_r by lia; lia.
Qed.

Lemma digits2_unique p d : 0 < d -> 2 ^ (d - 1) <= Zpos p < 2 ^ d -> Zpos (digits2_pos p) = d.
Proof.
  intros Hd Hp. pose proof (digits2_spec p) as Hs. set (k := Zpos (digits2_pos p)) in *.
  destruct (Z.lt_trichotomy k d) as [Hlt|[->|Hgt]]; [|done|].
  - assert (2 ^ k <= 2 ^ (d - 1)) by (apply Z.pow_le_mono_r; lia). lia.
  - assert (2 ^ d <= 2 ^ (k - 1)) by (apply Z.pow_le_mono_r; lia). lia.
Qed.

Lemma iter_xO (n p : positive) : Zpos (Pos.iter xO p n) = Zpos p * 2 ^ Zpos n.
Proof.
  induction n as [|n IH] using Pos.peano_ind; [cbn; lia|].
  rewrite Pos.iter_succ, Pos2Z.inj_succ, Z.pow_succ_r, Pos2Z.inj_xO, IH by lia. ring.
Qed.

(** The mantissa of an integer has 53 digits. *)
Lemma f_of_Z_pos p : Zpos p < 2 ^ 53 ->
  exists m, f_of_Z (Zpos p) = S754_finite false m (Zpos (digits2_pos p) - 53) /\
    Zpos m = Zpos p * 2 ^ (53 - Zpos (digits2_pos p)).
Proof.
  intros Hp. set (d := Zpos (digits2_pos p)). pose proof (digits2_spec p) as Hs. fold d in Hs.
  assert (1 <= d <= 53) as Hd.
  { split; [lia|]. destruct (Z.le_gt_cases d 53); [done|].
    assert (2 ^ 53 <= 2 ^ (d - 1)) by (apply Z.pow_le_mono_r; lia). lia. }
  assert (fexp 53 1024 d = d - 53) as Hfe by (unfold fexp, emin; change (Z.max (d - 53) (3 - 1024 - 53) = d - 53); lia).
  assert (exists m, shl_align p 0 (d - 53) = (m, d - 53) /\ Zpos m = Zpos p * 2 ^ (53 - d)) as (m & Hm & Hv).
  { unfold shl_align. change (Z.sub (d - 53) 0) with (d - 53 - 0). destruct (d - 53 - 0) as [|q|q] eqn:Hq; [|lia|].
    - exists p. replace (53 - d) with 0 by lia. split; [f_equal; lia|lia].
    - exists (Pos.iter xO p q). split; [done|]. rewrite iter_xO. do 2 f_equal. lia. }
  exists m. split; [|done]. unfold f_of_Z, binary_normalize, binary_round.
  replace (Z.add (Zpos (digits2_pos p)) 0) with d by (unfold d; lia). rewrite Hfe, Hm.
  assert (Zpos (digits2_pos m) = 53) as Hdm.
  { assert (forall k, 0 <= k + (d - 53) -> 2 ^ k = 2 ^ (k + (d - 53)) * 2 ^ (53 - d)) as Hk.
    { intros k Hk. rewrite <- Z.pow_add_r by lia. f_equal. lia. }
    apply digits2_unique; [lia|]. rewrite Hv, (Hk (53 - 1)), (Hk 53) by lia. replace (53 - 1 + (d - 53)) with (d - 1) by lia.
    replace (53 + (d - 53)) with d by lia. assert (0 < 2 ^ (53 - d)) by (apply Z.pow_pos_nonneg; lia).
    split; [apply Z.mul_le_mono_nonneg_r|apply Z.mul_lt_mono_pos_r]; lia. }
  assert (forall l, shr_fexp 53 1024 (Zpos m) (d - 53) l = (shr_record_of_loc (Zpos m) l, d - 53)) as Hshr.
  { intros l. unfold shr_fexp. cbn [Zdigits2]. rewrite Hdm. replace (Z.add 53 (d - 53)) with d by lia. rewrite Hfe.
    change (Z.sub (d - 53) (d - 53)) with (d - 53 - (d - 53)). rewrite Z.sub_diag. done. }
  unfold binary_round_aux. rewrite Hshr. cbn [shr_record_of_loc shr_m loc_of_shr_record round_nearest_even].
  rewrite Hshr. cbn [shr_record_of_loc shr_m].
  assert (Z.leb (d - 53) (Z.sub 1024 53) = true) as -> by (apply Z.leb_le; change (d - 53 <= 971); lia). done.
Qed.

Lemma f_of_Z_lt a b : 0 <= a < 2 ^ 53 -> 0 <= b < 2 ^ 53 -> f_ltb (f_of_Z a) (f_of_Z b) = (a <? b).
Proof.
  intros Ha Hb. destruct a as [|p|p], b as [|q|q]; try lia; try done.
  - destruct (f_of_Z_pos q) as (m & -> & _); [lia|]. done.
  - destruct (f_of_Z_pos p) as (m & -> & _); [lia|]. done.
  - destruct (f_of_Z_pos p) as (m & -> & Hm); [lia|]. destruct (f_of_Z_pos q) as (n & -> & Hn); [lia|].
    pose proof (digits2_spec p) as Hp. pose proof (digits2_spec q) as Hq.
    unfold f_ltb, SFltb, SFcompare. set (d := Zpos (digits2_pos p)) in *. set (e := Zpos (digits2_pos q)) in *.
    destruct (Z.compare_spec (d - 53) (e - 53)) as [Heq|Hlt|Hgt].
    + assert (d = e) as Hde by lia. rewrite <- Hde in *.
      destruct (Z.le_gt_cases 54 d) as [Hbig|Hsm].
      { assert (2 ^ 53 <= 2 ^ (d - 1)) by (apply Z.pow_le_mono_r; lia). lia. }
      assert (0 < 2 ^ (53 - d)) as Hpow by (apply Z.pow_pos_nonneg; lia).
      change (Pos.compare_cont Eq m n) with (Pos.compare m n). change (Pos.compare m n) with (Z.compare (Zpos m) (Zpos n)).
      rewrite Hm, Hn. rewrite <- Zmult_compare_compat_r by lia. unfold Z.ltb. by destruct (Zpos p ?= Zpos q).
    + assert (2 ^ d <= 2 ^ (e - 1)) by (apply Z.pow_le_mono_r; lia). symmetry. apply Z.ltb_lt. lia.
    + assert (2 ^ e <= 2 ^ (d - 1)) by (apply Z.pow_le_mono_r; lia). symmetry. apply Z.ltb_ge. lia.
Qed.

Lemma f_ltb_asym x y : f_ltb x y = true -> f_ltb y x = false.
Proof.
  unfold f_ltb, SFltb. destruct x as [sx|sx| |sx mx ex], y as [sy|sy| |sy my ey]; cbn; try discriminate;
    destruct sx, sy; try discriminate; try done.
  all: rewrite (Z.compare_antisym ex ey : (ey ?= ex) = _); destruct (Z.compare ex ey); cbn; try discriminate; try done.
  all: change (Pos.compare_cont Eq my mx) with (Pos.compare my mx); change (Pos.compare_cont Eq mx my) with (Pos.compare mx my);
    rewrite (Pos.compare_antisym mx my : (my ?= mx)%positive = _); by destruct (Pos.compare mx my).
Qed.

(** ** Whole seconds are read back *)

Lemma parse_decimal_utoa n : parse_decimal (utoa n) = Some (Z.of_N n, 0).
Proof.
  unfold parse_decimal.
  assert (take_digits (utoa n) = (utoa n, "")) as ->.
  { rewrite <- (app_nil_r_s (utoa n)) at 1. apply take_digits_app; [apply utoa_digits|done]. }
  cbn iota beta. rewrite app_nil_r_s. destruct (str_empty (utoa n)) eqn:He.
  - exfalso. apply (utoa_ne n). by destruct (utoa n).
  - by rewrite parse_digits_utoa.
Qed.

Lemma ParseFloat_itoa n : 0 <= n < 2 ^ 53 -> ParseFloat (itoa n) = Some (f_of_Z n).
Proof.
  intros Hn. rewrite itoa_nonneg by lia. set (k := Z.to_N n). pose proof (utoa_digits k) as Hd.
  destruct (utoa k) as [|c s] eqn:Hu; [by apply utoa_ne in Hu|]. cbn [str_forall] in Hd. apply andb_prop in Hd as [Hc _].
  assert (ParseFloat (String c s) = match parse_decimal (String c s) with
    | Some (m, e) => match f_of_dec false m e with S754_infinity _ => None | _ => Some (f_of_dec false m e) end | None => None end) as ->.
  { unfold ParseFloat. destruct c as [[] [] [] [] [] [] [] []]; try discriminate Hc; reflexivity. }
  rewrite <- Hu, parse_decimal_utoa. replace (Z.of_N k) with n by lia. unfold f_of_dec. destruct n as [|p|p]; [done| |lia].
  replace (Zpos p * 10 ^ 0) with (Zpos p) by (cbn; lia). cbn [Z.leb Z.compare].
  change (binary_normalize 53 1024 (Zpos p) 0 false) with (f_of_Z (Zpos p)).
  destruct (f_of_Z_pos p) as (m & -> & _); [lia|]. done.
Qed.
