(* ===== verification/Ring.v ===== *)
(** * Ring: internal/logging/ring.go.

    The records the agent keeps in memory: the panel's log tab shows their
    tail, the badge of the node counts the errors of the last hour.  The copy
    on stderr is not part of the state. *)

From S2P Require Import Prelude GoString Float.
From Stdlib Require Import Ascii.

Definition RingSize : nat := 500.

Record LogRecord : Type := mkRecord {
  r_ts : float;
  r_time : string;
  r_level : string;
  r_level_no : Z;
  r_logger : string;
  r_where : string;
  r_message : string
}.

Definition levelNo (name : string) : Z :=
  if String.eqb name "DEBUG" then 10
  else if String.eqb name "INFO" then 20
  else if String.eqb name "WARNING" then 30
  else if String.eqb name "ERROR" then 40
  else 30.
Definition LevelNo (name : string) : Z := levelNo name.

(** [s[len(s)-n:]]. *)
Definition tail {A} (n : nat) (l : list A) : list A := drop (length l - n) l.

(** [ring.add]. *)
Definition add (records : list LogRecord) (rec : LogRecord) : list LogRecord :=
  let records := records ++ [rec] in
  if (RingSize <? length records)%nat then tail RingSize records else records.

(** [float64(now.UnixNano()) / 1e9]. *)
Definition seconds_of (now : Z) : float := f_div (f_of_Z now) (f_of_Z 1000000000).

Section ring.
(** [now.Format("2006-01-02 15:04:05")] in the zone of the host. *)
Context (clock : Z -> string).

(** The record of a call: [where_] is the place of the caller. *)
Definition emit (level where_ message : string) (now : Z) (records : list LogRecord) : list LogRecord :=
  add records (mkRecord (seconds_of now) (clock now) level (levelNo level) "ovnode" where_ message).
Definition Log (level where_ message : string) := emit level where_ message.
Definition Info (where_ message : string) := emit "INFO" where_ message.
Definition Warn (where_ message : string) := emit "WARNING" where_ message.
Definition Error (where_ message : string) := emit "ERROR" where_ message.
End ring.

Definition clamp_limit (limit : Z) : nat := Z.to_nat (Z.min (Z.max limit 1) (Z.of_nat RingSize)).

Definition Recent (minLevel : string) (limit : Z) (records : list LogRecord) : list LogRecord :=
  let out := filter (fun r => (levelNo minLevel <=? r_level_no r)%Z = true) records in
  if (clamp_limit limit <? length out)%nat then tail (clamp_limit limit) out else out.

(** The errors and warnings since [cutoff] and the newest error. *)
Definition count_record (cutoff : float) (acc : Z * Z * string) (r : LogRecord) : Z * Z * string :=
  let '(errors, warnings, lastError) := acc in
  if f_ltb (r_ts r) cutoff then acc
  else if (levelNo "ERROR" <=? r_level_no r)%Z then ((errors + 1)%Z, warnings, r_time r +:+ " " +:+ r_message r)
  else if (levelNo "WARNING" <=? r_level_no r)%Z then (errors, (warnings + 1)%Z, lastError)
  else acc.
Definition Stats (now : Z) (records : list LogRecord) : Z * Z * string :=
  foldl (count_record (f_sub (seconds_of now) (f_of_Z 3600))) (0%Z, 0%Z, "") records.

(** ** The ring is the tail of what was logged *)

Lemma tail_all {A} n (l : list A) : (length l <= n)%nat -> tail n l = l.
Proof. intros H. unfold tail. by replace (length l - n)%nat with O by lia. Qed.

Lemma length_tail {A} n (l : list A) : length (tail n l) = Nat.min n (length l).
Proof. unfold tail. rewrite length_drop. lia. Qed.

Lemma tail_tail_app {A} n (l1 l2 : list A) : tail n (tail n l1 ++ l2) = tail n (l1 ++ l2).
Proof.
  unfold tail. rewrite !length_app, length_drop, !drop_app, length_drop, drop_drop.
  destruct (Nat.le_gt_cases (length l1) n); f_equal; f_equal; lia.
Qed.

Lemma add_tail records rec : add records rec = tail RingSize (records ++ [rec]).
Proof.
  unfold add. destruct (Nat.ltb_spec RingSize (length (records ++ [rec]))); [done|]. by rewrite tail_all.
Qed.

Lemma foldl_add history records : foldl add (tail RingSize records) history = tail RingSize (records ++ history).
Proof.
  revert records. induction history as [|r history IH]; intros records; simpl; [by rewrite app_nil_r|].
  by rewrite add_tail, tail_tail_app, IH, <- app_assoc.
Qed.

(** Whatever was logged since the start, the log tab gets, in the order they
    were logged, the newest records at or above its level among the last five
    hundred, as many as it asked for but one at least. *)
Theorem log_tab_shows_the_tail history minLevel limit :
  Recent minLevel limit (foldl add [] history) =
    tail (clamp_limit limit) (filter (fun r => (levelNo minLevel <=? r_level_no r)%Z = true) (tail RingSize history)) /\
  (1 <= clamp_limit limit <= RingSize)%nat.
Proof.
  split; [|unfold clamp_limit, RingSize; lia]. change (@nil LogRecord) with (tail RingSize (@nil LogRecord)). rewrite foldl_add.
  cbn [app]. unfold Recent. destruct (Nat.ltb_spec (clamp_limit limit)
    (length (filter (fun r => (levelNo minLevel <=? r_level_no r)%Z = true) (tail RingSize history)))); [done|].
  symmetry. by apply tail_all.
Qed.
