(* ===== verification/Sysinfo.v ===== *)
(** * Sysinfo: internal/httpapi/sysinfo.go.

    The load of the processor between two polls and the memory in use, from the
    text of /proc/stat and /proc/meminfo.  [bufio.Scanner] gives the lines
    without their ends; the files of the kernel have no line it cannot hold. *)

From S2P Require Import Prelude GoString Float.
From Stdlib Require Import Ascii.

Record cpuSample : Type := mkSample { cs_total : Z; cs_idle : Z }.

(** The lines of a scanner: a last empty one is none, a carriage return before
    the end belongs to it. *)
Definition scan_text (data : string) : list string :=
  let ls := split nl data in
  map (fun l => trim_suffix l (str1 cr)) (match rev ls with "" :: r => rev r | _ => ls end).

(** The counters of the line: a field that is no number is skipped, and keeps
    its place. *)
Fixpoint sum_fields (i : nat) (fs : list string) (s : cpuSample) : cpuSample :=
  match fs with
  | [] => s
  | v :: fs' =>
      sum_fields (S i) fs'
        (match parse_uint v with
         | None => s
         | Some n => mkSample (u64_add (cs_total s) n)
                       (if bool_decide (i ∈ [3; 4]%nat) then u64_add (cs_idle s) n else cs_idle s)
         end)
  end.
Definition readCPUSample (stat : option string) : option cpuSample :=
  data ← stat;
  line ← head (filter (fun l => has_prefix l "cpu " = true) (scan_text data));
  Some (sum_fields 0 (list.tail (fields line)) (mkSample 0 0)).

(** [cpuLast] and [cpuPrimed]. *)
Definition cpu_state : Type := option cpuSample.

Definition f_hundred : float := f_of_Z 100.
Definition load (prev sample : cpuSample) : float :=
  let totalDelta := u64_sub (cs_total sample) (cs_total prev) in
  let idleDelta := u64_sub (cs_idle sample) (cs_idle prev) in
  if (totalDelta =? 0)%Z then f_zero
  else
    let usage := f_mul (f_sub (f_of_Z 1) (f_div (f_of_Z idleDelta) (f_of_Z totalDelta))) f_hundred in
    if f_ltb usage f_zero then f_zero else if f_ltb f_hundred usage then f_hundred else usage.

Definition cpuUsage (stat : option string) (st : cpu_state) : float * cpu_state :=
  match readCPUSample stat with
  | None => (f_zero, st)
  | Some sample => (match st with None => f_zero | Some prev => load prev sample end, Some sample)
  end.

Definition meminfo_line (m : gmap string Z) (line : string) : gmap string Z :=
  match cut ":" line with
  | (key, rest, true) =>
      match fields rest with
      | f :: _ => match parse_uint f with Some n => <[key := n]> m | None => m end
      | [] => m
      end
  | _ => m
  end.
Definition memoryUsage (meminfo : option string) : float :=
  match meminfo with
  | None => f_zero
  | Some data =>
      let values := foldl meminfo_line ∅ (scan_text data) in
      let total := default 0%Z (values !! "MemTotal") in
      if (total =? 0)%Z then f_zero
      else f_mul (f_div (f_of_Z (u64_sub total (default 0%Z (values !! "MemAvailable")))) (f_of_Z total)) f_hundred
  end.

(** The load stays between nothing and one hundred percent, whatever the
    kernel reports and however the counters wrap. *)
Lemma load_bounds prev sample : f_ltb (load prev sample) f_zero = false /\ f_ltb f_hundred (load prev sample) = false.
Proof.
  unfold load. destruct (_ =? 0)%Z; [by vm_compute|]. set (usage := f_mul _ _). clearbody usage.
  destruct (f_ltb usage f_zero) eqn:H0; [by vm_compute|]. destruct (f_ltb f_hundred usage) eqn:H1; [by vm_compute|]. done.
Qed.
