(* ===== verification/Perms.v ===== *)
(** * Perms: the runtime identity of internal/fsx/permissions.go and the binary
    of internal/fsx/paths.go.

    The user and group OpenVPN drops to, as the environment or server.conf name
    them.  Owners and modes are in Fs. *)

From S2P Require Import Prelude GoString Names Cache World Evolve Config.
From Stdlib Require Import Ascii.

(** ** What the host answers *)

Record HostId : Type := mkHostId {
  hi_root : bool;                            (** the agent runs as root *)
  hi_group : string -> bool;                 (** [user.LookupGroup] finds the group *)
  hi_exe : option (string * option string)   (** the executable, and it with its links resolved *)
}.

Definition base_name (p : string) : string := match rcut "/" p with Some (_, b) => b | None => p end.

(** [AgentBin]. *)
Definition AgentBin (e : environ) (h : HostId) : string :=
  let appDir := envOr e "OVN_APP_DIR" "" in
  if negb (str_empty appDir) then Join [appDir; "ovnode-server"]
  else match hi_exe h with
       | Some (exe, resolved) =>
           if negb (str_empty exe) && bool_decide (base_name exe ∈ ["ovnode-server"; "agent"; "ovnode"]) then
             match resolved with Some r => if str_empty r then exe else r | None => exe end
           else "/opt/ovnode/ovnode-server"
       | None => "/opt/ovnode/ovnode-server"
       end.

(** ** Values of server.conf *)

Definition settingFile : loc := LConf "server.conf".

(** [runtimeDirective]: the first line of the directive that has a value. *)
Fixpoint find_value (name : string) (lines : list string) : option string :=
  match lines with
  | [] => None
  | ln :: lines' =>
      match fields ln with
      | w :: v :: _ => if String.eqb w name then Some (trim_set is_quote v) else find_value name lines'
      | _ => find_value name lines'
      end
  end.

Definition runtimeDirective (name fallback : string) : M string :=
  r <- try (read_file settingFile) ;;
  mret (match r with inr data => default fallback (find_value name (split nl data)) | inl _ => fallback end).

Definition RuntimeUser (e : environ) : M string :=
  let v := Env e "RUNTIME_USER" "" in
  if negb (str_empty v) then mret v else runtimeDirective "user" "nobody".
Definition RuntimeGroup (e : environ) : M string :=
  let v := Env e "RUNTIME_GROUP" "" in
  if negb (str_empty v) then mret v else runtimeDirective "group" "nogroup".

(** [RuntimeGroupID]: whether the group is known, by its number or its name. *)
Definition RuntimeGroupID (e : environ) (h : HostId) : M unit :=
  name <- RuntimeGroup e ;;
  if match parse_uint name with Some n => (n <? 4294967296)%Z | None => false end then mret tt
  else if hi_group h name then mret tt else throw (Errorf ("runtime group " +:+ name)).

(** They only read. *)
Lemma RuntimeGroupID_reads R `{!PreOrder R} e h : evolves R (RuntimeGroupID e h).
Proof. unfold RuntimeGroupID, RuntimeGroup, runtimeDirective. evolve_solve. Qed.
