(* ===== verification/Migrate.v ===== *)
(** * Migrate: the legacy trees of internal/store/users.go.

    The one-off migration of the state older agents kept under the OpenVPN
    root: MigrateLegacy with moveDir and moveFile, and EnsureLayout.  The
    legacy trees are files at absolute paths; a folder that holds no file is
    not told from one that is missing, since both list nothing and the removal
    of an empty folder changes no file. *)

From S2P Require Import Prelude GoString Json Names Cache World Evolve Config Perms.
From Stdlib Require Import Ascii.

(** The names [os.ReadDir] lists for a folder: the files directly in it. *)
Definition in_folder (dir : string) (l : loc) : option string :=
  match l with
  | LAbs p =>
      let pre := dir +:+ "/" in
      if has_prefix p pre && no_char "/" (trim_prefix p pre) then Some (trim_prefix p pre) else None
  | _ => None
  end.
Definition folder_names (dir : string) (w : World) : list string :=
  sort_strings (omap (in_folder dir) (elements (dom (w_files w)))).

(** A folder that cannot be read lists nothing ([entries, _ := os.ReadDir]). *)
Definition read_folder (dir : string) : M (list string) := fun w =>
  (inr (if w_fault w (OpReadDir dir) then [] else folder_names dir w), w).

Definition moveFile (src dst : loc) : M unit :=
  r <- try (rename_file src dst) ;;
  match r with
  | inr _ => mret tt
  | inl _ =>
      data <- try (read_file src) ;;
      match data with
      | inl _ => mret tt
      | inr data =>
          w <- try (WriteFileAtomic dst data) ;;
          match w with
          | inl _ => mret tt
          | inr _ => ignore (remove_file src)
          end
      end
  end.

(** The client a legacy file is about: its name without the suffix, when that
    is a store key. *)
Definition legacy_cn (suffix name : string) : option string :=
  if negb (str_empty suffix) && negb (has_suffix name suffix) then None
  else
    let cn := if str_empty suffix then name
              else str_take (String.length name - String.length suffix) name in
    if StoreKeyRe cn then Some cn else None.

(** One entry of the loop: an existing destination wins and the legacy file is
    dropped. *)
Definition move_entry (srcDir suffix : string) (dstFor : string -> loc) (name : string) : M unit :=
  match legacy_cn suffix name with
  | None => mret tt
  | Some cn =>
      let src := LAbs (srcDir +:+ "/" +:+ name) in
      there <- stat_file src ;;
      if negb there then mret tt
      else
        let dst := dstFor cn in
        present <- stat_file dst ;;
        if present : bool then ignore (remove_file src) else moveFile src dst
  end.

Definition moveDir (srcDir suffix : string) (dstFor : string -> loc) : M unit :=
  entries <- read_folder srcDir ;;
  for_each (move_entry srcDir suffix dstFor) entries.

(** [json.Unmarshal] into a [map[string]string]: every value is a string, or
    the null that leaves the empty one, and nothing follows the object. *)
Definition uid_map (data : string) : option (gmap string string) :=
  match json_decode data with
  | Some (JObj kvs, rest) =>
      if str_empty (skip_ws rest) then
        foldl (fun acc kv =>
          match acc, kv.2 with
          | Some m, JStr s => Some (<[kv.1:=s]> m)
          | Some m, JNull => Some (<[kv.1:=""]> m)
          | _, _ => None
          end) (Some ∅) kvs
      else None
  | Some (JNull, rest) => if str_empty (skip_ws rest) then Some ∅ else None
  | _ => None
  end.

Section legacy.
Context (root : string).

(** A file of a legacy folder: the folder is a clean path and the name holds
    no slash and is not a dot name, so [filepath.Join] only joins them. *)
Definition legacy_file (dirs : list string) (f : string) : loc := LAbs (Join (root :: dirs) +:+ "/" +:+ f).
Definition legacy_user (cn f : string) : loc := legacy_file ["ovnode"; "users"] (cn +:+ "/" +:+ f).
Definition legacy_session (f : string) : loc := legacy_file ["ovnode"; "sessions"] f.

(** The name of one user of the old map. *)
Definition migrate_name (kv : string * string) : M unit :=
  if negb (StoreKeyRe kv.1) then mret tt
  else
    let path := legacy_user kv.1 "name" in
    there <- stat_file path ;;
    if there : bool then mret tt
    else
      ignore (mkdir (Join [root; "ovnode"; "users"; kv.1])) ;;
      ignore (WriteFileAtomic path (kv.2 +:+ str1 nl)).

(** Go visits the map in any order; the names are files of their own, so every
    order gives the same tree. *)
Definition migrate_names : M unit :=
  let path := legacy_file ["clients"] "uid_map.json" in
  there <- stat_file path ;;
  if negb there then mret tt
  else
    data <- try (read_file path) ;;
    (match uid_map (match data with inr d => d | inl _ => "" end) with
     | Some m => for_each migrate_name (map_to_list m)
     | None => mret tt
     end) ;;
    ignore (remove_file path).

(** A marker moves unless its name is taken. *)
Definition migrate_marker (f : string) : M unit :=
  there <- stat_file (legacy_session f) ;;
  if there : bool then mret tt
  else ignore (rename_file (legacy_file ["ovnode-active"] f) (legacy_session f)).

Definition MigrateLegacy : M unit :=
  migrate_names ;;
  moveDir (Join [root; "clients"]) ".ovpn" (fun cn => legacy_user cn "client.ovpn") ;;
  moveDir (Join [root; "limits"]) "" (fun cn => legacy_user cn "limit") ;;
  moveDir (Join [root; "disabled"]) "" (fun cn => legacy_user cn "disabled") ;;
  markers <- read_folder (Join [root; "ovnode-active"]) ;;
  for_each migrate_marker markers ;;
  for_each (fun f => ignore (remove_file (legacy_file ["scripts"] f)))
    ["ovnode-client-connect.sh"; "ovnode-client-disconnect.sh"; "ovnode-mlogin.env"].

Definition EnsureLayout : M unit :=
  for_each (fun d => ignore (mkdir (Join [root; "ovnode"; d]))) ["users"; "sessions"; "usage"; "scripts"; "state"] ;;
  MigrateLegacy.

(** [repairRuntimeDir]. *)
Definition repairRuntimeDir (path : string) : M unit := mkdir path ;; SetPermissions path.

(** A walk over a folder: the regular files below it, without the temporary
    files of writes still going on.  Each has its owner and mode set, which is
    not part of the state and may fail; the folders are walked with them. *)
Definition base_of (l : loc) : string :=
  match l with
  | LUser _ f | LUsersRoot f | LSession f | LUsage f | LData f | LConf f | LAbs f => base_name f
  end.
Definition path_of (l : loc) : string :=
  match l with LUser cn f => cn +:+ "/" +:+ f | LUsersRoot f | LSession f | LUsage f | LData f | LConf f | LAbs f => f end.
Definition walk (under : loc -> bool) : M unit :=
  files <- gets (fun w => filter (fun l => under l && negb (has_prefix (base_of l) ".tmp-") = true) (elements (dom (w_files w)))) ;;
  for_each (fun l => SetPermissions (path_of l)) files.

Definition below (dirs : list string) (l : loc) : bool :=
  match l with LAbs p => has_prefix p (Join (root :: dirs) +:+ "/") | _ => false end.
Definition in_users (l : loc) : bool := match l with LUser _ _ | LUsersRoot _ => true | _ => false end.
(** The files of the PKI whose mode is repaired: keys, what is private, the
    revocation list and the certificate of the authority. *)
Definition pki_file (l : loc) : bool :=
  match l with
  | LConf p => has_prefix p "pki/" && (contains (p +:+ "/") "/private/" || has_suffix p ".key" ||
                 bool_decide (base_name p ∈ ["crl.pem"; "ca.crt"]))
  | _ => false
  end.

(** [filepath.Dir]. *)
Definition dir_of (p : string) : string := match rcut "/" p with Some (d, _) => Clean (d +:+ "/") | None => "." end.

Definition walk_legacy (name : string) : M unit :=
  there <- gets (fun w => existsb (below [name]) (elements (dom (w_files w)))) ;;
  if there : bool then repairRuntimeDir (Join [root; name]) ;; walk (below [name]) else mret tt.
Definition walk_runtime (dir : string) (names : M (list string)) (at_name : string -> loc) : M unit :=
  repairRuntimeDir dir ;;
  entries <- names ;;
  for_each (fun f => if has_prefix f ".tmp-" then mret tt else SetPermissions (path_of (at_name f))) entries.
Definition set_present (l : loc) : M unit :=
  there <- present_file l ;;
  if there : bool then SetPermissions (path_of l) else mret tt.

(** The PKI folder is there, so the early return for a tree without it is not
    taken.  A rotated log that is missing is no error. *)
Definition FixRuntimePermissions (e : environ) (h : HostId) (passFile : option loc) : M unit :=
  present_file (LConf "server.conf") ;;
  RuntimeGroupID e h ;;
  for_each repairRuntimeDir
    [root; Join [root; "server"]; Join [root; "server"; "pki"]; Join [root; "ccd"]; Join [root; "ovnode"]; OVNodeDir e] ;;
  for_each (fun name => repairRuntimeDir (Join [root; "ovnode"; name])) ["users"; "sessions"; "usage"; "scripts"; "state"] ;;
  for_each walk_legacy ["clients"; "limits"; "disabled"; "ovnode-active"; "scripts"] ;;
  MigrateLegacy ;;
  repairRuntimeDir (Join [root; "ovnode"; "users"]) ;;
  walk (below ["ovnode"; "users"]) ;;
  mkdir_users ;; SetPermissions (UsersDir e) ;;
  walk in_users ;;
  walk_runtime (SessionsDir e) read_sessions_dir LSession ;;
  walk_runtime (UsageDir e) read_usage_dir LUsage ;;
  (if String.eqb (Clean (LogDir e)) "/var/log/ovnode" then repairRuntimeDir (LogDir e) else mret tt) ;;
  mkdir (dir_of (LogFile e)) ;;
  SetPermissions (LogFile e) ;;
  for_each (fun i => SetPermissions (LogFile e +:+ "." +:+ itoa (Z.of_nat i)) ;;
                     SetPermissions (LogFile e +:+ "." +:+ itoa (Z.of_nat i) +:+ ".gz")) (seq 1 7) ;;
  walk pki_file ;;
  set_present (LConf "tls.key") ;;
  match passFile with Some l => set_present l | None => mret tt end.
End legacy.

(** ** What the migration touches *)

Definition legacy_dirs : list (list string) :=
  [["clients"]; ["limits"]; ["disabled"]; ["ovnode-active"]; ["scripts"]; ["ovnode"; "users"]; ["ovnode"; "sessions"]].
Definition legacy_tree (root : string) (l : loc) : Prop := exists dirs f, dirs ∈ legacy_dirs /\ l = legacy_file root dirs f.

Lemma in_legacy_tree root dirs f : dirs ∈ legacy_dirs -> legacy_tree root (legacy_file root dirs f).
Proof. intros H. by exists dirs, f. Qed.

Ltac legacy := solve [apply in_legacy_tree; unfold legacy_dirs; set_solver].

Lemma moveFile_frames L src dst : L src -> L dst -> evolves (frames L) (moveFile src dst).
Proof. intros Hs Hd. unfold moveFile. evolve_solve. Qed.

Lemma moveDir_frames L srcDir suffix dstFor :
  (forall f, L (LAbs (srcDir +:+ "/" +:+ f))) -> (forall cn, L (dstFor cn)) -> evolves (frames L) (moveDir srcDir suffix dstFor).
Proof.
  intros Hs Hd. unfold moveDir. apply evolves_bind; [apply _|intros w; reflexivity|intros names].
  apply evolves_for_each; [apply _|intros f _]. unfold move_entry. evolve_solve. by apply moveFile_frames.
Qed.

Lemma MigrateLegacy_frames root : evolves (frames (legacy_tree root)) (MigrateLegacy root).
Proof.
  unfold MigrateLegacy, migrate_names, migrate_name, migrate_marker. evolve_solve.
  all: try (apply moveDir_frames; intros; legacy).
  all: try (apply frames_write; legacy).
  all: try (apply frames_remove; legacy).
  all: try (apply frames_rename; legacy).
  all: intros w; reflexivity.
Qed.
#[export] Hint Resolve MigrateLegacy_frames : evolve.

Lemma repairRuntimeDir_frames L p : evolves (frames L) (repairRuntimeDir p).
Proof. unfold repairRuntimeDir. evolve_solve. Qed.
#[export] Hint Resolve repairRuntimeDir_frames : evolve.

Lemma FixRuntimePermissions_frames root e h pf : evolves (frames (legacy_tree root)) (FixRuntimePermissions root e h pf).
Proof.
  unfold FixRuntimePermissions, walk_legacy, walk_runtime, set_present, walk. evolve_solve.
  by apply RuntimeGroupID_reads; apply _.
Qed.
#[export] Hint Resolve FixRuntimePermissions_frames : evolve.

(** ** What is outside the legacy folders *)

Lemma join_snoc sep l d : exists q, join sep (l ++ [d]) = q +:+ d.
Proof.
  induction l as [|x l [q IH]]; [by exists ""|]. destruct l as [|y l]; [by exists (x +:+ sep); rewrite app_assoc_s|].
  exists (x +:+ sep +:+ q). change (join sep ((x :: y :: l) ++ [d])) with (x +:+ sep +:+ join sep ((y :: l) ++ [d])).
  by rewrite IH, !app_assoc_s.
Qed.

Definition plain_name (d : string) : Prop := d <> "" /\ d <> "." /\ d <> ".." /\ no_char "/" d = true.

Lemma clean_step_plain r out d : plain_name d -> clean_step r out d = d :: out.
Proof.
  intros (H1 & H2 & H3 & _). unfold clean_step.
  rewrite (proj2 (String.eqb_neq d ".") H2), (proj2 (String.eqb_neq d "..") H3). by destruct d.
Qed.

Lemma Clean_last p d : plain_name d -> exists q, Clean (p +:+ "/" +:+ d) = q +:+ d.
Proof.
  intros Hd. pose proof Hd as (H1 & _ & _ & Hn). unfold Clean. set (r := has_prefix _ "/").
  change ("/" +:+ d) with (String "/" d). rewrite split_app_gen, foldl_app, (split_none _ _ Hn). cbn [foldl].
  rewrite clean_step_plain by done. cbn [rev].
  destruct (join_snoc "/" (rev (foldl (clean_step r) [] (split "/" p))) d) as [q ->].
  destruct r; [by exists ("/" +:+ q)|]. destruct (str_empty (q +:+ d)) eqn:Hqd; [|by exists q].
  exfalso. destruct q; [|discriminate Hqd]. change ("" +:+ d) with d in Hqd. by destruct d.
Qed.

Lemma Join_last root dirs d : plain_name d -> (forall x, x ∈ dirs -> x <> "") -> exists q, Join (root :: dirs ++ [d]) = q +:+ d.
Proof.
  intros Hd Hne. assert (str_empty d = false) as He by (destruct Hd as [Hd _]; by destruct d).
  assert (filter (fun p => str_empty p = false) (dirs ++ [d]) = dirs ++ [d]) as Hf.
  { clear Hd. induction dirs as [|x dirs IH]; cbn [app]; rewrite filter_cons; [by rewrite decide_True|].
    rewrite decide_True, IH; [done|intros y Hy; apply Hne; by right|]. specialize (Hne x ltac:(left)). by destruct x. }
  unfold Join. rewrite filter_cons.
  assert (forall l, exists q, Clean (join "/" (l ++ [d])) = q +:+ d) as Hall.
  { intros l. destruct l as [|x l].
    - exists "". cbn [app join]. unfold Clean. pose proof Hd as (_ & _ & _ & Hn). rewrite (split_none _ _ Hn). cbn [foldl].
      rewrite clean_step_plain by done. cbn [rev app join].
      destruct (has_prefix d "/") eqn:Hp; [|by rewrite He]. by destruct d as [|[[] [] [] [] [] [] [] []] d].
    - assert (exists p, join "/" ((x :: l) ++ [d]) = p +:+ "/" +:+ d) as [p ->]; [|by apply Clean_last].
      revert x. induction l as [|y l IH]; intros x; [by exists x|]. destruct (IH y) as [p Hp].
      exists (x +:+ "/" +:+ p). change (join "/" ((x :: y :: l) ++ [d])) with (x +:+ "/" +:+ join "/" ((y :: l) ++ [d])).
      by rewrite Hp, !app_assoc_s. }
  case_decide; rewrite Hf; [by apply (Hall (root :: dirs))|]. specialize (Hall dirs).
  destruct dirs; exact Hall.
Qed.

(** Every slash follows a character with a property. *)
Fixpoint slash_after (p : ascii -> bool) (prev : ascii) (s : string) : bool :=
  match s with
  | "" => true
  | String c s' => (if Ascii.eqb c "/" then p prev else true) && slash_after p c s'
  end.

Lemma slash_after_mid p q c r prev : Ascii.eqb c "/" = false -> p c = false ->
  slash_after p prev (q +:+ String c (String "/" r)) = false.
Proof.
  intros Hc Hp. revert prev. induction q as [|a q IH]; intros prev; simpl; [by rewrite Hc, Hp|]. by rewrite IH, andb_false_r.
Qed.

Lemma slash_after_plain p prev s : no_char "/" s = true -> slash_after p prev s = true.
Proof. revert prev. induction s as [|c s IH]; intros prev; simpl; [done|]. intros [H1 H2]%andb_prop. destruct (Ascii.eqb c "/"); [done|]. by apply IH. Qed.

(** The last letters of the legacy folders. *)
Definition legacy_end (c : ascii) : bool := Ascii.eqb c "s" || Ascii.eqb c "d" || Ascii.eqb c "e".

Lemma legacy_file_shape root dirs f : dirs ∈ legacy_dirs ->
  exists q c, legacy_end c = true /\ legacy_file root dirs f = LAbs (q +:+ String c (String "/" f)).
Proof.
  assert (forall d ds, plain_name d -> (forall x, x ∈ ds -> x <> "") ->
    (exists d' c, d = d' +:+ str1 c /\ legacy_end c = true) ->
    exists q c, legacy_end c = true /\ legacy_file root (ds ++ [d]) f = LAbs (q +:+ String c (String "/" f))) as Hgen.
  { intros d ds Hd Hds (d' & c & -> & Hc). destruct (Join_last root ds _ Hd Hds) as [q Hq]. exists (q +:+ d'), c.
    split; [done|]. unfold legacy_file. by rewrite Hq, !app_assoc_s. }
  assert (forall x, x ∈ ["ovnode"] -> x <> "") as Hov by (by intros x ->%list_elem_of_singleton).
  assert (forall x : string, x ∈ [] -> x <> "") as Hnil by (by intros x []%elem_of_nil).
  unfold legacy_dirs. rewrite !elem_of_cons, elem_of_nil. intros H. destruct_or! H; subst dirs.
  - apply (Hgen "clients" []); [done|done|by exists "client", "s"%char].
  - apply (Hgen "limits" []); [done|done|by exists "limit", "s"%char].
  - apply (Hgen "disabled" []); [done|done|by exists "disable", "d"%char].
  - apply (Hgen "ovnode-active" []); [done|done|by exists "ovnode-activ", "e"%char].
  - apply (Hgen "scripts" []); [done|done|by exists "script", "s"%char].
  - apply (Hgen "users" ["ovnode"]); [done|done|by exists "user", "s"%char].
  - apply (Hgen "sessions" ["ovnode"]); [done|done|by exists "session", "s"%char].
Qed.

Lemma not_legacy root p : slash_after (fun c => negb (legacy_end c)) " " p = true -> ~ legacy_tree root (LAbs p).
Proof.
  intros Hp (dirs & f & Hd & Heq). destruct (legacy_file_shape root dirs f Hd) as (q & c & Hc & Hl). rewrite Hl in Heq.
  injection Heq as ->. rewrite slash_after_mid in Hp; [done| |by rewrite Hc].
  apply Ascii.eqb_neq. intros ->. discriminate Hc.
Qed.
