(* ===== verification/Nat.v ===== *)
(** * Nat: internal/nat/nat.go.

    The NAT rules of a node.  The packet filter of the host is an interface:
    [Netfilter] runs a command, [NetfilterSpec] states what the agent relies on
    about the commands it runs. *)

From S2P Require Import Prelude GoString Config.
From Stdlib Require Import Ascii.

(** ** Configuration *)

Record NatConfig : Type := mkNat {
  nc_enabled : bool;
  nc_primary : Z;
  nc_extra : string;
  nc_subnet : string;
  nc_tun : string
}.

(** The value [strconv.Atoi] returns next to its error: zero for a text that
    is no number, the nearest [int] for one out of range. *)
Definition atoi_value (s : string) : Z :=
  match atoi s with
  | Some n => n
  | None =>
      match s with
      | String c s' =>
          if Ascii.eqb c "-" then (if bool_decide (is_Some (parse_digits s')) then - two63 else 0)%Z
          else if bool_decide (is_Some (parse_digits (if Ascii.eqb c "+" then s' else s)))
               then (two63 - 1)%Z else 0%Z
      | "" => 0%Z
      end
  end.

Definition nat_yes (v : string) : bool := String.eqb v "1" || equal_fold v "true" || equal_fold v "yes".

Definition positive_port (v : string) (old : Z) : Z := let n := atoi_value v in if (0 <? n)%Z then n else old.

(** One line of the file; the flag tells whether the file spoke about
    VPN_NAT_ENABLED. *)
Definition nat_conf_line (e : environ) (st : NatConfig * bool) (line : string) : NatConfig * bool :=
  let '(cfg, seen) := st in
  let line := trim_space line in
  if str_empty line || has_prefix line "#" then st
  else match cut "=" line with
       | (_, _, false) => st
       | (k, v, true) =>
           let key := trim_space k in
           let val := trim_set (fun c => Ascii.eqb c dquote) (trim_space v) in
           if String.eqb key "VPN_NAT_ENABLED" then
             (mkNat (nat_yes val) (nc_primary cfg) (nc_extra cfg) (nc_subnet cfg) (nc_tun cfg), true)
           else if String.eqb key "VPN_PRIMARY_PORT" then
             (mkNat (nc_enabled cfg) (positive_port val (nc_primary cfg)) (nc_extra cfg) (nc_subnet cfg) (nc_tun cfg), seen)
           else if String.eqb key "VPN_EXTRA_PORTS" then
             (mkNat (nc_enabled cfg) (nc_primary cfg) (if str_empty (nc_extra cfg) then val else nc_extra cfg)
                (nc_subnet cfg) (nc_tun cfg), seen)
           else if String.eqb key "VPN_SUBNET" then
             (mkNat (nc_enabled cfg) (nc_primary cfg) (nc_extra cfg)
                (if String.eqb (nc_subnet cfg) (VPNSubnet e) then val else nc_subnet cfg) (nc_tun cfg), seen)
           else if String.eqb key "VPN_TUN_DEV" then
             (mkNat (nc_enabled cfg) (nc_primary cfg) (nc_extra cfg) (nc_subnet cfg)
                (if String.eqb (nc_tun cfg) "tun0" then val else nc_tun cfg), seen)
           else st
       end.

(** [os.Getenv]: the process environment only. *)
Definition getenv (e : environ) (name : string) : string := default "" (ev_proc e !! name).

(** [file] is the content of the configuration file, when it can be read. *)
Definition LoadConfig (e : environ) (file : option string) : NatConfig :=
  let or v d := if str_empty v then d else v in
  let primary := let v := getenv e "VPN_PRIMARY_PORT" in if str_empty v then 0%Z else positive_port v 0 in
  let enabled := getenv e "VPN_NAT_ENABLED" in
  let cfg := mkNat (negb (str_empty enabled) && nat_yes enabled) primary
               (getenv e "VPN_EXTRA_PORTS") (or (getenv e "VPN_SUBNET") (VPNSubnet e))
               (or (getenv e "VPN_TUN_DEV") "tun0") in
  match file with
  | None => cfg
  | Some data =>
      let '(cfg, seen) := foldl (nat_conf_line e) (cfg, false) (split nl data) in
      if negb seen && str_empty enabled
      then mkNat true (nc_primary cfg) (nc_extra cfg) (nc_subnet cfg) (nc_tun cfg) else cfg
  end.

(** ** The packet filter *)

(** Running a command: whether it exits with 0, and what it prints. *)
Class Netfilter (T : Type) : Type := nf_exec : list string -> T -> bool * string * T.

Definition iface_char (c : ascii) : bool :=
  is_upper c || is_lower c || is_digit c || Ascii.eqb c "." || Ascii.eqb c "_" || Ascii.eqb c "-".

Definition validIface (name : string) : bool :=
  (1 <=? String.length name)%nat && (String.length name <=? 15)%nat && str_forall iface_char name.

(** The interface after a [dev], the first valid one of a line. *)
Fixpoint iface_of (fs : list string) : option string :=
  match fs with
  | f :: ((g :: _) as fs') =>
      if String.eqb f "dev" && validIface g then Some g else iface_of fs'
  | _ => None
  end.

Fixpoint first_iface (lines : list string) : string :=
  match lines with
  | [] => ""
  | line :: lines' => match iface_of (fields line) with Some i => i | None => first_iface lines' end
  end.

Definition iptables (args : list string) : list string := "iptables" :: args.

(** The rules the node owns. *)
Definition masquerade_rule (subnet iface : string) : list string :=
  ["-s"; subnet; "-o"; iface; "-m"; "comment"; "--comment"; "ovnode-nat"; "-j"; "MASQUERADE"].
Definition redirect_rule (primary : Z) (proto port : string) : list string :=
  ["-p"; proto; "--dport"; port; "-m"; "comment"; "--comment"; "ovnode-redirect"; "-j"; "REDIRECT";
   "--to-ports"; itoa primary].

(** The redirects of a configuration, in order. *)
Definition redirects (cfg : NatConfig) : list (list string) :=
  if (0 <? nc_primary cfg)%Z && negb (str_empty (nc_extra cfg)) then
    concat (map (fun p => map (fun proto => redirect_rule (nc_primary cfg) proto p) ["tcp"; "udp"])
      (fields (replace_char "," " " (nc_extra cfg))))
  else [].

Definition redirect_mark : string := "ovnode-redirect".

Section nat.
Context {T : Type} `{Netfilter T}.

Definition defaultIface (t : T) : string * T :=
  let '(ok, out, t) := nf_exec ["ip"; "-o"; "route"; "show"; "default"] t in
  if negb ok then ("", t) else (first_iface (split nl out), t).

(** The error of a rule, [None] for success. *)
Definition rule_add (chain : string) (args : list string) (t : T) : option string * T :=
  let '(present, _, t) := nf_exec (iptables ("-t" :: "nat" :: "-C" :: chain :: args)) t in
  if present : bool then (None, t)
  else
    let '(ok, _, t) := nf_exec (iptables ("-t" :: "nat" :: "-A" :: chain :: args)) t in
    if ok : bool then (None, t) else (Some ("iptables add nat/" +:+ chain), t).

Definition rule_del (chain : string) (args : list string) (t : T) : option string * T :=
  let '(ok, _, t) := nf_exec (iptables ("-t" :: "nat" :: "-D" :: chain :: args)) t in
  if ok : bool then (None, t) else (Some ("iptables del nat/" +:+ chain), t).

(** Delete the listed redirects of the node, one by one. *)
Fixpoint flush_lines (lines : list string) (t : T) : option string * T :=
  match lines with
  | [] => (None, t)
  | line :: lines' =>
      if negb (contains line redirect_mark) then flush_lines lines' t
      else if negb (has_prefix line "-A PREROUTING") then flush_lines lines' t
      else match fields line with
           | [] => flush_lines lines' t
           | _ :: rest =>
               let '(ok, _, t) := nf_exec (iptables ("-t" :: "nat" :: "-D" :: rest)) t in
               if ok : bool then flush_lines lines' t else (Some "ovnode-nat: delete redirect rule", t)
           end
  end.

Definition flushOwnRedirects (t : T) : option string * T :=
  let '(ok, out, t) := nf_exec (iptables ["-t"; "nat"; "-S"; "PREROUTING"]) t in
  if negb ok then (Some "ovnode-nat: list PREROUTING rules", t)
  else flush_lines (split nl out) t.

(** Add rules until one fails. *)
Fixpoint add_rules (chain : string) (rules : list (list string)) (t : T) : option string * T :=
  match rules with
  | [] => (None, t)
  | r :: rules' =>
      match rule_add chain r t with
      | (None, t) => add_rules chain rules' t
      | failed => failed
      end
  end.

Definition apply_config (cfg : NatConfig) (t : T) : option string * T :=
  if negb (nc_enabled cfg) then (None, t)
  else
    let '(iface, t) := defaultIface t in
    if str_empty iface then (Some "ovnode-nat: no default interface found", t)
    else match flushOwnRedirects t with
         | (Some err, t) => (Some err, t)
         | (None, t) =>
             match rule_add "POSTROUTING" (masquerade_rule (nc_subnet cfg) iface) t with
             | (Some err, t) => (Some err, t)
             | (None, t) => add_rules "PREROUTING" (redirects cfg) t
             end
         end.

Definition Apply (e : environ) (file : option string) (t : T) : option string * T :=
  apply_config (LoadConfig e file) t.

Fixpoint del_rules (chain : string) (rules : list (list string)) (t : T) : T :=
  match rules with
  | [] => t
  | r :: rules' => del_rules chain rules' (rule_del chain r t).2
  end.

Definition Cleanup (e : environ) (file : option string) (t : T) : T :=
  let cfg := LoadConfig e file in
  let '(iface, t) := defaultIface t in
  let t := if str_empty iface then t else (rule_del "POSTROUTING" (masquerade_rule (nc_subnet cfg) iface) t).2 in
  del_rules "PREROUTING" (redirects cfg) t.
End nat.
