(* ===== verification/NatProps.v ===== *)
(** * NatProps: what applying the NAT configuration achieves.

    The theorems hold for every packet filter that satisfies [NetfilterSpec];
    a filter kept as two lists of rules shows that one exists. *)

From S2P Require Import Prelude GoString Config Nat.
From Stdlib Require Import Ascii.

(** Without the first occurrence of [r]. *)
Fixpoint remove_first (r : list string) (l : list (list string)) : list (list string) :=
  match l with
  | [] => []
  | x :: l' => if decide (x = r) then l' else x :: remove_first r l'
  end.

(** A listed rule of the PREROUTING chain. *)
Definition rule_line (shown : string) : string := "-A PREROUTING " +:+ shown.
Definition listing (shown : list string) : string :=
  join (str1 nl) ("-P PREROUTING ACCEPT" :: map rule_line shown ++ [""]).

(** What iptables documents of the commands used: the nat table holds rules
    per chain in a canonical form, [-C] finds a rule, [-A] appends it, [-D]
    removes its first occurrence, and [-S] lists the chain in lines that [-D]
    accepts.  A command that fails changes nothing. *)
Class NetfilterSpec (T : Type) `{Netfilter T} : Type := {
  nat_rules : T -> string -> list (list string);
  canon : list string -> list string;
  show : list string -> string;
  owned (r : list string) : bool := contains (rule_line (show r)) redirect_mark;
  route_state : forall t, (nf_exec ["ip"; "-o"; "route"; "show"; "default"] t).2 = t;
  spec_check : forall chain args t, exists out,
    nf_exec (iptables ("-t" :: "nat" :: "-C" :: chain :: args)) t
    = (bool_decide (canon args ∈ nat_rules t chain), out, t);
  spec_add : forall chain args t ok out t',
    nf_exec (iptables ("-t" :: "nat" :: "-A" :: chain :: args)) t = (ok, out, t') ->
    (forall c, nat_rules t' c =
       if ok && String.eqb c chain then nat_rules t c ++ [canon args] else nat_rules t c);
  spec_delete : forall chain args t ok out t',
    nf_exec (iptables ("-t" :: "nat" :: "-D" :: chain :: args)) t = (ok, out, t') ->
    (forall c, nat_rules t' c =
       if ok && String.eqb c chain then remove_first (canon args) (nat_rules t c) else nat_rules t c);
  spec_list : forall t ok out t',
    nf_exec (iptables ["-t"; "nat"; "-S"; "PREROUTING"]) t = (ok, out, t') ->
    t' = t /\ (ok = true -> out = listing (map show (nat_rules t "PREROUTING")));
  spec_shown : forall t r, r ∈ nat_rules t "PREROUTING" ->
    no_char nl (show r) = true /\
    (owned r = true -> exists args, fields (rule_line (show r)) = "-A" :: "PREROUTING" :: args /\ canon args = r);
  spec_mark : forall args, "ovnode-redirect" ∈ args -> owned (canon args) = true
}.

Section apply.
Context {T : Type} `{NetfilterSpec T}.

Definition foreign (l : list (list string)) : list (list string) := filter (fun r => owned r = false) l.

Lemma remove_first_mid r a b : r ∉ a -> remove_first r (a ++ r :: b) = a ++ b.
Proof using Type.
  induction a as [|x a IH]; intros Hr; simpl; [by rewrite decide_True|].
  rewrite decide_False by (intros ->; apply Hr; left). f_equal. apply IH. intros Hin. apply Hr. by right.
Qed.

Lemma rule_line_prefix s : has_prefix (rule_line s) "-A PREROUTING" = true.
Proof using Type.
  unfold rule_line. apply has_prefix_spec. by exists (" " +:+ s).
Qed.

(** Deleting the listed rules leaves the foreign ones. *)
Lemma flush_lines_run (t0 : T) todo : forall done_ t t',
  (forall r, r ∈ todo -> r ∈ nat_rules t0 "PREROUTING") ->
  nat_rules t "PREROUTING" = foreign done_ ++ todo ->
  flush_lines (map rule_line (map show todo) ++ [""]) t = (None, t') ->
  nat_rules t' "PREROUTING" = foreign (done_ ++ todo) /\
  (forall c, c <> "PREROUTING" -> nat_rules t' c = nat_rules t c).
Proof using Type.
  induction todo as [|r todo IH]; intros done_ t t' Hin Ht; cbn [map app flush_lines].
  - intros [= <-]. rewrite app_nil_r in *. by split.
  - destruct (spec_shown t0 r (Hin r ltac:(left))) as [_ Hshow]. fold (owned r).
    assert (forall l, foreign (l ++ r :: todo) = foreign ((l ++ [r]) ++ todo)) as Hsplit
      by (intros l; by rewrite <- app_assoc).
    destruct (owned r) eqn:Ho; cbn [negb].
    + rewrite rule_line_prefix. cbn [negb]. destruct (Hshow eq_refl) as (args & -> & Hcanon).
      destruct (nf_exec _ t) as [[ok out] t1] eqn:Hexec.
      pose proof (spec_delete "PREROUTING" args t ok out t1 Hexec) as Hdel.
      destruct ok; [|done]. intros Hrest. rewrite Hsplit.
      assert (nat_rules t1 "PREROUTING" = foreign (done_ ++ [r]) ++ todo) as Ht1.
      { rewrite Hdel. simpl. rewrite Ht, Hcanon. rewrite remove_first_mid.
        - unfold foreign. rewrite filter_app, filter_cons_False by by rewrite Ho. by rewrite app_nil_r.
        - unfold foreign. rewrite list_elem_of_filter. intros [Hf _]. congruence. }
      destruct (IH (done_ ++ [r]) t1 t' ltac:(intros; apply Hin; by right) Ht1 Hrest) as [H1 H2].
      split; [done|]. intros c Hc. rewrite H2 by done. rewrite Hdel. simpl.
      by destruct (String.eqb_spec c "PREROUTING").
    + intros Hrest. rewrite Hsplit. apply (IH (done_ ++ [r])); [intros; apply Hin; by right| |done].
      rewrite Ht. unfold foreign. rewrite filter_app, filter_cons_True by done. by rewrite <- app_assoc.
Qed.

Lemma flush_run (t t' : T) :
  flushOwnRedirects t = (None, t') ->
  nat_rules t' "PREROUTING" = foreign (nat_rules t "PREROUTING") /\
  (forall c, c <> "PREROUTING" -> nat_rules t' c = nat_rules t c).
Proof using Type.
  unfold flushOwnRedirects. destruct (nf_exec _ t) as [[ok out] t1] eqn:Hexec.
  destruct (spec_list t ok out t1 Hexec) as [-> Hout]. destruct ok; [|done]. cbn [negb].
  rewrite (Hout eq_refl). unfold listing. rewrite split_join; [|done|].
  - cbn [flush_lines]. change (contains "-P PREROUTING ACCEPT" redirect_mark) with false. cbn [negb].
    intros Hrun. exact (flush_lines_run t (nat_rules t "PREROUTING") [] t t' ltac:(done) ltac:(done) Hrun).
  - constructor; [done|]. apply Forall_app. split; [|by constructor]. apply Forall_map, Forall_map, Forall_forall.
    intros r Hr. destruct (spec_shown t r Hr) as [Hn _]. unfold rule_line. by rewrite no_char_app, Hn.
Qed.

Lemma rule_add_run chain args (t t' : T) :
  rule_add chain args t = (None, t') ->
  (forall c, c <> chain -> nat_rules t' c = nat_rules t c) /\
  nat_rules t' chain = (if decide (canon args ∈ nat_rules t chain) then nat_rules t chain
                        else nat_rules t chain ++ [canon args]).
Proof using Type.
  unfold rule_add. destruct (spec_check chain args t) as [out ->].
  case_bool_decide as Hin; [intros [= <-]; split; [done|by rewrite decide_True]|].
  destruct (nf_exec _ t) as [[ok out'] t1] eqn:Hexec. pose proof (spec_add chain args t ok out' t1 Hexec) as Hadd.
  destruct ok; [|done]. intros [= <-]. split.
  - intros c Hc. rewrite Hadd. simpl. by destruct (String.eqb_spec c chain).
  - rewrite Hadd. simpl. rewrite String.eqb_refl. by rewrite decide_False.
Qed.

Lemma add_rules_run chain rules : forall t t' : T,
  add_rules chain rules t = (None, t') ->
  (forall c, c <> chain -> nat_rules t' c = nat_rules t c) /\
  exists new, nat_rules t' chain = nat_rules t chain ++ new /\ (forall r, r ∈ new -> r ∈ map canon rules) /\
    (forall r, r ∈ map canon rules -> r ∈ nat_rules t' chain).
Proof using Type.
  induction rules as [|a rules IH]; intros t t'; simpl.
  - intros [= <-]. split; [done|]. exists []. rewrite app_nil_r. split; [done|].
    split; [done|]. intros r Hr. by apply elem_of_nil in Hr.
  - destruct (rule_add chain a t) as [[e|] t1] eqn:Ha; [done|]. intros Hrest.
    apply rule_add_run in Ha as [Ho Hc]. destruct (IH t1 t' Hrest) as [Ho' (new & Hnew & Hsub & Hall)].
    split; [intros c Hne; rewrite Ho' by done; by apply Ho|].
    destruct (decide (canon a ∈ nat_rules t chain)) as [Hin|Hni].
    + exists new. rewrite Hnew, Hc. split; [done|]. split; [intros r Hr; right; by apply Hsub|].
      intros r [->|Hr]%elem_of_cons; [apply elem_of_app; by left|].
      specialize (Hall r Hr). by rewrite Hnew, Hc in Hall.
    + exists (canon a :: new). rewrite Hnew, Hc, <- app_assoc. split; [done|].
      split; [intros r [->|Hr]%elem_of_cons; [left|right; by apply Hsub]|].
      intros r [->|Hr]%elem_of_cons; [set_solver|]. specialize (Hall r Hr).
      by rewrite Hnew, Hc, <- app_assoc in Hall.
Qed.

Lemma redirects_owned cfg r : r ∈ map canon (redirects cfg) -> owned r = true.
Proof using Type.
  intros (args & -> & Hin)%list_elem_of_fmap. apply spec_mark. unfold redirects in Hin.
  destruct (_ && _); [|by apply elem_of_nil in Hin].
  apply list_elem_of_In, in_concat in Hin as (l & Hl & Hin). apply list_elem_of_In in Hl, Hin.
  apply list_elem_of_fmap in Hl as (p & -> & _). apply list_elem_of_fmap in Hin as (proto & -> & _).
  unfold redirect_rule. set_solver.
Qed.

Lemma foreign_none l : (forall r, r ∈ l -> owned r = true) -> foreign l = [].
Proof using Type.
  unfold foreign. induction l as [|r l IH]; intros Hl; [done|].
  rewrite filter_cons_False by (rewrite (Hl r) by left; done). apply IH. intros r' Hr. apply Hl. by right.
Qed.

Lemma foreign_idem l r : r ∈ foreign l -> owned r = false.
Proof using Type. unfold foreign. by intros [Hr _]%list_elem_of_filter. Qed.

(** C40: applying the NAT configuration makes the host's redirects those of the
    configuration.  When [Apply] reports success, the redirects the node owns
    are exactly those of the configured extra ports, for both protocols, so a
    port that was removed no longer redirects; the masquerade rule of the
    subnet is in place; and every rule of the chain that is not marked as the
    node's, and every other chain, is as it was. *)
Theorem apply_redirects_exactly env file cfg (t t' : T) :
  LoadConfig env file = cfg -> nc_enabled cfg = true -> Apply env file t = (None, t') ->
  (forall r, owned r = true -> r ∈ nat_rules t' "PREROUTING" <-> r ∈ map canon (redirects cfg)) /\
  foreign (nat_rules t' "PREROUTING") = foreign (nat_rules t "PREROUTING") /\
  (exists iface, iface <> "" /\ canon (masquerade_rule (nc_subnet cfg) iface) ∈ nat_rules t' "POSTROUTING") /\
  forall c, c <> "PREROUTING" -> c <> "POSTROUTING" -> nat_rules t' c = nat_rules t c.
Proof using Type.
  intros Hcfg Hen. unfold Apply, apply_config. rewrite Hcfg, Hen. cbn [negb].
  destruct (defaultIface t) as [iface t1] eqn:Hi.
  assert (t1 = t) as ->.
  { unfold defaultIface in Hi. pose proof (route_state t) as Hr. destruct (nf_exec _ t) as [[ok out] t2].
    simpl in Hr. subst t2. by destruct ok; injection Hi as _ <-. }
  destruct (str_empty iface) eqn:He; [done|].
  destruct (flushOwnRedirects t) as [[e|] t1] eqn:Hf; [done|]. apply flush_run in Hf as [F1 F2].
  destruct (rule_add "POSTROUTING" _ t1) as [[e|] t2] eqn:Hm; [done|]. apply rule_add_run in Hm as [M1 M2].
  intros Hadd. apply add_rules_run in Hadd as [A1 (new & A2 & Asub & Aall)].
  assert (nat_rules t2 "PREROUTING" = foreign (nat_rules t "PREROUTING")) as Hpre by by rewrite M1.
  rewrite Hpre in A2. split; [|split; [|split]].
  - intros r Ho. split; [|by apply Aall]. rewrite A2, elem_of_app. intros [Hr|Hr]; [|by apply Asub].
    apply foreign_idem in Hr. congruence.
  - rewrite A2. unfold foreign at 1. rewrite filter_app. fold (foreign (foreign (nat_rules t "PREROUTING"))).
    fold (foreign new). rewrite (foreign_none new); [|intros r Hr; by apply (redirects_owned cfg), Asub].
    rewrite app_nil_r. unfold foreign. rewrite list_filter_filter. apply list_filter_iff. naive_solver.
  - exists iface. split; [intros ->; done|]. rewrite A1 by done. rewrite M2.
    case_decide; [done|]. apply elem_of_app. right. by left.
  - intros c H1 H2. rewrite A1, M1, F2 by done. done.
Qed.
End apply.

(** ** A packet filter kept as lists of rules *)

Definition good_token (s : string) : bool := negb (str_empty s) && str_forall is_graph s.
Definition token (s : string) : string := if good_token s then s else "_".

Abbreviation table := (gmap string (list (list string))).
Definition stored (t : table) (chain : string) : list (list string) := map (map token) (default [] (t !! chain)).

#[export] Instance table_filter : Netfilter table := fun argv t =>
  match argv with
  | cmd :: _ :: _ :: op :: chain :: args =>
      let r := map token args in
      if negb (String.eqb cmd "iptables") then (true, "default via 192.0.2.1 dev eth0 proto dhcp", t)
      else if String.eqb op "-C" then (bool_decide (r ∈ stored t chain), "", t)
      else if String.eqb op "-A" then (true, "", <[chain := stored t chain ++ [r]]> t)
      else if String.eqb op "-D" then (true, "", <[chain := remove_first r (stored t chain)]> t)
      else (true, listing (map (join " ") (stored t "PREROUTING")), t)
  | _ => (false, "", t)
  end.

Lemma token_good s : good_token (token s) = true.
Proof. unfold token. by destruct (good_token s) eqn:H. Qed.

Lemma token_id s : good_token s = true -> token s = s.
Proof. unfold token. by intros ->. Qed.

Lemma tokens_id l : Forall (fun s => good_token s = true) l -> map token l = l.
Proof. induction 1 as [|s l Hs _ IH]; [done|]. simpl. by rewrite token_id, IH. Qed.

Lemma tokens_good l : Forall (fun s => good_token s = true) (map token l).
Proof. apply Forall_map, Forall_forall. intros s _. apply token_good. Qed.

Lemma stored_insert t chain l c :
  Forall (fun r => Forall (fun s => good_token s = true) r) l ->
  stored (<[chain := l]> t) c = if String.eqb c chain then l else stored t c.
Proof.
  intros Hl. unfold stored. destruct (String.eqb_spec c chain) as [->|Hne].
  - rewrite lookup_insert_eq. simpl. induction Hl as [|r l Hr _ IH]; [done|]. simpl. by rewrite tokens_id, IH.
  - by rewrite lookup_insert_ne.
Qed.

Lemma stored_good t chain : Forall (fun r => Forall (fun s => good_token s = true) r) (stored t chain).
Proof. unfold stored. apply Forall_map, Forall_forall. intros r _. apply tokens_good. Qed.

Lemma remove_first_sub r l : forall x, x ∈ remove_first r l -> x ∈ l.
Proof.
  induction l as [|y l IH]; intros x; simpl; [done|]. case_decide; [by right|].
  intros [->|Hx]%elem_of_cons; [left|right; by apply IH].
Qed.

Lemma good_token_spec s : good_token s = true -> s <> "" /\ str_forall is_graph s = true.
Proof. unfold good_token. intros H. boolify. split; [by intros ->|done]. Qed.

Lemma fields_join l : Forall (fun s => good_token s = true) l -> fields (join " " l) = l.
Proof.
  unfold fields. induction l as [|w l IH]; intros Hl; [done|]. apply Forall_cons in Hl as [Hw Hl].
  apply good_token_spec in Hw as [Hne Hg]. destruct l as [|v l]; [by apply fields_last|].
  rewrite join_cons. change (" " +:+ join " " (v :: l)) with (String " " (join " " (v :: l))).
  rewrite fields_word by done. by rewrite IH.
Qed.

Lemma rule_line_fields r :
  Forall (fun s => good_token s = true) r -> fields (rule_line (join " " r)) = "-A" :: "PREROUTING" :: r.
Proof.
  intros Hr. destruct r as [|w r]; [done|].
  change (rule_line (join " " (w :: r))) with (join " " ("-A" :: "PREROUTING" :: w :: r)).
  apply fields_join. constructor; [done|]. by constructor.
Qed.

Lemma contains_join w l : w ∈ l -> contains (join " " l) w = true.
Proof.
  induction l as [|v l IH]; [by intros H%elem_of_nil|]. intros [->|Hin]%elem_of_cons.
  - destruct l as [|u l]; [|rewrite join_cons; apply contains_prefix].
    simpl. rewrite <- (app_nil_r_s v) at 1. apply contains_prefix.
  - destruct l as [|u l]; [by apply elem_of_nil in Hin|]. rewrite join_cons. by apply contains_skip, contains_skip, IH.
Qed.

Lemma join_no_nl l : Forall (fun s => good_token s = true) l -> no_char nl (join " " l) = true.
Proof.
  induction l as [|w l IH]; intros Hl; [done|]. apply Forall_cons in Hl as [Hw Hl].
  apply good_token_spec in Hw as [_ Hg].
  assert (no_char nl w = true) as Hn by by eapply str_forall_no_char; [|exact Hg].
  destruct l as [|v l]; [done|]. rewrite join_cons, !no_char_app, Hn. cbn [andb]. by apply IH.
Qed.

#[export, refine] Instance table_spec : NetfilterSpec table := {
  nat_rules := stored; canon := map token; show := join " "
}.
Proof.
  - intros t. done.
  - intros chain args t. by eexists.
  - intros chain args t ok out t' Hexec c. cbn in Hexec. injection Hexec as <- <- <-. cbn [andb].
    rewrite stored_insert.
    + destruct (String.eqb_spec c chain); [by subst|done].
    + apply Forall_app. split; [apply stored_good|]. constructor; [apply tokens_good|constructor].
  - intros chain args t ok out t' Hexec c. cbn in Hexec. injection Hexec as <- <- <-. cbn [andb].
    rewrite stored_insert.
    + destruct (String.eqb_spec c chain); [by subst|done].
    + apply Forall_forall. intros r Hr%remove_first_sub. pose proof (stored_good t chain) as Hg.
      rewrite Forall_forall in Hg. by apply Hg.
  - intros t ok out t' Hexec. cbn in Hexec. injection Hexec as <- <- <-. by split.
  - intros t r Hr. pose proof (stored_good t "PREROUTING") as Hg. rewrite Forall_forall in Hg.
    specialize (Hg r Hr). split; [by apply join_no_nl|]. intros _. exists r.
    split; [by apply rule_line_fields|by apply tokens_id].
  - intros args Hin. unfold rule_line. apply contains_skip, contains_join. apply list_elem_of_fmap.
    exists "ovnode-redirect". by split.
Defined.

(** A host with a redirect of a port that is no longer configured and a rule of
    somebody else. *)
Definition old_redirect : list string := redirect_rule 1194 "tcp" "8443".
Definition foreign_rule : list string := ["-p"; "tcp"; "--dport"; "8080"; "-j"; "REDIRECT"; "--to-ports"; "80"].
Definition demo_table : table := <["PREROUTING" := [old_redirect; foreign_rule]]> ∅.
Definition demo_env : environ := mkEnviron ∅ ∅.
Definition demo_file : string :=
  join (str1 nl) ["# ports"; "VPN_PRIMARY_PORT=1194"; " VPN_EXTRA_PORTS = 1195 "; ""].
Definition demo_nat : NatConfig := mkNat true 1194 "1195" "10.66.0.0/24" "tun0".

Example demo_config_loads : LoadConfig demo_env (Some demo_file) = demo_nat.
Proof. vm_compute. reflexivity. Qed.

Example nat_apply_runs :
  match Apply demo_env (Some demo_file) demo_table with
  | (None, t) => stored t "PREROUTING" =
      [foreign_rule; redirect_rule 1194 "tcp" "1195"; redirect_rule 1194 "udp" "1195"]
  | _ => False
  end.
Proof. vm_compute. reflexivity. Qed.

Lemma apply_redirects_exactly_witness :
  exists t', Apply demo_env (Some demo_file) demo_table = (None, t') /\
    ~ old_redirect ∈ nat_rules t' "PREROUTING" /\
    redirect_rule 1194 "udp" "1195" ∈ nat_rules t' "PREROUTING".
Proof.
  destruct (Apply demo_env (Some demo_file) demo_table) as [r t'] eqn:Hrun.
  assert (r = None) as ->.
  { change r with (r, t').1. rewrite <- Hrun. vm_compute. reflexivity. }
  destruct (apply_redirects_exactly demo_env (Some demo_file) demo_nat demo_table t'
    demo_config_loads eq_refl Hrun) as [H _].
  exists t'. split; [reflexivity|]. split.
  - rewrite (H old_redirect ltac:(vm_compute; reflexivity)). vm_compute.
    intros Hin. repeat (apply elem_of_cons in Hin as [Hin|Hin]; [discriminate|]). apply elem_of_nil in Hin. exact Hin.
  - apply H; [vm_compute; reflexivity|]. vm_compute. right. left.
Defined.
