(* ===== verification/Control.v ===== *)
(** * Control: internal/ovpn/control.go, process.go and node.go.

    The settings the panel pushes: reading the endpoint back, checking a
    request, computing the new server.conf and client template in memory, and
    applying them with snapshots that a failure restores.  The processes of
    the host and the names it resolves are parameters. *)

From S2P Require Import Prelude GoString NetIP Names Cache World Config Policy Mgmt Disconnect Users Perms Migrate.
From Stdlib Require Import Ascii.

(** ** The rewriting of directives

    [regexp] matches [(?m)^name\s+ARG+] at the start of a line only; no
    character of the argument is a space, so the match is unique. *)

(** The spaces of [\s]: tab, newline, form feed, carriage return, space. *)
Definition re_space (c : ascii) : bool := byte_in 9 10 c || byte_in 12 13 c || byte_in 32 32 c.
Definition re_nonspace (c : ascii) : bool := negb (re_space c).

Fixpoint span (p : ascii -> bool) (s : string) : string * string :=
  match s with
  | "" => ("", "")
  | String c s' => if p c then let '(a, r) := span p s' in (String c a, r) else ("", s)
  end.

(** A match at the start of [s]: the argument and what follows. *)
Definition match_directive (name : string) (arg : ascii -> bool) (s : string) : option (string * string) :=
  if negb (has_prefix s name) then None
  else
    let '(sp, rest) := span re_space (trim_prefix s name) in
    let '(a, rest) := span arg rest in
    if str_empty sp || str_empty a then None else Some (a, rest).

(** [FindStringSubmatch]: the argument of the first match. *)
Fixpoint find_directive (name : string) (arg : ascii -> bool) (bol : bool) (s : string) : option string :=
  match (if bol then match_directive name arg s else None) with
  | Some (a, _) => Some a
  | None => match s with "" => None | String c s' => find_directive name arg (Ascii.eqb c nl) s' end
  end.

(** [ReplaceAllString]: [skip] bytes belong to the match just replaced. *)
Fixpoint replace_go (name : string) (arg : ascii -> bool) (rep : string) (bol : bool) (skip : nat) (s : string) : string :=
  match s with
  | "" => ""
  | String c s' =>
      match skip with
      | S k => replace_go name arg rep false k s'
      | O =>
          match (if bol then match_directive name arg s else None) with
          | Some (_, rest) => rep +:+ replace_go name arg rep false (String.length s' - String.length rest) s'
          | None => String c (replace_go name arg rep (Ascii.eqb c nl) 0 s')
          end
      end
  end.
Definition replace_directive (name : string) (arg : ascii -> bool) (rep : string) (s : string) : string :=
  replace_go name arg rep true 0 s.

(** ** IPv6 in server.conf *)

Definition is_tun (ln : string) : bool := String.eqb (trim_space ln) "tun-ipv6".
Definition is_server6 (ln : string) : bool := has_prefix (trim_space ln) "server-ipv6 ".

(** The index of the last line with a property. *)
Fixpoint last_index (p : string -> bool) (i : nat) (lines : list string) (found : option nat) : option nat :=
  match lines with
  | [] => found
  | ln :: lines' => last_index p (S i) lines' (if p ln then Some i else found)
  end.

Definition applyIPv6 (conf : string) (enabled : bool) (prefix : string) : string * bool :=
  let lines := split nl conf in
  let hasTun := existsb is_tun lines in
  if negb enabled then
    (join (str1 nl) (filter (fun ln => negb (is_tun ln || is_server6 ln)) lines),
     existsb (fun ln => is_tun ln || is_server6 ln) lines)
  else
    let serverIdx := last_index is_server6 0 lines None in
    let '(lines, changed) := if hasTun then (lines, false) else (lines ++ ["tun-ipv6"], true) in
    let '(lines, changed) :=
      match serverIdx with
      | Some i =>
          if String.eqb (trim_space (default "" (lines !! i))) ("server-ipv6 " +:+ prefix) then (lines, changed)
          else (<[i := "server-ipv6 " +:+ prefix]> lines, true)
      | None => (lines ++ ["server-ipv6 " +:+ prefix], true)
      end in
    (join (str1 nl) lines, changed).

(** ** The template *)

Definition is_proto_line (ln : string) : bool := has_prefix (trim_space ln) "proto ".
Definition is_remote_line (ln : string) : bool := has_prefix (trim_space ln) "remote ".

(** [RemoteLines]; the loop of ChangeConfig builds the same lines. *)
Definition remote_lines (addr : string) (ports : list Z) : list string :=
  map (fun p => "remote " +:+ addr +:+ " " +:+ itoa p) ports.
Definition RemoteLines (addr : string) (primary : Z) (extra : list Z) : string :=
  join (str1 nl) (remote_lines addr (primary :: extra)).

(** The remotes go behind the first line of the protocol, or to the end. *)
Fixpoint insert_remotes (remotes lines : list string) : list string * bool :=
  match lines with
  | [] => ([], false)
  | ln :: lines' =>
      if is_proto_line ln then (ln :: remotes ++ lines', true)
      else let '(out, done) := insert_remotes remotes lines' in (ln :: out, done)
  end.

(** A protocol line is replaced as a whole. *)
Definition set_proto (proto ln : string) : string := if is_proto_line ln then "proto " +:+ proto else ln.

Definition place_remotes (remotes lines : list string) : list string :=
  let '(out, inserted) := insert_remotes remotes lines in if inserted : bool then out else out ++ remotes.

Definition rewrite_template (tmpl addr proto : string) (ports : list Z) : string :=
  let out := filter (fun ln => negb (is_remote_line ln)) (split nl tmpl) in
  join (str1 nl) (map (set_proto proto) (place_remotes (remote_lines addr ports) out)).

(** The address of the first remote of a template. *)
Fixpoint remote_addr (lines : list string) : string :=
  match lines with
  | [] => ""
  | ln :: lines' =>
      match fields (trim_space ln) with
      | w :: addr :: _ :: _ => if String.eqb w "remote" then addr else remote_addr lines'
      | _ => remote_addr lines'
      end
  end.

(** ** ReadConfig *)

Record Endpoint : Type := mkEndpoint { ep_port : option Z; ep_proto : option string; ep_addr : option string }.

Definition templateFile : loc := LConf "client-common.txt".

(** The loop over server.conf; it ends once both values are known. *)
Fixpoint read_endpoint (lines : list string) (port : option Z) (proto : option string) : option Z * option string :=
  match lines with
  | [] => (port, proto)
  | line :: lines' =>
      let s := trim_space line in
      let '(port, proto) :=
        if has_prefix s "port " && bool_decide (port = None) then
          (match fields s with _ :: w :: _ => atoi w | _ => None end, proto)
        else if has_prefix s "proto " && bool_decide (proto = None) then
          (port, match fields s with _ :: w :: _ => Some w | _ => None end)
        else (port, proto) in
      if bool_decide (is_Some port) && bool_decide (is_Some proto) then (port, proto)
      else read_endpoint lines' port proto
  end.

(** The address of the template, absent rather than empty. *)
Fixpoint find_remote (lines : list string) : option string :=
  match lines with
  | [] => None
  | ln :: lines' =>
      match fields (trim_space ln) with
      | w :: addr :: _ :: _ => if String.eqb w "remote" then Some addr else find_remote lines'
      | _ => find_remote lines'
      end
  end.

Definition ReadConfig : M Endpoint :=
  data <- try (read_file settingFile) ;;
  let '(port, proto) := match data with inr d => read_endpoint (split nl d) None None | inl _ => (None, None) end in
  tdata <- try (read_file templateFile) ;;
  mret (mkEndpoint port proto (match tdata with inr d => find_remote (split nl d) | inl _ => None end)).

(** ** The processes of the host *)

(** What procfs, pgrep, the resolver and the kernel answer. *)
Record Host : Type := mkHost {
  hs_id : HostId;                     (** who the agent runs as *)
  hs_pgrep : string;                  (** the output of [pgrep -x openvpn] *)
  hs_cmdline : Z -> option string;    (** [/proc/<pid>/cmdline] *)
  hs_alive : Z -> bool;               (** [/proc/<pid>] exists *)
  hs_term : Z -> bool;                (** SIGTERM is delivered *)
  hs_addresses : option string;       (** the output of [hostname -I] *)
  hs_lookup : list string             (** the addresses of the host name *)
}.

(** [NodePublicIP]. *)
Definition public_addr (a : string) : bool := negb (has_prefix a "127.") && negb (contains a ":").
Definition NodePublicIP (h : Host) : string :=
  let listed := match hs_addresses h with Some out => fields out | None => [] end in
  default "127.0.0.1" (head (filter (fun a => public_addr a = true) (listed ++ hs_lookup h))).

Definition nul : ascii := "000"%char.

(** [openvpnUsesTree]. *)
Definition openvpnUsesTree (e : environ) (h : Host) (pid : Z) : bool :=
  match hs_cmdline h pid with
  | Some cmdline => contains (str_map (fun c => if Ascii.eqb c nul then " "%char else c) cmdline) (ServerConf e)
  | None => false
  end.

Definition pidFile : loc := LConf "ovnode.pid".

(** The pid of the file of the tree. *)
Definition read_pid : M (option Z) :=
  r <- try (read_file pidFile) ;;
  mret (match r with inr data => atoi (trim_space data) | inl _ => None end).

Definition openvpnPIDs (e : environ) (h : Host) : M (list Z) :=
  own <- read_pid ;;
  mret (match own with Some n => [n] | None => [] end ++
        filter (fun n => openvpnUsesTree e h n = true) (omap atoi (fields (hs_pgrep h)))).

Definition OpenVPNIsRunning (e : environ) (h : Host) : M bool :=
  pids <- openvpnPIDs e h ;; mret (existsb (hs_alive h) pids).
Definition TreeOpenVPNRunning : environ -> Host -> M bool := OpenVPNIsRunning.

Definition ReloadOpenVPN (mc : mgmt_cfg) : M bool :=
  r <- try (SendCommands (mc_service mc) (mc_host mc) (mc_port mc) (mc_pass mc) ["signal SIGHUP"]) ;;
  mret (match r with inr replies => existsb (fun r => contains r "SUCCESS") replies | inl _ => false end).

Definition RestartOpenVPNChild (h : Host) : M bool :=
  pid <- read_pid ;;
  mret (match pid with Some n => hs_alive h n && hs_term h n | None => false end).

(** [pki.EnsureSecretPerms] only sets modes and ignores every error. *)
Definition RestartOpenVPN (e : environ) (h : Host) (mc : mgmt_cfg) : M bool :=
  there <- stat_file settingFile ;;
  if negb there then mret false
  else
    r <- try (FixRuntimePermissions (OpenVPNRoot e) e (hs_id h) (mc_pass mc)) ;;
    match r with
    | inl _ => mret false
    | inr _ =>
        restarted <- (if IsInstalledTree e then RestartOpenVPNChild h else mret false) ;;
        if restarted : bool then mret true else ReloadOpenVPN mc
    end.

(** ** A request *)

(** A value of the decoded JSON.  A [float64] counts by what [int] makes of
    it, the only use the code has for it. *)
Inductive any : Type :=
| ANil
| AInt (n : Z)
| AFloat (n : Z)
| AStr (s : string)
| AList (l : list any)
| AFloats (l : list Z)
| AInts (l : list Z)
| AStrs (l : list string)
| AOther.

Record ChangeConfigRequest : Type := mkRequest {
  rq_port : any; rq_proto : string; rq_tunnel : string; rq_dns1 : option string; rq_dns2 : option string;
  rq_ipv6 : option bool; rq_prefix : option string; rq_extra : any
}.

Record ChangeConfigResult : Type := mkResult { RestartRequired : bool; HotReload : bool }.

Definition requested_port (v : any) : option Z :=
  match v with
  | AInt n | AFloat n => Some n
  | AStr s => atoi (trim_space s)
  | _ => None
  end.

Definition normalizeProto (p : string) : option string :=
  let p := to_lower (trim_space p) in
  if str_empty p then Some "tcp"
  else if bool_decide (p ∈ ["tcp"; "tcp4"; "tcp6"]) then Some "tcp"
  else if bool_decide (p ∈ ["udp"; "udp4"; "udp6"]) then Some "udp"
  else None.

(** [tunnelRe]. *)
Definition tunnel_char (c : ascii) : bool :=
  byte_in 48 58 c || byte_in 65 90 c || byte_in 97 122 c || byte_in 45 46 c || byte_in 95 95 c.
Definition tunnel_ok (s : string) : bool := negb (str_empty s) && str_forall tunnel_char s.

Definition extraPortsRaw (v : any) : option string :=
  match v with
  | AStr s => Some s
  | AList l =>
      join "," <$> mapM (fun x => match x with
                                  | AFloat n | AInt n => Some (itoa n)
                                  | AStr s => Some (trim_space s)
                                  | _ => None
                                  end) l
  | AFloats l | AInts l => Some (join "," (map itoa l))
  | AStrs l => Some (join "," l)
  | _ => None
  end.

(** A checked request. *)
Record Plan : Type := mkPlan {
  pl_port : Z; pl_proto : string; pl_tunnel : string;
  pl_dns1 : option string; pl_dns2 : option string;
  pl_ipv6 : bool;                   (** the request speaks of IPv6 *)
  pl_enable : bool; pl_prefix : string;
  pl_extra : option (list Z)
}.

(** A pushed DNS server: the empty string clears it, another one is refused
    unless it is an address. *)
Definition check_dns (v : option string) : option (option string) :=
  match v with
  | None => Some None
  | Some s => let ip := ValidateIP s in if negb (str_empty s) && str_empty ip then None else Some (Some ip)
  end.

Definition check_ports (e : environ) (v : any) (port : Z) : option (option (list Z)) :=
  match v with
  | ANil => Some None
  | _ =>
      match extraPortsRaw v with
      | None => None
      | Some raw => match ValidateExtraPorts e raw port with inr ports => Some (Some ports) | inl _ => None end
      end
  end.

(** Phase (a), in the order of the code; [cur] is the IPv6 state in effect. *)
Definition check_request (e : environ) (cur : bool * string) (req : ChangeConfigRequest) : option Plan :=
  ovpnPort ← requested_port (rq_port req);
  if (ovpnPort <? 1)%Z || (65535 <? ovpnPort)%Z || IsReservedPrimaryPort e ovpnPort then None
  else
    proto ← normalizeProto (rq_proto req);
    let tunnelAddr := trim_space (rq_tunnel req) in
    if negb (str_empty tunnelAddr) && negb (tunnel_ok tunnelAddr) then None
    else
      d1 ← check_dns (rq_dns1 req);
      d2 ← check_dns (rq_dns2 req);
      let enable := default cur.1 (rq_ipv6 req) in
      prefix ← match rq_prefix req with
               | None => Some cur.2
               | Some s => let v := ValidatePrefix s in if str_empty v then None else Some v
               end;
      extra ← check_ports e (rq_extra req) ovpnPort;
      Some (mkPlan ovpnPort proto tunnelAddr d1 d2
              (bool_decide (is_Some (rq_ipv6 req)) || bool_decide (is_Some (rq_prefix req))) enable prefix extra).

(** ** The edit

    Phase (b): everything to be written, computed before anything is. *)

Definition rewrite_endpoint (config proto : string) (port : Z) : string :=
  let c := replace_directive "port" is_digit ("port " +:+ itoa port) config in
  let c := replace_directive "proto" re_nonspace ("proto " +:+ proto) c in
  replace_directive "explicit-exit-notify" is_digit
    ("explicit-exit-notify " +:+ (if String.eqb proto "udp" then "1" else "0")) c.

(** The protocol or the port of the file is another one. *)
Definition endpoint_changed (config proto : string) (port : Z) : bool :=
  negb (has_prefix (default "" (find_directive "proto" re_nonspace true config)) proto) ||
  negb (String.eqb (default "" (find_directive "port" is_digit true config)) (itoa port)).

(** The servers written to server.conf: without a first server the ones in
    effect stay. *)
Definition desired_dns (effective : list string) (d1 d2 : option string) : list string :=
  match d1 with
  | None => effective
  | Some a =>
      (if str_empty a then [] else [a]) ++
      (match d2 with Some b => if str_empty b then [] else [b] | None => [] end)
  end.

Definition intsEqual (a b : list Z) : bool := bool_decide (a = b).

Record Edit : Type := mkEdit {
  ed_plan : Plan;
  ed_config : string; ed_new_config : string;
  ed_tmpl : string; ed_new_tmpl : string;
  ed_dns : bool; ed_d1 : string; ed_d2 : string;   (** the DNS state to store *)
  ed_restart : bool;                               (** a restart is needed *)
  ed_ipv6_changed : bool;                          (** the IPv6 lines changed *)
  ed_state_changed : bool;                         (** a stored setting changes *)
  ed_ports_changed : bool
}.

Definition ed_conf_changed (ed : Edit) : bool := negb (String.eqb (ed_new_config ed) (ed_config ed)).
Definition ed_tmpl_changed (ed : Edit) : bool := negb (String.eqb (ed_new_tmpl ed) (ed_tmpl ed)).
Definition ed_any (ed : Edit) : bool := ed_conf_changed ed || ed_tmpl_changed ed || ed_state_changed ed.

Definition provided (d : option string) : bool := bool_decide (is_Some d).

(** The address of the remotes: the pushed one, the one of the template, or
    the address of the host. *)
Definition tunnel_addr (h : Host) (pushed : string) (tmpl : string) : string :=
  if negb (str_empty pushed) then pushed
  else
    let old := remote_addr (split nl tmpl) in
    if str_empty old || String.eqb old "UPDATE_VIA_PANEL" then NodePublicIP h else old.

Definition compute_edit (e : environ) (h : Host) (pl : Plan) : M Edit :=
  config <- read_file settingFile ;;
  t <- try (read_file templateFile) ;;
  let tmpl := match t with inr d => d | inl _ => "" end in
  let port := pl_port pl in
  let c1 := rewrite_endpoint config (pl_proto pl) port in
  let '(def1, def2) := VPNDNS e in
  let d1 := default def1 (pl_dns1 pl) in
  let d2 := default def2 (pl_dns2 pl) in
  let dnsProvided := provided (pl_dns1 pl) || provided (pl_dns2 pl) in
  effective <- DNSEffective def1 def2 ;;
  let c2 := if dnsProvided then RewritePushDNS c1 (desired_dns effective (pl_dns1 pl) (pl_dns2 pl)) else c1 in
  let '(newConfig, v6changed) := if pl_ipv6 pl then applyIPv6 c2 (pl_enable pl) (pl_prefix pl) else (c2, false) in
  let oldAddr := remote_addr (split nl tmpl) in
  let addr := tunnel_addr h (pl_tunnel pl) tmpl in
  oldPorts <- PortsEffective e (ExtraVPNPorts e) ;;
  let extras := default oldPorts (pl_extra pl) in
  let newTmpl := rewrite_template tmpl addr (pl_proto pl) (port :: extras) in
  st <- ReadDNSState ;;
  en <- IPv6Effective (IPv6Enabled e) (IPv6Prefix e) ;;
  let dnsState := dnsProvided && negb (String.eqb (dns1 st) d1 && String.eqb (dns2 st) d2) in
  let v6State := pl_ipv6 pl && negb (Bool.eqb en.1 (pl_enable pl) && String.eqb en.2 (pl_prefix pl)) in
  let portsState := match pl_extra pl with Some ps => negb (intsEqual oldPorts ps) | None => false end in
  mret (mkEdit pl config newConfig tmpl newTmpl dnsProvided d1 d2
          (endpoint_changed config (pl_proto pl) port || negb (String.eqb addr oldAddr))
          v6changed (dnsState || v6State || portsState) portsState).

(** ** Snapshots *)

(** The copy kept of a file, or nothing when there was no file. *)
Record snapshot : Type := mkSnap { sn_path : loc; sn_tmp : option loc }.

Definition snapshotFile (path : loc) : M snapshot :=
  there <- stat_file path ;;
  if negb there then mret (mkSnap path None)
  else
    data <- read_file path ;;
    tmp <- create_temp path ".snap-" data ;;
    mret (mkSnap path (Some tmp)).

(** A snapshot that fails is skipped. *)
Definition snap (snaps : list snapshot) (path : loc) : M (list snapshot) :=
  there <- stat_file path ;;
  if there : bool then
    r <- try (snapshotFile path) ;;
    mret (match r with inr s => snaps ++ [s] | inl _ => snaps end)
  else mret (snaps ++ [mkSnap path None]).

Fixpoint snap_all (snaps : list snapshot) (paths : list loc) : M (list snapshot) :=
  match paths with
  | [] => mret snaps
  | p :: paths' => snaps <- snap snaps p ;; snap_all snaps paths'
  end.

Definition restore (s : snapshot) : M unit :=
  match sn_tmp s with
  | Some tmp => ignore (rename_file tmp (sn_path s))
  | None => ignore (remove_file (sn_path s))
  end.
Definition restoreSnapshots (snaps : list snapshot) : M unit := for_each restore (rev snaps).

Definition cleanup (s : snapshot) : M unit :=
  match sn_tmp s with Some tmp => ignore (remove_file tmp) | None => mret tt end.

(** ** ChangeConfig *)

(** [invalidateCachedOVPN]: the cached profiles of all users. *)
Definition invalidateCachedOVPN : M unit :=
  r <- try read_users_dir ;;
  match r with
  | inl _ => mret tt
  | inr cns => for_each (fun cn => ignore (remove_file (LUser cn "client.ovpn"))) cns
  end.

Section change.
Context (e : environ) (h : Host) (mc : mgmt_cfg).
(** What reaches a state file whose write errors are ignored, and whether the
    node's binary run as [nat apply] succeeds. *)
Context (reaches : string -> string) (apply : World -> bool).

Definition natConf : loc := LAbs "/etc/default/ovnode-nat".

Definition snapshot_paths (ed : Edit) : list loc :=
  [settingFile; templateFile] ++ (if ed_dns ed then [DNSStatePath] else []) ++
  (if pl_ipv6 (ed_plan ed) then [IPv6StatePath] else []) ++
  (match pl_extra (ed_plan ed) with Some _ => [PortsStatePath; natConf] | None => [] end).

(** The writes of phase (c) with the checks behind them; the DNS and IPv6
    writes say whether they wrote. *)
Definition apply_edit (ed : Edit) : M (bool * bool) :=
  let pl := ed_plan ed in
  (if ed_conf_changed ed then WriteFileAtomic settingFile (ed_new_config ed) else mret tt) ;;
  (if ed_tmpl_changed ed then WriteFileAtomic templateFile (ed_new_tmpl ed) else mret tt) ;;
  dnsChanged <- (if ed_dns ed then WriteDNSState reaches (ed_d1 ed) (ed_d2 ed) else mret false) ;;
  v6Changed <- (if pl_ipv6 pl then WriteIPv6State reaches (pl_enable pl) (pl_prefix pl) else mret false) ;;
  (match pl_extra pl with
   | Some ports => WritePortsState ports ;; SyncNATConfig natConf apply (pl_port pl) ports
   | None => mret tt
   end) ;;
  st <- ReadDNSState ;;
  if ed_dns ed && negb (String.eqb (dns1 st) (ed_d1 ed) && String.eqb (dns2 st) (ed_d2 ed))
  then throw (Errorf "dns state was not written")
  else
    ps <- ReadPortsState e ;;
    if match pl_extra pl with Some ports => negb (intsEqual (ps_ports ps) ports) | None => false end
    then throw (Errorf "ports state was not written")
    else mret (dnsChanged, v6Changed).

(** The restart or reload an edit needs; [true] when it failed. *)
Definition activate (ed : Edit) : M bool :=
  if ed_restart ed || ed_conf_changed ed then
    running <- OpenVPNIsRunning e h ;;
    if running : bool then
      ok <- (if ed_restart ed then RestartOpenVPN e h mc else ReloadOpenVPN mc) ;;
      mret (negb ok)
    else mret false
  else mret false.

(** Phase (c) between the snapshots and their cleanup. *)
Definition commit (ed : Edit) (snaps : list snapshot) : M (bool * ChangeConfigResult) :=
  r <- try (apply_edit ed) ;;
  match r with
  | inl _ => restoreSnapshots snaps ;; mret (false, mkResult false false)
  | inr (dnsChanged, v6Changed) =>
      invalidateCachedOVPN ;;
      let result := mkResult (ed_restart ed) (dnsChanged || (v6Changed || ed_ipv6_changed ed) || ed_ports_changed ed) in
      failed <- activate ed ;;
      if failed : bool then
        restoreSnapshots snaps ;;
        ignore (if ed_restart ed then RestartOpenVPN e h mc else ReloadOpenVPN mc) ;;
        mret (false, result)
      else mret (true, result)
  end.

(** The answer and the classification it fills in; the latter stays as the
    caller made it, all false, where the request is refused early. *)
Definition ChangeConfig (req : ChangeConfigRequest) : M (bool * ChangeConfigResult) :=
  cur <- IPv6Effective (IPv6Enabled e) (IPv6Prefix e) ;;
  match check_request e cur req with
  | None => mret (false, mkResult false false)
  | Some pl =>
      r <- try (compute_edit e h pl) ;;
      match r with
      | inl _ => mret (false, mkResult false false)
      | inr ed =>
          if negb (ed_any ed) then mret (true, mkResult (ed_restart ed) false)
          else
            snaps <- snap_all [] (snapshot_paths ed) ;;
            answer <- commit ed snaps ;;
            for_each cleanup (rev snaps) ;;
            mret answer
      end
  end.
End change.
