(* ===== verification/ConfText.v ===== *)
(** * ConfText: the texts of internal/ovpn/control.go.

    The rewriting of directives with regular expressions, which scan the whole
    file, is the same as a rewriting line by line; the template names every
    port once. *)

From S2P Require Import Prelude GoString Names Cache World Config Policy Mgmt Disconnect Users Migrate Control.
From Stdlib Require Import Ascii.

(** ** Matching in a line *)

Lemma span_app p s : (span p s).1 +:+ (span p s).2 = s.
Proof.
  induction s as [|c s IH]; [done|]. simpl. destruct (p c); [|done]. destruct (span p s). simpl in *. by rewrite app_cons_s, IH.
Qed.

Lemma span_more p s t : (span p s).2 <> "" -> span p (s +:+ t) = ((span p s).1, (span p s).2 +:+ t).
Proof.
  induction s as [|c s IH]; [done|]. rewrite app_cons_s. simpl. destruct (p c); [|done].
  destruct (span p s) as [a r]. simpl in *. intros Hr. by rewrite IH.
Qed.

Lemma span_stop p s c t : p c = false -> span p (s +:+ String c t) = ((span p s).1, (span p s).2 +:+ String c t).
Proof.
  intros Hc. induction s as [|a s IH]; [by rewrite app_nil_l_s; simpl; rewrite Hc|]. rewrite app_cons_s. simpl.
  destruct (p a); [|done]. destruct (span p s) as [b r]. simpl in *. by rewrite IH.
Qed.

Lemma span_rest p s c t : (span p s).2 = String c t -> p c = false.
Proof.
  induction s as [|a s IH]; [done|]. simpl. destruct (p a) eqn:Ha; [destruct (span p s); exact IH|]. by intros [= <- _].
Qed.

Lemma span_all p a s : str_forall p a = true -> span p (a +:+ s) = (a +:+ (span p s).1, (span p s).2).
Proof.
  induction a as [|c a IH]; [rewrite !app_nil_l_s; by destruct (span p s)|]. rewrite !app_cons_s. simpl.
  intros [-> Ha]%andb_prop. by rewrite IH.
Qed.

Lemma trim_prefix_app p s : trim_prefix (p +:+ s) p = s.
Proof. unfold trim_prefix. by rewrite has_prefix_app, str_drop_app. Qed.

(** The line holds more than the name and spaces. *)
Definition not_bare (name ln : string) : Prop :=
  has_prefix ln name = true -> (span re_space (trim_prefix ln name)).2 <> "".

Definition set_line (name : string) (arg : ascii -> bool) (rep ln : string) : string :=
  match match_directive name arg ln with Some (_, rest) => rep +:+ rest | None => ln end.

Lemma match_in_line name arg ln r :
  no_char nl name = true -> arg nl = false -> not_bare name ln ->
  match_directive name arg (ln +:+ String nl r) =
  (fun '(a, rest) => (a, rest +:+ String nl r)) <$> match_directive name arg ln.
Proof.
  intros Hn Ha Hb. unfold match_directive. destruct (has_prefix ln name) eqn:Hp.
  - apply has_prefix_spec in Hp as [t ->]. specialize (Hb (has_prefix_app _ _)). rewrite trim_prefix_app in *.
    rewrite app_assoc_s, has_prefix_app, trim_prefix_app. cbn [negb]. rewrite span_more by done.
    destruct (span re_space t) as [sp y]. simpl in *. rewrite span_stop by done. destruct (span arg y) as [a z]. simpl.
    by destruct (str_empty sp || str_empty a).
  - destruct (has_prefix (ln +:+ String nl r) name) eqn:Hp'; [|done]. apply has_prefix_before in Hp'; [congruence|done].
Qed.

Lemma span_forall p s : str_forall p (span p s).1 = true.
Proof. induction s as [|c s IH]; [done|]. simpl. destruct (p c) eqn:Hc; [|done]. destruct (span p s). simpl in *. by rewrite Hc, IH. Qed.

(** The parts of a match. *)
Lemma match_parts name arg s a rest : match_directive name arg s = Some (a, rest) ->
  exists sp, s = name +:+ sp +:+ a +:+ rest /\ str_forall re_space sp = true /\ sp <> "" /\
    str_forall arg a = true /\ a <> "" /\ forall c t, rest = String c t -> arg c = false.
Proof.
  unfold match_directive. destruct (has_prefix s name) eqn:Hp; [|done]. apply has_prefix_spec in Hp as [t ->].
  rewrite trim_prefix_app. cbn [negb]. pose proof (span_app re_space t) as H1. pose proof (span_forall re_space t) as F1.
  destruct (span re_space t) as [sp y]. simpl in *. pose proof (span_app arg y) as H2. pose proof (span_forall arg y) as F2.
  pose proof (span_rest arg y) as S2. destruct (span arg y) as [b z]. simpl in *.
  destruct (str_empty sp) eqn:E1; [done|]. destruct (str_empty b) eqn:E2; [done|]. intros [= -> ->]. exists sp.
  rewrite H2, H1. split_and!; try done; intros ->; done.
Qed.

(** ** Line by line *)

Lemma replace_skip name arg rep a : forall s, replace_go name arg rep false (String.length a) (a +:+ s) = replace_go name arg rep false 0 s.
Proof. induction a as [|c a IH]; intros s; [done|]. rewrite app_cons_s. apply IH. Qed.

Lemma replace_copy name arg rep a : forall s, no_char nl a = true ->
  replace_go name arg rep false 0 (a +:+ s) =
  a +:+ match s with String c s' => String c (replace_go name arg rep (Ascii.eqb c nl) 0 s') | "" => "" end.
Proof.
  induction a as [|c a IH]; intros s; [by destruct s|]. unfold no_char. cbn [str_forall]. intros [Hc Ha]%andb_prop.
  rewrite !app_cons_s. cbn [replace_go]. apply negb_true_iff in Hc. by rewrite Hc, IH.
Qed.

Section replace.
Context (name : string) (arg : ascii -> bool) (rep : string).
Context (Hne : name <> "") (Hname : no_char nl name = true) (Harg : arg nl = false).

Lemma match_skip s a rest c s' : match_directive name arg s = Some (a, rest) -> s = String c s' ->
  replace_go name arg rep false (String.length s' - String.length rest) s' = replace_go name arg rep false 0 rest.
Proof using Hne.
  clear Hname. intros (sp & -> & _)%match_parts Heq. destruct name as [|n name']; [done|]. injection Heq as <- <-.
  rewrite <- !app_assoc_s. rewrite (length_app_s _ rest), Nat.add_sub. apply replace_skip.
Qed.

Lemma replace_line ln r : no_char nl ln = true -> not_bare name ln ->
  replace_go name arg rep true 0 (ln +:+ String nl r) = set_line name arg rep ln +:+ String nl (replace_go name arg rep true 0 r).
Proof using Hne Hname Harg.
  intros Hln Hb. pose proof (match_in_line name arg ln r Hname Harg Hb) as Hm. unfold set_line.
  destruct (match_directive name arg ln) as [[a rest]|] eqn:Hd; simpl in Hm.
  - destruct (ln +:+ String nl r) as [|c s'] eqn:Hs; [by destruct ln|]. cbn [replace_go]. rewrite Hm.
    rewrite (match_skip _ _ _ c s' Hm eq_refl), replace_copy; [by rewrite app_assoc_s, Ascii.eqb_refl|].
    apply match_parts in Hd as (sp & -> & _). by rewrite !no_char_app in Hln; apply andb_prop in Hln as [_ Hln]; apply andb_prop in Hln as [_ Hln]; apply andb_prop in Hln as [_ Hln].
  - destruct ln as [|c l]; [rewrite app_nil_l_s in *; cbn [replace_go]; by rewrite Hm, Ascii.eqb_refl|].
    rewrite app_cons_s in *. cbn [replace_go]. rewrite Hm. unfold no_char in Hln. cbn [str_forall] in Hln.
    apply andb_prop in Hln as [Hc Hl]. apply negb_true_iff in Hc. rewrite Hc, replace_copy by done. by rewrite Ascii.eqb_refl.
Qed.

Lemma replace_last ln : no_char nl ln = true ->
  replace_go name arg rep true 0 ln = set_line name arg rep ln.
Proof using Hne.
  clear Hname. intros Hln. unfold set_line. destruct (match_directive name arg ln) as [[a rest]|] eqn:Hd.
  - destruct ln as [|c s']; [apply match_parts in Hd as (? & Hd & _); by destruct name|]. cbn [replace_go]. rewrite Hd.
    rewrite (match_skip _ _ _ c s' Hd eq_refl), <- (app_nil_r_s rest), replace_copy, !app_nil_r_s; [done|].
    apply match_parts in Hd as (sp & Hs & _). rewrite Hs in Hln.
    by rewrite !no_char_app in Hln; apply andb_prop in Hln as [_ Hln]; apply andb_prop in Hln as [_ Hln]; apply andb_prop in Hln as [_ Hln].
  - destruct ln as [|c l]; [done|]. cbn [replace_go]. rewrite Hd. unfold no_char in Hln. cbn [str_forall] in Hln.
    apply andb_prop in Hln as [Hc Hl]. apply negb_true_iff in Hc. rewrite Hc, <- (app_nil_r_s l), replace_copy, !app_nil_r_s; done.
Qed.

Lemma replace_lines lines : Forall (fun ln => no_char nl ln = true /\ not_bare name ln) lines ->
  replace_directive name arg rep (join (str1 nl) lines) = join (str1 nl) (map (set_line name arg rep) lines).
Proof using Hne Hname Harg.
  unfold replace_directive. induction 1 as [|ln lines [Hn Hb] Hl IH]; [by destruct name|].
  destruct lines as [|ln2 lines]; [by apply replace_last|].
  change (join (str1 nl) (ln :: ln2 :: lines)) with (ln +:+ String nl (join (str1 nl) (ln2 :: lines))).
  rewrite replace_line by done. by rewrite IH.
Qed.
End replace.

(** ** The first directive *)

Lemma find_copy name arg a : no_char nl a = true ->
  (forall r, find_directive name arg false (a +:+ String nl r) = find_directive name arg true r) /\
  find_directive name arg false a = None.
Proof.
  induction a as [|c a IH]; [done|]. unfold no_char. cbn [str_forall]. intros [Hc Ha]%andb_prop. apply negb_true_iff in Hc.
  destruct (IH Ha) as [H1 H2]. split; [intros r; rewrite app_cons_s|]; cbn [find_directive]; by rewrite Hc.
Qed.

Definition line_arg (name : string) (arg : ascii -> bool) (ln : string) : option string := fst <$> match_directive name arg ln.

Lemma find_lines name arg lines : name <> "" -> no_char nl name = true -> arg nl = false ->
  Forall (fun ln => no_char nl ln = true /\ not_bare name ln) lines ->
  find_directive name arg true (join (str1 nl) lines) = head (omap (line_arg name arg) lines).
Proof.
  intros Hne Hname Harg. assert (forall ln, match_directive name arg ln = None -> no_char nl ln = true ->
    find_directive name arg true ln = None /\
    (forall r, match_directive name arg (ln +:+ String nl r) = None ->
     find_directive name arg true (ln +:+ String nl r) = find_directive name arg true r)) as Hgo.
  { intros [|c l] Hm Hn.
    - split; [cbn [find_directive]; by rewrite Hm|]. intros r Hr. rewrite app_nil_l_s in *. cbn [find_directive].
      by rewrite Hr, Ascii.eqb_refl.
    - unfold no_char in Hn. cbn [str_forall] in Hn. apply andb_prop in Hn as [Hc Hl]. apply negb_true_iff in Hc.
      split; [|intros r Hr; rewrite app_cons_s in *]; cbn [find_directive]; rewrite ?Hm, ?Hr, Hc; by apply find_copy. }
  assert (forall s a rest, match_directive name arg s = Some (a, rest) -> find_directive name arg true s = Some a) as Hhit.
  { intros s a rest Hm. destruct s; cbn [find_directive]; by rewrite Hm. }
  induction 1 as [|ln lines [Hn Hb] Hl IH]; [by destruct name|]. cbn [omap list_omap]. unfold line_arg at 1.
  destruct lines as [|ln2 lines].
  - simpl. destruct (match_directive name arg ln) as [[a rest]|] eqn:Hm; [by eapply Hhit|by apply Hgo].
  - change (join (str1 nl) (ln :: ln2 :: lines)) with (ln +:+ String nl (join (str1 nl) (ln2 :: lines))).
    pose proof (match_in_line name arg ln (join (str1 nl) (ln2 :: lines)) Hname Harg Hb) as Hw.
    destruct (match_directive name arg ln) as [[a rest]|] eqn:Hm; simpl in Hw; [by eapply Hhit|].
    etrans; [by apply Hgo|exact IH].
Qed.

(** ** The three directives *)

(** A line that was rewritten. *)
Lemma match_printed name arg v rest :
  (forall c, arg c = true -> re_space c = false) -> str_forall arg v = true -> v <> "" ->
  (forall c t, rest = String c t -> arg c = false) ->
  match_directive name arg (name +:+ " " +:+ v +:+ rest) = Some (v, rest).
Proof.
  intros Hsp Hv Hne Hr. unfold match_directive. rewrite has_prefix_app, trim_prefix_app. cbn [negb].
  change (" " +:+ v +:+ rest) with (String " " (v +:+ rest)). cbn [span].
  assert (span re_space (v +:+ rest) = ("", v +:+ rest)) as ->.
  { destruct v as [|c v]; [done|]. cbn [str_forall] in Hv. apply andb_prop in Hv as [Hc _]. rewrite app_cons_s. simpl. by rewrite Hsp. }
  change (re_space " ") with true. cbn [fst snd]. rewrite span_all by done.
  assert (span arg rest = ("", rest)) as -> by (destruct rest as [|c t]; [done|]; simpl; by rewrite (Hr c t)).
  rewrite app_nil_r_s. by destruct v.
Qed.

Section directive.
Context (name : string) (arg : ascii -> bool) (v : string).
Context (Hsp : forall c, arg c = true -> re_space c = false) (Hv : str_forall arg v = true) (Hne : v <> "").
Let put := set_line name arg (name +:+ " " +:+ v).

Lemma put_match ln : match_directive name arg (put ln) =
  match match_directive name arg ln with Some (_, rest) => Some (v, rest) | None => None end.
Proof using Hsp Hv Hne.
  unfold put, set_line. destruct (match_directive name arg ln) as [[a rest]|] eqn:Hm; [|done].
  apply match_parts in Hm as (_ & _ & _ & _ & _ & _ & Hr). rewrite !app_assoc_s. by apply match_printed.
Qed.

Lemma put_idem ln : put (put ln) = put ln.
Proof using Hsp Hv Hne.
  unfold put at 1, set_line. rewrite put_match. unfold put, set_line.
  by destruct (match_directive name arg ln) as [[a rest]|].
Qed.

Lemma put_prefix ln : has_prefix (put ln) name = has_prefix ln name.
Proof using Type.
  clear. unfold put, set_line. destruct (match_directive name arg ln) as [[a rest]|] eqn:Hm; [|done].
  apply match_parts in Hm as (sp & -> & _). by rewrite !app_assoc_s, !has_prefix_app.
Qed.

Lemma put_other ln : has_prefix ln name = false -> put ln = ln.
Proof using Type. clear. unfold put, set_line, match_directive. by intros ->. Qed.

Lemma put_not_bare ln : not_bare name ln -> not_bare name (put ln).
Proof using Hsp Hv Hne.
  intros Hb Hp. unfold put, set_line in *. destruct (match_directive name arg ln) as [[a rest]|] eqn:Hm; [|by apply Hb].
  rewrite !app_assoc_s, trim_prefix_app. destruct v as [|c v'] eqn:Hev; [done|]. cbn [str_forall] in Hv. apply andb_prop in Hv as [Hc _].
  change (" " +:+ String c v' +:+ rest) with (String " " (String c (v' +:+ rest))). cbn [span].
  change (re_space " ") with true. rewrite (Hsp c Hc). done.
Qed.

Lemma put_no_nl ln : no_char nl name = true -> no_char nl v = true -> no_char nl ln = true -> no_char nl (put ln) = true.
Proof using Type.
  clear. intros Hn Hv Hl. unfold put, set_line. destruct (match_directive name arg ln) as [[a rest]|] eqn:Hm; [|done].
  apply match_parts in Hm as (sp & -> & _). rewrite !no_char_app in *. rewrite Hn, Hv in *. simpl in *.
  apply andb_prop in Hl as [_ Hl]. by apply andb_prop in Hl as [_ Hl].
Qed.
End directive.

(** ** The endpoint *)

Definition directives : list string := ["port"; "proto"; "explicit-exit-notify"].

(** Each directive has its argument on its own line. *)
Definition plain_line (ln : string) : Prop := forall n, n ∈ directives -> not_bare n ln.

Definition exit_notify (proto : string) : string := if String.eqb proto "udp" then "1" else "0".

(** The rewriting of one line. *)
Definition endpoint_line (proto : string) (port : Z) (ln : string) : string :=
  set_line "explicit-exit-notify" is_digit ("explicit-exit-notify" +:+ " " +:+ exit_notify proto)
    (set_line "proto" re_nonspace ("proto" +:+ " " +:+ proto)
       (set_line "port" is_digit ("port" +:+ " " +:+ itoa port) ln)).

Definition is_proto (proto : string) : Prop := proto = "tcp" \/ proto = "udp".

Lemma digit_not_space c : is_digit c = true -> re_space c = false.
Proof. by destruct c as [[] [] [] [] [] [] [] []]. Qed.
Lemma nonspace_not_space c : re_nonspace c = true -> re_space c = false.
Proof. apply negb_true_iff. Qed.
#[local] Hint Resolve digit_not_space nonspace_not_space : core.

Section endpoint.
Context (proto : string) (port : Z) (Hproto : is_proto proto) (Hport : (0 <= port)%Z).

Lemma port_digits : str_forall is_digit (itoa port) = true /\ itoa port <> "" /\ no_char nl (itoa port) = true.
Proof using Hport.
  rewrite itoa_nonneg by done. split_and!; [apply utoa_digits|apply utoa_ne|].
  by apply (str_forall_no_char is_digit); [|apply utoa_digits].
Qed.

Lemma proto_word : str_forall re_nonspace proto = true /\ proto <> "" /\ no_char nl proto = true.
Proof using Hproto. by destruct Hproto as [-> | ->]. Qed.

Lemma notify_digits : str_forall is_digit (exit_notify proto) = true /\ exit_notify proto <> "" /\ no_char nl (exit_notify proto) = true.
Proof using Hproto. by destruct Hproto as [-> | ->]. Qed.

(** At most one of the three rewritings applies to a line. *)
Lemma one_directive ln n m : n ∈ directives -> m ∈ directives -> n <> m -> has_prefix ln n = true -> has_prefix ln m = false.
Proof using Type.
  clear. unfold directives. rewrite !elem_of_cons, !elem_of_nil. intros Hn Hm Hne [t ->]%has_prefix_spec.
  destruct_or! Hn; destruct_or! Hm; subst; try done; unfold has_prefix; destruct t; reflexivity.
Qed.

(** The directive of a line, with its argument and its new value. *)
Inductive governs : string -> (ascii -> bool) -> string -> Prop :=
| GPort : governs "port" is_digit (itoa port)
| GProto : governs "proto" re_nonspace proto
| GExit : governs "explicit-exit-notify" is_digit (exit_notify proto).

Lemma governs_ok n arg v : governs n arg v ->
  n ∈ directives /\ n <> "" /\ no_char nl n = true /\ arg nl = false /\ (forall c, arg c = true -> re_space c = false) /\
  str_forall arg v = true /\ v <> "" /\ no_char nl v = true.
Proof using Hproto Hport.
  destruct port_digits as (? & ? & ?), proto_word as (? & ? & ?), notify_digits as (? & ? & ?).
  unfold directives. destruct 1; split_and!; try done; auto; set_solver.
Qed.

Lemma endpoint_line_cases ln :
  (exists n arg v, governs n arg v /\ has_prefix ln n = true /\
     endpoint_line proto port ln = set_line n arg (n +:+ " " +:+ v) ln) \/
  ((forall n, n ∈ directives -> has_prefix ln n = false) /\ endpoint_line proto port ln = ln).
Proof using Type.
  clear. unfold endpoint_line.
  destruct (has_prefix ln "port") eqn:H1; [|destruct (has_prefix ln "proto") eqn:H2; [|destruct (has_prefix ln "explicit-exit-notify") eqn:H3]].
  - left. exists "port", is_digit, (itoa port). split; [constructor|]. split; [done|].
    assert (forall m, m ∈ directives -> m <> "port" -> has_prefix (set_line "port" is_digit ("port" +:+ " " +:+ itoa port) ln) m = false) as Ho.
    { intros m Hm Hne. apply (one_directive _ "port"); [set_solver|done|done|by rewrite put_prefix]. }
    rewrite (put_other "proto"), (put_other "explicit-exit-notify"); [done| |]; apply Ho; done || set_solver.
  - left. exists "proto", re_nonspace, proto. split; [constructor|]. split; [done|]. rewrite (put_other "port") by done.
    apply put_other, (one_directive _ "proto"); [set_solver|set_solver|done|by rewrite put_prefix].
  - left. exists "explicit-exit-notify", is_digit, (exit_notify proto). split; [constructor|]. split; [done|].
    rewrite (put_other "port") by done. by rewrite (put_other "proto").
  - right. split; [|rewrite (put_other "port") by done; rewrite (put_other "proto") by done; by rewrite put_other].
    unfold directives. intros n. rewrite !elem_of_cons, elem_of_nil. naive_solver.
Qed.
End endpoint.

Section endpoint_lines.
Context (proto : string) (port : Z) (Hproto : is_proto proto) (Hport : (0 <= port)%Z).

Lemma governs_fun n arg arg' v v' : governs proto port n arg v -> governs proto port n arg' v' -> arg = arg' /\ v = v'.
Proof using Type. clear. destruct 1; inversion 1; done. Qed.

Definition plain (ln : string) : Prop := no_char nl ln = true /\ plain_line ln.

Lemma put_plain n arg v ln : governs proto port n arg v -> plain ln -> plain (set_line n arg (n +:+ " " +:+ v) ln).
Proof using Hproto Hport.
  intros Hg [Hnl Hb]. destruct (governs_ok proto port Hproto Hport _ _ _ Hg) as (Hn & _ & Hnn & _ & Hsp & Hv & Hne & Hvn).
  split; [by apply put_no_nl|]. intros m Hm. destruct (decide (n = m)) as [<-|Hnm]; [by apply put_not_bare; auto|].
  destruct (has_prefix ln n) eqn:Hp; [|rewrite put_other by done; by apply Hb].
  intros Hpm. rewrite (one_directive _ n m) in Hpm; [done|done|done|done|]. by rewrite put_prefix.
Qed.

Lemma rewrite_endpoint_lines lines : Forall plain lines ->
  rewrite_endpoint (join (str1 nl) lines) proto port = join (str1 nl) (map (endpoint_line proto port) lines).
Proof using Hproto Hport.
  intros Hl. unfold rewrite_endpoint.
  assert (forall n arg v ls, governs proto port n arg v -> Forall plain ls ->
    replace_directive n arg (n +:+ " " +:+ v) (join (str1 nl) ls) = join (str1 nl) (map (set_line n arg (n +:+ " " +:+ v)) ls) /\
    Forall plain (map (set_line n arg (n +:+ " " +:+ v)) ls)) as Hstep.
  { intros n arg v ls Hg Hls. destruct (governs_ok proto port Hproto Hport _ _ _ Hg) as (Hn & Hne & Hnn & Ha & _). split.
    - apply replace_lines; [done|done|done|]. eapply Forall_impl; [exact Hls|]. intros ln [? Hb]. split; [done|by apply Hb].
    - apply Forall_map. eapply Forall_impl; [exact Hls|]. intros ln. by apply put_plain. }
  destruct (Hstep _ _ _ _ (GPort proto port) Hl) as [E1 F1]. destruct (Hstep _ _ _ _ (GProto proto port) F1) as [E2 F2].
  destruct (Hstep _ _ _ _ (GExit proto port) F2) as [E3 _].
  change ("port " +:+ itoa port) with ("port" +:+ " " +:+ itoa port). rewrite E1.
  change ("proto " +:+ proto) with ("proto" +:+ " " +:+ proto). rewrite E2.
  change ("explicit-exit-notify " +:+ _) with ("explicit-exit-notify" +:+ " " +:+ exit_notify proto). rewrite E3.
  by rewrite !map_map.
Qed.

Lemma endpoint_line_idem ln : endpoint_line proto port (endpoint_line proto port ln) = endpoint_line proto port ln.
Proof using Hproto Hport.
  destruct (endpoint_line_cases proto port ln) as [(n & arg & v & Hg & Hp & Heq)|[_ Heq]]; [|by rewrite !Heq]. rewrite Heq.
  destruct (governs_ok proto port Hproto Hport _ _ _ Hg) as (Hn & _ & _ & _ & Hsp & Hv & Hne & _).
  destruct (endpoint_line_cases proto port (set_line n arg (n +:+ " " +:+ v) ln)) as [(m & arg' & v' & Hg' & Hp' & ->)|[Hno _]].
  - destruct (decide (n = m)) as [<-|Hnm].
    + destruct (governs_fun _ _ _ _ _ Hg Hg') as [<- <-]. by apply put_idem.
    + rewrite (one_directive _ n m) in Hp'; [done|done| |done|by rewrite put_prefix]. by apply (governs_ok proto port Hproto Hport _ _ _ Hg').
  - specialize (Hno n Hn). by rewrite put_prefix, Hp in Hno.
Qed.

Lemma endpoint_line_arg n arg v ln : governs proto port n arg v ->
  line_arg n arg (endpoint_line proto port ln) = match line_arg n arg ln with Some _ => Some v | None => None end.
Proof using Hproto Hport.
  intros Hg. destruct (governs_ok proto port Hproto Hport _ _ _ Hg) as (Hn & _ & _ & _ & Hsp & Hv & Hne & _).
  assert (forall ln', has_prefix ln' n = false -> line_arg n arg ln' = None) as Hno
    by (intros ln' Hp; unfold line_arg, match_directive; by rewrite Hp).
  destruct (endpoint_line_cases proto port ln) as [(m & arg' & v' & Hg' & Hp' & ->)|[Hnone ->]]; [|by rewrite Hno by auto].
  destruct (decide (n = m)) as [<-|Hnm].
  - destruct (governs_fun _ _ _ _ _ Hg Hg') as [<- <-]. unfold line_arg. rewrite put_match by done.
    by destruct (match_directive n arg ln) as [[a rest]|].
  - assert (m ∈ directives) as Hm by (by apply (governs_ok proto port Hproto Hport _ _ _ Hg')).
    rewrite !Hno; [done| |]; apply (one_directive _ m n); solve [done | congruence | by rewrite put_prefix].
Qed.

Lemma endpoint_line_plain ln : plain ln -> plain (endpoint_line proto port ln).
Proof using Hproto Hport.
  intros Hp. destruct (endpoint_line_cases proto port ln) as [(n & arg & v & Hg & _ & ->)|[_ ->]]; [by apply put_plain|done].
Qed.

(** The first value of a directive the file has is the new one. *)
Lemma find_endpoint n arg v lines : governs proto port n arg v -> Forall plain lines ->
  is_Some (find_directive n arg true (join (str1 nl) lines)) ->
  find_directive n arg true (join (str1 nl) (map (endpoint_line proto port) lines)) = Some v.
Proof using Hproto Hport.
  intros Hg Hl. destruct (governs_ok proto port Hproto Hport _ _ _ Hg) as (Hn & Hne & Hnn & Ha & _).
  assert (forall ls, Forall plain ls -> find_directive n arg true (join (str1 nl) ls) = head (omap (line_arg n arg) ls)) as Hf.
  { intros ls Hls. apply find_lines; [done|done|done|]. eapply Forall_impl; [exact Hls|]. intros ln [? Hb]. split; [done|by apply Hb]. }
  rewrite !Hf; [|apply Forall_map; eapply Forall_impl; [exact Hl|]; intros ln; apply endpoint_line_plain|done].
  clear Hl Hf. induction lines as [|ln lines IH]; [by intros []|]. cbn [map omap list_omap].
  rewrite (endpoint_line_arg _ _ _ _ Hg). destruct (line_arg n arg ln); [done|apply IH].
Qed.
End endpoint_lines.

(** Where every directive has its argument on its own line, the three
    regular expressions that run over the whole file rewrite it line by line;
    rewriting again changes nothing; and if the file has a port and a
    protocol, the rewritten file needs no restart for the same endpoint. *)
Theorem endpoint_rewriting_is_linewise config proto port :
  is_proto proto -> (0 <= port)%Z -> Forall plain_line (split nl config) ->
  let config' := rewrite_endpoint config proto port in
  split nl config' = map (endpoint_line proto port) (split nl config) /\
  rewrite_endpoint config' proto port = config' /\
  (is_Some (find_directive "port" is_digit true config) -> is_Some (find_directive "proto" re_nonspace true config) ->
   endpoint_changed config' proto port = false).
Proof.
  intros Hproto Hport Hpl. cbv zeta. assert (Forall plain (split nl config)) as Hl.
  { apply Forall_forall. intros ln Hin. split; [|by eapply Forall_forall in Hpl]. pose proof (split_no_char nl config) as H.
    by eapply Forall_forall in H. }
  pose proof (rewrite_endpoint_lines proto port Hproto Hport _ Hl) as Hre. rewrite join_split in Hre.
  set (lines := split nl config) in *. set (lines' := map (endpoint_line proto port) lines) in *.
  assert (Forall plain lines') as Hl'.
  { apply Forall_map. eapply Forall_impl; [exact Hl|]. intros ln Hln. by apply endpoint_line_plain. }
  assert (lines' <> []) as Hne' by (unfold lines', lines; by destruct (split nl config) eqn:E; [apply split_ne in E|]).
  rewrite Hre. split; [|split].
  - apply split_join; [done|]. eapply Forall_impl; [exact Hl'|]. by intros ln [].
  - rewrite rewrite_endpoint_lines by done. f_equal. unfold lines'. rewrite map_map. apply map_ext. intros ln. by apply endpoint_line_idem.
  - intros Hp Hpr. rewrite <- (join_split nl config) in Hp, Hpr. fold lines in Hp, Hpr. unfold endpoint_changed, lines'.
    rewrite (find_endpoint _ _ Hproto Hport _ _ _ lines (GProto proto port) Hl Hpr).
    rewrite (find_endpoint _ _ Hproto Hport _ _ _ lines (GPort proto port) Hl Hp). cbn [default].
    by destruct Hproto as [-> | ->]; rewrite String.eqb_refl.
Qed.

(** ** The template *)

Lemma place_remotes_parts remotes lines :
  exists a c, lines = a ++ c /\ place_remotes remotes lines = a ++ remotes ++ c /\
    ((exists a' ln, a = a' ++ [ln] /\ is_proto_line ln = true /\ Forall (fun ln => is_proto_line ln = false) a') \/
     (c = [] /\ Forall (fun ln => is_proto_line ln = false) lines)).
Proof.
  unfold place_remotes. induction lines as [|ln lines (a & c & Hl & Hi & Hc)].
  { exists [], []. split; [done|]. split; [by rewrite app_nil_r|]. by right. }
  cbn [insert_remotes]. destruct (is_proto_line ln) eqn:Hp.
  { exists [ln], lines. split; [done|]. split; [done|]. left. exists [], ln. split; [done|]. split; [done|constructor]. }
  destruct (insert_remotes remotes lines) as [out ins] eqn:Hins. exists (ln :: a), c.
  split; [by rewrite Hl|]. split; [destruct ins; by rewrite <- !app_comm_cons, <- Hi|].
  destruct Hc as [(a' & l' & -> & H1 & H2)|[-> H]]; [left|right].
  - exists (ln :: a'), l'. split; [done|]. split; [done|]. by constructor.
  - split; [done|]. by constructor.
Qed.

Lemma remote_line_kind addr p : (0 <= p)%Z ->
  is_remote_line ("remote " +:+ addr +:+ " " +:+ itoa p) = true /\ is_proto_line ("remote " +:+ addr +:+ " " +:+ itoa p) = false.
Proof.
  intros Hp. rewrite itoa_nonneg by done. pose proof (utoa_graph (Z.to_N p)) as Hg.
  destruct (str_snoc (utoa (Z.to_N p))) as [He|(t & d & Hd)]; [by apply utoa_ne in He|]. rewrite Hd in *.
  rewrite str_forall_app in Hg. apply andb_prop in Hg as [_ Hg]. simpl in Hg. rewrite andb_true_r in Hg.
  assert ("remote " +:+ addr +:+ " " +:+ t +:+ str1 d = String "r" ("emote " +:+ addr +:+ " " +:+ t) +:+ str1 d) as ->
    by (transitivity (("remote " +:+ addr +:+ " " +:+ t) +:+ str1 d); [by rewrite !app_assoc_s|done]).
  unfold is_remote_line, is_proto_line. rewrite trim_space_bounded by done. split; [apply (has_prefix_app "remote ")|reflexivity].
Qed.

(** The rewritten template names the address with every port once, in
    their order, all together behind the first line of the protocol or at the
    end; every other line is kept, with its protocol replaced. *)
Theorem template_names_every_port tmpl addr proto p ports :
  is_proto proto -> no_char nl addr = true -> Forall (fun n => 0 <= n)%Z (p :: ports) ->
  exists before behind,
    split nl (rewrite_template tmpl addr proto (p :: ports)) = before ++ remote_lines addr (p :: ports) ++ behind /\
    before ++ behind = map (set_proto proto) (filter (fun ln => negb (is_remote_line ln)) (split nl tmpl)) /\
    Forall (fun ln => is_remote_line ln = false) (before ++ behind) /\
    (last before = Some ("proto " +:+ proto) \/ behind = []).
Proof.
  intros Hpr Haddr Hports. unfold rewrite_template. set (out := filter _ _).
  destruct (place_remotes_parts (remote_lines addr (p :: ports)) out) as (a & c & Hout & -> & Hpos).
  assert (forall ln, ln ∈ out -> no_char nl ln = true /\ is_remote_line ln = false) as Hk.
  { intros ln [Hr Hin]%list_elem_of_filter. split; [|by destruct (is_remote_line ln)].
    pose proof (split_no_char nl tmpl) as H. by eapply Forall_forall in H. }
  assert (map (set_proto proto) (remote_lines addr (p :: ports)) = remote_lines addr (p :: ports)) as Hm.
  { unfold remote_lines. rewrite map_map. apply map_ext_in. intros n Hn. eapply List.Forall_forall in Hports; [|exact Hn].
    unfold set_proto. by rewrite (proj2 (remote_line_kind addr n Hports)). }
  assert (forall ln, no_char nl ln = true -> is_remote_line ln = false ->
    no_char nl (set_proto proto ln) = true /\ is_remote_line (set_proto proto ln) = false) as Hset.
  { intros ln H1 H2. unfold set_proto. destruct (is_proto_line ln); [|done]. by destruct Hpr as [-> | ->]. }
  exists (map (set_proto proto) a), (map (set_proto proto) c).
  rewrite <- map_app, <- Hout. split; [|split; [done|split]].
  - rewrite !map_app, Hm. apply split_join; [by destruct (map (set_proto proto) a)|]. rewrite !Forall_app. split_and!.
    + apply Forall_map, Forall_forall. intros ln Hin. apply Hset; apply Hk; rewrite Hout; set_solver.
    + unfold remote_lines. apply Forall_map. eapply Forall_impl; [exact Hports|]. intros n Hn. simpl.
      rewrite !no_char_app, Haddr, itoa_nonneg by done. rewrite (str_forall_no_char is_digit nl (utoa (Z.to_N n))); [done|done|apply utoa_digits].
    + apply Forall_map, Forall_forall. intros ln Hin. apply Hset; apply Hk; rewrite Hout; set_solver.
  - apply Forall_map, Forall_forall. intros ln Hin. by apply Hset; apply Hk.
  - destruct Hpos as [(a' & ln & -> & Hl & _)|[-> _]]; [left|by right]. rewrite map_app. cbn [map]. rewrite last_snoc. unfold set_proto. by rewrite Hl.
Qed.

(** ** Concrete texts *)

Lemma endpoint_rewriting_is_linewise_witness :
  let config := "port 1194" +:+ str1 nl +:+ "proto udp" +:+ str1 nl +:+ "server 10.66.0.0 255.255.255.0" in
  split nl (rewrite_endpoint config "tcp" 443) = ["port 443"; "proto tcp"; "server 10.66.0.0 255.255.255.0"] /\
  endpoint_changed (rewrite_endpoint config "tcp" 443) "tcp" 443 = false.
Proof.
  intros config. destruct (endpoint_rewriting_is_linewise config "tcp" 443) as (H1 & _ & H2).
  - left. reflexivity.
  - lia.
  - assert (split nl config = ["port 1194"; "proto udp"; "server 10.66.0.0 255.255.255.0"]) as -> by reflexivity.
    repeat (apply Forall_cons; split); [..|apply Forall_nil; exact I];
      intros n Hn; unfold directives in Hn; rewrite !elem_of_cons, elem_of_nil in Hn; destruct_or! Hn; subst n;
      intros Hp; vm_compute in Hp |- *; first [discriminate Hp | discriminate].
  - split; [rewrite H1; vm_compute; reflexivity|]. apply H2; vm_compute; eexists; reflexivity.
Defined.

Lemma template_names_every_port_witness :
  let text := rewrite_template ("proto udp" +:+ str1 nl +:+ "remote a 1" +:+ str1 nl +:+ "nobind") "vpn" "tcp" [443; 8443]%Z in
  exists before behind, split nl text = before ++ ["remote vpn 443"; "remote vpn 8443"] ++ behind /\
    before ++ behind = ["proto tcp"; "nobind"].
Proof.
  intros text. destruct (template_names_every_port ("proto udp" +:+ str1 nl +:+ "remote a 1" +:+ str1 nl +:+ "nobind") "vpn" "tcp" 443 [8443%Z])
    as (before & behind & H1 & H2 & _).
  - left. reflexivity.
  - reflexivity.
  - repeat constructor; lia.
  - exists before, behind. split; [exact H1|]. rewrite H2. vm_compute. reflexivity.
Defined.
