(* ===== verification/ControlProps.v ===== *)
(** * ControlProps: what a pushed configuration changes, and what a refused one
    leaves. *)

From S2P Require Import Prelude GoString NetIP Names Cache World Evolve Config Policy PkiProps Mgmt Disconnect Users UsersProps Perms Migrate Control ConfText.
From Stdlib Require Import Ascii.

#[local] Set Default Proof Using "Type*".

(** ** What each part touches *)

Lemma read_values_reads e en pf d1 d2 ps :
  evolves eq (IPv6Effective en pf) /\ evolves eq (DNSEffective d1 d2) /\ evolves eq (PortsEffective e ps) /\
  evolves eq ReadDNSState /\ evolves eq (ReadPortsState e).
Proof.
  unfold IPv6Effective, DNSEffective, PortsEffective, ReadIPv6State, ReadDNSState, ReadPortsState.
  split_and!; evolve_solve.
Qed.

Lemma compute_edit_reads e h pl : evolves eq (compute_edit e h pl).
Proof.
  unfold compute_edit. destruct (VPNDNS e).
  repeat first [apply evolves_bind; [apply _| |intro] | apply (read_values_reads e) | evolve_rule].
Qed.

Definition profile_cache (l : loc) : Prop := exists cn, l = LUser cn "client.ovpn".

Lemma invalidate_frames : evolves (frames profile_cache) invalidateCachedOVPN.
Proof. unfold invalidateCachedOVPN. evolve_solve. apply frames_remove. eexists; reflexivity. Qed.

Lemma ReloadOpenVPN_reads R `{!PreOrder R} mc : evolves R (ReloadOpenVPN mc).
Proof.
  unfold ReloadOpenVPN. apply evolves_bind; [apply _| |intros []; by apply evolves_ret]. apply evolves_try; [apply _|].
  apply (evolves_weaken eq); [by intros w ? <-|]. apply SendCommands_reads.
Qed.

Lemma read_pid_reads R `{!PreOrder R} : evolves R read_pid.
Proof. unfold read_pid. evolve_solve. Qed.

Lemma RestartOpenVPN_frames e h mc : evolves (frames (legacy_tree (OpenVPNRoot e))) (RestartOpenVPN e h mc).
Proof.
  unfold RestartOpenVPN, RestartOpenVPNChild.
  repeat first [evolve_rule | apply (ReloadOpenVPN_reads _) | apply (read_pid_reads _)].
Qed.

Lemma activate_frames e h mc ed : evolves (frames (legacy_tree (OpenVPNRoot e))) (activate e h mc ed).
Proof.
  unfold activate, OpenVPNIsRunning, openvpnPIDs.
  repeat first [evolve_rule | apply RestartOpenVPN_frames | apply (ReloadOpenVPN_reads _) | apply (read_pid_reads _)].
Qed.

(** The files an edit may write: those it has snapshots of, and the temporary
    files of the states whose errors are ignored. *)
Definition state_temp (l : loc) : Prop := l = LData ".dns-" \/ l = LData ".ipv6-".
Definition edit_files (ed : Edit) (l : loc) : Prop := l ∈ snapshot_paths ed \/ state_temp l.

Lemma write_ignoring_frames L reaches tmp path data : L tmp -> L path -> evolves (frames L) (write_ignoring reaches tmp path data).
Proof. intros Ht Hp. unfold write_ignoring. evolve_solve. Qed.

Lemma unchanged_reads R `{!PreOrder R} path d : evolves R (unchanged path d).
Proof. unfold unchanged. evolve_solve. Qed.

Lemma apply_edit_frames e reaches apply ed : evolves (frames (edit_files ed)) (apply_edit e reaches apply ed).
Proof.
  assert (forall l, l ∈ snapshot_paths ed -> edit_files ed l) as Hp by (by left).
  unfold apply_edit, WriteDNSState, WriteIPv6State, WritePortsState, SyncNATConfig, ReadDNSState, ReadPortsState.
  unfold snapshot_paths in Hp. destruct ed as [pl c c' t t' dns d1 d2 rs v6 st ps]; simpl in *.
  repeat first [evolve_rule | apply (unchanged_reads _) | apply write_ignoring_frames | apply frames_write].
  all: try (by right; left). all: try (by right; right). all: apply Hp; set_solver.
Qed.

(** ** Snapshots *)

Definition tracked : list loc := [settingFile; templateFile; DNSStatePath; IPv6StatePath; PortsStatePath; natConf].
Definition is_snap (l : loc) : Prop := exists p k, p ∈ tracked /\ l = sibling p (".snap-" +:+ itoa (Z.of_nat k)).

(** Looking at, reading, renaming and removing the files of the settings and
    their copies works, and so does writing a copy; every other operation, the
    writes of the settings among them, may fail. *)
Definition snapshots_work (w : World) : Prop := forall l, l ∈ tracked \/ is_snap l ->
  w_fault w (OpStat l) = false /\ w_fault w (OpRead l) = false /\ w_fault w (OpRename l) = false /\
  w_fault w (OpRemove l) = false /\ (is_snap l -> w_fault w (OpWrite l) = false).

Definition temps (snaps : list snapshot) : list loc := omap sn_tmp snaps.

(** What a snapshot holds of the state it was taken in. *)
Definition saved (w0 w : World) (s : snapshot) : Prop :=
  match sn_tmp s with
  | None => w_files w0 !! sn_path s = None
  | Some t => is_snap t /\ w_files w0 !! t = None /\ is_Some (w_files w0 !! sn_path s) /\
              w_files w !! t = w_files w0 !! sn_path s
  end.

Record snapped (w0 : World) (paths : list loc) (snaps : list snapshot) (w : World) : Prop := mkSnapped {
  sp_frame : frames (fun l => l ∈ temps snaps) w0 w;
  sp_paths : map sn_path snaps = paths;
  sp_nodup : NoDup (temps snaps);
  sp_saved : forall s, s ∈ snaps -> saved w0 w s
}.

Lemma elem_of_temps snaps t : t ∈ temps snaps <-> exists s, s ∈ snaps /\ sn_tmp s = Some t.
Proof. unfold temps. rewrite list_elem_of_omap. naive_solver. Qed.

Lemma tracked_cases (P : loc -> Prop) :
  P settingFile -> P templateFile -> P DNSStatePath -> P IPv6StatePath -> P PortsStatePath -> P natConf ->
  forall p, p ∈ tracked -> P p.
Proof. intros ?????? p. unfold tracked. rewrite !elem_of_cons, elem_of_nil. naive_solver. Qed.

Lemma tracked_not_snap p : p ∈ tracked -> ~ is_snap p.
Proof.
  intros Hp (q & k & Hq & ->). revert Hp. revert q Hq.
  apply (tracked_cases (fun q => ~ sibling q (".snap-" +:+ itoa (Z.of_nat k)) ∈ tracked));
    unfold tracked; rewrite !elem_of_cons, elem_of_nil; intros H; destruct_or! H; discriminate H || done.
Qed.

Lemma is_snap_parent w l : is_snap l -> parent_ok w l = true.
Proof.
  intros (p & k & Hp & ->). revert p Hp. by apply tracked_cases. Qed.

Lemma snapped_temp w0 paths snaps w t : snapped w0 paths snaps w -> t ∈ temps snaps -> is_snap t /\ w_files w0 !! t = None.
Proof. intros H (s & Hs & Ht)%elem_of_temps. pose proof (sp_saved _ _ _ _ H s Hs) as Hsv. unfold saved in Hsv. rewrite Ht in Hsv. naive_solver. Qed.

Lemma snapshotFile_run w p d (t := temp_name (w_files w) p ".snap-") :
  w_fault w (OpStat p) = false -> w_fault w (OpRead p) = false -> w_fault w (OpWrite t) = false ->
  parent_ok w t = true -> w_files w !! p = Some d ->
  snapshotFile p w = (inr (mkSnap p (Some t)), set_files (<[t:=d]> (w_files w)) w).
Proof.
  intros Hst Hrd Hwr Hpa Hd. unfold snapshotFile. rewrite bind_run. unfold stat_file. rewrite Hst, Hd. cbn [negb andb].
  rewrite bool_decide_eq_true_2 by eauto. cbn [negb]. rewrite bind_run. unfold read_file. rewrite Hrd, Hd.
  rewrite bind_run. unfold create_temp. cbv zeta. fold t. by rewrite Hwr, Hpa.
Qed.

Lemma snap_step w0 paths snaps w p :
  snapshots_work w0 -> p ∈ tracked -> snapped w0 paths snaps w ->
  exists s w', snap snaps p w = (inr (snaps ++ [s]), w') /\ snapped w0 (paths ++ [p]) (snaps ++ [s]) w'.
Proof.
  intros Hw Hp Hs. pose proof (sp_frame _ _ _ _ Hs) as [[Hnow Hft] HF].
  destruct (Hw p) as (Hst & Hrd & _); [by left|].
  assert (w_files w !! p = w_files w0 !! p) as Hpf.
  { apply HF. intros Ht. destruct (snapped_temp _ _ _ _ _ Hs Ht) as [Hsn _]. by apply (tracked_not_snap p). }
  unfold snap. rewrite bind_run. unfold stat_file at 1. rewrite Hft, Hst, Hpf. cbn [negb andb].
  destruct (w_files w0 !! p) as [d|] eqn:Hd; cycle 1.
  { rewrite bool_decide_eq_false_2 by (by intros []). exists (mkSnap p None), w. split; [done|].
    destruct Hs as [F P N S]. unfold temps in *. split.
    - unfold temps. by rewrite omap_app, app_nil_r.
    - by rewrite map_app, P.
    - unfold temps. by rewrite omap_app, app_nil_r.
    - intros s [Hin| ->%list_elem_of_singleton]%elem_of_app; [by apply S|done]. }
  rewrite bool_decide_eq_true_2 by eauto. set (t := temp_name (w_files w) p ".snap-").
  assert (is_snap t) as Ht by (destruct (temp_name_shape (w_files w) p ".snap-") as [k Hk]; exists p, k; by split).
  pose proof (temp_name_fresh (w_files w) p ".snap-") as Hfr. fold t in Hfr.
  destruct (Hw t) as (_ & _ & _ & _ & Hwr); [by right|]. specialize (Hwr Ht).
  assert (t ∉ temps snaps) as Hnew.
  { intros (s & Hin & Hts)%elem_of_temps. pose proof (sp_saved _ _ _ _ Hs s Hin) as Hsv. unfold saved in Hsv.
    rewrite Hts in Hsv. destruct Hsv as (_ & _ & [x Hx] & Heq). rewrite Hfr, Hx in Heq. done. }
  assert (snapshotFile p w = (inr (mkSnap p (Some t)), set_files (<[t:=d]> (w_files w)) w)) as Hsf.
  { apply snapshotFile_run; rewrite ?Hft; [done..|by apply is_snap_parent|congruence]. }
  exists (mkSnap p (Some t)), (set_files (<[t:=d]> (w_files w)) w). split.
  { by rewrite bind_run, try_run, Hsf. }
  assert (temps (snaps ++ [mkSnap p (Some t)]) = temps snaps ++ [t]) as Htm by (unfold temps; by rewrite omap_app).
  split.
  - split; [done|]. intros l. rewrite Htm. intros Hl. cbn [w_files set_files]. rewrite lookup_insert_ne by set_solver.
    apply HF. set_solver.
  - by rewrite map_app, (sp_paths _ _ _ _ Hs).
  - rewrite Htm. apply NoDup_app. split; [apply Hs|]. split; [set_solver|apply NoDup_singleton].
  - intros s [Hin| ->%list_elem_of_singleton]%elem_of_app.
    + pose proof (sp_saved _ _ _ _ Hs s Hin) as Hsv. unfold saved in *. destruct (sn_tmp s) as [t'|] eqn:Ht'; [|done].
      cbn [w_files set_files]. rewrite lookup_insert_ne; [done|]. intros <-. apply Hnew, elem_of_temps. eauto.
    + unfold saved. cbn [sn_tmp sn_path w_files set_files]. rewrite lookup_insert_eq, Hd. split; [done|]. split; [|by eauto].
      by rewrite <- HF by done.
Qed.

Lemma snap_all_run w0 todo paths snaps w :
  snapshots_work w0 -> (forall p, p ∈ todo -> p ∈ tracked) -> snapped w0 paths snaps w ->
  exists snaps' w', snap_all snaps todo w = (inr snaps', w') /\ snapped w0 (paths ++ todo) snaps' w'.
Proof.
  intros Hw. revert paths snaps w. induction todo as [|p todo IH]; intros paths snaps w Ht Hs; simpl.
  - exists snaps, w. rewrite app_nil_r. by split.
  - destruct (snap_step w0 paths snaps w p Hw (Ht p ltac:(left)) Hs) as (s & w1 & Hrun & Hs1).
    destruct (IH (paths ++ [p]) (snaps ++ [s]) w1) as (snaps' & w' & Hrun' & Hs'); [|done|].
    + intros q Hq. apply Ht. by right.
    + exists snaps', w'. rewrite bind_run, Hrun. split; [done|]. by rewrite <- app_assoc in Hs'.
Qed.

Lemma snapped_start w : snapped w [] [] w.
Proof. split; [reflexivity|done|constructor|]. intros s Hs. by apply elem_of_nil in Hs. Qed.

(** ** Restoring *)

(** A file after the restoration of snapshots: its copy, nothing, or itself. *)
Lemma restore_run w s :
  (forall t, sn_tmp s = Some t -> is_Some (w_files w !! t) /\ w_fault w (OpRename (sn_path s)) = false) ->
  parent_ok w (sn_path s) = true -> w_fault w (OpRemove (sn_path s)) = false ->
  exists w', restore s w = (inr tt, w') /\ w_fault w' = w_fault w /\
    w_user_dirs w' = w_user_dirs w /\ w_users_dir w' = w_users_dir w /\
    w_files w' = match sn_tmp s with
                 | Some t => <[sn_path s := default "" (w_files w !! t)]> (delete t (w_files w))
                 | None => delete (sn_path s) (w_files w)
                 end.
Proof.
  intros Ht Hp Hrm. unfold restore. destruct (sn_tmp s) as [t|] eqn:Hs; unfold ignore; rewrite bind_run, try_run.
  - destruct (Ht t eq_refl) as [[d Hd] Hrn]. unfold rename_file. rewrite Hrn, Hd, Hp. eexists. by split_and!.
  - unfold remove_file. rewrite Hrm. destruct (w_files w !! sn_path s) eqn:Hd; eexists; split_and!; try done.
    simpl. by rewrite delete_id.
Qed.

(** Files that are neither copies nor restored. *)
Definition restored (l : list snapshot) (w w' : World) : Prop :=
  w_fault w' = w_fault w /\
  (forall s, s ∈ l -> w_files w' !! sn_path s = match sn_tmp s with Some t => w_files w !! t | None => None end) /\
  (forall s t, s ∈ l -> sn_tmp s = Some t -> w_files w' !! t = None) /\
  (forall x, x ∉ map sn_path l -> x ∉ temps l -> w_files w' !! x = w_files w !! x).

Lemma restore_all l w :
  NoDup (map sn_path l) -> NoDup (temps l) -> (forall s, s ∈ l -> sn_path s ∉ temps l) ->
  (forall s, s ∈ l -> (forall t, sn_tmp s = Some t -> is_Some (w_files w !! t)) /\ sn_path s ∈ tracked) ->
  snapshots_work w ->
  exists w', for_each restore l w = (inr tt, w') /\ restored l w w'.
Proof.
  revert w. induction l as [|s l IH]; intros w Np Nt Hd Hs Hw.
  { exists w. split; [done|]. split; [done|]. split; [by intros s []%elem_of_nil|]. split; [by intros s t []%elem_of_nil|done]. }
  destruct (Hs s ltac:(left)) as [Ht Hp]. destruct (Hw (sn_path s) (or_introl Hp)) as (_ & _ & Hrn & Hrm & _).
  destruct (restore_run w s) as (w1 & Hrun & Hft & Hud & Hur & Hf); [by eauto| |done|].
  { revert Hp. generalize (sn_path s). by apply (tracked_cases (fun p => parent_ok w p = true)). }
  cbn [map] in Np. apply NoDup_cons in Np as [Hsp Np].
  assert (forall t, sn_tmp s = Some t -> t ∉ temps l) as Hnt.
  { intros t Hst. unfold temps in Nt. simpl in Nt. rewrite Hst in Nt. by apply NoDup_cons in Nt as [? _]. }
  assert (NoDup (temps l)) as Nt' by (unfold temps in *; simpl in Nt; destruct (sn_tmp s); [by apply NoDup_cons in Nt as [_ ?]|done]).
  assert (forall x, x ∈ temps l -> x ∈ temps (s :: l)) as Hin.
  { intros x Hx. unfold temps. simpl. destruct (sn_tmp s); [by right|done]. }
  assert (forall x, x <> sn_path s -> sn_tmp s <> Some x -> w_files w1 !! x = w_files w !! x) as Hother.
  { intros x Hx Hxt. rewrite Hf. destruct (sn_tmp s) as [t|] eqn:Hst.
    - assert (t <> x) by congruence. by rewrite lookup_insert_ne, lookup_delete_ne.
    - by rewrite lookup_delete_ne. }
  destruct (IH w1 Np Nt') as (w' & Hrun' & Hft' & H1 & H2 & H3).
  - intros s' Hs' Hbad. apply (Hd s'); [by right|by apply Hin].
  - intros s' Hs'. destruct (Hs s' ltac:(by right)) as [Ht' Hp']. split; [|done]. intros t Hst'.
    rewrite Hother; [by apply Ht'| |].
    + intros ->. apply (Hd s ltac:(left)), Hin, elem_of_temps. eauto.
    + intros Hst. apply (Hnt t Hst), elem_of_temps. eauto.
  - intros x Hx. rewrite Hft. by apply Hw.
  - exists w'. cbn [for_each]. rewrite bind_run, Hrun. split; [done|]. split; [congruence|]. split; [|split].
    + intros s' [->|Hs']%elem_of_cons.
      * assert (sn_path s ∉ temps l) by (intros Hbad; by apply (Hd s ltac:(left)), Hin).
        rewrite H3 by done. rewrite Hf. destruct (sn_tmp s) as [t|] eqn:Hst.
        -- rewrite lookup_insert_eq. by destruct (Ht t eq_refl) as [d ->].
        -- by rewrite lookup_delete_eq.
      * rewrite H1 by done. destruct (sn_tmp s') as [t|] eqn:Hst'; [|done]. apply Hother.
        -- intros ->. apply (Hd s ltac:(left)), Hin, elem_of_temps. eauto.
        -- intros Hst. apply (Hnt t Hst), elem_of_temps. eauto.
    + intros s' t [->|Hs']%elem_of_cons Hst; [|by eapply H2].
      assert (t ∈ temps (s :: l)) as Htin by (apply elem_of_temps; exists s; split; [left|done]).
      rewrite H3, Hf, Hst; [| |by apply Hnt].
      * rewrite lookup_insert_ne; [by rewrite lookup_delete_eq|]. intros Heq. apply (Hd s ltac:(left)). by rewrite Heq.
      * intros (s2 & Heq & Hs2)%list_elem_of_fmap. apply (Hd s2 ltac:(by right)). by rewrite <- Heq.
    + intros x Hx Hxt. rewrite H3; [apply Hother| |].
      * intros ->. apply Hx. left.
      * intros Hst. apply Hxt, elem_of_temps. exists s. split; [left|done].
      * intros Hbad. apply Hx. by right.
      * intros Hbad. by apply Hxt, Hin.
Qed.

(** ** The way back *)

Lemma snap_not_legacy root l : is_snap l -> ~ legacy_tree root l.
Proof.
  intros (p & k & Hp & ->). revert p Hp.
  apply (tracked_cases (fun p => ~ legacy_tree root (sibling p (".snap-" +:+ itoa (Z.of_nat k)))));
    try (intros (dirs & f & _ & Heq); discriminate Heq).
  apply not_legacy. simpl. apply slash_after_plain. rewrite itoa_nonneg by lia.
  eapply str_forall_impl; [|apply utoa_digits]. intros c. unfold is_digit, byte_in. intros [H1 H2]%andb_prop.
  apply negb_true_iff, Ascii.eqb_neq. intros ->. discriminate H1.
Qed.

Lemma snapshot_paths_tracked ed p : p ∈ snapshot_paths ed -> p ∈ tracked.
Proof.
  revert p. apply Forall_forall. unfold snapshot_paths.
  destruct (ed_dns ed), (pl_ipv6 _), (pl_extra _); apply (bool_decide_unpack _); reflexivity.
Qed.

Lemma snapshot_paths_nodup ed : NoDup (snapshot_paths ed).
Proof. unfold snapshot_paths. destruct (ed_dns ed), (pl_ipv6 _), (pl_extra _); apply (bool_decide_unpack _); reflexivity. Qed.

(** What a request may touch beside the files of the settings. *)
Definition side_files (root : string) (l : loc) : Prop := profile_cache l \/ legacy_tree root l \/ state_temp l.

Lemma snap_not_side root l : is_snap l -> ~ side_files root l.
Proof.
  intros Hs [Hc|[Hl|Ht]]; [|by eapply snap_not_legacy|].
  - destruct Hc as [cn ->]. destruct Hs as (p & k & Hp & Heq). revert p Hp Heq.
    by apply (tracked_cases (fun p => LUser cn _ = sibling p _ -> False)).
  - destruct Hs as (p & k & Hp & ->). revert p Hp Ht. unfold state_temp.
    by apply (tracked_cases (fun p => sibling p (".snap-" +:+ itoa (Z.of_nat k)) = LData ".dns-" \/
      sibling p (".snap-" +:+ itoa (Z.of_nat k)) = LData ".ipv6-" -> False)); intros [H|H].
Qed.

Section rollback.
Context (ed : Edit) (w0 : World) (root : string).
Context (Hw : snapshots_work w0).

(** Whatever became of the files of the settings: restoring the snapshots
    gives the tree they were taken in. *)
Lemma rollback snaps w1 w2 :
  snapped w0 (snapshot_paths ed) snaps w1 ->
  frames (fun l => edit_files ed l \/ side_files root l) w1 w2 ->
  exists w3, restoreSnapshots snaps w2 = (inr tt, w3) /\ w_fault w3 = w_fault w0 /\
    forall l, ~ side_files root l -> w_files w3 !! l = w_files w0 !! l.
Proof.
  intros Hs [[_ Hft2] HF2]. pose proof (sp_frame _ _ _ _ Hs) as [[_ Hft1] HF1].
  assert (forall t, t ∈ temps snaps -> w_files w2 !! t = w_files w1 !! t) as Ht2.
  { intros t Ht. destruct (snapped_temp _ _ _ _ _ Hs Ht) as [Hsn _]. apply HF2. intros [[Hp|Ht']|Hside].
    - by apply (tracked_not_snap t); [eapply snapshot_paths_tracked|].
    - apply (snap_not_side root t Hsn). by right; right.
    - by apply (snap_not_side root t). }
  assert (forall s, s ∈ rev snaps <-> s ∈ snaps) as Hrev by (intros s; by rewrite <- Permutation_rev).
  assert (temps (rev snaps) ≡ₚ temps snaps) as Htr by (unfold temps; by rewrite <- Permutation_rev).
  assert (forall s, s ∈ snaps -> sn_path s ∈ tracked) as Htk.
  { intros s Hin. apply (snapshot_paths_tracked ed). rewrite <- (sp_paths _ _ _ _ Hs). by apply list_elem_of_fmap_2. }
  destruct (restore_all (rev snaps) w2) as (w3 & Hrun & Hft & H1 & H2 & H3).
  - rewrite map_rev, (sp_paths _ _ _ _ Hs), <- Permutation_rev. apply snapshot_paths_nodup.
  - rewrite Htr. apply Hs.
  - intros s Hin%Hrev. rewrite Htr. intros [Hsn _]%(snapped_temp _ _ _ _ _ Hs). by apply (tracked_not_snap (sn_path s)), Hsn; apply Htk.
  - intros s Hin%Hrev. split; [|by apply Htk]. intros t Ht. rewrite Ht2 by (apply elem_of_temps; eauto).
    pose proof (sp_saved _ _ _ _ Hs s Hin) as Hsv. unfold saved in Hsv. rewrite Ht in Hsv. destruct Hsv as (_ & _ & Hd & ->). exact Hd.
  - intros l. rewrite Hft2, Hft1. apply Hw.
  - exists w3. split; [exact Hrun|]. split; [congruence|]. intros l Hl.
    destruct (decide (l ∈ map sn_path snaps)) as [(s & -> & Hin)%list_elem_of_fmap|Hp].
    { rewrite H1 by (by apply Hrev). pose proof (sp_saved _ _ _ _ Hs s Hin) as Hsv. unfold saved in Hsv.
      destruct (sn_tmp s) as [t|] eqn:Ht; [|done]. rewrite Ht2 by (apply elem_of_temps; eauto). apply Hsv. }
    destruct (decide (l ∈ temps snaps)) as [Ht|Ht].
    { destruct (snapped_temp _ _ _ _ _ Hs Ht) as [_ ->]. apply elem_of_temps in Ht as (s & Hin & Ht). eapply H2; [by apply Hrev|done]. }
    rewrite H3, HF2, HF1; [done|done| | |by rewrite Htr].
    + intros [[Hin|Hst]|Hside]; [|by apply Hl; right; right|done]. by rewrite (sp_paths _ _ _ _ Hs) in Hp.
    + by rewrite map_rev, <- Permutation_rev.
Qed.
End rollback.

(** ** The run of a request *)

Lemma IPv6Effective_run en pf w : exists cur, IPv6Effective en pf w = (inr cur, w).
Proof.
  unfold IPv6Effective, ReadIPv6State. rewrite !bind_run, try_run.
  pose proof (read_file_state w IPv6StatePath) as ->. destruct ((read_file IPv6StatePath w).1); eexists; reflexivity.
Qed.

Lemma cleanup_evolves R `{!PreOrder R} l :
  (forall t, t ∈ temps l -> evolves R (remove_file t)) -> evolves R (for_each cleanup l).
Proof.
  intros H. apply evolves_for_each; [apply _|]. intros s Hs. unfold cleanup.
  destruct (sn_tmp s) as [t|] eqn:Ht; [|apply evolves_ret; apply _]. apply evolves_ignore; [apply _|].
  apply H, elem_of_temps. eauto.
Qed.

Lemma cleanup_gone l w t : t ∈ temps l -> w_fault w (OpRemove t) = false -> w_files (for_each cleanup l w).2 !! t = None.
Proof.
  revert w. induction l as [|s l IH]; intros w Ht Hf; [by apply elem_of_nil in Ht|]. cbn [for_each]. rewrite bind_run.
  assert (exists w1, cleanup s w = (inr tt, w1) /\ w_fault w1 = w_fault w /\ (sn_tmp s = Some t -> w_files w1 !! t = None))
    as (w1 & Hr & Hf1 & Hgone).
  { unfold cleanup, ignore, remove_file. destruct (sn_tmp s) as [t'|]; [|by exists w]. rewrite bind_run, try_run.
    destruct (w_fault w (OpRemove t')) eqn:Ho; [eexists; split_and!; [done|done|]; intros [= ->]; congruence|].
    destruct (w_files w !! t') eqn:Hl; (eexists; split_and!; [done|done|]; intros [= ->]); [apply lookup_delete_eq|done]. }
  rewrite Hr. unfold temps in Ht. simpl in Ht. destruct (decide (sn_tmp s = Some t)) as [Heq|Hne].
  - apply (cleanup_evolves shrinks l (fun t _ => shrinks_remove t)). by apply Hgone.
  - apply IH; [|by rewrite Hf1]. destruct (sn_tmp s) as [t'|]; [|done]. apply elem_of_cons in Ht as [->|Ht]; done.
Qed.

Lemma cleanup_run l w :
  exists w', for_each cleanup l w = (inr tt, w') /\ frames (fun x => x ∈ temps l) w w' /\ shrinks w w' /\
    forall t, t ∈ temps l -> w_fault w (OpRemove t) = false -> w_files w' !! t = None.
Proof.
  assert (answers (for_each cleanup l)) as Ha by (apply answers_for_each; intros s; unfold cleanup; answer_solve).
  pose proof (cleanup_evolves (frames (fun x => x ∈ temps l)) l (frames_remove _) w) as HF.
  pose proof (cleanup_evolves shrinks l (fun t _ => shrinks_remove t) w) as HS. pose proof (cleanup_gone l w) as HG.
  destruct (Ha w) as ([] & w' & Hr). rewrite Hr in HF, HS, HG. by exists w'.
Qed.

Lemma restart_answers e h mc : answers (RestartOpenVPN e h mc) /\ answers (ReloadOpenVPN mc).
Proof. unfold RestartOpenVPN, RestartOpenVPNChild, ReloadOpenVPN, read_pid. split; answer_solve. Qed.

Lemma activate_answers e h mc ed : answers (activate e h mc ed).
Proof. unfold activate, OpenVPNIsRunning, openvpnPIDs, read_pid. answer_solve; by apply (restart_answers e h mc). Qed.

Lemma invalidate_answers : answers invalidateCachedOVPN.
Proof. unfold invalidateCachedOVPN. answer_solve. Qed.

Section run.
Context (e : environ) (h : Host) (mc : mgmt_cfg) (reaches : string -> string) (apply : World -> bool).

(** Everything before the snapshots only reads. *)
Lemma config_run req w :
  let run := ChangeConfig e h mc reaches apply req w in
  (exists c, run = (inr (false, c), w)) \/
  exists cur pl ed, IPv6Effective (IPv6Enabled e) (IPv6Prefix e) w = (inr cur, w) /\ check_request e cur req = Some pl /\
    compute_edit e h pl w = (inr ed, w) /\
    ((ed_any ed = false /\ run = (inr (true, mkResult (ed_restart ed) false), w)) \/
     (ed_any ed = true /\
      run = (snaps <- snap_all [] (snapshot_paths ed) ;;
             answer <- commit e h mc reaches apply ed snaps ;;
             for_each cleanup (rev snaps) ;;
             mret answer) w)).
Proof.
  cbv zeta. unfold ChangeConfig. destruct (IPv6Effective_run (IPv6Enabled e) (IPv6Prefix e) w) as [cur Hcur].
  rewrite bind_run, Hcur. destruct (check_request e cur req) as [pl|] eqn:Hck; [|left; eexists; reflexivity].
  rewrite bind_run, try_run. pose proof (compute_edit_reads e h pl w) as Hr.
  destruct (compute_edit e h pl w) as [[x|ed] w1] eqn:Hed; simpl in Hr; subst w1; cbn [fst snd]; [left; eexists; reflexivity|].
  right. exists cur, pl, ed. split_and!; try done. destruct (ed_any ed); [right|left]; by split.
Qed.

(** The middle part answers, and a negative answer comes from a restoration. *)
Lemma commit_run ed w0 w1 snaps :
  snapshots_work w0 -> snapped w0 (snapshot_paths ed) snaps w1 ->
  exists b c w2, commit e h mc reaches apply ed snaps w1 = (inr (b, c), w2) /\
    (b = false -> forall l, ~ side_files (OpenVPNRoot e) l -> w_files w2 !! l = w_files w0 !! l) /\
    (b = true -> exists d v w3, apply_edit e reaches apply ed w1 = (inr (d, v), w3) /\
       frames (side_files (OpenVPNRoot e)) w3 w2).
Proof.
  intros Hw Hs. unfold commit. rewrite bind_run, try_run. pose proof (apply_edit_frames e reaches apply ed w1) as HA.
  destruct (apply_edit e reaches apply ed w1) as [[x|[d v]] w2]; cbn [fst snd] in *.
  - destruct (rollback ed w0 (OpenVPNRoot e) Hw snaps w1 w2 Hs) as (w3 & Hr & _ & Hf).
    { destruct HA as [N F]. split; [done|]. intros l Hl. apply F. intros H. apply Hl. by left. }
    rewrite bind_run, Hr. do 3 eexists. split; [reflexivity|]. by split.
  - destruct (answers_evolves _ _ w2 invalidate_answers invalidate_frames) as ([] & w3 & Hi & HI).
    destruct (answers_evolves _ _ w3 (activate_answers e h mc ed) (activate_frames e h mc ed)) as (f & w4 & Ha & HT).
    rewrite bind_run, Hi, bind_run, Ha.
    assert (frames (side_files (OpenVPNRoot e)) w2 w4) as HS.
    { transitivity w3; [destruct HI as [N F]|destruct HT as [N F]]; (split; [done|]); intros l Hl; apply F; intros H; apply Hl;
        [by left|by right; left]. }
    destruct f; [|do 3 eexists; split; [reflexivity|]; split; [done|]; intros _; by exists d, v, w2].
    destruct (rollback ed w0 (OpenVPNRoot e) Hw snaps w1 w4 Hs) as (w5 & Hr & _ & Hf).
    { transitivity w2; [destruct HA as [N F]|destruct HS as [N F]]; (split; [done|]); intros l Hl; apply F; intros H; apply Hl;
        [by left|by right]. }
    rewrite bind_run, Hr, bind_run. unfold ignore. rewrite bind_run, try_run. do 3 eexists. split; [reflexivity|]. split; [|done].
    intros _ l Hl. rewrite <- Hf by done.
    assert (evolves (frames (legacy_tree (OpenVPNRoot e))) (if ed_restart ed then RestartOpenVPN e h mc else ReloadOpenVPN mc)) as HL
      by (destruct (ed_restart ed); [apply RestartOpenVPN_frames|apply (ReloadOpenVPN_reads _)]).
    apply HL. intros H. apply Hl. by right; left.
Qed.
End run.

(** ** What a refused and what an accepted request leave *)

Lemma tracked_not_side root p : p ∈ tracked -> ~ side_files root p.
Proof.
  revert p. apply (tracked_cases (fun p => ~ side_files root p)); intros [[cn H]|[H|[H|H]]]; try discriminate H;
    try (destruct H as (? & ? & _ & H); discriminate H).
  by eapply not_legacy in H.
Qed.


Lemma optional_write_inr (b : bool) l d w w' :
  (if b then WriteFileAtomic l d else mret tt) w = (inr tt, w') ->
  w' = (if b then set_files (<[l:=d]> (w_files w)) w else w).
Proof. destruct b; [apply WriteFileAtomic_inr|by intros [= <-]]. Qed.

(** The two texts stand once the writes succeeded, and the states read back as
    they were asked for. *)
Lemma apply_edit_inr e reaches apply ed w r w' :
  apply_edit e reaches apply ed w = (inr r, w') ->
  (ed_conf_changed ed = false -> w_files w !! settingFile = Some (ed_config ed)) ->
  (ed_tmpl_changed ed = false -> w_files w !! templateFile = Some (ed_tmpl ed)) ->
  w_files w' !! settingFile = Some (ed_new_config ed) /\ w_files w' !! templateFile = Some (ed_new_tmpl ed) /\
  (ed_dns ed = true -> (ReadDNSState w').1 = inr (mkDNS (ed_d1 ed) (ed_d2 ed))) /\
  (forall ps, pl_extra (ed_plan ed) = Some ps -> exists st, (ReadPortsState e w').1 = inr st /\ ps_ports st = ps).
Proof.
  unfold apply_edit. intros Hrun Hc Ht.
  apply bind_inr in Hrun as ([] & w1 & ->%optional_write_inr & Hrun).
  apply bind_inr in Hrun as ([] & w2 & Hw2%optional_write_inr & Hrun).
  set (late := fun l => l <> settingFile /\ l <> templateFile).
  assert (w_files w2 !! settingFile = Some (ed_new_config ed) /\ w_files w2 !! templateFile = Some (ed_new_tmpl ed)) as [H1 H2].
  { subst w2. unfold ed_conf_changed, ed_tmpl_changed in *. 
    destruct (String.eqb_spec (ed_new_config ed) (ed_config ed)) as [->|]; destruct (String.eqb_spec (ed_new_tmpl ed) (ed_tmpl ed)) as [->|];
      cbn [negb w_files set_files] in *; rewrite ?lookup_insert_eq, ?lookup_insert_ne, ?lookup_insert_eq by done; auto. }
  clear Hw2. apply bind_inr in Hrun as (dc & w3 & Hd & Hrun). apply bind_inr in Hrun as (vc & w4 & Hv & Hrun).
  apply bind_inr in Hrun as ([] & w5 & Hp & Hrun). apply bind_inr in Hrun as (st & w6 & Hst & Hrun).
  pose proof (read_values_reads e false "" "" "" []) as (_ & _ & _ & R1 & R2).
  pose proof (R1 w5) as Heq. rewrite Hst in Heq. simpl in Heq. subst w6.
  destruct (ed_dns ed && _) eqn:Hdns; [done|]. apply bind_inr in Hrun as (ps & w6 & Hps & Hrun).
  pose proof (R2 w5) as Heq. rewrite Hps in Heq. simpl in Heq. subst w6.
  destruct (match pl_extra (ed_plan ed) with Some _ => _ | None => false end) eqn:Hports; [done|]. injection Hrun as <- <-.
  assert (frames late w2 w5) as HF.
  { apply (frames_run late) in Hd; [|unfold WriteDNSState; repeat first [evolve_rule | apply (unchanged_reads _) | apply write_ignoring_frames]; by split].
    apply (frames_run late) in Hv; [|unfold WriteIPv6State; repeat first [evolve_rule | apply (unchanged_reads _) | apply write_ignoring_frames]; by split].
    apply (frames_run late) in Hp; [|unfold WritePortsState, SyncNATConfig; repeat first [evolve_rule | apply (unchanged_reads _) | apply frames_write]; by split].
    etrans; [exact Hd|]. by etrans. }
  split; [rewrite (proj2 HF), H1; [done|by intros []]|]. split; [rewrite (proj2 HF), H2; [done|by intros []]|]. split.
  - intros Hb. rewrite Hst. rewrite Hb in Hdns. apply negb_false_iff, andb_prop in Hdns as [<-%String.eqb_eq <-%String.eqb_eq].
    by destruct st.
  - intros l Hl. rewrite Hl in Hports. rewrite Hps. exists ps. split; [done|].
    by apply negb_false_iff, bool_decide_eq_true in Hports.
Qed.

(** What the edit is computed from. *)
Lemma compute_edit_inr e h pl w ed w' :
  compute_edit e h pl w = (inr ed, w') ->
  w_files w !! settingFile = Some (ed_config ed) /\ ed_plan ed = pl /\
  (w_files w !! templateFile = Some (ed_tmpl ed) \/ ed_tmpl ed = "") /\
  (exists ports, (forall ps, pl_extra pl = Some ps -> ports = ps) /\
     ed_new_tmpl ed = rewrite_template (ed_tmpl ed) (tunnel_addr h (pl_tunnel pl) (ed_tmpl ed)) (pl_proto pl) (pl_port pl :: ports)) /\
  exists servers, let c1 := rewrite_endpoint (ed_config ed) (pl_proto pl) (pl_port pl) in
    let c2 := if ed_dns ed then RewritePushDNS c1 servers else c1 in
    ed_new_config ed = if pl_ipv6 pl then (applyIPv6 c2 (pl_enable pl) (pl_prefix pl)).1 else c2.
Proof.
  unfold compute_edit. intros (config & w1 & Hc & Hrun)%bind_inr.
  pose proof (read_file_state w settingFile) as Hs. rewrite Hc in Hs. simpl in Hs. subst w1. apply read_file_inv in Hc.
  rewrite bind_run, try_run in Hrun. pose proof (read_file_state w templateFile) as Hs.
  destruct (read_file templateFile w) as [t w2] eqn:Ht. simpl in Hs. subst w2. cbn [fst snd] in Hrun. apply read_file_inv in Ht.
  destruct (VPNDNS e) as [def1 def2]. apply bind_inr in Hrun as (eff & w3 & _ & Hrun).
  set (c2 := if provided (pl_dns1 pl) || _ then _ else _) in Hrun.
  destruct (if pl_ipv6 pl then _ else _) as [newc v6] eqn:Hv6 in Hrun.
  apply bind_inr in Hrun as (oldp & w4 & _ & (st & w5 & _ & (en & w6 & _ & [= <- _])%bind_inr)%bind_inr).
  cbn [ed_config ed_plan ed_tmpl ed_new_tmpl ed_dns ed_new_config]. split; [done|]. split; [done|]. split.
  { destruct t as [x|d]; [by right|by left]. }
  split; [eexists; split; [|reflexivity]; by intros ps ->|]. exists (desired_dns eff (pl_dns1 pl) (pl_dns2 pl)). cbv zeta. fold c2. destruct (pl_ipv6 pl); [by rewrite Hv6|by injection Hv6].
Qed.

Lemma join_empty sep l : join sep l = "" -> forall x, x ∈ l -> x = "".
Proof.
  induction l as [|y l IH]; intros Hj x Hx; [by apply elem_of_nil in Hx|].
  assert (y = "" /\ join sep l = "") as [Hy Hl].
  { destruct l; [done|]. destruct y; [|done]. change (sep +:+ join sep (s :: l) = "") in Hj. by destruct sep. }
  apply elem_of_cons in Hx as [->|Hx]; [done|by apply IH].
Qed.

Lemma rewrite_template_ne tmpl addr proto p ports : (0 <= p)%Z -> rewrite_template tmpl addr proto (p :: ports) <> "".
Proof.
  intros Hp Hj. unfold rewrite_template in Hj. pose proof (remote_line_kind addr p Hp) as [_ Hk].
  assert ("remote " +:+ addr +:+ " " +:+ itoa p = "") as H; [|discriminate H]. apply (join_empty _ _ Hj).
  apply list_elem_of_fmap. exists ("remote " +:+ addr +:+ " " +:+ itoa p). unfold set_proto. rewrite Hk. split; [done|].
  destruct (place_remotes_parts (remote_lines addr (p :: ports)) (filter (fun ln => negb (is_remote_line ln)) (split nl tmpl)))
    as (a & c & _ & -> & _). apply elem_of_app. right. apply elem_of_app. left. left.
Qed.

(** A checked request names a protocol and a port of the range. *)
Lemma check_request_inv e cur req pl : check_request e cur req = Some pl ->
  is_proto (pl_proto pl) /\ (1 <= pl_port pl <= 65535)%Z.
Proof.
  unfold check_request. intros (port & _ & Hrest)%bind_Some.
  destruct ((port <? 1)%Z || (65535 <? port)%Z || _) eqn:Hr; [done|]. apply bind_Some in Hrest as (proto & Hpr & Hrest).
  destruct (negb _ && _); [done|]. repeat (apply bind_Some in Hrest as (? & _ & Hrest)). injection Hrest as <-. cbn [pl_proto pl_port].
  apply orb_false_iff in Hr as [[?%Z.ltb_ge ?%Z.ltb_ge]%orb_false_iff _]. split; [|lia].
  unfold normalizeProto in Hpr. destruct (str_empty _); [injection Hpr as <-; by left|].
  destruct (bool_decide _); [injection Hpr as <-; by left|]. destruct (bool_decide _); [injection Hpr as <-; by right|done].
Qed.

Lemma read_states_ext w w' :
  w_fault w' = w_fault w -> w_files w' !! DNSStatePath = w_files w !! DNSStatePath ->
  w_files w' !! PortsStatePath = w_files w !! PortsStatePath ->
  (ReadDNSState w').1 = (ReadDNSState w).1 /\ forall e, (ReadPortsState e w').1 = (ReadPortsState e w).1.
Proof.
  intros Hft Hd Hp. unfold ReadDNSState, ReadPortsState. split; [|intros e]; rewrite !bind_run, !try_run; unfold read_file; rewrite Hft, ?Hd, ?Hp.
  - destruct (w_fault w _); [done|]. by destruct (w_files w !! DNSStatePath).
  - destruct (w_fault w _); [done|]. by destruct (w_files w !! PortsStatePath).
Qed.

#[local] Ltac in_tracked := solve [unfold tracked; rewrite !elem_of_cons; tauto].

(** The tree after the edit was applied and the copies were removed. *)
Lemma applied_tree e h reaches apply pl ed w w1 snaps dv w4 w2 w' root :
  snapshots_work w -> snapped w (snapshot_paths ed) snaps w1 -> compute_edit e h pl w = (inr ed, w) -> (0 <= pl_port pl)%Z ->
  apply_edit e reaches apply ed w1 = (inr dv, w4) -> frames (side_files root) w4 w2 ->
  frames (fun x => x ∈ temps (rev snaps)) w2 w' ->
  (forall t, t ∈ temps (rev snaps) -> w_fault w2 (OpRemove t) = false -> w_files w' !! t = None) ->
  w_files w' !! settingFile = Some (ed_new_config ed) /\ w_files w' !! templateFile = Some (ed_new_tmpl ed) /\
  (ed_dns ed = true -> (ReadDNSState w').1 = inr (mkDNS (ed_d1 ed) (ed_d2 ed))) /\
  (forall ps, pl_extra pl = Some ps -> exists st, (ReadPortsState e w').1 = inr st /\ ps_ports st = ps) /\
  forall l, (l ∉ tracked) -> ~ side_files root l -> w_files w' !! l = w_files w !! l.
Proof.
  intros Hw Hs Hed Hport Ha HF2 HF HG. pose proof (sp_frame _ _ _ _ Hs) as HF1.
  destruct (compute_edit_inr _ _ _ _ _ _ Hed) as (Hcf & Hpl & Htf & (ports & _ & Hnt) & _).
  assert (forall p, p ∈ tracked -> (p ∉ temps snaps) /\ ~ side_files root p) as Hout.
  { intros p Hp. split; [intros [Hst _]%(snapped_temp _ _ _ _ _ Hs); by apply (tracked_not_snap p)|by apply tracked_not_side]. }
  assert (temps (rev snaps) ≡ₚ temps snaps) as Htr by (unfold temps; by rewrite <- Permutation_rev).
  assert (forall p, p ∈ tracked -> w_files w' !! p = w_files w4 !! p) as Hlate.
  { intros p Hp. destruct (Hout p Hp). rewrite (proj2 HF), (proj2 HF2); [done|done|by rewrite Htr]. }
  assert (forall p, p ∈ tracked -> w_files w1 !! p = w_files w !! p) as Hearly.
  { intros p Hp. destruct (Hout p Hp). by rewrite (proj2 HF1). }
  assert (w_fault w2 = w_fault w) as Hft.
  { pose proof (apply_edit_frames e reaches apply ed w1) as HA. rewrite Ha in HA. destruct HA as [[_ ?] _], HF1 as [[_ ?] _], HF2 as [[_ ?] _].
    simpl in *. congruence. }
  destruct (apply_edit_inr e reaches apply ed w1 dv w4 Ha) as (H1 & H2 & H3 & H4).
  { intros _. by rewrite Hearly by in_tracked. }
  { intros Hch. rewrite Hearly by in_tracked. destruct Htf as [Htf|Hemp]; [done|].
    unfold ed_tmpl_changed in Hch. apply negb_false_iff, String.eqb_eq in Hch. rewrite Hemp, Hnt in Hch.
    by apply rewrite_template_ne in Hch; [|done]. }
  destruct (read_states_ext w4 w') as [R1 R2]; [destruct HF as [[_ ?] _], HF2 as [[_ ?] _]; congruence|apply Hlate; in_tracked..|].
  split; [by rewrite Hlate by in_tracked|]. split; [by rewrite Hlate by in_tracked|].
  split; [by rewrite R1|]. split; [rewrite <- Hpl; intros ps Hps; rewrite R2; by apply H4|].
  intros l Hl Hside. destruct (decide (l ∈ temps snaps)) as [Ht|Ht].
  - destruct (snapped_temp _ _ _ _ _ Hs Ht) as [Hst ->]. apply HG; [by rewrite Htr|]. rewrite Hft. by apply Hw; right.
  - rewrite (proj2 HF), (proj2 HF2) by (rewrite ?Htr; done). rewrite <- (proj2 HF1) by done.
    pose proof (apply_edit_frames e reaches apply ed w1) as HA. rewrite Ha in HA. apply HA.
    intros [Hin|Htmp]; [apply Hl; by eapply snapshot_paths_tracked|apply Hside; by right; right].
Qed.

(** C23: a request that is accepted was checked, and either nothing was to be
    changed and nothing was, or server.conf and the template hold what was
    computed from them, the DNS servers and the extra ports read back as they
    were pushed, and no other file changed, but for the IPv6 state, the NAT
    configuration, the cached profiles, the legacy folders and the temporary
    files of the states. *)
Theorem accepted_config_is_applied e h mc reaches apply req w c w' :
  snapshots_work w -> ChangeConfig e h mc reaches apply req w = (inr (true, c), w') ->
  exists cur pl ed, IPv6Effective (IPv6Enabled e) (IPv6Prefix e) w = (inr cur, w) /\
    check_request e cur req = Some pl /\ compute_edit e h pl w = (inr ed, w) /\
    ((ed_any ed = false /\ w' = w) \/
     w_files w' !! settingFile = Some (ed_new_config ed) /\ w_files w' !! templateFile = Some (ed_new_tmpl ed) /\
     (ed_dns ed = true -> (ReadDNSState w').1 = inr (mkDNS (ed_d1 ed) (ed_d2 ed))) /\
     (forall ps, pl_extra pl = Some ps -> exists st, (ReadPortsState e w').1 = inr st /\ ps_ports st = ps) /\
     forall l, (l ∉ tracked) -> ~ side_files (OpenVPNRoot e) l -> w_files w' !! l = w_files w !! l).
Proof.
  intros Hw Hrun. destruct (config_run e h mc reaches apply req w) as [[c0 Hr]|(cur & pl & ed & Hcur & Hck & Hed & Hcase)]; [congruence|].
  exists cur, pl, ed. split; [done|]. split; [done|]. split; [done|]. destruct Hcase as [[Hany Hr]|[Hany Hr]]; rewrite Hr in Hrun.
  { left. split; [done|]. by injection Hrun as _ <-. } right.
  destruct (snap_all_run w (snapshot_paths ed) [] [] w Hw (snapshot_paths_tracked ed) (snapped_start w)) as (snaps & w1 & Hsn & Hs).
  destruct (commit_run e h mc reaches apply ed w w1 snaps Hw Hs) as (b & c1 & w2 & Hc & _ & Hyes).
  destruct (cleanup_run (rev snaps) w2) as (w3 & Hcl & HF & _ & HG).
  rewrite bind_run, Hsn, bind_run, Hc, bind_run, Hcl in Hrun. injection Hrun as -> -> ->.
  destruct (Hyes eq_refl) as (d & v & w4 & Ha & HF2).
  destruct (check_request_inv _ _ _ _ Hck) as [_ Hport].
  apply (applied_tree e h reaches apply pl ed w w1 snaps (d, v) w4 w2); try done; lia.
Qed.

(** ** Concrete runs *)

Definition demo_env : environ := mkEnviron ∅ ∅.
Definition demo_host : Host := mkHost (mkHostId false (fun _ => true) None) "" (fun _ => None) (fun _ => false) (fun _ => false) (Some "127.0.0.1 10.0.0.5 ") [].
Definition lines (l : list string) : string := join (str1 nl) l +:+ str1 nl.
Definition demo_config : string := lines ["port 1194"; "proto udp"; "server 10.66.0.0 255.255.255.0"; "explicit-exit-notify 1"].
Definition demo_template : string := lines ["client"; "proto udp"; "remote vpn.example.org 1194"; "nobind"].
Definition demo_files : gmap loc string := {[settingFile := demo_config; templateFile := demo_template]}.

(** The disk is full for one file. *)
Definition demo_config_world (full : option loc) : World :=
  mkWorld demo_files true ∅ [] [] 0 0 [] (newCache nameCacheTTL) (newCache usageCacheTTL)
    (fun op => match full with Some l => bool_decide (op = OpWrite l) | None => false end).

Definition demo_request : ChangeConfigRequest :=
  mkRequest (AFloat 443) "tcp" "" (Some "9.9.9.9") None None None (AList [AFloat 8443; AStr " 9443"]).

Definition demo_change (w : World) (req : ChangeConfigRequest) : (goerr + (bool * ChangeConfigResult)) * World :=
  ChangeConfig demo_env demo_host demo_mgmt id (fun _ => true) req w.

Lemma demo_snapshots_work full : (forall l, full = Some l -> l ∈ tracked) ->
  snapshots_work (demo_config_world full).
Proof.
  intros Hf l Hl. unfold demo_config_world, w_fault. destruct full as [f|]; [|by split_and!].
  split_and!; try (apply bool_decide_eq_false; discriminate). intros Hs. apply bool_decide_eq_false. intros [= ->].
  by apply (tracked_not_snap f); [apply Hf|].
Qed.


Lemma accepted_config_is_applied_witness :
  exists text, w_files (demo_change (demo_config_world None) demo_request).2 !! templateFile = Some text /\
    filter (fun ln => is_remote_line ln) (split nl text) = remote_lines "vpn.example.org" [443; 8443; 9443]%Z.
Proof.
  assert (snapshots_work (demo_config_world None)) as Hw by (apply demo_snapshots_work; discriminate).
  assert ((demo_change (demo_config_world None) demo_request).1 = inr (true, mkResult true true)) as Hr
    by (vm_compute; reflexivity).
  unfold demo_change in Hr. apply run_eta in Hr.
  destruct (accepted_config_is_applied demo_env demo_host demo_mgmt id (fun _ => true) demo_request _ _ _ Hw Hr)
    as (cur & pl & ed & Hcur & Hck & Hed & [[Hany _]|(_ & Ht & _)]).
  - exfalso. apply (f_equal fst) in Hcur. vm_compute in Hcur. injection Hcur as <-. vm_compute in Hck. injection Hck as <-.
    apply (f_equal fst) in Hed. vm_compute in Hed. injection Hed as <-. discriminate Hany.
  - exists (ed_new_tmpl ed). split; [exact Ht|]. apply (f_equal fst) in Hcur. vm_compute in Hcur. injection Hcur as <-. vm_compute in Hck. injection Hck as <-.
    apply (f_equal fst) in Hed. vm_compute in Hed. injection Hed as <-. vm_compute. reflexivity.
Defined.

(** ** Two divergences *)

(** A push of the second server alone is stored, next to the default first
    one, but server.conf gets the servers that were in effect before. *)
Lemma second_server_alone_is_not_pushed :
  let r := demo_change (demo_config_world None)
             (mkRequest (AFloat 1194) "udp" "" None (Some "9.9.9.9") None None ANil) in
  r.1 = inr (true, mkResult false true) /\
  w_files r.2 !! DNSStatePath = Some (lines ["dns1=1.1.1.1"; "dns2=9.9.9.9"]) /\
  w_files r.2 !! settingFile = Some (lines ["port 1194"; "proto udp"; "server 10.66.0.0 255.255.255.0";
    dns_push "1.1.1.1"; dns_push "8.8.8.8"; "explicit-exit-notify 1"]).
Proof. vm_compute. split_and!; reflexivity. Qed.

(** The IPv6 state is not read back: a write that fails is reported as done. *)
Lemma lost_ipv6_state_is_accepted :
  let r := demo_change (demo_config_world (Some IPv6StatePath))
             (mkRequest (AFloat 1194) "udp" "" None None (Some true) None ANil) in
  r.1 = inr (true, mkResult false true) /\ w_files r.2 !! IPv6StatePath = None.
Proof. vm_compute. split; reflexivity. Qed.
