(* ===== verification/Events.v ===== *)
(** * Events: internal/ovpn/events.go.

    What the diagnostics of a node read: the event log of the hooks, line by
    line and classified, and the TLS and authentication failures of the log of
    OpenVPN with the state file that remembers when they were seen.  Case
    folding is the one of ASCII. *)

From S2P Require Import Prelude GoString Json Time Names Cache World Config Migrate Float Control.
From Stdlib Require Import Ascii.

(** ** Classification *)

Definition SeverityPolicy : string := "policy".
Definition SeverityWarn : string := "warn".
Definition SeverityFailure : string := "failure".

Record rejectReason : Type := mkReason { rr_needle : string; rr_action : string; rr_severity : string; rr_reason : string }.

Definition rejectReasons : list rejectReason :=
  [ mkReason "is disabled" "disabled" SeverityPolicy "user disabled in the panel";
    mkReason "disabled;" "disabled" SeverityPolicy "user disabled in the panel";
    mkReason "USERS_DIR missing" "fail_closed" SeverityFailure "node user state missing";
    mkReason "could not verify" "takeover_failed" SeverityFailure "old session not terminated";
    mkReason "management unavailable" "mgmt_degraded" SeverityWarn "management unavailable";
    mkReason "GLOBAL_CHECK_FAILED" "global_check" SeverityPolicy "panel policy check failed";
    mkReason "GLOBAL_REJECT" "global_policy" SeverityPolicy "panel rejected the connection";
    mkReason "max login reached" "max_logins" SeverityPolicy "max logins reached" ].

(** [\blimit=]: no word character before it. *)
Definition is_word (c : ascii) : bool :=
  byte_in 48 57 c || byte_in 65 90 c || byte_in 97 122 c || Ascii.eqb c "_".
Fixpoint limitRe (prev : bool) (s : string) : bool :=
  (negb prev && has_prefix s "limit=") || match s with "" => false | String c s' => limitRe (is_word c) s' end.

Definition classifyReject (message : string) : string * string * string :=
  match filter (fun r => contains message (rr_needle r) = true) rejectReasons with
  | r :: _ => (rr_action r, rr_severity r, rr_reason r)
  | [] =>
      if contains message "REJECT" && limitRe false message then ("max_logins", SeverityPolicy, "max logins reached")
      else if contains message "REJECT" then ("other", SeverityWarn, "unclassified reject")
      else if contains message "FAILED" then ("check_failed", SeverityWarn, "policy check failed")
      else ("event", SeverityPolicy, "session event")
  end.

(** [CN=([^ ]+).*?(GLOBAL_REJECT|LOCAL_REJECT|REJECT|GLOBAL_CHECK_FAILED)]:
    the leftmost [CN=] a match starts at, the longest name it leaves room for,
    the first verdict behind the name on its line. *)
Definition hook_actions : list string := ["GLOBAL_REJECT"; "LOCAL_REJECT"; "REJECT"; "GLOBAL_CHECK_FAILED"].
Definition action_at (s : string) : option string := head (filter (fun a => has_prefix s a = true) hook_actions).
Fixpoint find_action (s : string) : option string :=
  match action_at s with
  | Some a => Some a
  | None => match s with "" => None | String c s' => if Ascii.eqb c nl then None else find_action s' end
  end.
Fixpoint try_cn (n : nat) (text : string) : option (string * string) :=
  match n with
  | O => None
  | S n' => match find_action (str_drop n text) with
            | Some a => Some (str_take n text, a)
            | None => try_cn n' text
            end
  end.
Definition cn_here (s : string) : option (string * string) :=
  if has_prefix s "CN=" then
    let text := str_drop 3 s in try_cn (String.length (cut " " text).1.1) text
  else None.
Fixpoint cnActionRe (s : string) : option (string * string) :=
  match cn_here s with
  | Some m => Some m
  | None => match s with "" => None | String _ s' => cnActionRe s' end
  end.

(** [tlsErrorRe]. *)
Definition tlsErrors : list string :=
  ["tls error"; "auth failed"; "verify error"; "crl has expired"; "certificate revoked"; "ssl error"].
Definition tlsErrorRe (line : string) : bool := existsb (contains (to_lower line)) tlsErrors.

(** ** The stamp of a line of OpenVPN *)

Fixpoint chars (ps : list (ascii -> bool)) (s : string) : option (string * string) :=
  match ps with
  | [] => Some ("", s)
  | p :: ps' =>
      match s with
      | String c s' => if p c then '(a, r) ← chars ps' s'; Some (String c a, r) else None
      | "" => None
      end
  end.
Definition spaces (s : string) : option string :=
  let '(sp, r) := span re_space s in if str_empty sp then None else Some r.
Definition is_colon (c : ascii) : bool := Ascii.eqb c ":".
Definition day_digits (s : string) : option (string * string) :=
  let '(d, r) := span is_digit s in if bool_decide (String.length d ∈ [1; 2]%nat) then Some (d, r) else None.

(** [openvpnTSRe]: month, day, clock and year of the stamp. *)
Definition openvpnTSRe (line : string) : option (string * string * string * string) :=
  '(_, s) ← chars [is_upper; is_lower; is_lower] line; s ← spaces s;
  '(mo, s) ← chars [is_upper; is_lower; is_lower] s; s ← spaces s;
  '(d, s) ← day_digits s; s ← spaces s;
  '(t, s) ← chars [is_digit; is_digit; is_colon; is_digit; is_digit; is_colon; is_digit; is_digit] s; s ← spaces s;
  '(y, s) ← chars [is_digit; is_digit; is_digit; is_digit] s; _ ← spaces s;
  Some (mo, d, t, y).

Definition months : list string :=
  ["Jan"; "Feb"; "Mar"; "Apr"; "May"; "Jun"; "Jul"; "Aug"; "Sep"; "Oct"; "Nov"; "Dec"].
Fixpoint month_number (m : string) (i : Z) (names : list string) : option Z :=
  match names with
  | [] => None
  | n :: names' => if String.eqb n m then Some i else month_number m (i + 1)%Z names'
  end.
Definition number_at (i n : nat) (s : string) : Z := default 0%Z (parse_uint (String.substring i n s)).

(** ** The peer of a line *)

Fixpoint octets (n : nat) (s : string) : option (string * string) :=
  let '(d, r) := span is_digit s in
  match n with
  | O => let k := Nat.min 3 (String.length d) in if str_empty d then None else Some (str_take k d, str_drop k d +:+ r)
  | S n' =>
      match r with
      | String "." r' =>
          if bool_decide (String.length d ∈ [1; 2; 3]%nat) then '(a, r) ← octets n' r'; Some (d +:+ "." +:+ a, r) else None
      | _ => None
      end
  end.
(** [\d{1,3}(?:\.\d{1,3}){3}(?::\d+)?]. *)
Definition peer_v4 (s : string) : option string :=
  '(a, r) ← octets 3 s;
  match r with
  | String ":" r' => let '(d, _) := span is_digit r' in Some (if str_empty d then a else a +:+ ":" +:+ d)
  | _ => Some a
  end.
(** [\S+:\d+]: the last colon of the word that a digit follows. *)
Fixpoint peer_split (n : nat) (word : string) : option string :=
  match n with
  | O => None
  | S n' =>
      match str_drop n word with
      | String ":" r =>
          let '(d, _) := span is_digit r in
          if str_empty d then peer_split n' word else Some (str_take n word +:+ ":" +:+ d)
      | _ => peer_split n' word
      end
  end.
Definition peer_any (s : string) : option string :=
  let '(word, _) := span re_nonspace s in peer_split (String.length word) word.
Definition peer_here (s : string) : option string :=
  let after := if has_prefix s "[AF_INET6]" then Some (str_drop 10 s)
               else if has_prefix s "[AF_INET]" then Some (str_drop 9 s) else None in
  match after with
  | Some r => match peer_v4 r with Some p => Some p | None => peer_any r end
  | None => None
  end.
Fixpoint peerRe (s : string) : option string :=
  match peer_here s with
  | Some p => Some p
  | None => match s with "" => None | String _ s' => peerRe s' end
  end.

(** ** Events *)

Record Event : Type := mkEvent {
  ev_ts : float;
  ev_last_seen : float;
  ev_ongoing : option bool;   (** nil for a hook event *)
  ev_cn : string;
  ev_action : string;
  ev_severity : string;
  ev_reason : string;
  ev_peer : string;
  ev_source : string;
  ev_count : Z
}.

Definition hookEventLogPath (e : environ) : string :=
  let v := Env e "LOG_FILE" "" in if negb (str_empty v) then v else "/var/log/ovnode/hook-events.log".

Record hookEvent : Type := mkHookEvent { he_ts : float; he_message : string }.

Definition clampHours (hours : Z) : Z :=
  if (hours <? 1)%Z then 1 else if (24 <? hours)%Z then 24 else hours.

(** One line of the event log. *)
Definition hook_event (cutoff : float) (raw : string) : option hookEvent :=
  if str_empty raw then None
  else
    let '(hd, msg, _) := cut " " raw in
    match ParseFloat hd with
    | None => None
    | Some ts => if f_ltb ts cutoff then None else Some (mkHookEvent ts msg)
    end.

(** The result is kept for five seconds; an empty one is a nil slice and is
    read again. *)
Record event_cache : Type := mkEventCache { ec_key : string; ec_at : Z; ec_events : list hookEvent }.

Definition unix (now : Z) : Z := (now / second)%Z.

Definition readHookEvents (e : environ) (c : event_cache) (hours : Z) : M (list hookEvent * event_cache) :=
  let bounded := clampHours hours in
  let path := hookEventLogPath e in
  let key := path +:+ "|" +:+ itoa bounded in
  now <- gets w_now ;;
  if negb (Nat.eqb (length (ec_events c)) 0) && String.eqb (ec_key c) key && (now - ec_at c <? 5 * second)%Z
  then mret (ec_events c, c)
  else
    let cutoff := f_sub (f_of_Z (unix now)) (f_of_Z (bounded * 3600)) in
    data <- try (read_file (LAbs path)) ;;
    let out := match data with inr d => omap (hook_event cutoff) (split nl d) | inl _ => [] end in
    mret (out, mkEventCache key now out).

(** ** The log of OpenVPN *)

Definition maxTail : nat := N.to_nat 262144.
Definition is_nl (c : ascii) : bool := Ascii.eqb c nl.

(** The tail of the log; a tail that starts inside a line drops that line. *)
Definition tail_of (data : string) : string :=
  if (maxTail <? String.length data)%nat then
    let t := str_drop (String.length data - maxTail) data in
    match cut nl t with (_, rest, true) => rest | _ => t end
  else data.
Definition openvpnLogLines (e : environ) : M (list string) :=
  let path := LAbs (Join [OpenVPNRoot e; "server"; "openvpn.log"]) in
  there <- stat_file path ;;
  if negb there then mret []
  else
    data <- try (read_file path) ;;
    mret (match data with inr d => split nl (trim_right_set is_nl (tail_of d)) | inl _ => [] end).

(** ** First and last seen *)

Definition ovnodeStateDir (e : environ) : string := Join [OpenVPNRoot e; "ovnode"; "state"].
Definition tlsSeenPath (e : environ) : loc := LAbs (ovnodeStateDir e +:+ "/tls_seen.json").

Record tlsSeen : Type := mkSeen { ts_first : float; ts_last : float }.
Definition no_seen : tlsSeen := mkSeen f_zero f_zero.

Definition seen_field (t : tlsSeen) (k : string) (v : json) : option tlsSeen :=
  match field_of ["first"; "last"] k, v with
  | None, _ => Some t
  | Some _, JNull => Some t
  | Some f, JNum lit =>
      x ← ParseFloat lit;
      Some (if String.eqb f "first" then mkSeen x (ts_last t) else mkSeen (ts_first t) x)
  | _, _ => None
  end.
Definition seen_value (v : json) : option tlsSeen :=
  match v with
  | JNull => Some no_seen
  | JObj kvs => foldl (fun acc kv => t ← acc; seen_field t kv.1 kv.2) (Some no_seen) kvs
  | _ => None
  end.
Definition decode_seen (data : string) : option (gmap string tlsSeen) :=
  match json_decode data with
  | Some (v, rest) =>
      if negb (str_empty (skip_ws rest)) then None
      else match v with
           | JObj kvs => foldl (fun acc kv => m ← acc; t ← seen_value kv.2; Some (<[kv.1:=t]> m)) (Some ∅) kvs
           | JNull => Some ∅
           | _ => None
           end
  | None => None
  end.

Definition loadTLSSeen (e : environ) : M (gmap string tlsSeen) :=
  data <- try (read_file (tlsSeenPath e)) ;;
  mret (match data with inr d => default ∅ (decode_seen d) | inl _ => ∅ end).

(** What one poll saw of a failure, in seconds. *)
Record fingerprint : Type := mkFinger { fp_count : Z; fp_first : Z; fp_last : Z; fp_peer : string; fp_reason : string }.

Definition encode_seen (next : gmap string fingerprint) : string :=
  json_print (JObj (map (fun kv => (kv.1, JObj [("first", JNum (itoa (fp_first kv.2))); ("last", JNum (itoa (fp_last kv.2)))]))
    (omap (fun k => (fun f => (k, f)) <$> next !! k) (sort_strings (elements (dom next)))))).

Definition saveTLSSeen (e : environ) (next : gmap string fingerprint) : M unit :=
  d <- try (mkdir (ovnodeStateDir e)) ;;
  match d with
  | inl _ => mret tt
  | inr _ =>
      t <- try (create_temp (tlsSeenPath e) ".tls_seen-" (encode_seen next)) ;;
      match t with
      | inl _ => mret tt
      | inr tmp =>
          p <- try (SetPermissions (path_of tmp)) ;;
          match p with
          | inl _ => ignore (remove_file tmp)
          | inr _ =>
              r <- try (rename_file tmp (tlsSeenPath e)) ;;
              match r with inl _ => ignore (remove_file tmp) | inr _ => mret tt end
          end
      end
  end.

(** ** TLS and authentication failures *)

Fixpoint detail_of (s : string) : option string :=
  if has_prefix s ": " then Some (str_drop 2 s)
  else match s with "" => None | String _ s' => detail_of s' end.

Section openvpn.
Context (e : environ).
(** What the zone of the host makes of a wall clock read as UTC, and the order
    in which Go visits the keys of a map. *)
Context (local : Z -> Z) (order : list string -> list string).

(** The Unix time of a stamped line; zero when it has none or no valid one. *)
Definition line_ts (line : string) : option Z :=
  '(mo, d, t, y) ← openvpnTSRe line;
  Some (match month_number mo 1 months with
        | None => 0%Z
        | Some m =>
            let c := mkCivil (number_at 0 4 y) m (number_at 0 2 d) (number_at 0 2 t) (number_at 3 2 t) (number_at 6 2 t) in
            if valid_civil c then local (unix_of_civil c) else 0%Z
        end).

Definition kind_of (line : string) : string := if contains line "Auth Failed" then "auth" else "tls".
Definition line_key (line : string) : string := default "?" (peerRe line) +:+ "|" +:+ kind_of line.
Definition line_detail (line : string) : string := str_take 160 (default line (detail_of line)).

Definition seen_line (now window : Z) (fps : gmap string fingerprint) (line : string) : gmap string fingerprint :=
  if negb (tlsErrorRe line) then fps
  else
    let stamp := line_ts line in
    let ts := default 0%Z stamp in
    if match stamp with Some ts => (0 <? ts)%Z && (window <? now - ts)%Z | None => false end then fps
    else
      let key := line_key line in
      match fps !! key with
      | None =>
          let t := if (ts =? 0)%Z then now else ts in
          <[key := mkFinger 1 t t (default "?" (peerRe line)) (line_detail line)]> fps
      | Some f =>
          let f' := mkFinger (fp_count f + 1) (fp_first f) (fp_last f) (fp_peer f) (fp_reason f) in
          <[key :=
            if (0 <? ts)%Z then
              mkFinger (fp_count f') (if (fp_first f =? 0)%Z || (ts <? fp_first f)%Z then ts else fp_first f)
                (Z.max (fp_last f) ts) (fp_peer f) (fp_reason f)
            else mkFinger (fp_count f') (fp_first f) now (fp_peer f) (fp_reason f)]> fps
      end.

Definition tls_event (now window : Z) (seen : gmap string tlsSeen) (key : string) (f : fingerprint) : Event :=
  let prior := default no_seen (seen !! key) in
  let first := if (fp_first f =? 0)%Z then
                 (if bool_decide (SpecFloat.SFeqb (ts_first prior) f_zero = true) then f_of_Z now else ts_first prior)
               else f_of_Z (fp_first f) in
  let last := if f_ltb (f_of_Z (fp_last f)) (ts_last prior) then ts_last prior else f_of_Z (fp_last f) in
  let ongoing := f_ltb f_zero (ts_last prior) &&
                 f_leb (f_sub (f_of_Z now) (ts_last prior)) (f_div (f_of_Z window) (f_of_Z 2)) in
  mkEvent first last (Some ongoing) "" (if has_suffix key "|auth" then "tls_auth" else "tls") SeverityFailure
    (fp_reason f) (fp_peer f) "openvpn" (fp_count f).

Definition openvpnLogEvents (hours : Z) : M (list Event) :=
  clock <- gets w_now ;;
  let now := unix clock in
  let window := (clampHours hours * 3600)%Z in
  lines <- openvpnLogLines e ;;
  let fps := foldl (seen_line now window) ∅ lines in
  if bool_decide (fps = ∅) then saveTLSSeen e ∅ ;; mret []
  else
    seen <- loadTLSSeen e ;;
    let events := omap (fun k => tls_event now window seen k <$> fps !! k) (order (elements (dom fps))) in
    saveTLSSeen e fps ;;
    mret events.
End openvpn.
