(* ===== verification/Diag.v ===== *)
(** * Diag: the diagnostics of internal/ovpn/sessions.go.

    [UserDiagnostics]: the live sessions and the markers, the classified events
    of the hooks and of OpenVPN, their counts, and whether the management
    socket can be used, with what the process remembers between two polls. *)

From S2P Require Import Prelude GoString Json Time Names Cache World Counter Markers UserPolicy Status Config Mgmt Disconnect Usage Float Ring Migrate Control Events.
From Stdlib Require Import Ascii.

(** ** What the process remembers *)

Record diag : Type := mkDiag {
  dg_events : event_cache;
  dg_mgmt : option (bool * Z);     (** the last probe of the socket and when *)
  dg_warned : bool;                (** [mgmtWarnOnce] has run *)
  dg_ring : list LogRecord
}.
Definition set_mgmt (m : option (bool * Z)) (d : diag) : diag := mkDiag (dg_events d) m (dg_warned d) (dg_ring d).
Definition set_events (c : event_cache) (d : diag) : diag := mkDiag c (dg_mgmt d) (dg_warned d) (dg_ring d).
Definition set_ring (r : list LogRecord) (d : diag) : diag := mkDiag (dg_events d) (dg_mgmt d) (dg_warned d) r.

(** ** Rows *)

Definition num (n : Z) : json := JNum (itoa n).
Definition sessionRow (s : Session) : json := JObj
  [("bytes_received", num (s_rx s)); ("bytes_sent", num (s_tx s)); ("client_id", JStr (s_client s));
   ("common_name", JStr (s_cn s)); ("trusted_ip", JStr (s_ip s)); ("trusted_port", JStr (s_port s));
   ("virtual_address", JStr (s_virtual s))].
Definition markerRow (m : lmarker) : json := JObj
  [("common_name", JStr (lm_cn m)); ("created", num (lm_created m)); ("ifconfig_pool_remote_ip", JStr (lm_pool m));
   ("session_key", JStr (lm_key m)); ("trusted_ip", JStr (lm_ip m)); ("trusted_port", JStr (lm_port m))].

(** ** Counting *)

Definition count_up {K} `{Countable K} (m : gmap K Z) (k : K) (n : Z) : gmap K Z := <[k := (default 0 (m !! k) + n)%Z]> m.
Definition sumCounts {K} `{Countable K} (m : gmap K Z) : Z := map_fold (fun _ v acc => (v + acc)%Z) 0%Z m.

Definition about (commonName cn : string) : bool := str_empty commonName || String.eqb cn commonName.

(** The counts of the loop over the hook events. *)
Record tally : Type := mkTally {
  tl_rejects : gmap string Z;
  tl_global : gmap string Z;
  tl_auth : gmap string Z;
  tl_reasons : gmap string Z;
  tl_last : gmap string string;
  tl_last_ts : gmap string float;
  tl_events : list Event
}.
Definition no_tally : tally := mkTally ∅ ∅ ∅ ∅ ∅ ∅ [].

Definition hook_step (commonName : string) (t : tally) (ev : hookEvent) : tally :=
  match cnActionRe (he_message ev) with
  | None => t
  | Some (cn, hookAction) =>
      if negb (about commonName cn) then t
      else
        let '(action, severity, reason) := classifyReject (he_message ev) in
        mkTally (count_up (tl_rejects t) cn 1)
          (if String.eqb hookAction "GLOBAL_REJECT" then count_up (tl_global t) cn 1 else tl_global t)
          (if String.eqb severity SeverityFailure then count_up (tl_auth t) cn 1 else tl_auth t)
          (count_up (tl_reasons t) reason 1)
          (<[cn := he_message ev]> (tl_last t))
          (if f_ltb (default f_zero (tl_last_ts t !! cn)) (he_ts ev) then <[cn := he_ts ev]> (tl_last_ts t) else tl_last_ts t)
          (tl_events t ++ [mkEvent (he_ts ev) (he_ts ev) None cn action severity reason "" "mlogin" 0])
  end.

(** The events of OpenVPN name no user; they count where no user is asked
    for. *)
Definition tls_step (t : tally) (ev : Event) : tally :=
  mkTally (tl_rejects t) (tl_global t) (count_up (tl_auth t) "" 1) (count_up (tl_reasons t) (ev_reason ev) 1)
    (tl_last t) (tl_last_ts t) (tl_events t ++ [ev]).

(** [sort.SliceStable], newest first. *)
Fixpoint insert_event (x : Event) (l : list Event) : list Event :=
  match l with
  | [] => [x]
  | y :: l' => if f_ltb (ev_ts x) (ev_ts y) then y :: insert_event x l' else x :: l
  end.
Definition newest_first (l : list Event) : list Event := foldr insert_event [] l.

Definition severity_total (severity : string) (l : list Event) : Z :=
  Z.of_nat (length (filter (fun ev => ev_severity ev = severity) l)).

(** The counts by display name. *)
Definition diag_name (names : gmap string string) (cn : string) : string :=
  if str_empty cn then "(tls)"
  else let name := default "" (names !! cn) in if negb (str_empty name) then name else cn.
Definition by_name (names : gmap string string) (m : gmap string Z) : gmap string Z :=
  foldr (fun kv acc => count_up acc (diag_name names kv.1) kv.2) ∅ (map_to_list m).

Record diagnostics : Type := mkDiagnostics {
  dx_common_name : string;
  dx_live : list json;
  dx_active : list json;
  dx_stale : list json;
  dx_auth_errors : Z;
  dx_auth_by_cn : gmap string Z;
  dx_total : Z;
  dx_policy : Z;
  dx_warn : Z;
  dx_failures : Z;
  dx_tls : Z;
  dx_rejects : Z;
  dx_by_reason : gmap string Z;
  dx_by_cn : gmap string Z;
  dx_last_ts : gmap string float;
  dx_events : list Event;
  dx_global : Z;
  dx_last_error : option string + gmap string string;
  dx_mgmt : bool
}.

Section diagnostics.
Context (e : environ) (h : Host) (mc : mgmt_cfg) (status : loc) (usersDir : string).
Context (local : Z -> Z) (order : list string -> list string) (clock : Z -> string).

(** The socket of this tree answers: its OpenVPN runs and the connection is
    made. *)
Definition probeManagement : M bool :=
  running <- TreeOpenVPNRunning e h ;;
  if negb running then mret false
  else
    k <- try (dialManagement (mc_service mc) (mc_host mc) (mc_port mc)) ;;
    mret (match k with inr _ => true | inl _ => false end).

Definition mgmtAvailable (d : diag) : M (bool * diag) :=
  now <- gets w_now ;;
  match dg_mgmt d with
  | Some (v, at_) => if (now - at_ <? 8 * second)%Z then mret (v, d)
                     else v <- probeManagement ;; mret (v, set_mgmt (Some (v, now)) d)
  | None => v <- probeManagement ;; mret (v, set_mgmt (Some (v, now)) d)
  end.
Definition managementAvailable : diag -> M (bool * diag) := mgmtAvailable.

Definition warnManagementUnavailable (now : Z) (d : diag) : diag :=
  if dg_warned d then d
  else mkDiag (dg_events d) (dg_mgmt d) true
         (Warn clock "sessions.go:367" "the OpenVPN management socket is not usable: sessions cannot be killed" now (dg_ring d)).

Definition mgmt_event (now : Z) : Event :=
  let t := f_of_Z (unix now) in
  mkEvent t t (Some true) "" "mgmt_degraded" SeverityWarn "management unavailable" "" "agent" 0.

(** The rows of the sessions and the markers of one user, or of all. *)
Definition live_rows (commonName : string) (sessions : list Session) : list json :=
  map sessionRow (filter (fun s => about commonName (s_cn s) = true) sessions).
Definition marker_rows (commonName : string) (live : bool) (idx : liveIndex) (markers : list lmarker) : list json :=
  map markerRow (filter (fun m => about commonName (lm_cn m) && Bool.eqb (isLive idx m) live = true) markers).

Definition UserDiagnostics (d : diag) (commonName : string) (hours : Z) : M (diagnostics * diag) :=
  sessions <- ParseSessions status ;;
  markers <- readMarkers ;;
  let idx := newLiveIndex sessions in
  ev <- readHookEvents e (dg_events d) hours ;;
  let t := foldl (hook_step commonName) no_tally ev.1 in
  let d := set_events ev.2 d in
  tls <- openvpnLogEvents e local order hours ;;
  let counted := if str_empty commonName then tls else [] in
  let t := foldl tls_step t counted in
  usable <- managementAvailable d ;;
  now <- gets w_now ;;
  let d := if usable.1 : bool then usable.2 else warnManagementUnavailable now usable.2 in
  let events := newest_first (tl_events t ++
                  if str_empty commonName && negb usable.1 then [mgmt_event now] else []) in
  let policy := severity_total SeverityPolicy events in
  let warn := severity_total SeverityWarn events in
  let failure := severity_total SeverityFailure events in
  names <- NameMap usersDir ;;
  again <- managementAvailable d ;;
  mret (mkDiagnostics commonName (live_rows commonName sessions) (marker_rows commonName true idx markers)
          (marker_rows commonName false idx markers) failure (by_name names (tl_auth t)) (policy + warn + failure)
          policy warn failure (Z.of_nat (length counted)) (sumCounts (tl_rejects t)) (tl_reasons t)
          (by_name names (tl_rejects t)) (tl_last_ts t) (take 100 events) (sumCounts (tl_global t))
          (if str_empty commonName then inr (tl_last t) else inl (tl_last t !! commonName)) again.1, again.2).
End diagnostics.
