(* ===== verification/DiagProps.v ===== *)
(** * DiagProps: the counts of the diagnostics, and the line the hooks write
    when they refuse a client. *)

From S2P Require Import Prelude GoString Json Time Names Cache World Evolve Counter Markers UserPolicy Status Config Mgmt Hooks HookProps Perms Disconnect Usage Float Ring Migrate Control Events Diag.
From Stdlib Require Import Ascii.

#[local] Set Default Proof Using "Type*".

(** ** Sums *)

Section sums.
Context {K : Type} `{Countable K}.

Lemma sumCounts_insert_new (m : gmap K Z) k v : m !! k = None -> sumCounts (<[k:=v]> m) = (v + sumCounts m)%Z.
Proof. intros Hk. unfold sumCounts. apply map_fold_insert_L; [intros; lia|done]. Qed.

Lemma sumCounts_count_up (m : gmap K Z) k n : sumCounts (count_up m k n) = (sumCounts m + n)%Z.
Proof.
  unfold count_up. destruct (m !! k) as [v|] eqn:Hk; cbn [default from_option].
  - rewrite <- (insert_delete_id m k v Hk) at 2. rewrite <- insert_delete_eq.
    rewrite !sumCounts_insert_new by apply lookup_delete_eq. cbn. lia.
  - rewrite sumCounts_insert_new by done. cbn. lia.
Qed.
End sums.

Lemma sumCounts_by_name names m : sumCounts (by_name names m) = sumCounts m.
Proof.
  unfold by_name. transitivity (foldr (fun kv acc => (kv.2 + acc)%Z) 0%Z (map_to_list m)).
  - induction (map_to_list m) as [|[k v] l IH]; [done|]. cbn [foldr]. rewrite sumCounts_count_up, IH. cbn. lia.
  - unfold sumCounts. rewrite map_fold_foldr. induction (map_to_list m) as [|[k v] l IH]; [done|]. cbn. by rewrite IH.
Qed.

(** ** The tally *)

Definition is_severity (s : string) : Prop := s = SeverityPolicy \/ s = SeverityWarn \/ s = SeverityFailure.

Lemma classify_severity msg : is_severity (classifyReject msg).1.2.
Proof.
  unfold classifyReject. destruct (filter _ rejectReasons) as [|r l] eqn:Hf.
  - unfold is_severity. repeat case_match; auto.
  - assert (r ∈ rejectReasons) as Hin by (apply (list_elem_of_filter (fun r => contains msg (rr_needle r) = true)); rewrite Hf; left).
    clear Hf. unfold rejectReasons in Hin. rewrite !elem_of_cons, elem_of_nil in Hin. unfold is_severity.
    destruct_or! Hin; subst r; cbn; auto.
Qed.

Definition severities (l : list Event) : Prop := Forall (fun ev => is_severity (ev_severity ev)) l.

Record tallied (n tls : Z) (t : tally) : Prop := mkTallied {
  td_rejects : sumCounts (tl_rejects t) = n;
  td_events : Z.of_nat (length (tl_events t)) = (n + tls)%Z;
  td_reasons : sumCounts (tl_reasons t) = (n + tls)%Z;
  td_auth : sumCounts (tl_auth t) = severity_total SeverityFailure (tl_events t);
  td_severities : severities (tl_events t)
}.

Lemma severity_total_app s a b : severity_total s (a ++ b) = (severity_total s a + severity_total s b)%Z.
Proof. unfold severity_total. rewrite filter_app, length_app. lia. Qed.

Lemma severity_total_one s ev : severity_total s [ev] = if decide (ev_severity ev = s) then 1%Z else 0%Z.
Proof. unfold severity_total. rewrite filter_cons, filter_nil. by case_decide. Qed.

Lemma hook_step_tallied commonName n t ev : tallied n 0 t -> exists n', tallied n' 0 (hook_step commonName t ev).
Proof.
  intros Ht. unfold hook_step. destruct (cnActionRe (he_message ev)) as [[cn act]|]; [|by exists n].
  destruct (negb (about commonName cn)); [by exists n|]. pose proof (classify_severity (he_message ev)) as Hs.
  destruct (classifyReject (he_message ev)) as [[action severity] reason]. cbn in Hs. exists (n + 1)%Z.
  destruct Ht as [H1 H2 H3 H4 H5]. split; cbn [tl_rejects tl_events tl_reasons tl_auth].
  - by rewrite sumCounts_count_up, H1.
  - rewrite length_app. cbn. lia.
  - rewrite sumCounts_count_up, H3. lia.
  - rewrite severity_total_app, severity_total_one, <- H4. cbn [ev_severity].
    destruct (String.eqb_spec severity SeverityFailure); case_decide; try done; [by rewrite sumCounts_count_up|lia].
  - apply Forall_app. split; [done|]. by constructor.
Qed.

Lemma tls_step_tallied n tls t ev : ev_severity ev = SeverityFailure -> tallied n tls t -> tallied n (tls + 1) (tls_step t ev).
Proof.
  intros Hev [H1 H2 H3 H4 H5]. split; cbn [tl_rejects tl_events tl_reasons tl_auth tls_step]; [done|rewrite length_app; cbn; lia| | |].
  - rewrite sumCounts_count_up, H3. lia.
  - rewrite sumCounts_count_up, severity_total_app, severity_total_one, <- H4. by case_decide.
  - apply Forall_app. split; [done|]. constructor; [|done]. rewrite Hev. by right; right.
Qed.

Lemma hook_events_tallied commonName evs t n : tallied n 0 t -> exists n', tallied n' 0 (foldl (hook_step commonName) t evs).
Proof.
  revert t n. induction evs as [|ev evs IH]; intros t n Ht; [by exists n|]. cbn [foldl].
  destruct (hook_step_tallied commonName n t ev Ht) as [n1 H1]. by apply (IH _ n1).
Qed.

Lemma tls_events_tallied n tls evs t : Forall (fun ev => ev_severity ev = SeverityFailure) evs -> tallied n tls t ->
  tallied n (tls + Z.of_nat (length evs)) (foldl tls_step t evs).
Proof.
  intros Hev. revert tls t. induction Hev as [|ev evs Hev _ IH]; intros tls t Ht; cbn [foldl].
  - by replace (tls + Z.of_nat (length (@nil Event)))%Z with tls by (cbn; lia).
  - replace (tls + Z.of_nat (length (ev :: evs)))%Z with (tls + 1 + Z.of_nat (length evs))%Z by (cbn [length]; lia).
    apply IH. by apply tls_step_tallied.
Qed.

Lemma no_tally_tallied : tallied 0 0 no_tally.
Proof. split; [done..|constructor]. Qed.

(** ** Sorting *)

Lemma insert_event_perm x l : insert_event x l ≡ₚ x :: l.
Proof. induction l as [|y l IH]; [done|]. cbn. destruct (f_ltb _ _); [|done]. rewrite IH. apply Permutation_swap. Qed.

Lemma newest_first_perm l : newest_first l ≡ₚ l.
Proof. induction l as [|x l IH]; [done|]. cbn. rewrite insert_event_perm. by f_equiv. Qed.

Lemma severity_total_perm s a b : a ≡ₚ b -> severity_total s a = severity_total s b.
Proof. intros H. unfold severity_total. by rewrite H. Qed.

Lemma severities_total l : severities l ->
  (severity_total SeverityPolicy l + severity_total SeverityWarn l + severity_total SeverityFailure l)%Z = Z.of_nat (length l).
Proof.
  induction 1 as [|ev l Hev _ IH]; [done|]. rewrite !(severity_total_app _ [ev] l : severity_total _ (ev :: l) = _), !severity_total_one.
  cbn [length]. destruct Hev as [-> |[-> | ->]]; repeat case_decide; try done; lia.
Qed.

(** No event is followed by a newer one. *)
Definition not_newer (a b : Event) : Prop := f_ltb (ev_ts a) (ev_ts b) = false.

Lemma insert_event_sorted x l : Sorted not_newer l -> Sorted not_newer (insert_event x l).
Proof.
  induction 1 as [|y l Hl IH Hy]; cbn; [by repeat constructor|]. destruct (f_ltb (ev_ts x) (ev_ts y)) eqn:Hxy.
  - constructor; [done|]. apply f_ltb_asym in Hxy. destruct l as [|z l]; cbn; [by constructor|].
    destruct (f_ltb (ev_ts x) (ev_ts z)); constructor; [by inversion Hy|done].
  - constructor; [by constructor|]. by constructor.
Qed.

Lemma newest_first_sorted l : Sorted not_newer (newest_first l).
Proof. induction l as [|x l IH]; cbn; [constructor|by apply insert_event_sorted]. Qed.

Lemma filter_split {A} (p q : A -> bool) (l : list A) :
  filter (fun a => p a && Bool.eqb (q a) true = true) l ++ filter (fun a => p a && Bool.eqb (q a) false = true) l ≡ₚ
  filter (fun a => p a = true) l.
Proof.
  induction l as [|a l IH]; [done|]. rewrite !filter_cons.
  destruct (p a), (q a); cbn [andb Bool.eqb]; repeat case_decide; try done; cbn [app]; [by f_equiv|].
  rewrite <- Permutation_middle. by f_equiv.
Qed.

(** ** The poll *)

Section poll.
Context (e : environ) (local : Z -> Z) (order : list string -> list string).

Lemma openvpn_events_fail hours w evs w' :
  openvpnLogEvents e local order hours w = (inr evs, w') -> Forall (fun ev => ev_severity ev = SeverityFailure) evs.
Proof.
  unfold openvpnLogEvents. intros (c & w1 & _ & H)%bind_inr. apply bind_inr in H as (lines & w2 & _ & H).
  case_bool_decide; apply bind_inr in H as (seen & w3 & _ & H); [by injection H as <- _|].
  apply bind_inr in H as ([] & w4 & _ & H). injection H as <- _.
  apply Forall_forall. intros ev (k & _ & Hk)%list_elem_of_omap. by destruct (_ !! k); simplify_eq/=.
Qed.

(** The counts the panel shows add up.  Every event has one of the three
    severities, so the events of the tab are the first hundred, newest first,
    of as many as the total says; the failures are the authentication errors,
    none is lost or counted twice when they are given to display names, and a
    refusal that was policy is in none of them; the refusals by user and by
    reason sum to the refusals, with the failures of TLS for the latter; and
    every marker is in one of the two lists, by whether the status file shows
    its session. *)
Theorem diagnostics_add_up h mc status usersDir clock d commonName hours w x d' w' :
  UserDiagnostics e h mc status usersDir local order clock d commonName hours w = (inr (x, d'), w') ->
  (exists events, dx_events x = take 100 events /\ Sorted not_newer events /\ Z.of_nat (length events) = dx_total x /\
     dx_policy x = severity_total SeverityPolicy events /\ dx_failures x = severity_total SeverityFailure events /\
     (dx_rejects x + dx_tls x <= dx_total x <= dx_rejects x + dx_tls x + 1)%Z) /\
  dx_auth_errors x = dx_failures x /\ sumCounts (dx_auth_by_cn x) = dx_auth_errors x /\
  sumCounts (dx_by_cn x) = dx_rejects x /\ sumCounts (dx_by_reason x) = (dx_rejects x + dx_tls x)%Z /\
  exists markers, (readMarkers w).1 = inr markers /\
    dx_active x ++ dx_stale x ≡ₚ map markerRow (filter (fun m => about commonName (lm_cn m) = true) markers).
Proof.
  unfold UserDiagnostics. intros (sessions & w1 & Hps & H)%bind_inr. pose proof (ParseSessions_state status w) as Hst.
  rewrite Hps in Hst. cbn in Hst. subst w1.
  apply bind_inr in H as (markers & w2 & Hm & H). apply bind_inr in H as ([evs cache] & w3 & _ & H).
  apply bind_inr in H as (tls & w4 & Htls & H). apply bind_inr in H as ([usable d1] & w5 & _ & H).
  apply bind_inr in H as (now & w6 & _ & H). apply bind_inr in H as (names & w7 & _ & H).
  apply bind_inr in H as ([again d2] & w8 & _ & H). cbn [fst snd] in H. injection H as <- _ _.
  apply openvpn_events_fail in Htls.
  destruct (hook_events_tallied commonName evs no_tally 0 no_tally_tallied) as [n Hn].
  set (counted := if str_empty commonName then tls else []) in *.
  assert (Forall (fun ev => ev_severity ev = SeverityFailure) counted) as Hc by (unfold counted; by destruct (str_empty _)).
  pose proof (tls_events_tallied n 0 counted _ Hc Hn) as Ht. set (t := foldl tls_step _ counted) in *.
  set (extra := if str_empty commonName && negb usable then [mgmt_event now] else []).
  assert (severities extra /\ severity_total SeverityFailure extra = 0%Z /\ (0 <= Z.of_nat (length extra) <= 1)%Z) as (Hx1 & Hx2 & Hx3).
  { unfold extra. destruct (str_empty commonName && negb usable); [|by split; [constructor|]].
    split; [repeat constructor; by right; left|]. rewrite severity_total_one. by case_decide. }
  destruct Ht as [Hr He Hre Ha Hsev]. pose proof (newest_first_perm (tl_events t ++ extra)) as Hp.
  assert (severity_total SeverityFailure (newest_first (tl_events t ++ extra)) = severity_total SeverityFailure (tl_events t)) as Hf
    by (rewrite (severity_total_perm _ _ _ Hp), severity_total_app; lia).
  split_and!; cbn [dx_events dx_total dx_policy dx_warn dx_failures dx_rejects dx_tls dx_auth_errors dx_auth_by_cn dx_by_cn
    dx_by_reason dx_active dx_stale].
  - eexists. split; [done|]. split; [apply newest_first_sorted|].
    rewrite severities_total by (eapply Permutation_Forall; [symmetry; exact Hp|by apply Forall_app]).
    rewrite (Permutation_length Hp), length_app.
    split; [done|]. split; [done|]. split; [done|]. rewrite Hr. lia.
  - done.
  - by rewrite sumCounts_by_name, Hf.
  - by rewrite sumCounts_by_name.
  - rewrite Hre, Hr. lia.
  - exists markers. split; [by rewrite Hm|]. unfold marker_rows. rewrite <- map_app. f_equiv. apply filter_split.
Qed.
End poll.

(** ** Concrete runs *)

(** A node whose hooks refused user 42 twice, once for its limit and once
    because the old session could not be ended, with a scanner in the log of
    OpenVPN and no management socket. *)
Definition demo_line (msg : string) : string := "1700000000 [ovnode-mlogin] " +:+ msg +:+ str1 nl.
Definition diag_host : Host :=
  mkHost (mkHostId false (fun _ => true) None) "" (fun _ => None) (fun _ => false) (fun _ => false) None [].
Definition diag_world : World :=
  set_now 1700000100000000000 (set_files
    (<[LAbs "/var/log/ovnode/hook-events.log" :=
         demo_line "CN=42 ip=203.0.113.9:51000 pool=10.8.0.3 limit=2 status=2; REJECT" +:+
         demo_line "CN=42 limit=unlimited; LOCAL_ALLOW" +:+
         demo_line "CN=42 ip=203.0.113.9:51000 pool=10.8.0.3 takeover could not verify old session termination; REJECT"]>
      (<[LAbs "/etc/openvpn/server/openvpn.log" :=
           "[AF_INET]198.51.100.7:4000 TLS Error: TLS handshake failed" +:+ str1 nl +:+
           "[AF_INET]198.51.100.7:4000 TLS Error: TLS key negotiation failed" +:+ str1 nl]> ∅)) demo_world).
Definition diag_run : (goerr + (diagnostics * diag)) * World :=
  UserDiagnostics (mkEnviron ∅ ∅) diag_host demo_mgmt (LAbs "status") "/u" id id (fun _ => "")
    (mkDiag (mkEventCache "" 0 []) None false []) "" 8 diag_world.

Definition diag_counts (x : diagnostics) : Z * Z * Z * Z * Z * option Z :=
  (dx_total x, dx_policy x, dx_warn x, dx_failures x, dx_rejects x, dx_auth_by_cn x !! "42").

Lemma diagnostics_add_up_witness :
  exists x d, diag_run.1 = inr (x, d) /\ diag_counts x = (4, 1, 1, 2, 2, Some 1)%Z /\
    sumCounts (dx_auth_by_cn x) = dx_auth_errors x /\ sumCounts (dx_by_cn x) = dx_rejects x.
Proof.
  destruct diag_run as [[err|[x d]] w'] eqn:Hrun; [exfalso; apply (f_equal (fun r => match r.1 with inr _ => true | inl _ => false end)) in Hrun; vm_compute in Hrun; discriminate|].
  assert (option_map diag_counts (match diag_run.1 with inr (x, _) => Some x | inl _ => None end) = Some (4, 1, 1, 2, 2, Some 1)%Z) as Hc
    by (vm_compute; reflexivity).
  exists x, d. rewrite Hrun in Hc. cbn [fst option_map] in Hc. apply (inj Some) in Hc. split; [reflexivity|]. split; [exact Hc|].
  destruct (diagnostics_add_up (mkEnviron ∅ ∅) id id diag_host demo_mgmt (LAbs "status") "/u" (fun _ => "")
    (mkDiag (mkEventCache "" 0 []) None false []) "" 8 diag_world x d w' Hrun) as (_ & _ & Ha & Hb & _). by split.
Defined.
