(* ===== verification/EventProps.v ===== *)
(** * EventProps: what the connect hook logs is what the diagnostics report. *)

From S2P Require Import Prelude GoString Json Time Names Cache World Evolve Counter Markers UserPolicy Status Config Mgmt Hooks HookProps Usage Float Ring Control Events Diag.
From Stdlib Require Import Ascii.

#[local] Set Default Proof Using "Type*".

(** ** The line of a refusal *)

Lemma strip_crlf_app a b : strip_crlf (a +:+ b) = strip_crlf a +:+ strip_crlf b.
Proof.
  unfold strip_crlf. induction a as [|c a IH]; [done|]. rewrite app_cons_s. cbn [String.list_ascii_of_string].
  rewrite !filter_cons. case_decide; [|done]. cbn [String.string_of_list_ascii]. by rewrite IH.
Qed.

Lemma strip_crlf_graph s : str_forall is_graph s = true -> strip_crlf s = s.
Proof.
  unfold strip_crlf. induction s as [|c s IH]; [done|]. cbn [str_forall String.list_ascii_of_string]. intros [Hc Hs]%andb_prop.
  rewrite filter_cons, decide_True; [cbn [String.string_of_list_ascii]; by rewrite IH|].
  split; intros ->; discriminate Hc.
Qed.

Lemma strip_crlf_no_nl s : no_char nl (strip_crlf s) = true.
Proof.
  unfold strip_crlf, no_char. induction s as [|c s IH]; [done|]. cbn [String.list_ascii_of_string]. rewrite filter_cons.
  case_decide as Hc; [|done]. cbn [String.string_of_list_ascii str_forall]. rewrite IH, andb_true_r.
  destruct Hc as [Hc _]. by destruct (Ascii.eqb_spec c nl).
Qed.

(** A verdict is found behind any text of the same line. *)
Lemma find_action_reject p q : no_char nl p = true -> is_Some (find_action (p +:+ "REJECT" +:+ q)).
Proof.
  induction p as [|c p IH]; [intros _; exists "REJECT"; by destruct q|]. intros [Hc Hp]%andb_prop. rewrite app_cons_s. cbn [find_action].
  destruct (action_at _); [by eexists|]. apply negb_true_iff in Hc. rewrite Hc. by apply IH.
Qed.

Lemma cnActionRe_line cn rest a : cn <> "" -> str_forall is_graph cn = true -> find_action (" " +:+ rest) = Some a ->
  cnActionRe ("[ovnode-mlogin] " +:+ "CN=" +:+ cn +:+ " " +:+ rest) = Some (cn, a).
Proof.
  intros Hne Hg Ha. set (text := cn +:+ " " +:+ rest).
  assert (cn_here ("CN=" +:+ text) = Some (cn, a)) as Hh.
  { unfold cn_here. rewrite has_prefix_app. cbv zeta. rewrite (str_drop_app "CN=" text : str_drop 3 _ = text). unfold text. change (" " +:+ rest) with (String " " rest).
    rewrite cut_found. 2:{ unfold no_char. eapply str_forall_impl; [|exact Hg]. intros c Hc. destruct (Ascii.eqb_spec c " "); [by subst|done]. }
    cbn [fst]. destruct (String.length cn) as [|n] eqn:Hl; [by destruct cn|]. cbn [try_cn]. rewrite <- Hl, str_drop_app, str_take_app.
    change (String " " rest) with (" " +:+ rest). by rewrite Ha. }
  transitivity (cnActionRe ("CN=" +:+ text)); [reflexivity|]. change ("CN=" +:+ text) with (String "C" ("N=" +:+ text)) in *.
  cbn [cnActionRe]. by rewrite Hh.
Qed.

Definition refusal_line (cn msg : string) : Prop :=
  exists rest, msg = strip_crlf ("CN=" +:+ cn +:+ " " +:+ rest +:+ "REJECT").

Lemma refusal_line_found cn msg : cn <> "" -> str_forall is_graph cn = true -> refusal_line cn msg ->
  exists verdict, cnActionRe ("[ovnode-mlogin] " +:+ msg) = Some (cn, verdict).
Proof.
  intros Hne Hg [rest ->]. rewrite !strip_crlf_app. change (strip_crlf "CN=") with "CN=". change (strip_crlf " ") with " ".
  change (strip_crlf "REJECT") with ("REJECT" +:+ ""). rewrite (strip_crlf_graph cn) by done.
  destruct (find_action_reject (" " +:+ strip_crlf rest) "") as [a Ha].
  { rewrite app_cons_s, app_nil_l_s. cbn. apply strip_crlf_no_nl. }
  exists a. apply cnActionRe_line; [done|done|]. by rewrite app_assoc_s in Ha.
Qed.

(** ** Every refusal ends with its line *)

Definition told (cn : string) (w : World) : Prop := exists before msg, w_log w = before ++ [msg] /\ refusal_line cn msg.

(** A run that ends with the exit code 1 has told why. *)
Definition tells (cn : string) (m : M Z) : Prop := forall w w', m w = (inr 1%Z, w') -> told cn w'.

Section tells.
Context (cn : string).

Lemma tells_event {A} (a : A) rest msg w w' : msg = "CN=" +:+ cn +:+ " " +:+ rest +:+ "REJECT" ->
  (World.Event msg ;; mret a : M A) w = (inr a, w') -> told cn w'.
Proof. intros -> [= <-]. eexists _, _. split; [done|]. by exists rest. Qed.

Lemma tells_reject rest msg : msg = "CN=" +:+ cn +:+ " " +:+ rest +:+ "REJECT" -> tells cn (reject msg).
Proof. intros Hm w w' H. by eapply tells_event. Qed.

Lemma tells_bind {A} (m : M A) k : (forall a, tells cn (k a)) -> tells cn (x <- m ;; k x).
Proof. intros Hk w w' (a & w1 & _ & H)%bind_inr. by eapply Hk. Qed.

Lemma tells_admitted {A} (m : M A) : tells cn (m ;; mret 0%Z).
Proof. intros w w' (a & w1 & _ & H)%bind_inr. discriminate H. Qed.
End tells.

(** The lines of the handshake, in the order of the code. *)

Lemma takeover_tells cfg cn ip port pool rows n w w' : takeover cfg cn cn ip port pool rows n w = (inr false, w') -> told cn w'.
Proof.
  unfold takeover. intros (? & w1 & _ & H)%bind_inr. apply bind_inr in H as (now & w2 & _ & H).
  apply bind_inr in H as (side & w3 & _ & H). apply bind_inr in H as (? & w4 & _ & H).
  apply bind_inr in H as ([[res lines] k] & w5 & _ & H). apply bind_inr in H as (? & w6 & _ & H).
  destruct res; [discriminate H| |by apply bind_inr in H as (? & w7 & _ & H)].
  refine (tells_event cn false ("ip=" +:+ orUnknown ip +:+ ":" +:+ orUnknown port +:+ " pool=" +:+ orNone pool +:+
    " takeover could not verify old session termination; ") _ w6 w' _ H). by rewrite !app_assoc_s.
Qed.

Lemma admit_tells env cn ip port pool key rows limit n start : tells cn (admitLocked env cn ip port pool key rows limit n start).
Proof.
  unfold admitLocked. apply tells_bind. intros gen. apply tells_bind. intros created. apply tells_bind. intros [err|_].
  - apply (tells_reject cn ("takeover banking failed: " +:+ err_text err +:+ "; ")). by rewrite !app_assoc_s.
  - apply tells_bind. intros [err|_]; [|apply tells_admitted].
    apply (tells_reject cn ("could not write the session marker: " +:+ err_text err +:+ "; ")). by rewrite !app_assoc_s.
Qed.

Lemma connectLocked_tells cfg env cn ip port pool key limit start : tells cn (connectLocked cfg env cn cn ip port pool key limit start).
Proof.
  unfold connectLocked. apply tells_bind. intros sessions. destruct (_ <=? _)%Z; [|apply admit_tells]. destruct (negb _).
  - apply (tells_reject cn ("ip=" +:+ Sanitize (orUnknown ip) +:+ ":" +:+ Sanitize (orUnknown port) +:+ " pool=" +:+ orNone pool +:+
      " limit=" +:+ itoa limit +:+ " status=" +:+ itoa (Z.of_nat (length (liveRows sessions))) +:+ "; ")). by rewrite !app_assoc_s.
  - intros w w' (ok & w1 & Ht & H)%bind_inr. destruct ok; [by apply admit_tells in H|]. injection H as <-.
    by apply takeover_tells in Ht.
Qed.

Definition reported_cn (env : HookEnv) (arg : string) : string := Sanitize (if str_empty (e_common_name env) then arg else e_common_name env).

Lemma Connect_tells cfg env arg : tells (reported_cn env arg) (Connect cfg env arg).
Proof.
  unfold Connect, reported_cn. set (cn0 := if str_empty _ then arg else _). set (cn := Sanitize cn0). cbv zeta.
  assert (tells cn (reject ("CN=" +:+ cn +:+ " (sanitized=" +:+ cn +:+ ") rejected: malformed; REJECT"))) as Hmal
    by (apply (tells_reject cn ("(sanitized=" +:+ cn +:+ ") rejected: malformed; ")); by rewrite !app_assoc_s).
  destruct (String.eqb_spec cn cn0) as [Hcn|]; [cbn [negb]|exact Hmal]. rewrite <- Hcn. clearbody cn.
  destruct (negb (HookCNValid cn)); [exact Hmal|]. clear Hmal. set (ip := Sanitize (orUnknown (e_ip env))).
  set (port := Sanitize (orUnknown (e_port env))). apply tells_bind. intros [|]; cbn [negb].
  2:{ apply (tells_reject cn ("ip=" +:+ ip +:+ ":" +:+ port +:+ "; USERS_DIR missing or not a directory — fail-closed; ")).
      by rewrite !app_assoc_s. }
  apply tells_bind. intros [err|_].
  { apply (tells_reject cn ("could not prepare session directory: " +:+ err_text err +:+ "; ")). by rewrite !app_assoc_s. }
  apply tells_bind. intros [err|state].
  { apply (tells_reject cn ("could not read user state: " +:+ err_text err +:+ "; ")). by rewrite !app_assoc_s. }
  destruct (u_disabled state).
  { apply (tells_reject cn ("ip=" +:+ ip +:+ ":" +:+ port +:+ " is disabled; ")). by rewrite !app_assoc_s. }
  apply tells_bind. intros start. destruct (_ =? 0)%Z.
  - apply tells_bind. intros gen. apply tells_bind. intros created. apply tells_bind. intros [err|_]; [|apply tells_admitted].
    apply (tells_reject cn ("could not write the session marker: " +:+ err_text err +:+ "; ")). by rewrite !app_assoc_s.
  - intros w w' ([err|code] & w1 & Hl & H)%bind_inr.
    + revert H. apply (tells_reject cn ("could not take the session lock: " +:+ err_text err +:+ "; ")). by rewrite !app_assoc_s.
    + injection H as -> ->. apply try_err_inr, Lock_inr in Hl. by eapply connectLocked_tells.
Qed.

(** ** What the diagnostics make of it *)

(** The line of the file: [logging.Event] puts the time and the tag before the
    message. *)
Definition event_line (t : Z) (msg : string) : string := itoa t +:+ " " +:+ "[ovnode-mlogin] " +:+ msg.

Lemma hook_event_line cutoff t msg : (0 <= t < 2 ^ 53)%Z -> f_ltb (f_of_Z t) cutoff = false ->
  hook_event cutoff (event_line t msg) = Some (mkHookEvent (f_of_Z t) ("[ovnode-mlogin] " +:+ msg)).
Proof.
  intros Ht Hc. unfold hook_event, event_line.
  assert (str_empty (itoa t +:+ " " +:+ "[ovnode-mlogin] " +:+ msg) = false) as ->.
  { rewrite itoa_nonneg by lia. pose proof (utoa_ne (Z.to_N t)). by destruct (utoa (Z.to_N t)). }
  change (" " +:+ "[ovnode-mlogin] " +:+ msg) with (String " " ("[ovnode-mlogin] " +:+ msg)).
  rewrite cut_found. 2:{ rewrite itoa_nonneg by lia. unfold no_char. eapply str_forall_impl; [|apply utoa_digits].
    intros c Hd. destruct (Ascii.eqb_spec c " "); [by subst|done]. }
  by rewrite ParseFloat_itoa, Hc.
Qed.

(** Every refusal of a client that has a name reaches the panel.  The last
    line the connect hook logs, whatever failed before it, is read back by the
    diagnostics of any later poll whose window it is in, as one refusal of the
    name the hook worked with. *)
Theorem refusals_are_reported cfg env arg w w' :
  reported_cn env arg <> "" -> Connect cfg env arg w = (inr 1%Z, w') ->
  exists before msg, w_log w' = before ++ [msg] /\
    forall t cutoff, (0 <= t < 2 ^ 53)%Z -> f_ltb (f_of_Z t) cutoff = false ->
    exists ev, hook_event cutoff (event_line t msg) = Some ev /\ he_ts ev = f_of_Z t /\
      forall commonName tl, about commonName (reported_cn env arg) = true ->
        let tl' := hook_step commonName tl ev in
        tl_rejects tl' = count_up (tl_rejects tl) (reported_cn env arg) 1 /\
        exists action severity reason, classifyReject (he_message ev) = (action, severity, reason) /\
          tl_events tl' = tl_events tl ++ [mkEvent (f_of_Z t) (f_of_Z t) None (reported_cn env arg) action severity reason "" "mlogin" 0].
Proof.
  intros Hne Hrun. destruct (Connect_tells _ _ _ _ _ Hrun) as (before & msg & Hlog & Hline). exists before, msg. split; [done|].
  intros t cutoff Ht Hc. eexists. split; [by apply hook_event_line|]. split; [done|]. intros commonName tl Hab.
  destruct (refusal_line_found _ _ Hne (Sanitize_graph _) Hline) as [verdict Hv]. cbv zeta. unfold hook_step. cbn [he_message he_ts].
  rewrite Hv, Hab. cbn [negb]. destruct (classifyReject _) as [[action severity] reason]. split; [done|]. by eexists _, _, _.
Qed.

Lemma refusals_are_reported_witness :
  exists before msg, w_log (Connect demo_cfg demo_env "" full_world).2 = before ++ [msg] /\
    option_map (fun ev => tl_rejects (hook_step "" no_tally ev)) (hook_event (f_of_Z 1699971200) (event_line 1700000000 msg))
      = Some {["42" := 1%Z]}.
Proof.
  destruct (refusals_are_reported demo_cfg demo_env "" full_world (Connect demo_cfg demo_env "" full_world).2) as (before & msg & Hl & He).
  - discriminate.
  - apply run_eta. vm_compute. reflexivity.
  - exists before, msg. split; [exact Hl|].
    destruct (He 1700000000%Z (f_of_Z 1699971200)) as (ev & -> & _ & Ht); [lia|vm_compute; reflexivity|].
    destruct (Ht "" no_tally) as [Hr _]; [reflexivity|]. cbv zeta in Hr. cbn [option_map]. rewrite Hr. reflexivity.
Defined.

(** The verdict is looked for in the name as well: the admission of a user
    whose name contains one is reported as a refusal of somebody else. *)
Lemma name_with_a_verdict_is_misread :
  HookCNValid "bobREJECT" = true /\
  cnActionRe "[ovnode-mlogin] CN=bobREJECT limit=unlimited; LOCAL_ALLOW" = Some ("bob", "REJECT").
Proof. by vm_compute. Qed.

(** A take-over that went on without the management socket is no event: its
    line has no verdict, so the reason kept for it is never given. *)
Lemma degraded_takeover_is_no_event :
  cnActionRe ("[ovnode-mlogin] CN=42 ip=192.0.2.9:1194 pool=10.8.0.3 limit=1 status=1; " +:+
    "management unavailable; DEGRADE (markers replaced, corpse reaped by ping-restart)") = None.
Proof. by vm_compute. Qed.

(** The state file remembers when a failure was first seen, and the event never
    shows it: the time of the present poll, or of the line, comes first. *)
Lemma first_seen_is_forgotten local now window key line fps seen f :
  now <> 0%Z -> fps !! key = None -> seen_line local now window fps line !! key = Some f ->
  ev_ts (tls_event now window seen key f) = f_of_Z (fp_first f).
Proof.
  intros Hnow Hnone Hs. unfold tls_event. cbn [ev_ts]. destruct (Z.eqb_spec (fp_first f) 0) as [H0|]; [|done]. exfalso.
  unfold seen_line in Hs. destruct (negb _); [by rewrite Hnone in Hs|].
  destruct (match line_ts _ _ with Some ts => _ | None => _ end); [by rewrite Hnone in Hs|].
  destruct (decide (line_key line = key)) as [<-|Hk].
  - rewrite Hnone, lookup_insert_eq in Hs. injection Hs as <-. cbn [fp_first] in H0. destruct (Z.eqb_spec (default 0%Z (line_ts local line)) 0); lia.
  - destruct (fps !! line_key line); by rewrite lookup_insert_ne, Hnone in Hs.
Qed.
