(* ===== verification/Expiry.v ===== *)
(** * Expiry: the dates the status of a node shows, from internal/pki/certs.go
    and client.go.

    The end of a certificate and the days the revocation list still has; the
    answer of openssl is a parameter. *)

From S2P Require Import Prelude GoString Time Names Cache World Float Pki Events.
From Stdlib Require Import Ascii.

#[local] Open Scope Z_scope.

(** [time.Date] takes any day, hour, minute and second and carries them. *)
Definition date_unix (y m d h mi s : Z) : Z := unix_of_civil (mkCivil y m d h mi s).

Definition atoi0 (s : string) : Z := default 0 (atoi s).

(** [expiry.Sub(now).Seconds() / 86400], cut to whole days; the difference is
    a [Duration], which stops at its bounds. *)
Definition duration (d : Z) : Z := Z.max (- two63) (Z.min d (two63 - 1)).
Definition duration_seconds (d : Z) : float :=
  f_add (f_of_Z (Z.quot d second)) (f_div (f_of_Z (Z.rem d second)) (f_of_Z second)).
Definition days_until (now expiry : Z) : Z :=
  f_to_int (f_div (duration_seconds (duration (expiry * second - now))) (f_of_Z 86400)).

Definition DaysUntilOpensslDate (now : Z) (raw : string) : option Z :=
  let value := trim_space (match cut "=" raw with (_, b, true) => b | (a, _, false) => a end) in
  match fields value with
  | monthS :: dayS :: timeS :: yearS :: _ :: _ =>
      match split ":" timeS with
      | [h; mi; s] =>
          m ← month_number monthS 1 months;
          Some (days_until now (date_unix (atoi0 yearS) m (atoi0 dayS) (atoi0 h) (atoi0 mi) (atoi0 s)))
      | _ => None
      end
  | _ => None
  end.

(** [openssl] is the output of the command, or that it failed. *)
Definition CRLDaysRemaining (openssl : option string) : M Z :=
  now <- gets w_now ;;
  mret (match openssl with Some out => default (-1) (DaysUntilOpensslDate now out) | None => -1 end).

Section expiry.
Context `{Crypto}.

(** The first certificate of the file; each block is shorter than what it is
    cut from, so the length of the file is fuel enough. *)
Fixpoint first_expiry (fuel : nat) (data : string) : string :=
  match fuel with
  | O => ""
  | S fuel =>
      match pem_decode data with
      | None => ""
      | Some (b, rest) =>
          if negb (String.eqb (pb_type b) "CERTIFICATE") then first_expiry fuel rest
          else match ParseCertificate (pb_bytes b) with
               | inl _ => ""
               | inr c => format_date (c_until c)
               end
      end
  end.
Definition CertExpiry (path : loc) : M string :=
  data <- try (read_file path) ;;
  mret (match data with inr d => first_expiry (S (String.length d)) d | inl _ => "" end).
End expiry.
