(* ===== verification/ServerConf.v ===== *)
(** * ServerConf: internal/ovpn/serverconf.go.

    The server.conf a node starts with, the directives it keeps in an existing
    one, the client template and the management password. *)

From S2P Require Import Prelude GoString Json NetIP Names Cache World Config Perms Policy Control.
From Stdlib Require Import Ascii.

(** ** Directives *)

(** [strconv.Quote] on ASCII; the bytes of other characters are kept. *)
Definition quote_char (c : ascii) : string :=
  let n := N_of_ascii c in
  if (n =? 34)%N then String "\" (str1 dquote)
  else if (n =? 92)%N then "\\"
  else if (n =? 7)%N then "\a"
  else if (n =? 8)%N then "\b"
  else if (n =? 12)%N then "\f"
  else if (n =? 10)%N then "\n"
  else if (n =? 13)%N then "\r"
  else if (n =? 9)%N then "\t"
  else if (n =? 11)%N then "\v"
  else if (n <? 32)%N || (n =? 127)%N then "\x" +:+ str1 (hex_digit (n / 16)) +:+ str1 (hex_digit (n mod 16))
  else str1 c.
Fixpoint quote_body (s : string) : string :=
  match s with "" => "" | String c s' => quote_char c +:+ quote_body s' end.
Definition Quote (s : string) : string := String dquote (quote_body s +:+ str1 dquote).

Definition needs_quotes (c : ascii) : bool :=
  Ascii.eqb c " " || Ascii.eqb c tab || Ascii.eqb c cr || Ascii.eqb c nl || Ascii.eqb c dquote || Ascii.eqb c "\".
Definition configValue (value : string) : string :=
  if str_forall (fun c => negb (needs_quotes c)) value then value else Quote value.

(** What a directive of the file is told by. *)
Definition directiveKey (line : string) : string :=
  match fields line with
  | [] => ""
  | w :: rest =>
      match rest with
      | v :: _ => if String.eqb w "setenv" then "setenv " +:+ trim_set is_quote v else w
      | [] => w
      end
  end.

(** Every wanted directive stands once, as it is wanted. *)
Definition hooksAlreadyCurrent (data : string) (desired : list string) : bool :=
  forallb (fun d => match filter (fun ln => directiveKey ln = directiveKey d) (split nl data) with
                    | [ln] => String.eqb (trim_space ln) d
                    | _ => false
                    end) desired.

Definition FreshProto (e : environ) : string :=
  if has_prefix (to_lower (trim_space (Env e "PROTO" "tcp"))) "udp" then "udp" else "tcp".

(** The IPv6 state as this file reads it: the last value of a name counts. *)
Definition state_line (st : gmap string string) (line : string) : gmap string string :=
  if negb (contains line "=") then st
  else let '(k, v, _) := cut "=" line in <[trim_space k := trim_space v]> st.

Definition ipv6Effective (e : environ) : M (bool * string) :=
  r <- try (read_file IPv6StatePath) ;;
  let state := match r with inr data => foldl state_line ∅ (split nl data) | inl _ => ∅ end in
  mret (match state !! "enabled" with Some v => truthy (to_lower (trim_space v)) | None => IPv6Enabled e end,
        match state !! "prefix" with
        | Some v => if str_empty v then IPv6Prefix e else v
        | None => IPv6Prefix e
        end).

Section conf.
Context (e : environ) (h : HostId) (passFile : loc).

(** [randomHex]: the bytes come from the entropy. *)
Definition randomHex : M string := b <- entropy ;; mret (hex_encode b).

(** A blank password file is replaced by a new password. *)
Definition provide_password (data : string) : M string :=
  w <- (if str_empty (trim_space data) then
          try (mkdir "mgmt-pass" ;; p <- randomHex ;; WriteFileAtomic passFile (p +:+ str1 nl))
        else mret (inr tt)) ;;
  match w with
  | inl _ => mret ""
  | inr _ =>
      p <- try (SetPermissions (MgmtPassFile e)) ;;
      mret (match p with inl _ => "" | inr _ => MgmtPassFile e end)
  end.

(** [EnsureMgmtPassword]: the path, or nothing when the password cannot be
    provided. *)
Definition EnsureMgmtPassword : M string :=
  known <- (if hi_root h then try (RuntimeGroupID e h) else mret (inr tt)) ;;
  match known with
  | inl _ => mret ""
  | inr _ =>
      r <- try (read_file passFile) ;;
      match r with
      | inl x => if IsNotExist x then provide_password "" else mret ""
      | inr data => provide_password data
      end
  end.

Definition quoted (s : string) : string := str1 dquote +:+ s +:+ str1 dquote.

(** The directives of HookTargets, quoted since the command holds a space. *)
Definition hookLines : list string :=
  ["client-connect " +:+ quoted (AgentBin e h +:+ " hook connect");
   "client-disconnect " +:+ quoted (AgentBin e h +:+ " hook disconnect")].

Definition MgmtLine : string := "management 127.0.0.1 " +:+ itoa (ManagementPort e) +:+ " " +:+ configValue (MgmtPassFile e).

Definition hardening : list string :=
  ["tls-version-min 1.3"; "remote-cert-tls client"; MgmtLine; "writepid " +:+ PIDFile e; "script-security 2"; "status-version 3"].
Definition HardeningDirectives : M (list string) := EnsureMgmtPassword ;; mret hardening.

(** [HookEnvDirectives]: the settings the hooks read from their environment. *)
Definition hook_settings (user group : string) : list (string * string) :=
  let cfg := (HookFromEnv e).1 in
  [("OVNODE_OPENVPN_ROOT", hk_root cfg); ("OVNODE_DATA_DIR", OVNodeDir e);
   ("OVNODE_USERS_DIR", hk_users cfg); ("OVNODE_SESSIONS_DIR", hk_sessions cfg); ("OVNODE_USAGE_DIR", hk_usage cfg);
   ("OVNODE_STATUS_FILE", hk_status cfg); ("OVNODE_LOG_DIR", hk_log_dir cfg); ("OVNODE_LOG_FILE", hk_log_file cfg);
   ("OVNODE_MANAGEMENT_HOST", hk_mgmt_host cfg); ("OVNODE_MANAGEMENT_PORT", itoa (hk_mgmt_port cfg));
   ("OVNODE_MGMT_PASS_FILE", hk_mgmt_pass cfg); ("OVNODE_ALLOW_REMOTE_MGMT", Env e "ALLOW_REMOTE_MGMT" "0");
   ("OVNODE_RUNTIME_USER", user); ("OVNODE_RUNTIME_GROUP", group); ("OVNODE_SESSION_TTL", itoa (hk_ttl cfg))].
Definition env_lines (user group : string) : list string :=
  map (fun kv => "setenv " +:+ kv.1 +:+ " " +:+ configValue kv.2) (hook_settings user group).
Definition HookEnvDirectives : M (list string) :=
  for_each Event (HookFromEnv e).2 ;;
  user <- RuntimeUser e ;; group <- RuntimeGroup e ;; mret (env_lines user group).

Definition runtime_lines (user group : string) : list string := ["user " +:+ user; "group " +:+ group].

(** ** The first server.conf *)

Definition push (s : string) : string := "push " +:+ quoted s.

(** The lines, in the groups the code appends them in. *)
Definition network_lines (dns : list string) (v6 : bool * string) : list string :=
  ["port " +:+ itoa (OpenVPNPort e); "proto " +:+ FreshProto e; "dev tun"; "topology subnet";
   "server " +:+ VPNNetwork e +:+ " " +:+ VPNNetmask e;
   "ifconfig-pool-persist " +:+ Join [OpenVPNRoot e; "server"; "ipp.txt"] +:+ " 600";
   push "redirect-gateway def1 bypass-dhcp"] ++
  map (fun s => push ("dhcp-option DNS " +:+ s)) dns ++
  [push "block-outside-dns"] ++
  (if v6.1 then ["tun-ipv6"; "server-ipv6 " +:+ v6.2; push "route-ipv6 2000::/3"] else []).

Definition tls_lines : list string :=
  ["keepalive 10 60"; "ca " +:+ CACert e; "cert " +:+ ServerCert e; "key " +:+ Join [PKIDir e; "private"; "server.key"];
   "dh none"; "tls-crypt " +:+ TLSKey e; "tls-version-min 1.3"; "remote-cert-tls client";
   "data-ciphers AES-256-GCM:AES-128-GCM:CHACHA20-POLY1305"; "data-ciphers-fallback AES-256-GCM"; "auth SHA256";
   "mssfix 1360"; "tun-mtu 1500"; "sndbuf 393216"; "rcvbuf 393216"; "allow-compression no"].

Definition path_lines : list string :=
  ["client-config-dir " +:+ Join [OpenVPNRoot e; "ccd"]; "crl-verify " +:+ CRLFile e;
   "status " +:+ configValue (StatusFile e) +:+ " 5"; "status-version 3"; MgmtLine; "writepid " +:+ PIDFile e;
   "log-append " +:+ Join [OpenVPNRoot e; "server"; "openvpn.log"]; "cd " +:+ Join [OpenVPNRoot e; "server"]].

Definition last_lines : list string :=
  ["max-clients " +:+ itoa (MaxClients e);
   "explicit-exit-notify " +:+ (if String.eqb (FreshProto e) "udp" then "1" else "0"); "duplicate-cn"].

Definition fresh_lines (dns : list string) (v6 : bool * string) (user group : string) : list string :=
  (network_lines dns v6 ++ tls_lines) ++ (runtime_lines user group ++ env_lines user group) ++
  ["persist-key"; "persist-tun"; "script-security 2"] ++ hookLines ++ path_lines ++ hardening ++ last_lines.

Definition FreshServerConf : M string :=
  pass <- EnsureMgmtPassword ;;
  if str_empty pass then mret ""
  else
    let '(dns1, dns2) := VPNDNS e in
    dns <- DNSEffective dns1 dns2 ;;
    user <- RuntimeUser e ;;
    group <- RuntimeGroup e ;;
    v6 <- ipv6Effective e ;;
    HookEnvDirectives ;;
    HardeningDirectives ;;
    mret (join (str1 nl) (fresh_lines dns v6 user group) +:+ str1 nl).

(** ** Keeping an existing server.conf *)

(** The directives every server.conf has. *)
Definition required_lines : list string := hardening ++ ["duplicate-cn"; "crl-verify " +:+ CRLFile e].

(** The directives the node owns, in the order they are compared. *)
Definition desired_lines (user group : string) : list string := hookLines ++ env_lines user group ++ runtime_lines user group.

Definition missing_lines (data : string) : list string :=
  let existing := map trim_space (split nl data) in
  filter (fun d => d ∉ existing) required_lines.

Definition updated_conf (data user group : string) : string :=
  let owned := map directiveKey (desired_lines user group) in
  join (str1 nl)
    (filter (fun l => directiveKey l ∉ owned) (split nl data) ++ desired_lines user group ++ missing_lines data) +:+ str1 nl.

(** Whether the file changed. *)
Definition ensureServerConf : M bool :=
  pass <- EnsureMgmtPassword ;;
  if str_empty pass then throw (Errorf "management password unavailable")
  else
    there <- present_file settingFile ;;
    if negb there then
      data <- FreshServerConf ;;
      if str_empty data then throw (Errorf "server configuration could not be generated")
      else WriteFileAtomic settingFile data ;; mret true
    else
      data <- read_file settingFile ;;
      HardeningDirectives ;;
      user <- RuntimeUser e ;;
      group <- RuntimeGroup e ;;
      HookEnvDirectives ;;
      if bool_decide (missing_lines data = []) && hooksAlreadyCurrent data (desired_lines user group) then mret false
      else HookEnvDirectives ;; WriteFileAtomic settingFile (updated_conf data user group) ;; mret true.
Definition EnsureServerConf : M bool :=
  r <- try ensureServerConf ;; mret (match r with inr b => b | inl _ => false end).

(** ** The client template *)

(** The address of a remote line of server.conf. *)
Fixpoint conf_remote (lines : list string) : string :=
  match lines with
  | [] => ""
  | ln :: lines' =>
      if has_prefix (trim_space ln) "remote " then
        match fields ln with _ :: addr :: _ => addr | _ => conf_remote lines' end
      else conf_remote lines'
  end.

Definition template_text (addr : string) : string :=
  "client" +:+ str1 nl +:+ "dev tun" +:+ str1 nl +:+ "proto " +:+ FreshProto e +:+ str1 nl +:+
  RemoteLines addr (OpenVPNPort e) [] +:+ str1 nl +:+
  join (str1 nl)
    ["resolv-retry infinite"; "nobind"; "persist-key"; "persist-tun"; "remote-cert-tls server"; "tls-version-min 1.3";
     "auth SHA256"; "data-ciphers AES-128-GCM:AES-256-GCM:CHACHA20-POLY1305"; "cipher AES-128-GCM";
     "ignore-unknown-option block-outside-dns"; "block-outside-dns"; "mssfix 1360"; "verb 3"] +:+ str1 nl.

Definition EnsureClientTemplate : M unit :=
  there <- present_file templateFile ;;
  if there : bool then mret tt
  else
    mkdir "server" ;;
    let addr := Env e "TUNNEL_ADDRESS" "" in
    addr <- (if str_empty addr then data <- read_file settingFile ;; mret (conf_remote (split nl data)) else mret addr) ;;
    WriteFileAtomic templateFile (template_text (if str_empty addr then "auto" else addr)).
End conf.
