(* ===== verification/ServerConfProps.v ===== *)
(** * ServerConfProps: server.conf settles. *)

From S2P Require Import Prelude GoString Json NetIP Names Cache World Evolve Config Perms Policy Control ConfText ServerConf.
From Stdlib Require Import Ascii.

#[local] Set Default Proof Using "Type*".

(** ** The keys of directives *)

Lemma directiveKey_word w rest : w <> "" -> str_forall is_graph w = true -> w <> "setenv" ->
  directiveKey (w +:+ String " " rest) = w.
Proof.
  intros Hne Hg Hs. unfold directiveKey, fields. rewrite (fields_word w rest "") by done. rewrite app_nil_l_s.
  destruct (fields_go "" rest); [done|]. by rewrite (proj2 (String.eqb_neq w "setenv") Hs).
Qed.

Lemma directiveKey_setenv name rest : name <> "" -> str_forall is_graph name = true -> trim_set is_quote name = name ->
  directiveKey ("setenv " +:+ name +:+ String " " rest) = "setenv " +:+ name.
Proof.
  intros Hne Hg Ht. unfold directiveKey, fields. change ("setenv " +:+ ?s) with ("setenv" +:+ String " " s).
  rewrite (fields_word "setenv" _ "") by done. rewrite (fields_word name rest "") by done. rewrite !app_nil_l_s.
  rewrite Ht. done.
Qed.

(** ** Fields and trimming *)

(** A word that has begun is the first field. *)
Lemma fields_begun s : forall cur, cur <> "" -> exists w rest, fields_go cur s = (cur +:+ w) :: rest.
Proof.
  induction s as [|c s IH]; intros cur Hne.
  { exists "", []. rewrite app_nil_r_s. simpl. by destruct cur. }
  assert (forall l, exists w rest, (if str_empty cur then l else cur :: l) = (cur +:+ w) :: rest) as Hflush.
  { intros l. exists "", l. rewrite app_nil_r_s. by destruct cur. }
  assert (exists w rest, fields_go (cur +:+ str1 c) s = (cur +:+ w) :: rest) as Hkeep.
  { destruct (IH (cur +:+ str1 c)) as (w & rest & ->); [by destruct cur|]. exists (str1 c +:+ w), rest. by rewrite app_assoc_s. }
  cbn [fields_go]. destruct (space1 c); [apply Hflush|]. destruct s as [|d s]; [exact Hkeep|].
  destruct (space2 c d); [apply Hflush|]. destruct s as [|x s]; [exact Hkeep|]. destruct (space3 c d x); [apply Hflush|exact Hkeep].
Qed.

Lemma fields_first c s : is_graph c = true -> exists w rest, fields (String c s) = String c w :: rest.
Proof. intros Hc. unfold fields. rewrite fields_graph by done. by apply (fields_begun s (str1 c)). Qed.

Lemma fields_trim_left s : fields (trim_left s) = fields s.
Proof.
  unfold fields. remember (String.length s) as n eqn:Hn. revert s Hn.
  induction n as [n IH] using (well_founded_induction lt_wf). intros s ->.
  assert (forall t, (String.length t < String.length s)%nat -> fields_go "" (trim_left t) = fields_go "" t) as Hrec
    by (intros t Ht; by apply (IH (String.length t))).
  destruct s as [|c s]; [done|]. cbn [trim_left]. destruct (space1 c) eqn:H1.
  { rewrite Hrec by (simpl; lia). cbn [fields_go]. by rewrite H1. }
  destruct s as [|d s]; [done|]. destruct (space2 c d) eqn:H2.
  { rewrite Hrec by (simpl; lia). cbn [fields_go]. by rewrite H1, H2. }
  destruct s as [|x s]; [done|]. destruct (space3 c d x) eqn:H3; [|done].
  rewrite Hrec by (simpl; lia). cbn [fields_go]. by rewrite H1, H2, H3.
Qed.

Lemma trim_left_rev_tail s : exists pre, s = pre +:+ trim_left_rev s.
Proof.
  remember (String.length s) as n eqn:Hn. revert s Hn. induction n as [n IH] using (well_founded_induction lt_wf). intros s ->.
  assert (forall p t, (String.length t < String.length s)%nat -> exists pre, p +:+ t = pre +:+ trim_left_rev t) as Hrec.
  { intros p t Ht. destruct (IH _ Ht t eq_refl) as [pre Hp]. exists (p +:+ pre). by rewrite app_assoc_s, <- Hp. }
  destruct s as [|c s]; [by exists ""|]. cbn [trim_left_rev]. destruct (space1 c); [apply (Hrec (str1 c)); simpl; lia|].
  destruct s as [|d s]; [by exists ""|]. destruct (space2 d c); [apply (Hrec (String c (str1 d))); simpl; lia|].
  destruct s as [|x s]; [by exists ""|]. destruct (space3 x d c); [apply (Hrec (String c (String d (str1 x)))); simpl; lia|by exists ""].
Qed.

(** A string begins with what trimming its right side leaves. *)
Lemma trim_right_head s : exists tail, s = trim_right s +:+ tail.
Proof.
  destruct (trim_left_rev_tail (String.rev s)) as [pre Hp]. exists (String.rev pre). unfold trim_right.
  rewrite <- rev_append_s, <- Hp. by rewrite rev_involutive_s.
Qed.

(** The first field of a line with what is left of it after trimming. *)
Lemma fields_of_trimmed ln d : trim_space ln = d -> exists tail, fields ln = fields (d +:+ tail).
Proof.
  unfold trim_space. intros <-. destruct (trim_right_head (trim_left ln)) as [tail Ht]. exists tail.
  by rewrite <- Ht, fields_trim_left.
Qed.

(** ** The keys of the file *)

Definition hook_names : list string :=
  ["OVNODE_OPENVPN_ROOT"; "OVNODE_DATA_DIR"; "OVNODE_USERS_DIR"; "OVNODE_SESSIONS_DIR"; "OVNODE_USAGE_DIR";
   "OVNODE_STATUS_FILE"; "OVNODE_LOG_DIR"; "OVNODE_LOG_FILE"; "OVNODE_MANAGEMENT_HOST"; "OVNODE_MANAGEMENT_PORT";
   "OVNODE_MGMT_PASS_FILE"; "OVNODE_ALLOW_REMOTE_MGMT"; "OVNODE_RUNTIME_USER"; "OVNODE_RUNTIME_GROUP"; "OVNODE_SESSION_TTL"].
Definition owned_keys : list string :=
  ["client-connect"; "client-disconnect"] ++ map (fun n => "setenv " +:+ n) hook_names ++ ["user"; "group"].

Lemma owned_keys_nodup : NoDup owned_keys.
Proof. apply (bool_decide_unpack _). reflexivity. Qed.

(** The key of a concrete line with a first word. *)
Ltac key_of w := exact (directiveKey_word w _ ltac:(discriminate) eq_refl ltac:(discriminate)).

Section keys.
Context (e : environ) (h : HostId).

Lemma desired_keys user group : map directiveKey (desired_lines e h user group) = owned_keys.
Proof.
  unfold desired_lines, owned_keys. rewrite !map_app. f_equal; [|f_equal].
  - unfold hookLines. cbn [map]. f_equal; [key_of "client-connect"|f_equal; key_of "client-disconnect"].
  - unfold env_lines. rewrite map_map.
    assert (forall kv, kv.1 <> "" -> str_forall is_graph kv.1 = true -> trim_set is_quote kv.1 = kv.1 ->
      directiveKey ("setenv " +:+ kv.1 +:+ " " +:+ configValue kv.2) = "setenv " +:+ kv.1) as Hk
      by (intros kv; apply directiveKey_setenv).
    assert (map fst (hook_settings e user group) = hook_names) as <- by done.
    assert (Forall (fun kv => kv.1 <> "" /\ str_forall is_graph kv.1 = true /\ trim_set is_quote kv.1 = kv.1)
      (hook_settings e user group)) as Hall.
    { unfold hook_settings. repeat (apply Forall_cons; split; [split_and!; [discriminate|reflexivity|reflexivity]|]). constructor. }
    rewrite map_map. induction Hall as [|kv l (H1 & H2 & H3) _ IH]; [done|]. cbn [map]. by rewrite IH, Hk.
  - unfold runtime_lines. cbn [map]. f_equal; [key_of "user"|f_equal; key_of "group"].
Qed.

Lemma required_key d tail : d ∈ required_lines e -> directiveKey (d +:+ tail) ∉ owned_keys.
Proof.
  assert (forall w r, w <> "" -> str_forall is_graph w = true -> w <> "setenv" -> w ∉ owned_keys ->
    directiveKey ((w +:+ String " " r) +:+ tail) ∉ owned_keys) as Hw.
  { intros w r H1 H2 H3 H4. rewrite app_assoc_s. change (String " " r +:+ tail) with (String " " (r +:+ tail)).
    by rewrite directiveKey_word. }
  assert (forall w, w ∉ owned_keys <-> bool_decide (w ∉ owned_keys) = true) as Hdec by (intros w; by rewrite bool_decide_eq_true).
  unfold required_lines, hardening. rewrite elem_of_app, !elem_of_cons, !elem_of_nil.
  intros Hd. destruct_or! Hd; subst d.
  - apply (Hw "tls-version-min" "1.3"); [done|done|done|by apply Hdec].
  - apply (Hw "remote-cert-tls" "client"); [done|done|done|by apply Hdec].
  - apply (Hw "management" _); [done|done|done|by apply Hdec].
  - apply (Hw "writepid" _); [done|done|done|by apply Hdec].
  - apply (Hw "script-security" "2"); [done|done|done|by apply Hdec].
  - apply (Hw "status-version" "3"); [done|done|done|by apply Hdec].
  - unfold directiveKey. change ("duplicate-cn" +:+ tail) with (String "d" ("uplicate-cn" +:+ tail)).
    destruct (fields_first "d" ("uplicate-cn" +:+ tail) eq_refl) as (w & rest & ->).
    assert (String "d" w ∉ owned_keys) as Hn.
    { unfold owned_keys. cbn [app map hook_names]. rewrite !elem_of_cons, elem_of_nil. intros H. destruct_or! H; discriminate H. }
    destruct rest; [done|]. by destruct (String.eqb_spec (String "d" w) "setenv").
  - apply (Hw "crl-verify" _); [done|done|done|by apply Hdec].
Qed.
End keys.

(** ** A text that settles *)

Definition tidy (d : string) : Prop := trim_space d = d /\ no_char nl d = true.
(** A user or group name as the file can hold it. *)
Definition name_ok (n : string) : Prop := n <> "" /\ str_forall is_graph n = true /\ trim_set is_quote n = n.

(** The runtime user and group a text stands for. *)
Definition runtime_of (e : environ) (var name fallback : string) (conf : option string) : string :=
  let v := Env e var "" in
  if negb (str_empty v) then v
  else match conf with Some data => default fallback (find_value name (split nl data)) | None => fallback end.
Definition user_of (e : environ) : option string -> string := runtime_of e "RUNTIME_USER" "user" "nobody".
Definition group_of (e : environ) : option string -> string := runtime_of e "RUNTIME_GROUP" "group" "nogroup".

Lemma filter_unique {A} (f : A -> string) l x : NoDup (map f l) -> x ∈ l -> filter (fun y => f y = f x) l = [x].
Proof.
  induction l as [|y l IH]; [by intros _ []%elem_of_nil|]. cbn [map]. intros [Hy Hl]%NoDup_cons Hx. rewrite filter_cons.
  apply elem_of_cons in Hx as [->|Hx].
  - rewrite decide_True by done. f_equal. apply elem_of_nil_inv. intros z [Hz Hin]%list_elem_of_filter. apply Hy. rewrite <- Hz.
    by apply list_elem_of_fmap_2.
  - rewrite decide_False; [by apply IH|]. intros Heq. apply Hy. rewrite Heq. by apply list_elem_of_fmap_2.
Qed.

Lemma filter_nil {A} (P : A -> Prop) `{forall x, Decision (P x)} l : (forall x, x ∈ l -> ~ P x) -> filter P l = [].
Proof. intros Hl. apply elem_of_nil_inv. intros x [Hp Hx]%list_elem_of_filter. by apply (Hl x). Qed.

Lemma find_value_key name ln v : name <> "setenv" -> find_value name [ln] = Some v -> directiveKey ln = name.
Proof.
  intros Hs. unfold directiveKey. simpl. destruct (fields ln) as [|w [|x l]]; [done|done|].
  destruct (String.eqb_spec w name) as [->|]; [|done]. by rewrite (proj2 (String.eqb_neq name "setenv") Hs).
Qed.

(** The value of a directive is looked for among the lines with its key. *)
Lemma find_value_filter name lines : name <> "setenv" ->
  find_value name lines = find_value name (filter (fun ln => directiveKey ln = name) lines).
Proof.
  intros Hs. induction lines as [|ln lines IH]; [done|]. rewrite filter_cons.
  assert (forall ls, find_value name (ln :: ls) = match find_value name [ln] with Some v => Some v | None => find_value name ls end) as Hcons.
  { intros ls. simpl. destruct (fields ln) as [|w [|v l]]; [done|done|]. by destruct (String.eqb w name). }
  rewrite Hcons, IH. case_decide as Hk; [symmetry; apply Hcons|].
  destruct (find_value name [ln]) as [v|] eqn:Hv; [|done]. by apply find_value_key in Hv.
Qed.

Lemma find_value_last w n : w <> "" -> str_forall is_graph w = true -> name_ok n -> find_value w [w +:+ " " +:+ n] = Some n.
Proof.
  intros Hne Hg (Hn & Hng & Hq). cbn [find_value]. unfold fields. change (w +:+ " " +:+ n) with (w +:+ String " " n).
  rewrite (fields_word w n "") by done. rewrite (fields_last n "") by done. rewrite !app_nil_l_s, String.eqb_refl. by rewrite Hq.
Qed.

Section settle.
Context (e : environ) (h : HostId) (user group : string).

(** The text of a settled file: the required directives are there, and each
    owned one once. *)
Record settled (data : string) : Prop := mkSettled {
  st_missing : missing_lines e data = [];
  st_current : hooksAlreadyCurrent data (desired_lines e h user group) = true;
  st_user : user_of e (Some data) = user;
  st_group : group_of e (Some data) = group
}.

Lemma settle (lines : list string) (conf0 : option string) :
  lines <> [] -> Forall (fun ln => no_char nl ln = true) lines ->
  (forall d, d ∈ required_lines e -> d ∈ map trim_space lines) ->
  (forall d, d ∈ desired_lines e h user group -> trim_space d = d /\ filter (fun ln => directiveKey ln = directiveKey d) lines = [d]) ->
  name_ok user -> name_ok group -> user_of e conf0 = user -> group_of e conf0 = group ->
  settled (join (str1 nl) lines +:+ str1 nl).
Proof.
  intros Hne Hnl Hreq Hdes Hu Hg Hu0 Hg0.
  assert (split nl (join (str1 nl) lines +:+ str1 nl) = lines ++ [""]) as Hsplit.
  { change (str1 nl) with (String nl "") at 2. rewrite split_app_gen, split_join by done. done. }
  assert (forall k, k <> "" -> filter (fun ln => directiveKey ln = k) (lines ++ [""]) = filter (fun ln => directiveKey ln = k) lines) as Hf.
  { intros k Hk. rewrite filter_app, (filter_nil _ [""]); [by rewrite app_nil_r|]. intros x ->%list_elem_of_singleton. by intros <-. }
  assert (forall w n, w = "user" \/ w = "group" -> name_ok n -> w +:+ " " +:+ n ∈ desired_lines e h user group ->
    find_value w (lines ++ [""]) = Some n) as Hval.
  { intros w n Hw Hn Hin. assert (w <> "" /\ str_forall is_graph w = true /\ w <> "setenv") as (W1 & W2 & W3) by (by destruct Hw as [-> | ->]).
    rewrite find_value_filter, Hf by done. destruct (Hdes _ Hin) as [_ Hfl].
    change (w +:+ " " +:+ n) with (w +:+ String " " n) in Hfl. rewrite directiveKey_word in Hfl by done. rewrite Hfl.
    by apply (find_value_last w n). }
  split.
  - unfold missing_lines. rewrite Hsplit. apply filter_nil. intros d Hd Hno. apply Hno. rewrite map_app. apply elem_of_app. left. by apply Hreq.
  - unfold hooksAlreadyCurrent. rewrite Hsplit. apply forallb_forall. intros d Hd%list_elem_of_In. destruct (Hdes d Hd) as [Ht Hfl].
    rewrite Hf, Hfl, Ht; [apply String.eqb_refl|]. assert (directiveKey d ∈ owned_keys) as Hk.
    { rewrite <- (desired_keys e h user group). by apply list_elem_of_fmap_2. }
    intros Hbad. rewrite Hbad in Hk. revert Hk. apply (bool_decide_unpack _). reflexivity.
  - revert Hu0. unfold user_of, runtime_of. destruct (negb _); [done|]. intros _. rewrite Hsplit, (Hval "user" user); [done|by left|done|].
    unfold desired_lines, runtime_lines. rewrite !elem_of_app. right. right. left.
  - revert Hg0. unfold group_of, runtime_of. destruct (negb _); [done|]. intros _. rewrite Hsplit, (Hval "group" group); [done|by right|done|].
    unfold desired_lines, runtime_lines. rewrite !elem_of_app. right. right. right. left.
Qed.
End settle.

(** ** Both texts settle *)

(** The settings of the environment print as directives of one line each. *)
Record clean_settings (e : environ) (h : HostId) (user group : string) : Prop := mkClean {
  cs_required : Forall tidy (required_lines e);
  cs_desired : Forall tidy (desired_lines e h user group);
  cs_user : name_ok user;
  cs_group : name_ok group
}.

Section texts.
Context (e : environ) (h : HostId) (user group : string) (Hc : clean_settings e h user group).

Lemma elem_tidy d l : Forall tidy l -> d ∈ l -> trim_space d = d /\ no_char nl d = true.
Proof using Type. clear. intros Hl Hd. by eapply Forall_forall in Hl. Qed.

Lemma required_alone d : d ∈ required_lines e -> directiveKey d ∉ owned_keys.
Proof using Type. clear. intros Hd. pose proof (required_key e d "" Hd) as H. by rewrite app_nil_r_s in H. Qed.

Lemma desired_owned d : d ∈ desired_lines e h user group -> directiveKey d ∈ owned_keys.
Proof using Type. clear. intros Hd. rewrite <- (desired_keys e h user group). by apply list_elem_of_fmap_2. Qed.

(** Lines of other keys do not count. *)
Lemma filter_foreign k l : k ∈ owned_keys -> (forall x, x ∈ l -> directiveKey x ∉ owned_keys) ->
  filter (fun ln => directiveKey ln = k) l = [].
Proof using Type. clear. intros Hk Hl. apply filter_nil. intros x Hx Heq. apply (Hl x Hx). by rewrite Heq. Qed.

(** The lines of a fresh file that the node does not own. *)
Definition foreign (x : string) : Prop := directiveKey x ∉ owned_keys.

Lemma foreign_word w r : w <> "" -> str_forall is_graph w = true -> w <> "setenv" -> bool_decide (w ∉ owned_keys) = true ->
  foreign (w +:+ String " " r).
Proof using Type. clear. intros H1 H2 H3 H4%bool_decide_eq_true. unfold foreign. by rewrite directiveKey_word. Qed.

Lemma foreign_plain x : bool_decide (directiveKey x ∉ owned_keys) = true -> foreign x.
Proof using Type. clear. by intros H%bool_decide_eq_true. Qed.

Lemma all_foreign l : Forall foreign l -> forall x, x ∈ l -> foreign x.
Proof using Type. clear. intros H. by apply Forall_forall. Qed.

Ltac word w := exact (foreign_word w _ ltac:(discriminate) eq_refl ltac:(discriminate) eq_refl).
Ltac foreign_list := repeat (apply Forall_cons; split); [..|apply Forall_nil; exact I].

Lemma foreign_all dns v6 :
  (forall x, x ∈ network_lines e dns v6 ++ tls_lines e -> foreign x) /\
  (forall x, x ∈ ["persist-key"; "persist-tun"; "script-security 2"] -> foreign x) /\
  (forall x, x ∈ path_lines e -> foreign x) /\ (forall x, x ∈ last_lines e -> foreign x).
Proof using Type.
  clear. split_and!; apply all_foreign; unfold network_lines; rewrite ?Forall_app; split_and?.
  - foreign_list; [word "port"|word "proto"|word "dev"|word "topology"|word "server"|word "ifconfig-pool-persist"|word "push"].
  - apply Forall_map, Forall_forall. intros s _. word "push".
  - foreign_list. word "push".
  - destruct (v6.1); [|constructor]. foreign_list; [by apply foreign_plain|word "server-ipv6"|word "push"].
  - foreign_list; [word "keepalive"|word "ca"|word "cert"|word "key"|word "dh"|word "tls-crypt"|word "tls-version-min"|
      word "remote-cert-tls"|word "data-ciphers"|word "data-ciphers-fallback"|word "auth"|word "mssfix"|word "tun-mtu"|
      word "sndbuf"|word "rcvbuf"|word "allow-compression"].
  - foreign_list; by apply foreign_plain.
  - foreign_list; [word "client-config-dir"|word "crl-verify"|word "status"|word "status-version"|word "management"|
      word "writepid"|word "log-append"|word "cd"].
  - foreign_list; [word "max-clients"|word "explicit-exit-notify"|by apply foreign_plain].
Qed.

Lemma updated_settles data : user_of e (Some data) = user -> group_of e (Some data) = group ->
  settled e h user group (updated_conf e h data user group).
Proof.
  intros Hu Hg. destruct Hc as [Hr Hd Hnu Hng]. unfold updated_conf. rewrite desired_keys.
  assert (forall d, d ∈ missing_lines e data -> d ∈ required_lines e) as Hm by (by intros d [_ ?]%list_elem_of_filter).
  apply (settle e h user group _ (Some data)); try done.
  - intros Hnil. apply (f_equal length) in Hnil. rewrite !length_app in Hnil. simpl in Hnil. lia.
  - rewrite !Forall_app. split_and!; apply Forall_forall; intros x Hx.
    + apply list_elem_of_filter in Hx as [_ Hx]. pose proof (split_no_char nl data) as H. by eapply Forall_forall in H.
    + by apply (elem_tidy x _ Hd).
    + by apply (elem_tidy x _ Hr), Hm.
  - intros d Hin. rewrite !map_app, !elem_of_app. destruct (decide (d ∈ map trim_space (split nl data))) as [Hex|Hex].
    + left. apply list_elem_of_fmap in Hex as (ln & Heq & Hln). rewrite Heq. apply list_elem_of_fmap_2.
      apply list_elem_of_filter. split; [|done]. destruct (fields_of_trimmed ln d) as [tail Ht]; [done|].
      unfold directiveKey. rewrite Ht. by apply (required_key e d tail).
    + right. right. rewrite <- (proj1 (elem_tidy d _ Hr Hin)). apply list_elem_of_fmap_2. apply list_elem_of_filter. by split.
  - intros d Hin. split; [by apply (elem_tidy d _ Hd)|]. pose proof (desired_owned d Hin) as Hk.
    rewrite !filter_app, (filter_foreign _ (missing_lines e data)), app_nil_r; [|done|intros x Hx; by apply required_alone, Hm].
    rewrite filter_foreign, app_nil_l; [|done|by intros x [? _]%list_elem_of_filter].
    apply (filter_unique directiveKey); [|done]. rewrite desired_keys. apply owned_keys_nodup.
Qed.

Lemma fresh_settles dns v6 : user_of e None = user -> group_of e None = group ->
  Forall (fun ln => no_char nl ln = true) (fresh_lines e h dns v6 user group) ->
  settled e h user group (join (str1 nl) (fresh_lines e h dns v6 user group) +:+ str1 nl).
Proof.
  intros Hu Hg Hnl. destruct Hc as [Hr Hd Hnu Hng]. apply (settle e h user group _ None); try done.
  - intros d Hin. rewrite <- (proj1 (elem_tidy d _ Hr Hin)). apply list_elem_of_fmap_2. revert Hin.
    unfold required_lines, fresh_lines, path_lines, last_lines. rewrite !elem_of_app, !elem_of_cons, elem_of_nil. tauto.
  - intros d Hin. split; [by apply (elem_tidy d _ Hd)|]. pose proof (desired_owned d Hin) as Hk.
    destruct (foreign_all dns v6) as (F1 & F2 & F3 & F4). unfold fresh_lines. rewrite (filter_app _ (network_lines e dns v6 ++ tls_lines e)).
    rewrite (filter_foreign _ _ Hk F1), (filter_app _ (runtime_lines user group ++ env_lines e user group)),
      (filter_app _ ["persist-key"; "persist-tun"; "script-security 2"]), (filter_foreign _ _ Hk F2),
      (filter_app _ (hookLines e h)), (filter_app _ (path_lines e)), (filter_foreign _ _ Hk F3),
      (filter_app _ (hardening e)), (filter_foreign _ (hardening e) Hk), (filter_foreign _ _ Hk F4);
      [|intros x Hx; apply required_alone; unfold required_lines; apply elem_of_app; by left].
    rewrite !app_nil_l, !app_nil_r, <- !filter_app. apply (filter_unique directiveKey).
    + assert ((runtime_lines user group ++ env_lines e user group) ++ hookLines e h ≡ₚ desired_lines e h user group) as Hp
        by (unfold desired_lines; solve_Permutation).
      rewrite Hp, desired_keys. apply owned_keys_nodup.
    + revert Hin. unfold desired_lines. rewrite !elem_of_app. tauto.
Qed.
End texts.

(** ** The runs *)

Lemma runtime_run e w : w_fault w (OpRead settingFile) = false ->
  RuntimeUser e w = (inr (user_of e (w_files w !! settingFile)), w) /\
  RuntimeGroup e w = (inr (group_of e (w_files w !! settingFile)), w).
Proof.
  intros Hf. unfold RuntimeUser, RuntimeGroup, user_of, group_of, runtime_of, runtimeDirective.
  split; (destruct (negb _); [done|]); rewrite bind_run, try_run, read_file_run by done; by destruct (w_files w !! settingFile).
Qed.

(** The group of the agent can be resolved. *)
Definition group_known (h : HostId) (name : string) : bool :=
  negb (hi_root h) || match parse_uint name with Some n => (n <? 4294967296)%Z | None => false end || hi_group h name.

Section password.
Context (e : environ) (h : HostId) (passFile : loc).
Context (Hpass : passFile ∉ [settingFile; DNSStatePath; IPv6StatePath]) (Hparent : forall w, parent_ok w passFile = true).

(** Only the password file changes. *)
Definition only_pass : World -> World -> Prop := frames (eq passFile).

Lemma only_pass_file l w w' : l ∈ [settingFile; DNSStatePath; IPv6StatePath] -> only_pass w w' -> w_files w' !! l = w_files w !! l.
Proof using Hpass. intros Hl [_ F]. apply F. intros <-. by apply Hpass. Qed.

Lemma only_pass_conf w w' : only_pass w w' -> w_files w' !! settingFile = w_files w !! settingFile.
Proof using Hpass. apply only_pass_file. left. Qed.

Lemma only_pass_faultless w w' : only_pass w w' -> faultless w -> faultless w'.
Proof using Type. clear. intros [[_ Hft] _] Hf op. rewrite Hft. apply Hf. Qed.

Lemma pass_run w : faultless w ->
  exists w1, EnsureMgmtPassword e h passFile w =
    (inr (if group_known h (group_of e (w_files w !! settingFile)) then MgmtPassFile e else ""), w1) /\ only_pass w w1.
Proof.
  intros Hf. unfold EnsureMgmtPassword. rewrite bind_run.
  assert (forall data v, faultless v -> exists v1, provide_password e passFile data v = (inr (MgmtPassFile e), v1) /\ only_pass v v1) as Hprov.
  { intros data v Hv. assert (evolves (frames (eq passFile)) (provide_password e passFile data)) as He
      by (unfold provide_password, randomHex; evolve_solve).
    specialize (He v). unfold provide_password in *. rewrite bind_run in *. destruct (str_empty (trim_space data)).
    - rewrite try_run in *. destruct ((mkdir "mgmt-pass" ;; p <- randomHex ;; WriteFileAtomic passFile (p +:+ str1 nl)) v) as [r v1] eqn:Hr.
      assert (r = inr tt /\ faultless v1) as [-> Hv1].
      { rewrite bind_run in Hr. unfold mkdir in Hr. rewrite Hv in Hr. unfold randomHex in Hr. rewrite !bind_run in Hr.
        unfold entropy in Hr. destruct (w_gens v); cbn in Hr; unfold WriteFileAtomic in Hr; simpl in Hr; rewrite Hv, Hparent in Hr;
          injection Hr as <- <-; by split. }
      cbn [fst snd] in *. rewrite bind_run, try_run in *. unfold SetPermissions in *. rewrite Hv1 in *. eexists. by split.
    - cbn [mret M_ret] in *. rewrite bind_run, try_run in *. unfold SetPermissions in *. rewrite Hv in *. eexists. by split. }
  assert ((if hi_root h then try (RuntimeGroupID e h) else mret (inr tt)) w =
    (inr (if group_known h (group_of e (w_files w !! settingFile)) then inr tt
          else inl (Errorf ("runtime group " +:+ group_of e (w_files w !! settingFile)))), w)) as ->.
  { unfold group_known. destruct (hi_root h); [|done]. rewrite try_run. unfold RuntimeGroupID. rewrite bind_run.
    rewrite (proj2 (runtime_run e w (Hf _))). cbn [negb orb]. destruct (match parse_uint _ with Some _ => _ | None => _ end); [done|].
    by destruct (hi_group h _). }
  destruct (group_known h _); [|by exists w]. rewrite bind_run, try_run. rewrite read_file_run by done.
  destruct (w_files w !! passFile); cbn [fst snd IsNotExist]; by apply Hprov.
Qed.

Lemma hook_env_run w : faultless w -> exists envs w1, HookEnvDirectives e w = (inr envs, w1) /\ only_pass w w1.
Proof using Hpass.
  intros Hf. unfold HookEnvDirectives. rewrite bind_run.
  assert (exists w1, for_each Event (HookFromEnv e).2 w = (inr tt, w1) /\ only_pass w w1) as (w1 & -> & H1).
  { destruct (answers_evolves (frames (eq passFile)) (for_each Event (HookFromEnv e).2) w) as ([] & w1 & H); [| |by exists w1].
    - apply answers_for_each. intros b v. eexists _, _. reflexivity.
    - evolve_solve. }
  destruct (runtime_run e w1 (only_pass_faultless _ _ H1 Hf _)) as [Hu Hg].
  rewrite bind_run, Hu, bind_run, Hg. by eexists _, w1.
Qed.

Lemma hardening_run w : faultless w -> exists w1, HardeningDirectives e h passFile w = (inr (hardening e), w1) /\ only_pass w w1.
Proof.
  intros Hf. unfold HardeningDirectives. destruct (pass_run w Hf) as (w1 & Hr & H1). rewrite bind_run, Hr. by exists w1.
Qed.

Lemma effective_ext w w' : w_fault w' = w_fault w -> w_files w' !! DNSStatePath = w_files w !! DNSStatePath ->
  w_files w' !! IPv6StatePath = w_files w !! IPv6StatePath ->
  (forall a b, DNSEffective a b w' = ((DNSEffective a b w).1, w')) /\ ipv6Effective e w' = ((ipv6Effective e w).1, w').
Proof using Type.
  clear. intros Hft H1 H2. unfold DNSEffective, ReadDNSState, ipv6Effective.
  split; [intros a b|]; rewrite !bind_run, !try_run; unfold read_file; rewrite Hft, ?H1, ?H2.
  - destruct (w_fault w _); [done|]. by destruct (w_files w !! DNSStatePath).
  - destruct (w_fault w _); [done|]. by destruct (w_files w !! IPv6StatePath).
Qed.

(** The values a fresh file is made from. *)
Definition fresh_values (w : World) (dns : list string) (v6 : bool * string) : Prop :=
  (DNSEffective (VPNDNS e).1 (VPNDNS e).2 w).1 = inr dns /\ (ipv6Effective e w).1 = inr v6.

Lemma fresh_values_exist w : exists dns v6, fresh_values w dns v6.
Proof using Type.
  clear. unfold fresh_values, DNSEffective, ReadDNSState, ipv6Effective. rewrite !bind_run, !try_run.
  destruct (read_file DNSStatePath w) as [[] ?], (read_file IPv6StatePath w) as [[] ?]; eexists _, _; split; reflexivity.
Qed.

Lemma fresh_run w dns v6 : faultless w -> MgmtPassFile e <> "" ->
  group_known h (group_of e (w_files w !! settingFile)) = true -> fresh_values w dns v6 ->
  exists w1, FreshServerConf e h passFile w =
    (inr (join (str1 nl) (fresh_lines e h dns v6 (user_of e (w_files w !! settingFile)) (group_of e (w_files w !! settingFile)))
          +:+ str1 nl), w1) /\ only_pass w w1.
Proof.
  intros Hf Hne Hk [Hd Hv]. unfold FreshServerConf. destruct (pass_run w Hf) as (w1 & Hr & H1). rewrite Hk in Hr.
  rewrite bind_run, Hr. destruct (str_empty (MgmtPassFile e)) eqn:He; [by apply str_empty_true in He|].
  destruct (effective_ext w w1) as [Ed Ev]; [by destruct H1 as [[_ ?] _]|apply only_pass_file; [set_solver|done]..|].
  destruct (VPNDNS e) as [a b] eqn:Hab. cbn [fst snd] in *. rewrite bind_run, Ed, Hd.
  destruct (runtime_run e w1 (only_pass_faultless _ _ H1 Hf _)) as [Hu Hg]. rewrite (only_pass_conf _ _ H1) in Hu, Hg.
  rewrite bind_run, Hu, bind_run, Hg, bind_run, Ev, Hv, bind_run.
  destruct (hook_env_run w1 (only_pass_faultless _ _ H1 Hf)) as (envs & w2 & -> & H2). rewrite bind_run.
  pose proof (only_pass_faultless _ _ H1 Hf) as Hf1. pose proof (only_pass_faultless _ _ H2 Hf1) as Hf2.
  destruct (hardening_run w2 Hf2) as (w3 & -> & H3). eexists. split; [done|]. unfold only_pass in *. etrans; [exact H1|by etrans].
Qed.
End password.

Section ensure.
Context (e : environ) (h : HostId) (passFile : loc).
Context (Hpass : passFile ∉ [settingFile; DNSStatePath; IPv6StatePath]) (Hparent : forall w, parent_ok w passFile = true).
Context (Hpath : MgmtPassFile e <> "").
Let conf (w : World) : option string := w_files w !! settingFile.
Let user (w : World) : string := user_of e (conf w).
Let group (w : World) : string := group_of e (conf w).

Definition is_current (data user group : string) : bool :=
  bool_decide (missing_lines e data = []) && hooksAlreadyCurrent data (desired_lines e h user group).

(** The file a run leaves, by the file it found. *)
Definition conf_after (w : World) (b : bool) (after : option string) : Prop :=
  match conf w with
  | None => b = true /\ exists dns v6, fresh_values e w dns v6 /\
      after = Some (join (str1 nl) (fresh_lines e h dns v6 (user w) (group w)) +:+ str1 nl)
  | Some data =>
      if is_current data (user w) (group w) then b = false /\ after = Some data
      else b = true /\ after = Some (updated_conf e h data (user w) (group w))
  end.

Lemma ensure_run w : faultless w -> group_known h (group w) = true ->
  exists b w1, ensureServerConf e h passFile w = (inr b, w1) /\ faultless w1 /\ conf_after w b (conf w1).
Proof.
  intros Hf Hk. unfold ensureServerConf. destruct (pass_run e h passFile Hpass Hparent w Hf) as (w1 & Hr & H1).
  fold (conf w) (group w) in Hr. rewrite Hk in Hr. rewrite bind_run, Hr.
  destruct (str_empty (MgmtPassFile e)) eqn:He; [by apply str_empty_true in He|].
  pose proof (only_pass_faultless passFile _ _ H1 Hf) as Hf1. pose proof (only_pass_conf passFile Hpass _ _ H1) as Hc1.
  rewrite bind_run. assert (present_file settingFile w1 = (inr (bool_decide (is_Some (conf w))), w1)) as ->.
  { unfold present_file, lstat_file. rewrite bind_run, try_run. rewrite Hf1, Hc1. fold (conf w). by destruct (bool_decide _). }
  unfold conf_after, user, group. destruct (conf w) as [data|] eqn:Hc; cycle 1.
  - rewrite bool_decide_eq_false_2 by (by intros []). cbn [negb]. rewrite bind_run.
    destruct (fresh_values_exist e w) as (dns & v6 & Hv).
    destruct (fresh_run e h passFile Hpass Hparent w1 dns v6 Hf1 Hpath) as (w2 & Hfr & H2).
    { rewrite Hc1. fold (conf w). rewrite Hc. unfold group in Hk. by rewrite Hc in Hk. }
    { destruct Hv as [Hd Hv]. unfold fresh_values.
      destruct (effective_ext e w w1) as [Ed Ev]; [by destruct H1 as [[_ ?] _]|apply (only_pass_file passFile Hpass); [set_solver|done]..|].
      by rewrite Ed, Ev. }
    rewrite Hc1 in Hfr. fold (conf w) in Hfr. rewrite Hc in Hfr. rewrite Hfr.
    pose proof (only_pass_faultless passFile _ _ H2 Hf1) as Hf2.
    destruct (str_empty (_ +:+ str1 nl)) eqn:Hemp; [apply str_empty_true in Hemp; by destruct (join _ _)|].
    rewrite bind_run. unfold WriteFileAtomic. rewrite Hf2. cbn [parent_ok settingFile]. eexists _, _. split; [done|]. split; [done|].
    split; [done|]. exists dns, v6. split; [done|]. unfold conf. cbn [w_files set_files]. by rewrite lookup_insert_eq.
  - rewrite bool_decide_eq_true_2 by eauto. cbn [negb]. rewrite bind_run, read_file_run by apply Hf1.
    fold (conf w1). replace (conf w1) with (Some data) by (unfold conf in *; congruence).
    destruct (hardening_run e h passFile Hpass Hparent w1 Hf1) as (w2 & Hr2 & H2). rewrite bind_run, Hr2.
    pose proof (only_pass_faultless passFile _ _ H2 Hf1) as Hf2.
    assert (w_files w2 !! settingFile = Some data) as Hc2 by (rewrite (only_pass_conf passFile Hpass _ _ H2), Hc1; done).
    destruct (runtime_run e w2 (Hf2 _)) as [Hu Hg]. rewrite Hc2 in Hu, Hg. rewrite bind_run, Hu, bind_run, Hg.
    destruct (hook_env_run e passFile Hpass w2 Hf2) as (envs & w3 & Hr3 & H3). rewrite bind_run, Hr3.
    pose proof (only_pass_faultless passFile _ _ H3 Hf2) as Hf3.
    fold (is_current data (user_of e (Some data)) (group_of e (Some data))).
    destruct (is_current data _ _).
    + eexists _, w3. split; [done|]. split; [done|]. split; [done|]. unfold conf. by rewrite (only_pass_conf passFile Hpass _ _ H3).
    + destruct (hook_env_run e passFile Hpass w3 Hf3) as (envs2 & w4 & Hr4 & H4). rewrite bind_run, Hr4.
      pose proof (only_pass_faultless passFile _ _ H4 Hf3) as Hf4. rewrite bind_run. unfold WriteFileAtomic. rewrite Hf4.
      cbn [parent_ok settingFile]. eexists _, _. split; [done|]. split; [done|]. split; [done|]. unfold conf. cbn [w_files set_files].
      by rewrite lookup_insert_eq.
Qed.
End ensure.

(** The text a run leaves is settled. *)
Lemma conf_after_settled e h w b after :
  let user := user_of e (w_files w !! settingFile) in
  let group := group_of e (w_files w !! settingFile) in
  clean_settings e h user group ->
  (w_files w !! settingFile = None -> forall dns v6, fresh_values e w dns v6 ->
     Forall (fun ln => no_char nl ln = true) (fresh_lines e h dns v6 user group)) ->
  conf_after e h w b after -> exists data, after = Some data /\ settled e h user group data.
Proof.
  intros user group Hc Hfresh. unfold conf_after. fold user group. destruct (w_files w !! settingFile) as [data|] eqn:Hd.
  - destruct (is_current e h data user group) eqn:Hcur.
    + intros [_ ->]. exists data. split; [done|]. apply andb_prop in Hcur as [Hm%bool_decide_eq_true Hk]. by split.
    + intros [_ ->]. eexists. split; [done|]. by apply updated_settles.
  - intros [_ (dns & v6 & Hv & ->)]. eexists. split; [done|]. apply fresh_settles; try done. by apply Hfresh.
Qed.

(** C22: where no file operation fails, the group of the agent is known and the
    settings print as one-line directives, keeping server.conf ends: the first
    run succeeds, whether the file was there or not, and a second one finds
    nothing to change. *)
Theorem server_conf_settles e h passFile w :
  let user := user_of e (w_files w !! settingFile) in
  let group := group_of e (w_files w !! settingFile) in
  (passFile ∉ [settingFile; DNSStatePath; IPv6StatePath]) -> (forall v, parent_ok v passFile = true) -> MgmtPassFile e <> "" ->
  faultless w -> group_known h group = true -> clean_settings e h user group ->
  (w_files w !! settingFile = None -> forall dns v6, fresh_values e w dns v6 ->
     Forall (fun ln => no_char nl ln = true) (fresh_lines e h dns v6 user group)) ->
  exists b w1 w2, ensureServerConf e h passFile w = (inr b, w1) /\ ensureServerConf e h passFile w1 = (inr false, w2) /\
    w_files w2 !! settingFile = w_files w1 !! settingFile.
Proof.
  intros user group Hp Hpar Hpath Hf Hk Hc Hfresh.
  destruct (ensure_run e h passFile Hp Hpar Hpath w Hf Hk) as (b & w1 & Hr1 & Hf1 & Ha1).
  destruct (conf_after_settled e h w b _ Hc Hfresh Ha1) as (data & Hd & [Hm Hcur Hu Hg]).
  destruct (ensure_run e h passFile Hp Hpar Hpath w1 Hf1) as (b2 & w2 & Hr2 & _ & Ha2); [by rewrite Hd, Hg|].
  unfold conf_after in Ha2. rewrite Hd, Hu, Hg in Ha2.
  unfold is_current in Ha2. rewrite Hcur, bool_decide_eq_true_2 in Ha2 by done. cbn [andb] in Ha2. destruct Ha2 as [-> Ha2]. exists b, w1, w2. rewrite Hd. by split_and!.
Qed.

(** An existing file keeps every line the node does not own, in its order,
    and gets no other line than the directives of the node, the missing
    required ones and a final line break; a file that is current is left
    alone. *)
Theorem operator_lines_are_kept e h passFile w data :
  let user := user_of e (Some data) in
  let group := group_of e (Some data) in
  (passFile ∉ [settingFile; DNSStatePath; IPv6StatePath]) -> (forall v, parent_ok v passFile = true) -> MgmtPassFile e <> "" ->
  faultless w -> group_known h group = true -> clean_settings e h user group -> w_files w !! settingFile = Some data ->
  exists b w1 after, ensureServerConf e h passFile w = (inr b, w1) /\ w_files w1 !! settingFile = Some after /\
    (b = false -> after = data) /\
    (b = true -> exists added, (forall d, d ∈ added -> d ∈ required_lines e /\ (d ∉ map trim_space (split nl data))) /\
       split nl after = filter (fun l => directiveKey l ∉ owned_keys) (split nl data) ++ desired_lines e h user group ++ added ++ [""]).
Proof.
  intros user group Hp Hpar Hpath Hf Hk Hc Hd.
  destruct (ensure_run e h passFile Hp Hpar Hpath w Hf) as (b & w1 & Hr1 & Hf1 & Ha1); [by rewrite Hd|].
  unfold conf_after in Ha1. rewrite Hd in Ha1. fold user group in Ha1. destruct (is_current e h data user group).
  - destruct Ha1 as [-> Ha1]. exists false, w1, data. by split_and!.
  - destruct Ha1 as [-> Ha1]. exists true, w1, (updated_conf e h data user group). split; [done|]. split; [done|]. split; [done|].
    intros _. exists (missing_lines e data). split; [by intros d [? ?]%list_elem_of_filter|].
    destruct Hc as [Hr Hdes _ _]. unfold updated_conf. rewrite desired_keys.
    change (str1 nl) with (String nl "") at 2. rewrite split_app_gen, split_join.
    + by rewrite <- !app_assoc.
    + intros Hnil. apply (f_equal length) in Hnil. rewrite !length_app in Hnil. simpl in Hnil. lia.
    + rewrite !Forall_app. split_and!; apply Forall_forall; intros x Hx.
      * apply list_elem_of_filter in Hx as [_ Hx]. pose proof (split_no_char nl data) as H. by eapply Forall_forall in H.
      * by apply (elem_tidy x _ Hdes).
      * apply (elem_tidy x _ Hr). by apply list_elem_of_filter in Hx as [_ Hx].
Qed.

(** ** Concrete runs *)

Definition plain_env : environ := mkEnviron ∅ ∅.
Definition plain_host : HostId := mkHostId false (fun _ => false) None.
Definition old_conf : string := join (str1 nl) ["port 1194"; "user ovpn"; "group ovpn"; "push " +:+ quoted "route 10.0.0.0 255.0.0.0"; ""].
Definition conf_world (conf : option string) : World :=
  mkWorld (match conf with Some d => {[settingFile := d]} | None => ∅ end) true ∅ [] [] 0 0 ["k"]
    (newCache nameCacheTTL) (newCache usageCacheTTL) (fun _ => false).

Lemma plain_clean user group : (user = "ovpn" /\ group = "ovpn") \/ (user = "nobody" /\ group = "nogroup") ->
  clean_settings plain_env plain_host user group.
Proof.
  intros H. split; destruct H as [[-> ->]|[-> ->]]; try (split_and!; vm_compute; congruence);
    apply Forall_forall; intros d Hd; apply list_elem_of_In in Hd; vm_compute in Hd;
    repeat (destruct Hd as [<-|Hd]; [split; vm_compute; reflexivity|]); destruct Hd.
Qed.

Lemma plain_pass : (LConf "mgmt-pass" ∉ [settingFile; DNSStatePath; IPv6StatePath]) /\ forall v, parent_ok v (LConf "mgmt-pass") = true.
Proof. split; [|done]. rewrite !not_elem_of_cons. split_and!; try discriminate. apply not_elem_of_nil. Qed.

Lemma server_conf_settles_witness :
  exists b w1 w2, ensureServerConf plain_env plain_host (LConf "mgmt-pass") (conf_world (Some old_conf)) = (inr b, w1) /\
    ensureServerConf plain_env plain_host (LConf "mgmt-pass") w1 = (inr false, w2).
Proof.
  destruct (server_conf_settles plain_env plain_host (LConf "mgmt-pass") (conf_world (Some old_conf)))
    as (b & w1 & w2 & H1 & H2 & _).
  - apply plain_pass.
  - apply plain_pass.
  - vm_compute. discriminate.
  - intros op. reflexivity.
  - reflexivity.
  - apply plain_clean. left. split; vm_compute; reflexivity.
  - intros H. discriminate H.
  - exists b, w1, w2. split; [exact H1|exact H2].
Defined.

Lemma operator_lines_are_kept_witness :
  exists after, w_files (ensureServerConf plain_env plain_host (LConf "mgmt-pass") (conf_world (Some old_conf))).2 !! settingFile = Some after /\
    exists rest, split nl after = ["port 1194"; "push " +:+ quoted "route 10.0.0.0 255.0.0.0"; ""] ++ rest.
Proof.
  destruct (operator_lines_are_kept plain_env plain_host (LConf "mgmt-pass") (conf_world (Some old_conf)) old_conf)
    as (b & w1 & after & H1 & H2 & _ & H3).
  - apply plain_pass.
  - apply plain_pass.
  - vm_compute. discriminate.
  - intros op. reflexivity.
  - reflexivity.
  - apply plain_clean. left. split; vm_compute; reflexivity.
  - reflexivity.
  - assert ((ensureServerConf plain_env plain_host (LConf "mgmt-pass") (conf_world (Some old_conf))).1 = inr true) as Hb
      by (vm_compute; reflexivity).
    rewrite H1 in Hb |- *. injection Hb as ->. destruct (H3 eq_refl) as (added & _ & Hs). exists after. split; [exact H2|].
    eexists. rewrite Hs. vm_compute. reflexivity.
Defined.

(** The two readers of the IPv6 state differ on a blank switch: this one takes
    it for off, the one of internal/policy for the default. *)
Lemma ipv6_readers_differ :
  let e := mkEnviron ∅ {["OVNODE_ENABLE_IPV6" := "1"]} in
  let w := set_files {[IPv6StatePath := "enabled="]} (conf_world None) in
  (ipv6Effective e w).1 = inr (false, IPv6Prefix e) /\
  (IPv6Effective (IPv6Enabled e) (IPv6Prefix e) w).1 = inr (true, IPv6Prefix e).
Proof. vm_compute. split; reflexivity. Qed.
