(* ===== verification/Updater.v ===== *)
(** * Updater: internal/updater/updater.go.

    The self-update of the agent: the checks before install.sh runs, the lock
    and the status file around the run, and the answer to the status poll.
    What stat says of the script and whether the shell starts are answers of
    the host. *)

From S2P Require Import Prelude GoString Cache World Evolve Config Float Events ServerConf.
From Stdlib Require Import Ascii.

Definition lockName : string := ".update.lock".
Definition statusName : string := ".update-status".

(** ** Versions *)

(** The bytes of a part are digits; a rune outside ASCII is none. *)
Definition validVersion (v : string) : bool :=
  let parts := split "." v in
  (length parts =? 3)%nat && forallb (fun p => negb (str_empty p) && str_forall is_digit p) parts.
Definition ValidVersion (v : string) : bool := validVersion v.

(** ** A run of the installer *)

Record Job : Type := mkJob { jb_args : list string; jb_dir : string; jb_env : list string }.

(** What the host says of install.sh: the mode bits and the owner. *)
Record FileInfo : Type := mkInfo { fi_mode : Z; fi_uid : option Z }.

(** Who has the lock of the update, the file lock of this process or of another
    one. *)
Inductive holder : Type := Mine (j : Job) | Another.

Definition job (appDir version : string) : Job :=
  mkJob ["bash"; Join [appDir; "install.sh"]; "update"] appDir
    (["PATH=/usr/local/sbin:/usr/local/bin:/usr/sbin:/usr/bin:/sbin:/bin"; "HOME=/root";
      "APP_DIR=" +:+ appDir; "OVN_APP_DIR=" +:+ appDir] ++
     (if str_empty version then [] else ["OVN_VERSION=" +:+ version])).

Definition lock_file (appDir : string) : loc := LAbs (Join [appDir; lockName]).
Definition marker_file (appDir : string) : loc := LAbs (Join [appDir; statusName]).

(** [os.OpenFile] of the lock, creating it. *)
Definition open_lock (l : loc) : M unit := fun w =>
  if w_fault w (OpLock l) then (inl ErrIO, w)
  else (inr tt, set_files (lock_files l (w_files w)) w).

Section updater.
(** [os.Stat] of a file outside the node's trees, whether the agent is root,
    whether the command starts, and what a failed write leaves of the text. *)
Context (stat : string -> goerr + FileInfo) (root starts : bool) (torn : string -> option string).

(** [_ = os.WriteFile(marker, ...)]. *)
Definition set_status (appDir status : string) : M unit :=
  ignore (WriteFile torn (marker_file appDir) (status +:+ str1 nl)).

Definition check_installer (installer : string) : option goerr :=
  match stat installer with
  | inl e => Some e
  | inr info =>
      if negb (Z.land (fi_mode info) 18 =? 0)%Z
      then Some (Errorf "install.sh is group/world-writable: refusing update")
      else if root && negb (bool_decide (fi_uid info = Some 0%Z))
      then Some (Errorf "install.sh is not root-owned: refusing update")
      else None
  end.

(** The new holder of the lock, or why no update started. *)
Definition TriggerUpdate (appDir version : string) (held : option holder) : M ((goerr + unit) * option holder) :=
  if negb (str_empty version) && negb (validVersion version)
  then mret (inl (Errorf ("invalid target version " +:+ Quote version)), held)
  else
    match check_installer (Join [appDir; "install.sh"]) with
    | Some e => mret (inl e, held)
    | None =>
        r <- try (open_lock (lock_file appDir)) ;;
        match r with
        | inl e => mret (inl e, held)
        | inr _ =>
            match held with
            | Some _ => mret (inl (Errorf "update already running"), held)
            | None =>
                set_status appDir "running" ;;
                if starts then mret (inr tt, Some (Mine (job appDir version)))
                else set_status appDir "failed" ;; mret (inl ErrIO, None)
            end
        end
    end.

(** The end of the run, as the goroutine sees it. *)
Definition finish (appDir : string) (ok : bool) (held : option holder) : M (option holder) :=
  match held with
  | Some (Mine _) => set_status appDir (if ok then "completed" else "failed") ;; mret None
  | _ => mret held
  end.
End updater.

Definition UpdateStatus (appDir : string) (held : option holder) : M string :=
  r <- try (read_file (marker_file appDir)) ;;
  match r with
  | inl _ => mret "idle"
  | inr data =>
      let status := trim_space data in
      if String.eqb status "running" then
        f <- try (read_file (lock_file appDir)) ;;
        mret (match f with
              | inl _ => "running"
              | inr _ => match held with Some _ => "running" | None => "interrupted" end
              end)
      else mret (str_take 32 status)
  end.
