(* ===== verification/UpdaterProps.v ===== *)
(** * UpdaterProps: the updates of a node refine a machine of five phases. *)

From S2P Require Import Prelude GoString Cache World Evolve Config Migrate Events ServerConf Updater.
From Stdlib Require Import Ascii.

#[local] Set Default Proof Using "Type*".

(** ** The specification *)

Inductive phase : Type := Idle | Running | Completed | Failed | Interrupted.

Definition phase_name (p : phase) : string :=
  match p with
  | Idle => "idle" | Running => "running" | Completed => "completed" | Failed => "failed" | Interrupted => "interrupted"
  end.

(** What happens to the updates of a node: the panel asks for one, the
    installer ends, the agent is restarted, or anything else. *)
Inductive up_event : Type :=
| EvTrigger (stat : string -> goerr + FileInfo) (root starts : bool) (version : string)
| EvDone (ok : bool)
| EvRestart
| EvElse.

Definition startable (appDir : string) (stat : string -> goerr + FileInfo) (root : bool) (version : string) : bool :=
  (str_empty version || validVersion version) &&
  match check_installer stat root (Join [appDir; "install.sh"]) with None => true | Some _ => false end.

Definition next_phase (appDir : string) (p : phase) (ev : up_event) : phase :=
  match ev, p with
  | EvTrigger _ _ _ _, Running => Running
  | EvTrigger stat root starts version, _ =>
      if startable appDir stat root version then if starts then Running else Failed else p
  | EvDone ok, Running => if ok then Completed else Failed
  | EvRestart, Running => Interrupted
  | _, _ => p
  end.

(** ** The node *)

(** No write of the status fails. *)
Definition untorn (_ : string) : option string := None.

(** The restarted agent has no lock; other work leaves the two files. *)
Inductive up_step (appDir : string) : World * option holder -> up_event -> World * option holder -> Prop :=
| StepTrigger stat root starts version w held r held' w' :
    TriggerUpdate stat root starts untorn appDir version held w = (inr (r, held'), w') ->
    up_step appDir (w, held) (EvTrigger stat root starts version) (w', held')
| StepDone ok w held held' w' :
    finish untorn appDir ok held w = (inr held', w') ->
    up_step appDir (w, held) (EvDone ok) (w', held')
| StepRestart w held : up_step appDir (w, held) EvRestart (w, None)
| StepElse w w' held :
    faultless w' -> w_files w' !! marker_file appDir = w_files w !! marker_file appDir ->
    w_files w' !! lock_file appDir = w_files w !! lock_file appDir ->
    up_step appDir (w, held) EvElse (w', held).

Inductive up_steps (appDir : string) : World * option holder -> list up_event -> World * option holder -> Prop :=
| StepsNil s : up_steps appDir s [] s
| StepsCons s s1 s2 ev evs : up_step appDir s ev s1 -> up_steps appDir s1 evs s2 -> up_steps appDir s (ev :: evs) s2.

(** ** The relation *)

Definition marker_text (p : phase) : option string :=
  match p with
  | Idle => None
  | Running | Interrupted => Some ("running" +:+ str1 nl)
  | Completed => Some ("completed" +:+ str1 nl)
  | Failed => Some ("failed" +:+ str1 nl)
  end.
Definition started (p : phase) : bool := match p with Running | Interrupted => true | _ => false end.
Definition is_running (p : phase) : bool := match p with Running => true | _ => false end.
Definition mine (held : option holder) : bool := match held with Some (Mine _) => true | _ => false end.

(** The lock is this agent's while the update runs, and free otherwise. *)
Record in_phase (appDir : string) (p : phase) (s : World * option holder) : Prop := {
  ip_faultless : faultless s.1;
  ip_marker : w_files s.1 !! marker_file appDir = marker_text p;
  ip_lock : started p = true -> is_Some (w_files s.1 !! lock_file appDir);
  ip_held : if is_running p then mine s.2 = true else s.2 = None
}.


(** ** One step *)

Lemma lock_files_is_some l f : is_Some (lock_files l f !! l).
Proof. unfold lock_files. destruct (f !! l) eqn:E; [by rewrite E|]. rewrite lookup_insert_eq. by eexists. Qed.

Lemma last_is_suffix c q s d : last_is c (q +:+ String d s) = last_is c (String d s).
Proof.
  induction q as [|x q IH]; [done|]. rewrite app_cons_s. rewrite <- IH. cbn [last_is]. by destruct q.
Qed.

Lemma files_apart appDir : marker_file appDir <> lock_file appDir.
Proof.
  unfold marker_file, lock_file. intros [= H].
  destruct (Join_last appDir [] statusName) as [q1 E1]; [by vm_compute|set_solver|].
  destruct (Join_last appDir [] lockName) as [q2 E2]; [by vm_compute|set_solver|].
  cbn [app] in E1, E2. rewrite E1, E2 in H. apply (f_equal (last_is "k"%char)) in H.
  unfold statusName, lockName in H. rewrite !last_is_suffix in H. by vm_compute in H.
Qed.

Section proofs.
Context (appDir : string).

Lemma set_status_run s w : faultless w ->
  set_status untorn appDir s w = (inr tt, set_files (<[marker_file appDir := s +:+ str1 nl]> (w_files w)) w).
Proof. intros Hf. unfold set_status, ignore. rewrite bind_run, try_run. unfold WriteFile. by rewrite Hf. Qed.

Lemma check_startable stat root version :
  startable appDir stat root version = true ->
  negb (str_empty version) && negb (validVersion version) = false /\
  check_installer stat root (Join [appDir; "install.sh"]) = None.
Proof.
  unfold startable. intros [H1 H2]%andb_prop. split; [by destruct (str_empty version), (validVersion version)|].
  by destruct (check_installer _ _ _).
Qed.

(** What a trigger answers and leaves, in each phase. *)
Lemma trigger_run p stat root starts version w held :
  in_phase appDir p (w, held) ->
  exists r held' w', TriggerUpdate stat root starts untorn appDir version held w = (inr (r, held'), w') /\
    in_phase appDir (next_phase appDir p (EvTrigger stat root starts version)) (w', held') /\
    (r = inr tt <-> startable appDir stat root version && starts && negb (is_running p) = true) /\
    (r = inr tt -> held' = Some (Mine (job appDir version))).
Proof.
  intros [Hf Hm Hl Hh]. cbn [fst snd] in *. unfold TriggerUpdate. destruct (startable appDir stat root version) eqn:Hs.
  - destruct (check_startable _ _ _ Hs) as [-> ->]. rewrite bind_run, try_run. unfold open_lock. rewrite Hf. cbn [fst snd].
    pose proof files_apart appDir as Hne.
    assert (lock_files (lock_file appDir) (w_files w) !! marker_file appDir = marker_text p) as Hm' by (by rewrite lock_files_ne).
    pose proof (lock_files_is_some (lock_file appDir) (w_files w)) as Hl'. destruct (is_running p) eqn:Hp.
    + destruct held as [[j|]|]; try done. eexists _, _, _. split; [done|]. destruct p; try done. cbn [next_phase].
      split; [|split; [by destruct starts|done]]. by split.
    + subst held. rewrite bind_run, set_status_run by done. destruct starts.
      * eexists _, _, _. split; [done|]. split; [|by destruct p].
        assert (next_phase appDir p (EvTrigger stat root true version) = Running) as -> by (destruct p; simpl; by rewrite ?Hs).
        split; [done|cbn; by rewrite lookup_insert_eq| |done]. intros _. cbn. by rewrite lookup_insert_ne.
      * rewrite bind_run, set_status_run by done. eexists _, _, _. split; [done|]. split; [|by destruct p].
        assert (next_phase appDir p (EvTrigger stat root false version) = Failed) as -> by (destruct p; simpl; by rewrite ?Hs).
        split; [done|cbn; by rewrite lookup_insert_eq|done|done].
  - assert (next_phase appDir p (EvTrigger stat root starts version) = p) as -> by (destruct p; simpl; by rewrite ?Hs).
    destruct (negb (str_empty version) && negb (validVersion version)) eqn:Hv.
    { eexists _, _, _. split; [done|]. by split. }
    destruct (check_installer stat root (Join [appDir; "install.sh"])) eqn:Hc.
    { eexists _, _, _. split; [done|]. by split. }
    exfalso. unfold startable in Hs. rewrite Hc, andb_true_r in Hs. by destruct (str_empty version), (validVersion version).
Qed.

Lemma step_phase p s ev s' : in_phase appDir p s -> up_step appDir s ev s' -> in_phase appDir (next_phase appDir p ev) s'.
Proof.
  intros Hp Hs. destruct Hs as [stat root starts version w held r held' w' H|ok w held held' w' H|w held|w w' held Hf Hm Hl].
  - destruct (trigger_run p stat root starts version w held Hp) as (r' & h' & w2 & E & Hp' & _). rewrite E in H. by simplify_eq.
  - pose proof Hp as [Hf Hm Hl Hh]. cbn [fst snd] in *. unfold finish in H. destruct (is_running p) eqn:Hr.
    + destruct p; try done. destruct held as [[j|]|]; try done. rewrite bind_run, set_status_run in H by done.
      destruct ok; injection H as <- <-; split; cbn; rewrite ?lookup_insert_eq; done.
    + subst held. injection H as <- <-. by destruct p.
  - destruct Hp as [Hf Hm Hl Hh]. destruct p; by split.
  - destruct Hp as [_ Hm2 Hl2 Hh]. cbn [fst snd] in *. rewrite <- Hm in Hm2. rewrite <- Hl in Hl2. by destruct p.
Qed.

Lemma steps_phase p s evs s' : in_phase appDir p s -> up_steps appDir s evs s' ->
  in_phase appDir (foldl (next_phase appDir) p evs) s'.
Proof.
  intros Hp Hs. revert p Hp. induction Hs as [|s s1 s2 ev evs H _ IH]; intros p Hp; [done|].
  apply IH. by apply (step_phase p s).
Qed.

Lemma status_run p w held : in_phase appDir p (w, held) -> UpdateStatus appDir held w = (inr (phase_name p), w).
Proof.
  intros [Hf Hm Hl Hh]. cbn [fst snd] in *. unfold UpdateStatus. rewrite bind_run, try_run, read_file_run, Hm by apply Hf.
  destruct p; cbn [marker_text fst snd].
  - done.
  - destruct (Hl eq_refl) as [d Hd]. replace (trim_space _) with "running" by (by vm_compute). cbn [String.eqb Ascii.eqb Bool.eqb].
    rewrite bind_run, try_run, read_file_run, Hd by apply Hf. by destruct held as [[]|].
  - by vm_compute.
  - by vm_compute.
  - destruct (Hl eq_refl) as [d Hd]. replace (trim_space _) with "running" by (by vm_compute). cbn [String.eqb Ascii.eqb Bool.eqb].
    rewrite bind_run, try_run, read_file_run, Hd by apply Hf. cbn in Hh. by subst held.
Qed.

End proofs.

(** An update to 2.0.0 that ends well, then one whose agent is restarted. *)
Definition demo_stat (path : string) : goerr + FileInfo :=
  if String.eqb path "/opt/ovnode/install.sh" then inr (mkInfo 493 (Some 0%Z)) else inl ErrNotExist.
Definition update_events : list up_event :=
  [EvTrigger demo_stat true true "2.0.0"; EvTrigger demo_stat true true ""; EvDone true;
   EvTrigger demo_stat true true ""; EvRestart].

