(* ===== verification/Body.v ===== *)
(** * Body: the JSON bodies of the panel, from internal/httpapi/envelope.go,
    users.go, handlers.go and internal/ovpn/control.go.

    What [json.Decoder] makes of a body in the structure of a handler: names
    match without regard to case, an unknown name is skipped, null leaves a
    value alone and clears a pointer, a value of another type is an error, and
    what follows the first value is not read. *)

From S2P Require Import Prelude GoString Json Cache World Config Mgmt Disconnect Float Control.
From Stdlib Require Import Ascii.

(** [http.MaxBytesReader] of one MiB.  A null at the very end of what may be
    read is not known to be complete. *)
Definition maxBody : nat := N.to_nat 1048576.
Definition body_value (body : string) : option json :=
  match json_decode (str_take maxBody body) with
  | Some (JNull, "") => if (maxBody <? String.length body)%nat then None else Some JNull
  | Some (v, _) => Some v
  | None => None
  end.

(** ** Values *)

Definition to_string (old : string) (v : json) : option string :=
  match v with JNull => Some old | JStr s => Some s | _ => None end.
Definition to_string_ptr (v : json) : option (option string) :=
  match v with JNull => Some None | JStr s => Some (Some s) | _ => None end.
Definition to_bool_ptr (v : json) : option (option bool) :=
  match v with JNull => Some None | JBool b => Some (Some b) | _ => None end.
Definition to_int_ptr (v : json) : option (option Z) :=
  match v with JNull => Some None | JNum lit => n ← parse_int lit; Some (Some n) | _ => None end.

(** An [any]: a number too large for a float is an error wherever it stands. *)
Fixpoint to_any (v : json) : option any :=
  match v with
  | JNull => Some ANil
  | JBool _ => Some AOther
  | JNum lit => x ← ParseFloat lit; Some (AFloat (f_to_int x))
  | JStr s => Some (AStr s)
  | JArr l => AList <$> (fix go (l : list json) : option (list any) :=
                match l with [] => Some [] | v :: l' => x ← to_any v; xs ← go l'; Some (x :: xs) end) l
  | JObj kvs => (fix go (kvs : list (string * json)) : option any :=
                match kvs with [] => Some AOther | (_, v) :: kvs' => _ ← to_any v; go kvs' end) kvs
  end.

(** A structure: its fields in the order of the body. *)
Definition decode_struct {S} (names : list string) (set : S -> string -> json -> option S) (old : S) (v : json) : option S :=
  match v with
  | JNull => Some old
  | JObj kvs => foldl (fun acc kv =>
      s ← acc; match field_of names kv.1 with Some name => set s name kv.2 | None => Some s end) (Some old) kvs
  | _ => None
  end.

(** ** The requests *)

Record createUserRequest : Type := mkCreate { cu_id : string; cu_name : string; cu_max : option Z }.
Record userStatusRequest : Type := mkStatusReq { us_id : string; us_name : string; us_status : string; us_max : option Z }.
Record userLimitRequest : Type := mkLimitReq { ul_id : string; ul_name : string; ul_max : option Z }.
Record bulkLimitItem : Type := mkItem { bi_id : string; bi_max : option Z }.
Record pushCredentialRequest : Type := mkCreds {
  pc_cert : string; pc_key : string; pc_ca : string; pc_max : option Z; pc_disabled : option bool
}.
Record pushPKIRequest : Type := mkPKI { pp_ca : string; pp_cert : string; pp_key : string }.

Definition set_create (r : createUserRequest) (name : string) (v : json) : option createUserRequest :=
  if String.eqb name "id" then s ← to_string (cu_id r) v; Some (mkCreate s (cu_name r) (cu_max r))
  else if String.eqb name "name" then s ← to_string (cu_name r) v; Some (mkCreate (cu_id r) s (cu_max r))
  else n ← to_int_ptr v; Some (mkCreate (cu_id r) (cu_name r) n).
Definition decode_create : json -> option createUserRequest :=
  decode_struct ["id"; "name"; "max_logins"] set_create (mkCreate "" "" None).

Definition set_status_req (r : userStatusRequest) (name : string) (v : json) : option userStatusRequest :=
  if String.eqb name "id" then s ← to_string (us_id r) v; Some (mkStatusReq s (us_name r) (us_status r) (us_max r))
  else if String.eqb name "name" then s ← to_string (us_name r) v; Some (mkStatusReq (us_id r) s (us_status r) (us_max r))
  else if String.eqb name "status" then s ← to_string (us_status r) v; Some (mkStatusReq (us_id r) (us_name r) s (us_max r))
  else n ← to_int_ptr v; Some (mkStatusReq (us_id r) (us_name r) (us_status r) n).
Definition decode_status : json -> option userStatusRequest :=
  decode_struct ["id"; "name"; "status"; "max_logins"] set_status_req (mkStatusReq "" "" "" None).

Definition set_limit_req (r : userLimitRequest) (name : string) (v : json) : option userLimitRequest :=
  if String.eqb name "id" then s ← to_string (ul_id r) v; Some (mkLimitReq s (ul_name r) (ul_max r))
  else if String.eqb name "name" then s ← to_string (ul_name r) v; Some (mkLimitReq (ul_id r) s (ul_max r))
  else n ← to_int_ptr v; Some (mkLimitReq (ul_id r) (ul_name r) n).
Definition decode_limit : json -> option userLimitRequest :=
  decode_struct ["id"; "name"; "max_logins"] set_limit_req (mkLimitReq "" "" None).

Definition set_item (r : bulkLimitItem) (name : string) (v : json) : option bulkLimitItem :=
  if String.eqb name "id" then s ← to_string (bi_id r) v; Some (mkItem s (bi_max r))
  else n ← to_int_ptr v; Some (mkItem (bi_id r) n).
Definition decode_item : bulkLimitItem -> json -> option bulkLimitItem := decode_struct ["id"; "max_logins"] set_item.

(** A slice is filled over what it held: a body that names it twice decodes
    the second list into the elements of the first. *)
Fixpoint decode_items (backing : list bulkLimitItem) (l : list json) : option (list bulkLimitItem) :=
  match l with
  | [] => Some []
  | v :: l' =>
      x ← decode_item (default (mkItem "" None) (head backing)) v;
      xs ← decode_items (list.tail backing) l';
      Some (x :: xs)
  end.
(** The elements of the slice and those behind its end. *)
Definition set_bulk (s : list bulkLimitItem * list bulkLimitItem) (_ : string) (v : json)
  : option (list bulkLimitItem * list bulkLimitItem) :=
  match v with
  | JNull | JArr [] => Some ([], [])
  | JArr l => xs ← decode_items (s.1 ++ s.2) l; Some (xs, drop (length l) (s.1 ++ s.2))
  | _ => None
  end.
Definition decode_bulk (v : json) : option (list bulkLimitItem) := fst <$> decode_struct ["users"] set_bulk ([], []) v.

Definition set_creds (r : pushCredentialRequest) (name : string) (v : json) : option pushCredentialRequest :=
  if String.eqb name "cert_pem" then s ← to_string (pc_cert r) v; Some (mkCreds s (pc_key r) (pc_ca r) (pc_max r) (pc_disabled r))
  else if String.eqb name "key_pem" then s ← to_string (pc_key r) v; Some (mkCreds (pc_cert r) s (pc_ca r) (pc_max r) (pc_disabled r))
  else if String.eqb name "ca_pem" then s ← to_string (pc_ca r) v; Some (mkCreds (pc_cert r) (pc_key r) s (pc_max r) (pc_disabled r))
  else if String.eqb name "max_logins" then n ← to_int_ptr v; Some (mkCreds (pc_cert r) (pc_key r) (pc_ca r) n (pc_disabled r))
  else b ← to_bool_ptr v; Some (mkCreds (pc_cert r) (pc_key r) (pc_ca r) (pc_max r) b).
Definition decode_creds : json -> option pushCredentialRequest :=
  decode_struct ["cert_pem"; "key_pem"; "ca_pem"; "max_logins"; "disabled"] set_creds (mkCreds "" "" "" None None).

Definition set_pki (r : pushPKIRequest) (name : string) (v : json) : option pushPKIRequest :=
  if String.eqb name "ca_pem" then s ← to_string (pp_ca r) v; Some (mkPKI s (pp_cert r) (pp_key r))
  else if String.eqb name "server_cert_pem" then s ← to_string (pp_cert r) v; Some (mkPKI (pp_ca r) s (pp_key r))
  else s ← to_string (pp_key r) v; Some (mkPKI (pp_ca r) (pp_cert r) s).
Definition decode_pki : json -> option pushPKIRequest :=
  decode_struct ["ca_pem"; "server_cert_pem"; "server_key_pem"] set_pki (mkPKI "" "" "").

(** The body of an update: the version. *)
Definition decode_update : json -> option string := decode_struct ["version"] (fun s _ v => to_string s v) "".

(** The settings, with [set_new_setting]. *)
Definition set_config (s : ChangeConfigRequest * option bool) (name : string) (v : json)
  : option (ChangeConfigRequest * option bool) :=
  let '(r, new) := s in
  if String.eqb name "ovpn_port" then
    x ← to_any v; Some (mkRequest x (rq_proto r) (rq_tunnel r) (rq_dns1 r) (rq_dns2 r) (rq_ipv6 r) (rq_prefix r) (rq_extra r), new)
  else if String.eqb name "protocol" then
    x ← to_string (rq_proto r) v; Some (mkRequest (rq_port r) x (rq_tunnel r) (rq_dns1 r) (rq_dns2 r) (rq_ipv6 r) (rq_prefix r) (rq_extra r), new)
  else if String.eqb name "tunnel_address" then
    x ← to_string (rq_tunnel r) v; Some (mkRequest (rq_port r) (rq_proto r) x (rq_dns1 r) (rq_dns2 r) (rq_ipv6 r) (rq_prefix r) (rq_extra r), new)
  else if String.eqb name "set_new_setting" then x ← to_bool_ptr v; Some (r, x)
  else if String.eqb name "dns1" then
    x ← to_string_ptr v; Some (mkRequest (rq_port r) (rq_proto r) (rq_tunnel r) x (rq_dns2 r) (rq_ipv6 r) (rq_prefix r) (rq_extra r), new)
  else if String.eqb name "dns2" then
    x ← to_string_ptr v; Some (mkRequest (rq_port r) (rq_proto r) (rq_tunnel r) (rq_dns1 r) x (rq_ipv6 r) (rq_prefix r) (rq_extra r), new)
  else if String.eqb name "enable_ipv6" then
    x ← to_bool_ptr v; Some (mkRequest (rq_port r) (rq_proto r) (rq_tunnel r) (rq_dns1 r) (rq_dns2 r) x (rq_prefix r) (rq_extra r), new)
  else if String.eqb name "ipv6_prefix" then
    x ← to_string_ptr v; Some (mkRequest (rq_port r) (rq_proto r) (rq_tunnel r) (rq_dns1 r) (rq_dns2 r) (rq_ipv6 r) x (rq_extra r), new)
  else
    x ← to_any v; Some (mkRequest (rq_port r) (rq_proto r) (rq_tunnel r) (rq_dns1 r) (rq_dns2 r) (rq_ipv6 r) (rq_prefix r) x, new).
Definition decode_config : json -> option (ChangeConfigRequest * option bool) :=
  decode_struct ["ovpn_port"; "protocol"; "tunnel_address"; "set_new_setting"; "dns1"; "dns2"; "enable_ipv6"; "ipv6_prefix"; "extra_ports"]
    set_config (mkRequest ANil "" "" None None None None ANil, None).

(** [decodeBody]; [None] is its error. *)
Definition decodeBody {A} (decode : json -> option A) (body : string) : option A := v ← body_value body; decode v.

(** Names fold, the last value of a name counts, a null does not. *)
Example decode_folds :
  decodeBody decode_limit (json_print (JObj [("ID", JStr "7"); ("max_logins", JNum "2"); ("name", JNull); ("x", JNum "1e999"); ("Max_Logins", JNum "3")]))
  = Some (mkLimitReq "7" "" (Some 3%Z)).
Proof. vm_compute. reflexivity. Qed.
Example decode_merges :
  decodeBody decode_bulk (json_print (JObj
    [("users", JArr [JObj [("id", JStr "7"); ("max_logins", JNum "2")]]); ("users", JArr [JObj [("id", JStr "8")]; JNull])]))
  = Some [mkItem "8" (Some 2%Z); mkItem "" None].
Proof. vm_compute. reflexivity. Qed.
Example decode_refuses : decodeBody decode_limit (json_print (JObj [("max_logins", JNum "1.0")])) = None.
Proof. vm_compute. reflexivity. Qed.
