(* ===== verification/Api.v ===== *)
(** * Api: the routes and handlers of internal/httpapi/server.go, handlers.go,
    stats.go, users.go and envelope.go.

    One request at a time: the gate, the body, the operation and the envelope
    it answers with.  What the host answers and what the process is configured
    with is in [site]; what the process remembers between requests in [srv]. *)

From S2P Require Import Prelude GoString Json Time Names Cache World Counter RateLimit Auth Config PkiIndex Pki UserPolicy Status Mgmt Disconnect Usage Users Float Ring Sysinfo Perms Control Events Diag Expiry ServerConf Updater Body.
From Stdlib Require Import Ascii.

Definition Version : string := "2.0.2".

(** ** The process and its host *)

Record site : Type := mkSite {
  st_env : environ;
  st_host : Host;
  st_mgmt : mgmt_cfg;
  st_status : loc;                    (** the status file of OpenVPN *)
  st_users : string;                  (** the users directory *)
  st_api_key : string;
  st_cert : loc;                      (** the certificate of the API *)
  st_start : Z;                       (** when the server was built *)
  st_sha : string -> string;          (** SHA-256 *)
  st_easyrsa : list string -> M unit; (** the easy-rsa script *)
  st_ip : string;                     (** the address of the network *)
  st_openssl : World -> option string; (** what openssl prints of the revocation list *)
  st_wait : waiting;                  (** what happens while a user's lock is waited for *)
  st_reaches : string -> string;
  st_nat : World -> bool;
  st_local : Z -> Z;                  (** the zone of the host *)
  st_clock : Z -> string;
  st_files : string -> goerr + FileInfo;
  st_root : bool;
  st_starts : bool;
  st_torn : string -> option string;
  st_proc_stat : option string;
  st_meminfo : option string;
  st_buckets : gmap string bucket -> list string;    (** the orders maps are visited in *)
  st_names : gmap string string -> list string;
  st_rows : gmap string (gmap string Z) -> list string;
  st_keys : list string -> list string
}.

Record srv : Type := mkSrv {
  sv_limiter : Limiter;
  sv_diag : diag;
  sv_cpu : cpu_state;
  sv_update : option holder
}.
Definition set_limiter (l : Limiter) (s : srv) : srv := mkSrv l (sv_diag s) (sv_cpu s) (sv_update s).
Definition set_diag (d : diag) (s : srv) : srv := mkSrv (sv_limiter s) d (sv_cpu s) (sv_update s).
Definition set_cpu (c : cpu_state) (s : srv) : srv := mkSrv (sv_limiter s) (sv_diag s) c (sv_update s).
Definition set_update (u : option holder) (s : srv) : srv := mkSrv (sv_limiter s) (sv_diag s) (sv_cpu s) u.

(** ** Requests and answers *)

(** A request whose path is clean: its segments, unescaped, and the decoded
    query. *)
Record http : Type := mkHttp {
  ht_auth : request;
  ht_method : string;
  ht_path : list string;
  ht_query : list (string * string);
  ht_body : string;
  ht_length : Z               (** Content-Length, -1 when it is unknown *)
}.

(** [r.URL.Query().Get]. *)
Definition query (r : http) (name : string) : string :=
  default "" (snd <$> head (filter (fun kv => kv.1 = name) (ht_query r))).

Record node_status : Type := mkNodeStatus {
  ns_status : string; ns_contract : Z; ns_version : string; ns_cpu : float; ns_memory : float; ns_running : bool;
  ns_uptime : Z; ns_healthy : bool; ns_cert_expiry : string; ns_ca_expiry : string; ns_crl_days : Z; ns_crl_matches : bool;
  ns_server_expiry : string; ns_errors : Z; ns_warnings : Z; ns_last_error : string; ns_update : string
}.

(** The data of an envelope. *)
Inductive payload : Type :=
| PNil
| PHealth (status : string)
| PStatus (st : node_status)
| PLogs (records : list LogRecord) (last_error : string) (errors warnings : Z)
| PConfig (ep : Endpoint)
| PChanged (restart_required hot_reload : bool)
| PRunning (openvpn_running : bool)
| PRenewed (server_expiry : string)
| PUpdate (update_status : string)
| PUsage (report : usage_report)
| PNoUsage (error : string)
| PDiagnostics (d : diagnostics)
| PUser (id name : string)
| PId (id : string)
| PLimit (id name : string) (max_logins : Z)
| PDisconnected (common_name : string) (removed : list string) (killed : Z) (management : mgmt_answer)
| PBulk (applied : Z) (failed : list (string * string))
| PReloaded (reloaded : bool).

Inductive reply : Type :=
| Envelope (success : bool) (msg : string) (data : payload)
| Denied (v : verdict)                    (** what the gate answers *)
| ProfileFile (name data : string)        (** the raw .ovpn file *)
| NoRoute (status : Z).                   (** 404, or 405 for another method *)

Definition writeOK (msg : string) (data : payload) : reply := Envelope true msg data.
Definition writeFail (msg : string) : reply := Envelope false msg PNil.

(** ** Routes *)

Inductive endpoint : Type :=
| Health | StatusPoll | UsagePoll | Sessions | Logs | ConfigGet | ConfigPost | Restart | RenewCert | Update
| UserCreate | UserStatus | UserLimit | UserDelete (uid : string) | UserDisconnect (uid : string)
| UserResetUsage (uid : string) | DownloadOVPN (uid : string) | BulkLimits | PushCreds (cn : string) | PushPKI.

(** A wildcard takes one segment that is not empty. *)
Definition wild (seg : string) : bool := negb (str_empty seg) && negb (String.eqb seg "/").

Inductive segment : Type := Lit (s : string) | Wild.

(** The patterns in the order they are registered; no two of one method match
    the same path, so the order does not matter. *)
Definition table : list (string * list segment * (string -> endpoint)) :=
  [("GET", [Lit "sync"; Lit "health"], fun _ => Health);
   ("GET", [Lit "sync"; Lit "status"], fun _ => StatusPoll);
   ("GET", [Lit "sync"; Lit "usage"], fun _ => UsagePoll);
   ("GET", [Lit "sync"; Lit "sessions"], fun _ => Sessions);
   ("GET", [Lit "sync"; Lit "logs"], fun _ => Logs);
   ("GET", [Lit "sync"; Lit "config"], fun _ => ConfigGet);
   ("POST", [Lit "sync"; Lit "config"], fun _ => ConfigPost);
   ("POST", [Lit "sync"; Lit "restart"], fun _ => Restart);
   ("POST", [Lit "sync"; Lit "renew-cert"], fun _ => RenewCert);
   ("POST", [Lit "sync"; Lit "update"], fun _ => Update);
   ("POST", [Lit "sync"; Lit "user"], fun _ => UserCreate);
   ("PUT", [Lit "sync"; Lit "user"], fun _ => UserStatus);
   ("PUT", [Lit "sync"; Lit "user"; Lit "limit"], fun _ => UserLimit);
   ("DELETE", [Lit "sync"; Lit "user"; Wild], UserDelete);
   ("POST", [Lit "sync"; Lit "user"; Wild; Lit "disconnect"], UserDisconnect);
   ("POST", [Lit "sync"; Lit "user"; Wild; Lit "reset-usage"], UserResetUsage);
   ("GET", [Lit "sync"; Lit "download"; Lit "ovpn"; Wild], DownloadOVPN);
   ("POST", [Lit "sync"; Lit "users"], fun _ => BulkLimits);
   ("PUT", [Lit "sync"; Lit "users"; Wild], PushCreds);
   ("PUT", [Lit "sync"; Lit "pki"], fun _ => PushPKI)].

(** What the wildcard of a pattern stands for, and the empty string without
    one. *)
Fixpoint match_path (pat : list segment) (path : list string) : option string :=
  match pat, path with
  | [], [] => Some ""
  | Lit l :: pat', seg :: path' => if String.eqb l seg then match_path pat' path' else None
  | Wild :: pat', seg :: path' => if wild seg then _ ← match_path pat' path'; Some seg else None
  | _, _ => None
  end.
Definition patterns (path : list string) : list (string * endpoint) :=
  omap (fun '(method, pat, ep) => uid ← match_path pat path; Some (method, ep uid)) table.

(** A GET pattern serves HEAD. *)
Definition serves (method pattern : string) : bool :=
  String.eqb method pattern || (String.eqb pattern "GET" && String.eqb method "HEAD").
Definition routes (method : string) (path : list string) : Z + endpoint :=
  match patterns path with
  | [] => inl 404%Z
  | ps => match head (filter (fun p => serves method p.1 = true) ps) with Some p => inr p.2 | None => inl 405%Z end
  end.

(** ** Identities *)

Definition errInvalidUserID : string := "Invalid user id (must be UUID or simple id)".

(** The common name, or the text of the error. *)
Definition resolveCN (id name : string) : string + string :=
  let ident := trim_space id in
  let ident := if str_empty ident then replace_char " " "_" (trim_space name) else ident in
  if str_empty ident then inl errInvalidUserID
  else match SafeCN ident with
       | Some cn => inr cn
       | None => inl ("invalid common name: " +:+ Quote (trim_space ident))
       end.

Definition non_negative (n : option Z) : option Z := match n with Some n => if (0 <=? n)%Z then Some n else None | None => None end.

(** ** Handlers *)

Section api.
Context `{Crypto} (st : site).

Abbreviation env := (st_env st).

(** [logging.Info], [Warn] and [Error]. *)
Definition log (level where_ msg : string) (s : srv) : M srv :=
  now <- gets w_now ;;
  mret (set_diag (set_ring (emit (st_clock st) level where_ msg now (dg_ring (sv_diag s))) (sv_diag s)) s).

(** A panic is answered, with the files as the handler left them.  The
    middleware is around the whole handler; the gate does not panic, so it is
    put behind the gate here, where the limiter of the gate is known; what
    panics in a handler comes before the handler changes what the process
    remembers. *)
Definition recoveryMiddleware (s : srv) (next : M (reply * srv)) : M (reply * srv) := fun w =>
  match next w with
  | (inl (Panic p), w') =>
      (s <- log "ERROR" "server.go:106" ("http handler panic: runtime error: " +:+ p) s ;;
       mret (writeFail "internal server error", s)) w'
  | r => r
  end.

(** [authorize]: the handler goes on only when it is let in. *)
Definition authorized (heavy : bool) (r : http) (s : srv) (k : srv -> M (reply * srv)) : M (reply * srv) :=
  v <- authorize (st_sha st) (st_buckets st) (st_api_key st) (ht_auth r) heavy (sv_limiter s) ;;
  let s := set_limiter v.2 s in
  match v.1 with Granted => recoveryMiddleware s (k s) | refused => mret (Denied refused, s) end.

(** A body the handler cannot use. *)
Definition with_body {A} (decode : json -> option A) (r : http) (msg : string) (s : srv)
    (k : A -> M (reply * srv)) : M (reply * srv) :=
  match decodeBody decode (ht_body r) with None => mret (writeFail msg, s) | Some a => k a end.

(** The user a path names. *)
Definition with_uid (uid : string) (s : srv) (k : string -> M (reply * srv)) : M (reply * srv) :=
  match SafeCN (trim_space uid) with None => mret (writeFail errInvalidUserID, s) | Some cn => k cn end.

Definition running : M bool := TreeOpenVPNRunning env (st_host st).

(** *** Status, logs and configuration *)

Definition handleHealth (s : srv) : M (reply * srv) := mret (writeOK "ok" (PHealth "ok"), s).

Fixpoint find_app (dirs : list string) : string :=
  match dirs with
  | [] => "/opt/ovnode"
  | d :: dirs' => match st_files st (d +:+ "/install.sh") with inr _ => d | inl _ => find_app dirs' end
  end.
Definition appDir : string :=
  let d := envOr env "APP_DIR" "" in if str_empty d then find_app ["/opt/ovnode"; "/usr/local/ovnode"] else d.

Definition uptime (now : Z) : Z := f_to_int (duration_seconds (duration (now - st_start st))).

Definition handleStatus (r : http) (s : srv) : M (reply * srv) :=
  authorized false r s (fun s =>
  now <- gets w_now ;;
  let '(errors1h, warnings1h, lastError) := Stats now (dg_ring (sv_diag s)) in
  healthy <- Healthy ;;
  let cpu := cpuUsage (st_proc_stat st) (sv_cpu s) in
  up <- OpenVPNIsRunning env (st_host st) ;;
  cert <- CertExpiry (st_cert st) ;;
  ca <- CertExpiry CACert ;;
  openssl <- gets (st_openssl st) ;;
  days <- CRLDaysRemaining openssl ;;
  matches <- CRLMatchesCA ;;
  server <- CertExpiry ServerCert ;;
  update <- UpdateStatus appDir (sv_update s) ;;
  mret (writeOK "Node status retrieved successfully" (PStatus (mkNodeStatus
          (if healthy : bool then "running" else "degraded") ContractVersion Version cpu.1 (memoryUsage (st_meminfo st)) up
          (uptime now) healthy cert ca days matches server errors1h warnings1h lastError update)), set_cpu cpu.2 s)).

(** The number of records asked for. *)
Definition log_limit (raw : string) : option Z :=
  if str_empty raw then Some 200%Z
  else match atoi raw with
       | None => None
       | Some n => if (n <? 1)%Z then None else Some (Z.min n 1000)
       end.

Definition handleLogs (r : http) (s : srv) : M (reply * srv) :=
  authorized false r s (fun s =>
  let level := if str_empty (query r "level") then "WARNING" else query r "level" in
  if negb (bool_decide (level ∈ ["DEBUG"; "INFO"; "WARNING"; "ERROR"])) then mret (writeFail "Invalid log level", s)
  else match log_limit (query r "limit") with
       | None => mret (writeFail "Invalid log limit", s)
       | Some limit =>
           now <- gets w_now ;;
           let records := Recent level limit (dg_ring (sv_diag s)) in
           let '(errors1h, warnings1h, lastError) := Stats now (dg_ring (sv_diag s)) in
           mret (writeOK (itoa (Z.of_nat (length records)) +:+ " log record(s)") (PLogs records lastError errors1h warnings1h), s)
       end).

Definition handleConfigGet (r : http) (s : srv) : M (reply * srv) :=
  authorized false r s (fun s =>
  ep <- ReadConfig ;; mret (writeOK "Configuration retrieved successfully" (PConfig ep), s)).

Definition bool_text (b : bool) : string := if b then "true" else "false".

Definition handleConfigPost (r : http) (s : srv) : M (reply * srv) :=
  authorized false r s (fun s =>
  with_body decode_config r "Invalid configuration payload" s (fun body =>
  if bool_decide (body.2 = Some false) then mret (writeOK "No changes requested" PNil, s)
  else
    res <- ChangeConfig env (st_host st) (st_mgmt st) (st_reaches st) (st_nat st) body.1 ;;
    if negb res.1 then mret (writeFail "Failed to change settings", s)
    else
      let '(restart, hot) := (RestartRequired res.2, HotReload res.2) in
      s <- log "INFO" "handlers.go:138" ("configuration applied (restart_required=" +:+ bool_text restart +:+
             ", hot_reload=" +:+ bool_text hot +:+ ")") s ;;
      mret (writeOK "Configuration updated successfully" (PChanged restart hot), s))).

Definition handleRestart (r : http) (s : srv) : M (reply * srv) :=
  authorized true r s (fun s =>
  restarted <- RestartOpenVPN env (st_host st) (st_mgmt st) ;;
  up <- OpenVPNIsRunning env (st_host st) ;;
  if negb restarted then
    s <- log "ERROR" "handlers.go:157" "panel-triggered OpenVPN restart failed" s ;;
    mret (Envelope false "OpenVPN restart failed" (PRunning up), s)
  else mret (writeOK "OpenVPN restart command completed" (PRunning up), s)).

Definition handleRenewCert (r : http) (s : srv) : M (reply * srv) :=
  authorized true r s (fun s =>
  renewed <- try_err (RenewServerCert (st_easyrsa st) (st_ip st)) ;;
  match renewed with
  | inl e =>
      s <- log "ERROR" "handlers.go:173" ("server certificate renewal failed: " +:+ err_text e) s ;;
      mret (writeFail "Server certificate renewal failed — check the node logs", s)
  | inr _ =>
      restarted <- RestartOpenVPN env (st_host st) (st_mgmt st) ;;
      if negb restarted
      then mret (writeFail "Certificate renewed, but OpenVPN did not restart — restart it manually", s)
      else
        expiry <- CertExpiry ServerCert ;;
        mret (writeOK "Server certificate renewed; OpenVPN restarted" (PRenewed expiry), s)
  end).

Definition handleUpdate (r : http) (s : srv) : M (reply * srv) :=
  authorized true r s (fun s =>
  match (if (ht_length r =? 0)%Z then Some "" else decodeBody decode_update (ht_body r)) with
  | None => mret (writeFail "Invalid update payload", s)
  | Some version =>
      if negb (str_empty version) && negb (ValidVersion version) then mret (writeFail "Invalid target version", s)
      else
        res <- TriggerUpdate (st_files st) (st_root st) (st_starts st) (st_torn st) appDir version (sv_update s) ;;
        let s := set_update res.2 s in
        match res.1 with
        | inl e => mret (writeFail (err_text e), s)
        | inr _ => mret (writeOK "Update started" (PUpdate "running"), s)
        end
  end).

(** *** Usage and sessions *)

Definition handleUsage (r : http) (s : srv) : M (reply * srv) :=
  authorized false r s (fun s =>
  usage <- try_err (UsersUsage (st_users st) (st_status st) (st_rows st)) ;;
  mret (match usage with
        | inl e => writeOK "Usage sample unavailable" (PNoUsage (err_text e))
        | inr report =>
            if bool_decide (rp_users report = ∅) then writeOK "No user is using it." (PUsage report)
            else writeOK "Latest user usage received" (PUsage report)
        end, s)).

Definition asked_hours (raw : string) : Z := if str_empty raw then 8 else default 8%Z (atoi raw).

Definition handleSessions (r : http) (s : srv) : M (reply * srv) :=
  authorized false r s (fun s =>
  d <- UserDiagnostics env (st_host st) (st_mgmt st) (st_status st) (st_users st) (st_local st) (st_keys st) (st_clock st)
         (sv_diag s) (query r "common_name") (asked_hours (query r "hours")) ;;
  mret (writeOK "Session diagnostics retrieved successfully" (PDiagnostics d.1), set_diag d.2 s)).

(** *** Users *)

Definition handleUserCreate (r : http) (s : srv) : M (reply * srv) :=
  authorized true r s (fun s =>
  with_body decode_create r "Invalid user payload" s (fun body =>
  match resolveCN (cu_id body) (cu_name body) with
  | inl msg => mret (writeFail msg, s)
  | inr cn =>
      let maxLogins := default 1%Z (non_negative (cu_max body)) in
      res <- try_err (CreateUser (st_users st) (st_wait st) cn (cu_name body) maxLogins None) ;;
      match res with
      | inl e =>
          s <- log "ERROR" "users.go:112" ("could not create user " +:+ Quote cn +:+ ": " +:+ err_text e) s ;;
          mret (writeFail "Failed to create user", s)
      | inr _ =>
          s <- log "INFO" "users.go:116" ("user " +:+ Quote cn +:+ " created (max_logins=" +:+ itoa maxLogins +:+ ")") s ;;
          mret (writeOK "User created successfully" (PUser cn (cu_name body)), s)
      end
  end)).

Definition handleUserStatus (r : http) (s : srv) : M (reply * srv) :=
  authorized false r s (fun s =>
  with_body decode_status r "Invalid user payload" s (fun body =>
  match resolveCN (us_id body) (us_name body) with
  | inl msg => mret (writeFail msg, s)
  | inr cn =>
      let status := if str_empty (us_status body) then "activate" else us_status body in
      if negb (String.eqb status "activate") && negb (String.eqb status "deactivate")
      then mret (writeFail "Failed to change user status", s)
      else
        up <- running ;;
        res <- try_err (ApplyUserPolicy (st_users st) (st_status st) (st_mgmt st) up (st_wait st) cn (us_name body)
                          (default (-1)%Z (non_negative (us_max body))) (String.eqb status "deactivate")) ;;
        match res with
        | inl e =>
            s <- log "ERROR" "users.go:148" ("could not change the status of " +:+ Quote cn +:+ ": " +:+ err_text e) s ;;
            mret (writeFail (match non_negative (us_max body) with
                             | Some _ => "Failed to update user login limit" | None => "Failed to change user status" end), s)
        | inr _ =>
            s <- log "INFO" "users.go:156" ("user " +:+ Quote cn +:+ " status set to " +:+ status) s ;;
            mret (writeOK "User status changed successfully" (PUser cn (us_name body)), s)
        end
  end)).

Definition set_limit (ident : string) (maxLogins : Z) : M (goerr + unit) :=
  try_err (SetUserLimit (st_users st) (st_names st) (st_wait st) ident maxLogins).

(** The handler behind its gate. *)
Definition put_limit (s : srv) (body : userLimitRequest) : M (reply * srv) :=
  let ident := if str_empty (trim_space (ul_id body)) then trim_space (ul_name body) else trim_space (ul_id body) in
  if str_empty ident then mret (writeFail errInvalidUserID, s)
  else match ul_max body with
       | None => mret (writeFail "max_logins is required", s)
       | Some n =>
           res <- set_limit ident n ;;
           mret (match res with
                 | inl _ => writeFail "Failed to update user login limit"
                 | inr _ => writeOK "User login limit updated successfully" (PLimit ident (ul_name body) n)
                 end, s)
       end.

Definition handleUserLimit (r : http) (s : srv) : M (reply * srv) :=
  authorized false r s (fun s => with_body decode_limit r "Invalid user payload" s (put_limit s)).

Definition handleUserDelete (uid : string) (r : http) (s : srv) : M (reply * srv) :=
  authorized true r s (fun s =>
  with_uid uid s (fun cn =>
  up <- running ;;
  res <- DeleteUser (st_users st) (OpenVPNRoot env) (st_status st) (st_mgmt st) up (st_wait st) cn ;;
  match res with
  | (_, Some e) =>
      s <- log "ERROR" "users.go:206" ("could not delete user " +:+ Quote cn +:+ ": " +:+ err_text e) s ;;
      mret (writeFail "Failed to delete user", s)
  | (false, None) => mret (writeOK "User not found on node (already deleted)" PNil, s)
  | (true, None) =>
      s <- log "INFO" "users.go:216" ("user " +:+ Quote cn +:+ " revoked and removed") s ;;
      mret (writeOK "User deleted successfully" (PId cn), s)
  end)).

Definition handleUserDisconnect (uid : string) (r : http) (s : srv) : M (reply * srv) :=
  authorized false r s (fun s =>
  with_uid uid s (fun cn =>
  let onlyStale := bool_decide (to_lower (query r "only_stale") ∈ ["1"; "true"; "yes"]) in
  up <- running ;;
  res <- DisconnectUser (st_status st) (st_mgmt st) up cn onlyStale ;;
  let '(removed, killed, management) := res in
  s <- log "INFO" "users.go:239" ("user " +:+ Quote cn +:+ " disconnected (only_stale=" +:+ bool_text onlyStale +:+
         ", killed=" +:+ itoa killed +:+ ", markers=" +:+ itoa (Z.of_nat (length removed)) +:+ ")") s ;;
  mret (writeOK "Disconnect command processed" (PDisconnected cn removed killed management), s))).

Definition handleResetUsage (uid : string) (r : http) (s : srv) : M (reply * srv) :=
  authorized false r s (fun s =>
  with_uid uid s (fun cn =>
  res <- try_err (ResetUsage cn) ;;
  mret (match res with
        | inl _ => writeFail "Failed to reset usage counters"
        | inr _ => writeOK "Usage counters reset" (PId cn)
        end, s))).

Definition handleDownloadOVPN (uid : string) (r : http) (s : srv) : M (reply * srv) :=
  authorized true r s (fun s =>
  with_uid uid s (fun cn =>
  res <- try_err (ReadUserProfile (st_users st) (st_wait st) cn) ;;
  match res with
  | inl e =>
      s <- log "WARNING" "users.go:282" ("could not read or provision profile for " +:+ Quote cn +:+ ": " +:+ err_text e) s ;;
      mret (writeFail "OVPN file not found", s)
  | inr data => mret (ProfileFile (cn +:+ ".ovpn") data, s)
  end)).

(** The limits of the items, one after the other: how many were applied, and
    the others with their reasons. *)
Fixpoint bulk_limits (items : list bulkLimitItem) : M (Z * list (string * string)) :=
  match items with
  | [] => mret (0%Z, [])
  | item :: items' =>
      let ident := trim_space (bi_id item) in
      refused <- (match bi_max item with
                  | Some n =>
                      if str_empty ident then mret (Some errInvalidUserID)
                      else res <- set_limit ident n ;;
                           mret (match res with inl _ => Some "Failed to update user login limit" | inr _ => None end)
                  | None => mret (Some errInvalidUserID)
                  end) ;;
      rest <- bulk_limits items' ;;
      mret (match refused with
            | Some msg => (rest.1, (bi_id item, msg) :: rest.2)
            | None => ((1 + rest.1)%Z, rest.2)
            end)
  end.

Definition handleBulkLimits (r : http) (s : srv) : M (reply * srv) :=
  authorized false r s (fun s =>
  with_body decode_bulk r "Invalid user payload" s (fun items =>
  res <- bulk_limits items ;;
  mret (writeOK "limits applied" (PBulk res.1 res.2), s))).

Definition handlePushCreds (cn_raw : string) (r : http) (s : srv) : M (reply * srv) :=
  authorized false r s (fun s =>
  with_uid cn_raw s (fun cn =>
  with_body decode_creds r "Invalid credential payload" s (fun body =>
  res <- try_err (CreateUserWithCredentials (st_users st) (st_wait st) cn (pc_cert body) (pc_key body) (pc_ca body)
                    (non_negative (pc_max body)) (pc_disabled body)) ;;
  match res with
  | inl e =>
      s <- log "ERROR" "users.go:356" ("could not store the credentials of " +:+ Quote cn +:+ ": " +:+ err_text e) s ;;
      mret (writeFail "Failed to store pushed credentials", s)
  | inr _ => mret (writeOK "User credentials stored" (PId cn), s)
  end))).

(** *** The PKI of the panel *)

Record pkiFile : Type := mkFile { pf_path : loc; pf_dir : string; pf_label : string; pf_pem : string; pf_old : option string }.

Definition cleaned_or_empty (s : string) : string := match CleanPEM s with inr c => c | inl _ => "" end.

Definition identity_files (body : pushPKIRequest) : list pkiFile :=
  [mkFile ServerKey "pki/private" "server_key_pem" (cleaned_or_empty (pp_key body)) None;
   mkFile ServerCert "pki/issued" "server_cert_pem" (cleaned_or_empty (pp_cert body)) None;
   mkFile CACert "pki" "ca_pem" (cleaned_or_empty (pp_ca body)) None].

(** The content the files have, and that none of the new ones is empty. *)
Fixpoint read_old (files : list pkiFile) : M (list pkiFile) :=
  match files with
  | [] => mret []
  | f :: files' =>
      r <- try (read_file (pf_path f)) ;;
      old <- (match r with
              | inr data => mret (Some data)
              | inl e => if IsNotExist e then mret None else throw e
              end) ;;
      if str_empty (pf_pem f) then throw (Errorf (pf_label f +:+ " is required"))
      else rest <- read_old files' ;; mret (mkFile (pf_path f) (pf_dir f) (pf_label f) (pf_pem f) old :: rest)
  end.

Definition restore_file (f : pkiFile) : M unit :=
  match pf_old f with
  | Some data => ignore (WriteFileAtomic (pf_path f) data)
  | None => ignore (remove_file (pf_path f))
  end.

(** The files written so far are put back when one cannot be written. *)
Fixpoint write_files (written todo : list pkiFile) : M unit :=
  match todo with
  | [] => mret tt
  | f :: todo' =>
      r <- try (mkdir (pf_dir f) ;; WriteFileAtomic (pf_path f) (pf_pem f)) ;;
      match r with
      | inl e => for_each restore_file written ;; throw e
      | inr _ => write_files (written ++ [f]) todo'
      end
  end.

Definition store_identity (body : pushPKIRequest) : M unit :=
  WithPKILock (files <- read_old (identity_files body) ;; write_files [] files).

Definition warn_ca : string :=
  "pushed CA replaced the node CA; local CA key may no longer match, so this node cannot issue or revoke certificates locally".
Definition warn_crl : string :=
  "the CRL was signed by the previous CA; push a CRL signed by the new CA or clients may be refused".

(** After the files are stored. *)
Definition follow_push (s : srv) : M (reply * srv) :=
  key <- stat_file CAKey ;;
  healthy <- (if key : bool then Healthy else mret true) ;;
  s <- (if healthy : bool then mret s else log "WARNING" "users.go:447" warn_ca s) ;;
  matches <- CRLMatchesCA ;;
  s <- (if matches : bool then mret s
        else
          healthy <- Healthy ;;
          if healthy : bool then RegenerateCRL ;; mret s else log "WARNING" "users.go:454" warn_crl s) ;;
  up <- OpenVPNIsRunning env (st_host st) ;;
  reloaded <- (if up : bool then ReloadOpenVPN (st_mgmt st) else mret false) ;;
  mret (writeOK "PKI stored" (PReloaded reloaded), s).

(** The handler behind its gate. *)
Definition push_pki (s : srv) (body : pushPKIRequest) : M (reply * srv) :=
  now <- gets w_now ;;
  match ValidateServerCert now (pp_ca body) (pp_cert body) (pp_key body) with
  | Some e => mret (writeFail ("Invalid PKI: " +:+ err_text e), s)
  | None =>
      res <- try_err (store_identity body) ;;
      match res with
      | inl e =>
          s <- log "ERROR" "users.go:440" ("could not store the pushed PKI: " +:+ err_text e) s ;;
          mret (writeFail "Failed to store pushed PKI", s)
      | inr _ => follow_push s
      end
  end.

Definition handlePushPKI (r : http) (s : srv) : M (reply * srv) :=
  authorized true r s (fun s => with_body decode_pki r "Invalid PKI payload" s (push_pki s)).

(** ** The server *)

Definition dispatch (ep : endpoint) (r : http) (s : srv) : M (reply * srv) :=
  match ep with
  | Health => handleHealth s
  | StatusPoll => handleStatus r s
  | UsagePoll => handleUsage r s
  | Sessions => handleSessions r s
  | Logs => handleLogs r s
  | ConfigGet => handleConfigGet r s
  | ConfigPost => handleConfigPost r s
  | Restart => handleRestart r s
  | RenewCert => handleRenewCert r s
  | Update => handleUpdate r s
  | UserCreate => handleUserCreate r s
  | UserStatus => handleUserStatus r s
  | UserLimit => handleUserLimit r s
  | UserDelete uid => handleUserDelete uid r s
  | UserDisconnect uid => handleUserDisconnect uid r s
  | UserResetUsage uid => handleResetUsage uid r s
  | DownloadOVPN uid => handleDownloadOVPN uid r s
  | BulkLimits => handleBulkLimits r s
  | PushCreds cn => handlePushCreds cn r s
  | PushPKI => handlePushPKI r s
  end.

Definition serve (r : http) (s : srv) : M (reply * srv) :=
  match routes (ht_method r) (ht_path r) with
  | inl code => mret (NoRoute code, s)
  | inr ep => dispatch ep r s
  end.

(** Requests one after the other. *)
Fixpoint serve_all (rs : list http) (s : srv) (w : World) : list reply * srv * World :=
  match rs with
  | [] => ([], s, w)
  | r :: rs' =>
      match serve r s w with
      | (inr (rep, s'), w') => let '(reps, s2, w2) := serve_all rs' s' w' in (rep :: reps, s2, w2)
      | (inl _, w') => ([], s, w')
      end
  end.
End api.
