(* ===== verification/ApiDemo.v ===== *)
(** * ApiDemo: a concrete node behind the API, for the runs of the witnesses. *)

From S2P Require Import Prelude GoString Json Names Cache World Evolve Counter RateLimit RateProps Pairing Auth Config Pki PkiDemo UserPolicy Mgmt Disconnect Users UsersProps Float Ring Sysinfo Perms Control ControlProps Events Diag Updater UpdaterProps Body Api.
From Stdlib Require Import Ascii.

(** Nothing happens while the lock of a user is waited for; the host has no
    procfs files, no openssl and no running OpenVPN. *)
Definition demo_site : site :=
  mkSite demo_env demo_host demo_mgmt demo_status "/u" demo_api_key (LConf "pki/issued/server.crt") 0 demo_sha
    (fun _ => throw ErrIO) "192.0.2.1" (fun _ => None) (mkWait id true) id (fun _ => true) id itoa demo_stat true true untorn
    None None demo_order (fun m => (map_to_list m).*1) (fun m => (map_to_list m).*1) id.

Definition no_diag : diag := mkDiag (mkEventCache "" 0 []) None false [].
Definition demo_srv : srv := mkSrv New no_diag None None.

Definition ask (key method : string) (path : list string) (body : string) : http :=
  mkHttp (Auth.demo_request key) method path [] body (Z.of_nat (String.length body)).

(** ** A short session *)

Definition summary (rep : reply) : string :=
  match rep with
  | Envelope true msg _ => "ok: " +:+ msg
  | Envelope false msg _ => "fail: " +:+ msg
  | Denied (Refused status _ msg) => itoa status +:+ ": " +:+ msg
  | Denied Granted => "?"
  | ProfileFile name _ => name
  | NoRoute status => itoa status
  end.

Definition demo_user : string := json_print (JObj [("name", JStr "bob smith"); ("max_logins", JNum "2")]).
Definition demo_bulk : string := json_print (JObj [("users", JArr
  [JObj [("id", JStr "alice"); ("max_logins", JNum "3")]; JObj [("id", JStr ""); ("max_logins", JNum "1")];
   JObj [("id", JStr "bob_smith")]])]).

Definition demo_requests : list http :=
  [ask "" "GET" ["sync"; "health"] ""; ask "guess" "GET" ["sync"; "status"] ""; ask demo_api_key "GET" ["sync"; "nothing"] "";
   ask demo_api_key "PUT" ["sync"; "restart"] ""; ask demo_api_key "POST" ["sync"; "user"] demo_user;
   ask demo_api_key "GET" ["sync"; "download"; "ovpn"; "bob_smith"] ""; ask demo_api_key "POST" ["sync"; "users"] demo_bulk;
   ask demo_api_key "PUT" ["sync"; "user"] "{"; ask demo_api_key "DELETE" ["sync"; "user"; "alice"] "";
   ask demo_api_key "DELETE" ["sync"; "user"; "alice"] ""; ask demo_api_key "GET" ["sync"; "usage"] "";
   ask demo_api_key "GET" ["sync"; "sessions"] ""; ask demo_api_key "POST" ["sync"; "update"] ""].

Example demo_session : map summary (serve_all demo_site demo_requests demo_srv demo_node).1.1 =
  ["ok: ok"; "401: Invalid API key"; "404"; "405"; "ok: User created successfully"; "bob_smith.ovpn"; "ok: limits applied";
   "fail: Invalid user payload"; "ok: User deleted successfully"; "ok: User not found on node (already deleted)";
   "ok: Usage sample unavailable"; "ok: Session diagnostics retrieved successfully"; "ok: Update started"].
Proof. vm_compute. reflexivity. Qed.
