(* ===== verification/ApiProps.v ===== *)
(** * ApiProps: the routes, the gate and the answers of the API. *)

From S2P Require Import Prelude GoString Json Time Names Cache World Evolve Counter Markers RateLimit Pairing Auth Config PkiIndex Pki UserPolicy Status Mgmt Disconnect Usage Users UsersProps Float Ring Sysinfo Perms Migrate Control ControlProps Events Diag DiagProps Expiry ServerConf Updater Body Api.
From Stdlib Require Import Ascii.

#[local] Set Default Proof Using "Type*".

(** ** The table of the routes *)

(** The table as the source lists it: the method and the pattern, the uid in
    place of the wildcard. *)
Definition pattern_of (ep : endpoint) : string * list string :=
  match ep with
  | Health => ("GET", ["sync"; "health"])
  | StatusPoll => ("GET", ["sync"; "status"])
  | UsagePoll => ("GET", ["sync"; "usage"])
  | Sessions => ("GET", ["sync"; "sessions"])
  | Logs => ("GET", ["sync"; "logs"])
  | ConfigGet => ("GET", ["sync"; "config"])
  | ConfigPost => ("POST", ["sync"; "config"])
  | Restart => ("POST", ["sync"; "restart"])
  | RenewCert => ("POST", ["sync"; "renew-cert"])
  | Update => ("POST", ["sync"; "update"])
  | UserCreate => ("POST", ["sync"; "user"])
  | UserStatus => ("PUT", ["sync"; "user"])
  | UserLimit => ("PUT", ["sync"; "user"; "limit"])
  | UserDelete uid => ("DELETE", ["sync"; "user"; uid])
  | UserDisconnect uid => ("POST", ["sync"; "user"; uid; "disconnect"])
  | UserResetUsage uid => ("POST", ["sync"; "user"; uid; "reset-usage"])
  | DownloadOVPN uid => ("GET", ["sync"; "download"; "ovpn"; uid])
  | BulkLimits => ("POST", ["sync"; "users"])
  | PushCreds cn => ("PUT", ["sync"; "users"; cn])
  | PushPKI => ("PUT", ["sync"; "pki"])
  end.
Definition named (ep : endpoint) : option string :=
  match ep with
  | UserDelete u | UserDisconnect u | UserResetUsage u | DownloadOVPN u | PushCreds u => Some u
  | _ => None
  end.


Lemma match_lits lits path uid :
  match_path (map Lit lits) path = Some uid -> path = lits /\ uid = "".
Proof.
  revert path. induction lits as [|l lits IH]; intros [|seg path]; try done; cbn [map match_path]; [by intros [= <-]|].
  destruct (String.eqb_spec l seg) as [->|]; [|done]. by intros [-> ->]%IH.
Qed.
Lemma match_lits_self lits : match_path (map Lit lits) lits = Some "".
Proof. induction lits as [|l lits IH]; [done|]. cbn [map match_path]. by rewrite String.eqb_refl. Qed.

Lemma match_wild pre post path uid :
  match_path (map Lit pre ++ Wild :: map Lit post) path = Some uid <-> path = pre ++ uid :: post /\ wild uid = true.
Proof.
  revert path. induction pre as [|l pre IH]; intros path.
  - destruct path as [|seg path]; [split; [done|by intros [? ?]]|]. cbn [map app match_path]. destruct (wild seg) eqn:Hw.
    + destruct (match_path (map Lit post) path) as [u|] eqn:Hm; cbn.
      * apply match_lits in Hm as [-> _]. split; [by intros [= <-]|by intros [[= <-] _]].
      * split; [done|]. intros [[= <- ->] _]. by rewrite match_lits_self in Hm.
    + split; [done|]. intros [[= <- _] H]. by rewrite Hw in H.
  - destruct path as [|seg path]; [split; [done|by intros [? ?]]|]. cbn [map app match_path].
    destruct (String.eqb_spec l seg) as [->|Hne]; [rewrite IH|]; (split; [try done|]).
    + by intros [-> ->].
    + by intros [[= ->] ->].
    + by intros [[= -> _] _].
Qed.

(** A pattern is listed for its own path and no other. *)
Lemma patterns_spec path m ep : (m, ep) ∈ patterns path <-> pattern_of ep = (m, path) /\ from_option wild true (named ep) = true.
Proof.
  unfold patterns. rewrite list_elem_of_omap. split.
  - intros ([[m' pat] f] & Hin & Hf). destruct (match_path pat path) as [uid|] eqn:Hm; [|done]. cbn in Hf. injection Hf as <- <-.
    apply list_elem_of_In in Hin. cbn in Hin.
    repeat (destruct Hin as [[= <- <- <-]|Hin]; [first
      [ apply (match_lits ["sync"; _]) in Hm as [-> ->]; done
      | apply (match_lits ["sync"; _; _]) in Hm as [-> ->]; done
      | apply (match_wild ["sync"; _] []) in Hm as [-> Hw]; done
      | apply (match_wild ["sync"; _] [_]) in Hm as [-> Hw]; done
      | apply (match_wild ["sync"; _; _] []) in Hm as [-> Hw]; done ]|]). done.
  - intros [H Hw]. exists (match ep with
      | UserDelete _ => (m, [Lit "sync"; Lit "user"; Wild], UserDelete)
      | UserDisconnect _ => (m, [Lit "sync"; Lit "user"; Wild; Lit "disconnect"], UserDisconnect)
      | UserResetUsage _ => (m, [Lit "sync"; Lit "user"; Wild; Lit "reset-usage"], UserResetUsage)
      | DownloadOVPN _ => (m, [Lit "sync"; Lit "download"; Lit "ovpn"; Wild], DownloadOVPN)
      | PushCreds _ => (m, [Lit "sync"; Lit "users"; Wild], PushCreds)
      | _ => (m, map Lit path, fun _ => ep)
      end).
    destruct ep; cbn in H, Hw; injection H as <- <-; (split; [apply list_elem_of_In; cbn; tauto|]); cbn; rewrite ?Hw; done.
Qed.

Lemma pattern_of_inj ep1 ep2 : pattern_of ep1 = pattern_of ep2 -> ep1 = ep2.
Proof. destruct ep1, ep2; cbn; intros [=]; by subst. Qed.

Lemma serves_iff method pattern : serves method pattern = true <-> method = pattern \/ (pattern = "GET" /\ method = "HEAD").
Proof. unfold serves. rewrite orb_true_iff, andb_true_iff, !String.eqb_eq. done. Qed.

(** No pattern is for HEAD, so the method of a request serves one method of
    the table. *)
Lemma serves_unique method ep1 ep2 :
  serves method (pattern_of ep1).1 = true -> serves method (pattern_of ep2).1 = true -> (pattern_of ep1).1 = (pattern_of ep2).1.
Proof.
  assert (forall ep, (pattern_of ep).1 <> "HEAD") as Hh by (by intros []).
  rewrite !serves_iff. intros [E1|[E1 E1']] [E2|[E2 E2']]; [congruence| | |congruence].
  - destruct (Hh ep1). congruence.
  - destruct (Hh ep2). congruence.
Qed.

#[local] Opaque patterns wild.

(** The pattern a request is served by. *)
Definition hit (method : string) (path : list string) : option (string * endpoint) :=
  head (filter (fun p => serves method p.1 = true) (patterns path)).

Lemma patterns_own path ep : path = (pattern_of ep).2 -> from_option wild true (named ep) = true -> ((pattern_of ep).1, ep) ∈ patterns path.
Proof. intros -> Hw. apply patterns_spec. by destruct (pattern_of ep). Qed.

Lemma hit_spec method path ep : snd <$> hit method path = Some ep <->
  serves method (pattern_of ep).1 = true /\ path = (pattern_of ep).2 /\ from_option wild true (named ep) = true.
Proof.
  assert (forall p, hit method path = Some p -> serves method p.1 = true /\ pattern_of p.2 = (p.1, path) /\
    from_option wild true (named p.2) = true) as Hsome.
  { intros [m ep'] Hp. apply head_Some_elem_of, list_elem_of_filter in Hp as [Hs Hp]. by apply patterns_spec in Hp. }
  split.
  - intros (p & Hp & ->)%fmap_Some. destruct (Hsome _ Hp) as (Hs & Hpe & Hw). by rewrite Hpe.
  - intros (Hs & Hp & Hw). destruct (hit method path) as [p|] eqn:Hh.
    + destruct (Hsome _ eq_refl) as (Hs' & Hpe & _). cbn. f_equal. apply pattern_of_inj.
      replace p.1 with (pattern_of p.2).1 in Hs' by (by rewrite Hpe).
      rewrite (surjective_pairing (pattern_of ep)), (surjective_pairing (pattern_of p.2)), (serves_unique _ _ _ Hs Hs').
      by rewrite <- Hp, Hpe.
    + exfalso. pose proof (patterns_own path ep Hp Hw) as Hb. unfold hit in Hh. apply head_None in Hh.
      by apply (filter_nil_not_elem_of _ _ _ Hh) in Hb.
Qed.

Lemma routes_hit method path : routes method path =
  match snd <$> hit method path with Some ep => inr ep | None => inl (if decide (patterns path = []) then 404%Z else 405%Z) end.
Proof. unfold routes, hit. destruct (patterns path) eqn:E; [done|]. rewrite decide_False by done. rewrite <- E. by destruct (head _). Qed.

Lemma no_patterns path : patterns path = [] <-> forall ep, path = (pattern_of ep).2 -> from_option wild true (named ep) = false.
Proof.
  split.
  - intros H ep Hp. apply not_true_is_false. intros Hw. pose proof (patterns_own path ep Hp Hw) as Hb.
    rewrite H in Hb. by apply elem_of_nil in Hb.
  - intros H. destruct (patterns path) as [|[m ep] ps] eqn:E; [done|].
    assert ((m, ep) ∈ patterns path) as Hp by (rewrite E; left). apply patterns_spec in Hp as [Hpe Hw].
    rewrite H in Hw; [done|by rewrite Hpe].
Qed.

(** A request reaches exactly the handler of its method and path. Whatever
    the method and the path, a handler is reached when, and only when, the path
    is the one of its pattern, with a name in place of the wildcard, and the
    method is the one of its pattern (or HEAD for GET); so two patterns never
    compete, a user named "limit" is only deleted by DELETE, and a path of the
    table asked for with another method is a 405. *)
Theorem routes_are_exact method path :
  (forall ep, routes method path = inr ep <->
    serves method (pattern_of ep).1 = true /\ path = (pattern_of ep).2 /\ from_option wild true (named ep) = true) /\
  (routes method path = inl 404%Z <-> forall ep, path = (pattern_of ep).2 -> from_option wild true (named ep) = false) /\
  (routes method path = inl 405%Z <->
    (exists ep, path = (pattern_of ep).2 /\ from_option wild true (named ep) = true) /\
    forall ep, path = (pattern_of ep).2 -> from_option wild true (named ep) = true -> serves method (pattern_of ep).1 = false).
Proof.
  assert (forall ep, routes method path = inr ep <-> snd <$> hit method path = Some ep) as Hr.
  { intros ep. rewrite routes_hit. destruct (snd <$> hit method path) as [ep'|]; split; by intros [= <-]. }
  assert (forall ep, routes method path = inr ep -> patterns path <> []) as Hhit.
  { intros ep (_ & Hp & Hw)%Hr%hit_spec E. rewrite no_patterns in E. by rewrite (E ep Hp) in Hw. }
  split; [intros ep; by rewrite Hr, hit_spec|]. rewrite <- no_patterns. split.
  - split; [|intros E; unfold routes; by rewrite E]. rewrite routes_hit. destruct (snd <$> _); [done|]. by case_decide.
  - split.
    + intros H. assert (patterns path <> []) as Hne by (intros E; unfold routes in H; by rewrite E in H). split.
      * destruct (patterns path) as [|[m ep] ps] eqn:E; [done|]. exists ep.
        assert ((m, ep) ∈ patterns path) as Hp by (rewrite E; left). apply patterns_spec in Hp as [Hpe Hw]. by rewrite Hpe.
      * intros ep Hp Hw. apply not_true_is_false. intros Hs.
        assert (routes method path = inr ep) as E by (by apply Hr, hit_spec). by rewrite H in E.
    + intros [(ep & Hp & Hw) Hno]. rewrite routes_hit. destruct (snd <$> hit method path) as [ep'|] eqn:Hh.
      * apply hit_spec in Hh as (Hs & Hp' & Hw'). by rewrite (Hno ep' Hp' Hw') in Hs.
      * rewrite decide_False; [done|]. intros E. rewrite no_patterns in E. by rewrite (E ep Hp) in Hw.
Qed.

(** The envelopes the panel accepts. *)
Definition accepted (rep : reply) : bool := match rep with Envelope success _ _ => success | _ => false end.

(** ** Every request is answered *)

(** An operation that answers or panics; no error value escapes it. *)
Definition calm {A} (m : M A) : Prop :=
  forall w, (exists a w', m w = (inr a, w')) \/ (exists p w', m w = (inl (Panic p), w')).

Lemma calm_answers {A} (m : M A) : answers m -> calm m.
Proof. intros H w. left. apply H. Qed.
Lemma calm_try_err {A} (m : M A) : calm (try_err m).
Proof. intros w. unfold try_err. destruct (m w) as [[[]|] w']; eauto. Qed.
Lemma calm_bind {A B} (m : M A) (k : A -> M B) : calm m -> (forall a, calm (k a)) -> calm (x <- m ;; k x).
Proof. intros Hm Hk w. rewrite bind_run. destruct (Hm w) as [(a & w1 & ->)|(p & w1 & ->)]; [apply Hk|eauto]. Qed.
Lemma calm_panic {A} p : calm (throw (Panic p) : M A).
Proof. intros w. right. eauto. Qed.

Lemma answers_gets {A} (f : World -> A) : answers (gets f).
Proof. intros w. by exists (f w), w. Qed.
Lemma answers_modify (f : World -> World) : answers (modify f).
Proof. intros w. by eexists _, _. Qed.

Create HintDb calm.
#[local] Hint Resolve answers_gets answers_modify : answers.
#[local] Hint Resolve calm_try_err calm_panic : calm.
#[local] Hint Extern 3 (calm _) => (apply calm_answers; solve [eauto with answers calm]) : calm.
Ltac calm_solve :=
  repeat match goal with
  | |- calm (mbind _ _) => apply calm_bind; [|intro]
  | |- calm (match ?x with _ => _ end) => destruct x
  | |- calm (let _ := _ in _) => cbv zeta
  | |- calm _ => solve [eauto with answers calm]
  end.

Lemma read_pid_answers : answers read_pid.
Proof. unfold read_pid. answer_solve. Qed.
Lemma OpenVPNIsRunning_answers e h : answers (OpenVPNIsRunning e h).
Proof. unfold OpenVPNIsRunning, openvpnPIDs. answer_solve. Qed.
Lemma readMarkers_answers : answers readMarkers.
Proof.
  assert (forall names, answers (collect_markers names)) as Hc.
  { induction names as [|n names IH]; cbn [collect_markers]; [apply answers_ret|]. unfold ReadMarker. answer_solve. }
  unfold readMarkers. answer_solve.
Qed.
Lemma sweep_answers cn idx ms : answers (sweep cn idx ms).
Proof. induction ms as [|m ms IH]; cbn [sweep]; [apply answers_ret|]. answer_solve. Qed.
Lemma Healthy_answers : answers Healthy.
Proof. unfold Healthy. answer_solve. Qed.
Lemma UpdateStatus_answers d held : answers (UpdateStatus d held).
Proof. unfold UpdateStatus. answer_solve. Qed.
Lemma ReadConfig_answers : answers ReadConfig.
Proof. unfold ReadConfig. answer_solve. Qed.
Lemma set_status_answers torn d s : answers (set_status torn d s).
Proof. unfold set_status. answer_solve. Qed.
Lemma CRLDaysRemaining_answers o : answers (CRLDaysRemaining o).
Proof. unfold CRLDaysRemaining. answer_solve. Qed.
Lemma NameMap_answers d : answers (NameMap d).
Proof.
  assert (forall cns m, answers (collect_names d cns m)) as Hc.
  { induction cns as [|cn cns IH]; intros m; cbn [collect_names]; [apply answers_ret|]. unfold ReadName. answer_solve. }
  unfold NameMap, NameCacheGet, NameCacheSet, ListUsers. answer_solve.
Qed.
Lemma TriggerUpdate_answers stat root starts torn d v held : answers (TriggerUpdate stat root starts torn d v held).
Proof. unfold TriggerUpdate. answer_solve; apply set_status_answers. Qed.
Lemma ReloadOpenVPN_answers mc : answers (ReloadOpenVPN mc).
Proof. unfold ReloadOpenVPN. answer_solve. Qed.
Lemma ChangeConfig_answers e h mc reaches apply req : answers (ChangeConfig e h mc reaches apply req).
Proof.
  assert (forall paths snaps, answers (snap_all snaps paths)) as Hs.
  { induction paths as [|p paths IH]; intros snaps; cbn [snap_all]; [apply answers_ret|]. unfold snap. answer_solve. }
  assert (forall ed snaps, answers (commit e h mc reaches apply ed snaps)) as Hcm.
  { intros ed snaps. assert (forall s, answers (restore s)) by (intros sn; unfold restore; answer_solve).
    unfold commit, restoreSnapshots. answer_solve; apply invalidate_answers || apply activate_answers. }
  assert (forall s, answers (cleanup s)) as Hcl by (intros s; unfold cleanup; answer_solve).
  intros w. destruct (config_run e h mc reaches apply req w) as [[c Hc]|(cur & pl & ed & _ & _ & _ & [[_ H]|[_ H]])]; [eauto|eauto|].
  rewrite H. assert (answers (snaps <- snap_all [] (snapshot_paths ed) ;;
    answer <- commit e h mc reaches apply ed snaps ;; for_each cleanup (rev snaps) ;; mret answer)) as Hall by answer_solve.
  apply Hall.
Qed.

Section crypto.
Context `{Crypto}.

Lemma CertExpiry_answers p : answers (CertExpiry p).
Proof. unfold CertExpiry. answer_solve. Qed.
Lemma CRLMatchesCA_answers : answers CRLMatchesCA.
Proof. unfold CRLMatchesCA. answer_solve. Qed.
Lemma RegenerateCRL_answers : answers RegenerateCRL.
Proof. unfold RegenerateCRL. answer_solve. Qed.
End crypto.

Lemma ParseSessions_calm p : calm (ParseSessions p).
Proof. unfold ParseSessions, open_status. calm_solve. Qed.
Lemma DisconnectUser_calm status mc up cn only : calm (DisconnectUser status mc up cn only).
Proof.
  unfold DisconnectUser. apply calm_bind; [apply ParseSessions_calm|]. intros sessions. cbv zeta.
  destruct only; [calm_solve; apply calm_answers; [apply readMarkers_answers|apply sweep_answers]|].
  unfold killSessions. calm_solve.
Qed.
Lemma readHookEvents_answers e c hours : answers (readHookEvents e c hours).
Proof. unfold readHookEvents. answer_solve. Qed.
Lemma saveTLSSeen_answers e next : answers (saveTLSSeen e next).
Proof. unfold saveTLSSeen. answer_solve. Qed.
#[local] Hint Resolve saveTLSSeen_answers : answers.
Lemma openvpnLogEvents_answers e local order hours : answers (openvpnLogEvents e local order hours).
Proof. unfold openvpnLogEvents, openvpnLogLines, loadTLSSeen. answer_solve. Qed.
Lemma mgmtAvailable_answers e h mc d : answers (mgmtAvailable e h mc d).
Proof.
  assert (answers (probeManagement e h mc)) as Hp.
  { unfold probeManagement. answer_solve. }
  unfold mgmtAvailable. answer_solve.
Qed.
#[local] Hint Resolve readHookEvents_answers openvpnLogEvents_answers mgmtAvailable_answers NameMap_answers readMarkers_answers : calm.
Lemma UserDiagnostics_calm e h mc status usersDir local order clock d cn hours :
  calm (UserDiagnostics e h mc status usersDir local order clock d cn hours).
Proof.
  unfold UserDiagnostics, managementAvailable. apply calm_bind; [apply ParseSessions_calm|]. intros sessions.
  cbv zeta. calm_solve.
Qed.

Section serve.
Context `{Crypto} (st : site).

Lemma log_answers level where_ msg s : answers (log st level where_ msg s).
Proof. unfold log. answer_solve. Qed.
Lemma log_keeps level where_ msg s : evolves eq (log st level where_ msg s).
Proof. unfold log. evolve_solve. Qed.

Lemma recovery_answers s next : calm next -> answers (recoveryMiddleware st s next).
Proof.
  intros Hc w. unfold recoveryMiddleware. destruct (Hc w) as [(a & w' & ->)|(p & w' & ->)]; [eauto|].
  assert (answers (s <- log st "ERROR" "server.go:106" ("http handler panic: runtime error: " +:+ p) s ;;
                   mret (writeFail "internal server error", s))) as Ha by (answer_solve; apply log_answers).
  apply Ha.
Qed.

Lemma authorize_answers sha order key r heavy l : answers (authorize sha order key r heavy l).
Proof.
  intros w. pose proof (authorize_screen sha order key r heavy l w) as H0. destruct (screen _ _ _ _ _ _ _) as [v l'].
  destruct H0 as (v' & w' & H0 & _). eauto.
Qed.

Lemma authorized_answers heavy r s k : (forall s, calm (k s)) -> answers (authorized st heavy r s k).
Proof.
  intros Hk. unfold authorized. apply answers_bind; [apply authorize_answers|]. intros [v l]. cbn [fst snd].
  destruct v; [by apply recovery_answers|apply answers_ret].
Qed.

#[local] Hint Resolve log_answers OpenVPNIsRunning_answers Healthy_answers CertExpiry_answers CRLMatchesCA_answers
  CRLDaysRemaining_answers UpdateStatus_answers ReadConfig_answers ChangeConfig_answers TriggerUpdate_answers
  RegenerateCRL_answers ReloadOpenVPN_answers : calm.

Lemma restart_calm e h mc : calm (RestartOpenVPN e h mc).
Proof. apply calm_answers, restart_answers. Qed.
Lemma delete_calm d root status mc up wt cn : calm (DeleteUser d root status mc up wt cn).
Proof. unfold DeleteUser. calm_solve. Qed.
Lemma bulk_calm items : calm (bulk_limits st items).
Proof. induction items as [|item items IH]; cbn [bulk_limits]; unfold set_limit; calm_solve. Qed.
#[local] Hint Resolve restart_calm delete_calm bulk_calm DisconnectUser_calm UserDiagnostics_calm : calm.

Lemma dispatch_answers ep r s : answers (dispatch st ep r s).
Proof.
  destruct ep; cbn [dispatch]; [apply answers_ret|..];
    first [unfold handleStatus | unfold handleUsage | unfold handleSessions | unfold handleLogs | unfold handleConfigGet
    | unfold handleConfigPost | unfold handleRestart | unfold handleRenewCert | unfold handleUpdate | unfold handleUserCreate
    | unfold handleUserStatus | unfold handleUserLimit | unfold handleUserDelete | unfold handleUserDisconnect
    | unfold handleResetUsage | unfold handleDownloadOVPN | unfold handleBulkLimits | unfold handlePushCreds | unfold handlePushPKI ];
    apply authorized_answers; intros s1; unfold with_body, with_uid, push_pki, put_limit, running, TreeOpenVPNRunning, set_limit, follow_push; calm_solve.
Qed.

Lemma serve_eq r s :
  serve st r s = match routes (ht_method r) (ht_path r) with inl code => mret (NoRoute code, s) | inr ep => dispatch st ep r s end.
Proof. done. Qed.

Lemma serve_answers r s : answers (serve st r s).
Proof. unfold serve. destruct (routes _ _); [apply answers_ret|apply dispatch_answers]. Qed.

End serve.
