(* ===== verification/ApiMemory.v ===== *)
(** * ApiMemory: what the process keeps between two requests is bounded. *)

From S2P Require Import Prelude GoString Json Names Cache World Evolve RateLimit RateProps Pairing Auth Config Pki PkiDemo UserPolicy Mgmt Disconnect Users UsersProps Float Ring Sysinfo Perms Control Events Diag Updater Body Api ApiDemo ApiProps.
From Stdlib Require Import Ascii.

#[local] Set Default Proof Using "Type*".

(** ** The limiter *)

Definition short (max : Z) (m : gmap string bucket) : Prop := forall k b, m !! k = Some b -> (len (b_ts b) <= max)%Z.

(** At most [maxBuckets] callers per table and no more stamps than a limit
    lets through. *)
Record bounded_limiter (l : Limiter) : Prop := {
  bl_buckets : (msize (l_buckets l) <= maxBuckets)%Z /\ short maxRequests (l_buckets l);
  bl_heavy : (msize (l_heavy l) <= maxBuckets)%Z /\ short heavyMax (l_heavy l);
  bl_failed : (msize (l_failed l) <= maxBuckets)%Z /\ short failedMax (l_failed l);
  bl_global : (len (b_ts (l_global l)) <= globalMax)%Z
}.
(** A limiter with room for one more caller in every table. *)
Record roomy (l : Limiter) : Prop := {
  rm_buckets : (msize (l_buckets l) < maxBuckets)%Z;
  rm_heavy : (msize (l_heavy l) < maxBuckets)%Z;
  rm_failed : (msize (l_failed l) < maxBuckets)%Z
}.

Lemma drop_expired_le now w ts : (len (drop_expired now w ts) <= len ts)%Z.
Proof.
  induction ts as [|t ts IH]; [done|]. cbn [drop_expired]. destruct (_ <=? _)%Z; [|done].
  unfold len in *. cbn [length]. lia.
Qed.

Lemma size_deletes ks (m : gmap string bucket) : NoDup ks -> (forall k, k ∈ ks -> is_Some (m !! k)) ->
  size (foldl (fun m k => delete k m) m ks) = (size m - length ks)%nat.
Proof.
  revert m. induction ks as [|k ks IH]; intros m Hnd Hin; [cbn; lia|]. apply NoDup_cons in Hnd as [Hk Hnd]. cbn [foldl length].
  assert (is_Some (m !! k)) as [b Hb] by (apply Hin; left). rewrite IH; [|done|].
  - rewrite map_size_delete, Hb. assert (size m <> 0%nat) by (intros H0; apply map_size_empty_inv in H0; by subst).
    cbn. lia.
  - intros k' Hk'. rewrite lookup_delete_ne by (by intros ->). apply Hin. by right.
Qed.

Lemma short_deletes max ks m : short max m -> short max (foldl (fun m k => delete k m) m ks).
Proof.
  revert m. induction ks as [|k ks IH]; intros m Hm; [done|]. cbn [foldl]. apply IH. intros k' b.
  rewrite lookup_delete_Some. intros [_ H]. by apply (Hm k').
Qed.

Lemma short_insert max m k b : short max m -> (len (b_ts b) <= max)%Z -> short max (<[k:=b]> m).
Proof. intros Hm Hb k' b'. rewrite lookup_insert_Some. intros [[_ <-]|[_ H]]; [done|by apply (Hm k')]. Qed.

Lemma msize_insert m k b : (msize (<[k:=b]> m) <= msize m + 1)%Z.
Proof. unfold msize. rewrite map_size_insert. destruct (m !! k); simpl; lia. Qed.

Section limiter.
Context (sha : string -> string) (order : gmap string bucket -> list string).
Context (Horder : forall m, order m ≡ₚ (map_to_list m).*1).

Lemma evict_room m : (msize (evict order m) < maxBuckets)%Z.
Proof.
  unfold evict. destruct (Z.ltb_spec (msize m) maxBuckets) as [|Hge]; [done|]. cbv zeta.
  set (target := (maxBuckets - maxBuckets / 10)%Z). set (keys := merge_sort (last_le m) (order m)).
  assert (keys ≡ₚ (map_to_list m).*1) as Hk by (unfold keys; by rewrite merge_sort_Permutation).
  assert (length keys = size m) as Hlen by (by rewrite Hk, length_fmap, length_map_to_list).
  assert (target = 9000%Z) as Ht by (by vm_compute). unfold msize. rewrite size_deletes.
  - rewrite length_take, Hlen. unfold msize, maxBuckets in *. lia.
  - eapply sublist_NoDup; [|apply sublist_take]. rewrite Hk. apply NoDup_fst_map_to_list.
  - intros k Hin. apply elem_of_take in Hin as (i & Hi & _). apply list_elem_of_lookup_2 in Hi. rewrite Hk in Hi.
    apply list_elem_of_fmap in Hi as ([k' b] & -> & Hi). apply elem_of_map_to_list in Hi. by exists b.
Qed.

Lemma evict_short max m : short max m -> short max (evict order m).
Proof. intros Hm. unfold evict. destruct (_ <? _)%Z; [done|]. cbv zeta. by apply short_deletes. Qed.

Lemma pruneMap_room now w m : (msize (pruneMap order now w m) < maxBuckets)%Z.
Proof. apply evict_room. Qed.

Lemma pruneMap_short max now w m : short max m -> short max (pruneMap order now w m).
Proof.
  intros Hm. unfold pruneMap. apply evict_short. intros k b. rewrite map_lookup_filter_Some, lookup_fmap, fmap_Some.
  intros [(b0 & Hb0 & ->) _]. cbn. specialize (Hm _ _ Hb0). pose proof (drop_expired_le now w (b_ts b0)). lia.
Qed.

Lemma prune_bounded now l : bounded_limiter l -> bounded_limiter (prune order now l) /\ roomy (prune order now l).
Proof.
  intros Hb. unfold prune. destruct (_ && _ && _ && _) eqn:Hg; [split; [done|]; boolify; by split|].
  destruct Hb as [[_ H1] [_ H2] [_ H3] H4].
  split; (split; cbn [l_buckets l_heavy l_failed l_global]).
  all: try apply pruneMap_room.
  1-3: split; [apply Z.lt_le_incl, pruneMap_room|by apply pruneMap_short].
  cbn. pose proof (drop_expired_le now window (b_ts (l_global l))). lia.
Qed.

Lemma charge_short w max now b : (0 < max)%Z -> (len (b_ts b) <= max)%Z -> (len (b_ts (charge w max now b).2) <= max)%Z.
Proof.
  intros Hm Hb. unfold charge. cbv zeta. pose proof (drop_expired_le now w (b_ts b)).
  destruct (Z.leb_spec max (len (b_ts (trimExpired b now w)))); cbn [snd b_ts]; [cbn in *; lia|]. rewrite len_app. cbn in *.
  unfold len at 2. cbn [length]. lia.
Qed.

Lemma default_short max m k : (0 <= max)%Z -> short max m -> (len (b_ts (default no_bucket (m !! k))) <= max)%Z.
Proof. intros H0 Hm. destruct (m !! k) as [b|] eqn:E; [by apply (Hm k)|]. cbn. unfold len. cbn. lia. Qed.

Lemma inserted_bounded max now w m k : (0 < max)%Z -> (msize m < maxBuckets)%Z -> short max m ->
  (msize (<[k := (charge w max now (default no_bucket (m !! k))).2]> m) <= maxBuckets)%Z /\
  short max (<[k := (charge w max now (default no_bucket (m !! k))).2]> m).
Proof.
  intros H0 Hs Hm. split; [pose proof (msize_insert m k (charge w max now (default no_bucket (m !! k))).2); lia|].
  apply short_insert; [done|]. apply charge_short; [done|]. apply default_short; [lia|done].
Qed.

(** A request is counted, and leaves room for a recorded failure. *)
Lemma Allow_bounded client now l : bounded_limiter l ->
  let l' := (Allow sha order client now l).2 in bounded_limiter l' /\ (msize (l_failed l') < maxBuckets)%Z.
Proof.
  intros Hb. unfold Allow. cbv zeta. destruct (prune_bounded now l Hb) as [[[_ H1] H2 H3 H4] [R1 R2 R3]].
  pose proof (inserted_bounded maxRequests now window _ (keyFor sha client) ltac:(done) R1 H1) as Hi.
  destruct (charge _ _ _ _) as [[ok retry] b] eqn:E. cbn [snd] in Hi. set (l1 := mkLimiter _ _ _ _ _).
  assert (bounded_limiter l1) as Hl1 by (by split).
  destruct ok; cbn [snd]; [|by split]. destruct (prune_bounded now l1 Hl1) as [? []]. by split.
Qed.

Lemma FailedBlocked_bounded client now l : bounded_limiter l -> (msize (l_failed l) < maxBuckets)%Z ->
  let l' := (FailedBlocked sha client now l).2 in bounded_limiter l' /\ (msize (l_failed l') < maxBuckets)%Z.
Proof.
  intros [H1 H2 [H3 H3'] H4] Hr. unfold FailedBlocked. cbv zeta. destruct (l_failed l !! keyFor sha client) as [b|] eqn:E; [|by split].
  set (b' := trimExpired b now failedWindow).
  assert (msize (<[keyFor sha client := b']> (l_failed l)) = msize (l_failed l)) as Hs.
  { unfold msize. by rewrite map_size_insert, E. }
  assert (bounded_limiter (set_failed (<[keyFor sha client := b']> (l_failed l)) l)) as Hb.
  { split; try done. cbn [l_failed set_failed]. split; [by rewrite Hs|]. apply short_insert; [done|].
    specialize (H3' _ _ E). pose proof (drop_expired_le now failedWindow (b_ts b)). cbn. lia. }
  destruct (_ <=? _)%Z; (split; [done|]); cbn [l_failed set_failed snd]; by rewrite Hs.
Qed.

(** A failure is recorded for a caller that is not locked out. *)
Lemma RecordFailedAuth_bounded client now l : bounded_limiter l -> (msize (l_failed l) < maxBuckets)%Z ->
  (len (ts_of (l_failed l) (keyFor sha client)) < failedMax)%Z -> bounded_limiter (RecordFailedAuth sha client now l).
Proof.
  intros [H1 H2 [H3 H3'] H4] Hr Hlen. unfold RecordFailedAuth. cbv zeta. split; try done. cbn [l_failed set_failed].
  set (b := default no_bucket (l_failed l !! keyFor sha client)). split.
  - eapply Z.le_trans; [apply msize_insert|]. lia.
  - apply short_insert; [done|]. cbn [b_ts]. rewrite len_app. pose proof (drop_expired_le now failedWindow (b_ts b)).
    assert (len (b_ts b) < failedMax)%Z.
    { revert Hlen. unfold ts_of, b. by destruct (l_failed l !! _). }
    cbn. unfold len at 2. cbn [length]. lia.
Qed.

Lemma AllowGlobal_bounded now l : bounded_limiter l -> bounded_limiter (AllowGlobal order now l).2.
Proof.
  intros Hb. unfold AllowGlobal. cbv zeta. destruct (prune_bounded now l Hb) as [[H1 H2 H3 H4] _].
  pose proof (drop_expired_le now window (b_ts (l_global (prune order now l)))).
  destruct (Z.leb_spec globalMax (len (b_ts (trimExpired (l_global (prune order now l)) now window)))); cbn [snd]; split; try done;
    cbn [l_global b_ts]; [cbn in *; lia|]. rewrite len_app. cbn in *. unfold len at 2. cbn [length]. lia.
Qed.

Lemma AllowHeavy_bounded client now l : bounded_limiter l -> bounded_limiter (AllowHeavy sha order client now l).2.
Proof.
  intros Hb. unfold AllowHeavy. cbv zeta. destruct (prune_bounded now l Hb) as [[H1 [_ H2] H3 H4] [R1 R2 R3]].
  pose proof (inserted_bounded heavyMax now window _ (keyFor sha client) ltac:(done) R2 H2) as Hi.
  destruct (charge _ _ _ _) as [[ok retry] b] eqn:E. cbn [snd] in Hi |- *. by split.
Qed.

Lemma screen_bounded apiKey r heavy now l : bounded_limiter l -> bounded_limiter (screen sha order apiKey r heavy now l).2.
Proof.
  intros Hb. unfold screen. destruct (_ <? 16)%Z; [done|]. destruct (str_empty (rq_key r)); [done|]. cbv zeta.
  pose proof (Allow_bounded (clientAddr r) now l Hb) as [H1 R1]. destruct (Allow _ _ _ _ _) as [[ok retry] l1]. cbn [snd] in *.
  destruct ok; [|done]. cbn [negb].
  pose proof (FailedBlocked_bounded (clientAddr r) now l1 H1 R1) as [H2 R2].
  destruct (FailedBlocked sha (clientAddr r) now l1) as [[blocked retry1] l2] eqn:Hf. cbn [snd] in *. destruct blocked; [done|].
  destruct (negb (keyEqual _ _ _)); [by apply RecordFailedAuth_bounded; try done; eapply FailedBlocked_open|].
  pose proof (AllowGlobal_bounded now l2 H2) as H3. destruct (AllowGlobal _ _ _) as [[ok retry2] l3]. cbn [snd] in *.
  destruct ok; [|done]. cbn [negb]. destruct heavy; [|done].
  pose proof (AllowHeavy_bounded (clientAddr r) now l3 H3) as H4. destruct (AllowHeavy _ _ _ _ _) as [[ok retry3] l4].
  by destruct ok.
Qed.
End limiter.

(** ** The process *)

Record bounded_srv (s : srv) : Prop := {
  bs_limiter : bounded_limiter (sv_limiter s);
  bs_ring : (length (dg_ring (sv_diag s)) <= RingSize)%nat
}.

Lemma emit_bounded clock level where_ msg now records :
  (length (emit clock level where_ msg now records) <= RingSize)%nat.
Proof. unfold emit. rewrite add_tail, length_tail. lia. Qed.

Lemma diagnostics_ring e h mc status usersDir local order clock d cn hours w x d' w' :
  UserDiagnostics e h mc status usersDir local order clock d cn hours w = (inr (x, d'), w') ->
  (length (dg_ring d) <= RingSize)%nat -> (length (dg_ring d') <= RingSize)%nat.
Proof.
  assert (forall d w a d' w', mgmtAvailable e h mc d w = (inr (a, d'), w') -> dg_ring d' = dg_ring d) as Hm.
  { intros d0 w0 a d1 w1 Hrun. unfold mgmtAvailable in Hrun. apply bind_inr in Hrun as (now & w2 & _ & Hrun).
    assert (forall r, (v <- probeManagement e h mc ;; mret (v, set_mgmt (Some (v, now)) d0)) w2 = (inr r, w1) -> dg_ring r.2 = dg_ring d0) as Hp.
    { intros r Hr. apply bind_inr in Hr as (v & w3 & _ & [= <- _]). done. }
    destruct (dg_mgmt d0) as [[v at_]|]; [destruct (_ <? _)%Z; [by injection Hrun as _ <- _|]|]; by apply Hp in Hrun. }
  intros Hrun Hr. unfold UserDiagnostics, managementAvailable in Hrun.
  apply bind_inr in Hrun as (sessions & w1 & _ & Hrun). apply bind_inr in Hrun as (markers & w2 & _ & Hrun). cbv zeta in Hrun.
  apply bind_inr in Hrun as (ev & w3 & _ & Hrun). apply bind_inr in Hrun as (tls & w4 & _ & Hrun).
  apply bind_inr in Hrun as ([usable d1] & w5 & H1 & Hrun). apply bind_inr in Hrun as (now & w6 & _ & Hrun).
  apply bind_inr in Hrun as (names & w7 & _ & Hrun). apply bind_inr in Hrun as ([again d2] & w8 & H2 & Hrun).
  apply Hm in H1, H2. cbn [snd fst] in *. injection Hrun as _ <- _. rewrite H2. destruct usable; [by rewrite H1|].
  unfold warnManagementUnavailable. destruct (dg_warned d1); [by rewrite H1|]. apply emit_bounded.
Qed.

(** A handler keeps what the process holds within its bounds. *)
Definition keeping (P : srv -> Prop) (m : M (reply * srv)) : Prop := forall w rep s' w', m w = (inr (rep, s'), w') -> P s'.

Section keeping.
Context (l : Limiter).
Definition within_bounds (s : srv) : Prop := sv_limiter s = l /\ (length (dg_ring (sv_diag s)) <= RingSize)%nat.

Lemma keeping_ret rep s : within_bounds s -> keeping within_bounds (mret (rep, s)).
Proof. by intros Hs w rep' s' w' [= _ <- _]. Qed.
Lemma keeping_bind {A} (m : M A) k : (forall a, keeping within_bounds (k a)) -> keeping within_bounds (x <- m ;; k x).
Proof. intros Hk w rep s' w' Hrun. apply bind_inr in Hrun as (a & w1 & _ & Hrun). by apply (Hk a w1 rep s' w'). Qed.
Lemma keeping_srv (m : M srv) k : (forall w s w', m w = (inr s, w') -> within_bounds s) ->
  (forall s, within_bounds s -> keeping within_bounds (k s)) -> keeping within_bounds (s <- m ;; k s).
Proof.
  intros Hm Hk w rep s' w' Hrun. apply bind_inr in Hrun as (s & w1 & Hs & Hrun). apply (Hk s (Hm _ _ _ Hs) w1 rep s' w' Hrun).
Qed.
Lemma log_within st level where_ msg s w s' w' : within_bounds s -> log st level where_ msg s w = (inr s', w') -> within_bounds s'.
Proof. intros [Hl _] [= <- _]. split; [done|apply emit_bounded]. Qed.
Lemma ret_within s w s' w' : within_bounds s -> (mret s : M srv) w = (inr s', w') -> within_bounds s'.
Proof. by intros Hs [= <- _]. Qed.
End keeping.

Ltac keep_step :=
  match goal with
  | |- forall _, _ => intro
  | |- keeping _ (mret _) => apply keeping_ret; done
  | |- keeping _ (s <- log _ _ _ _ _ ;; _) => apply keeping_srv; [intros ? ? ?; by apply log_within|]
  | |- keeping _ (mbind _ _) => apply keeping_bind
  | |- keeping _ (match ?x with _ => _ end) => destruct x
  | |- keeping _ (let _ := _ in _) => cbv zeta
  end.

Section serve.
Context `{Crypto} (st : site).
Context (Horder : forall m, st_buckets st m ≡ₚ (map_to_list m).*1).

Lemma recovery_within l s next : within_bounds l s -> keeping (within_bounds l) next ->
  keeping (within_bounds l) (recoveryMiddleware st s next).
Proof.
  intros Hs Hn w rep s' w' Hrun. unfold recoveryMiddleware in Hrun.
  destruct (next w) as [[[]|[rep1 s1]] w1] eqn:E; try done; [|simplify_eq; by apply (Hn w rep s' w')].
  apply bind_inr in Hrun as (s2 & w2 & Hlog & [= _ <- _]). by apply (log_within l _ _ _ _ _ _ _ _ Hs Hlog).
Qed.

Lemma authorized_bounded heavy r s k :
  (forall l s, within_bounds l s -> keeping (within_bounds l) (k s)) -> bounded_srv s -> keeping bounded_srv (authorized st heavy r s k).
Proof.
  intros Hk [Hl Hr] w rep s' w' Hrun. unfold authorized in Hrun. apply bind_inr in Hrun as ([v l] & w1 & Ha & Hrun).
  cbn [fst snd] in Hrun.
  assert (bounded_limiter l) as Hl'.
  { pose proof (authorize_screen (st_sha st) (st_buckets st) (st_api_key st) (ht_auth r) heavy (sv_limiter s) w) as Hs.
    pose proof (screen_bounded (st_sha st) (st_buckets st) Horder (st_api_key st) (ht_auth r) heavy (w_now w) _ Hl) as Hb.
    destruct (screen _ _ _ _ _ _ _) as [v0 l0]. destruct Hs as (v1 & w2 & Ha' & _). rewrite Ha in Ha'. by simplify_eq. }
  assert (within_bounds l (set_limiter l s)) as Hw by done.
  destruct v; [|injection Hrun as _ <- _; by split].
  destruct (recovery_within l _ _ Hw (Hk l _ Hw) _ _ _ _ Hrun) as [<- Hr']. by split.
Qed.

Lemma within_cpu l c s : within_bounds l s -> within_bounds l (set_cpu c s).
Proof. done. Qed.
Lemma within_update l u s : within_bounds l s -> within_bounds l (set_update u s).
Proof. done. Qed.

Lemma sessions_within l r s : within_bounds l s -> keeping (within_bounds l)
  (d <- UserDiagnostics (st_env st) (st_host st) (st_mgmt st) (st_status st) (st_users st) (st_local st) (st_keys st) (st_clock st)
          (sv_diag s) (query r "common_name") (asked_hours (query r "hours")) ;;
   mret (writeOK "Session diagnostics retrieved successfully" (PDiagnostics d.1), set_diag d.2 s)).
Proof.
  intros [Hl Hr] w rep s' w' Hrun. apply bind_inr in Hrun as ([x d] & w1 & Hd & [= _ <- _]). split; [done|].
  cbn. by apply diagnostics_ring in Hd.
Qed.

Lemma follow_within l s : within_bounds l s -> keeping (within_bounds l) (follow_push st s).
Proof.
  intros Hs. unfold follow_push. do 2 (apply keeping_bind; intro). apply keeping_srv.
  { intros w s1 w1. destruct (_ : bool); [by apply ret_within|by apply log_within]. }
  intros s1 Hs1. apply keeping_bind; intro. apply keeping_srv; [|repeat keep_step].
  intros w s2 w1. destruct (_ : bool); [by apply ret_within|]. intros Hrun. apply bind_inr in Hrun as (h & w2 & _ & Hrun).
  destruct h; [|by apply (log_within l _ _ _ _ _ _ _ _ Hs1 Hrun)]. apply bind_inr in Hrun as (b & w3 & _ & [= <- _]). done.
Qed.

Lemma dispatch_bounded ep r s : bounded_srv s -> keeping bounded_srv (dispatch st ep r s).
Proof.
  intros Hs. destruct ep; cbn [dispatch].
  1: { intros w rep s' w' [= _ <- _]. done. }
  all: first [unfold handleStatus | unfold handleUsage | unfold handleSessions | unfold handleLogs | unfold handleConfigGet
    | unfold handleConfigPost | unfold handleRestart | unfold handleRenewCert | unfold handleUpdate | unfold handleUserCreate
    | unfold handleUserStatus | unfold handleUserLimit | unfold handleUserDelete | unfold handleUserDisconnect
    | unfold handleResetUsage | unfold handleDownloadOVPN | unfold handleBulkLimits | unfold handlePushCreds | unfold handlePushPKI ];
    apply authorized_bounded; [|done]; intros l s1 Hs1; unfold with_body, with_uid, push_pki, put_limit; try by apply sessions_within.
  all: repeat keep_step; by apply follow_within.
Qed.

#[local] Opaque dispatch routes serve.
Lemma serve_bounded r s : bounded_srv s -> keeping bounded_srv (serve st r s).
Proof.
  intros Hs w rep s' w' E. rewrite serve_eq in E. destruct (routes _ _); [injection E as _ <- _; done|].
  by apply (dispatch_bounded _ _ _ Hs _ _ _ _ E).
Qed.

End serve.

(** The server starts within the bounds. *)
Lemma new_bounded : bounded_srv demo_srv.
Proof. split; [|cbn; unfold RingSize; lia]. split; cbn; [split; [done|by intros k b]..|done]. Qed.

