(* ===== verification/ApiGate.v ===== *)
(** * ApiGate: who is served, what a poll may change, and what the process keeps
    in memory. *)

From S2P Require Import Prelude GoString Json Time Names Cache World Evolve Counter CounterSpec Markers RateLimit RateProps Pairing Auth Config PkiIndex Pki PkiDemo UserPolicy Status Mgmt Hooks HookProps Disconnect Usage Accounting UsageProps Users Node UsersProps Float Ring Sysinfo Perms Migrate Control ControlProps Events Diag DiagProps Expiry ServerConf Updater Body Api ApiDemo ApiProps.
From Stdlib Require Import Ascii.

#[local] Set Default Proof Using "Type*".

(** ** The gate *)

Definition heavy_of (ep : endpoint) : bool :=
  match ep with
  | Restart | RenewCert | Update | UserCreate | UserDelete _ | DownloadOVPN _ | PushPKI => true
  | _ => false
  end.

Definition lease_files (l : loc) : Prop := l = pairingPath \/ l = pairing_lock.

Lemma Enforce_stays p : evolves (stays lease_files) (Enforce p).
Proof.
  unfold Enforce, read_pairing, enforce_body. evolve_solve; [by right|apply stays_write; by left].
Qed.

Lemma authorize_stays sha order key r heavy l : evolves (stays lease_files) (authorize sha order key r heavy l).
Proof.
  unfold authorize. evolve_solve; apply Enforce_stays.
Qed.

(** What a request without the key may get. *)
Definition unserved (rep : reply) : Prop :=
  match rep with
  | Denied v => v <> Granted
  | NoRoute _ => True
  | Envelope _ _ (PHealth _) => True
  | _ => False
  end.

Section gate.
Context `{Crypto} (st : site).

(** Every handler but the probe is behind the gate. *)
Lemma dispatch_gate ep r s : ep <> Health -> exists k, dispatch st ep r s = authorized st (heavy_of ep) r s k.
Proof. intros Hne. destruct ep; (done || (eexists; reflexivity)). Qed.

Lemma dispatch_health r s w : dispatch st Health r s w = (inr (writeOK "ok" (PHealth "ok"), s), w).
Proof. done. Qed.

#[local] Opaque dispatch routes serve.

Lemma authorized_run heavy r s k w :
  exists v l w1, authorize (st_sha st) (st_buckets st) (st_api_key st) (ht_auth r) heavy (sv_limiter s) w = (inr (v, l), w1) /\
    authorized st heavy r s k w =
      match v with Granted => recoveryMiddleware st (set_limiter l s) (k (set_limiter l s)) w1 | _ => (inr (Denied v, set_limiter l s), w1) end.
Proof.
  destruct (authorize_answers (st_sha st) (st_buckets st) (st_api_key st) (ht_auth r) heavy (sv_limiter s) w) as ([v l] & w1 & E).
  exists v, l, w1. split; [done|]. unfold authorized. rewrite bind_run, E. by destruct v.
Qed.

Lemma wrong_key_refused r heavy l w v l' w' :
  st_sha st (rq_key r) <> st_sha st (st_api_key st) ->
  authorize (st_sha st) (st_buckets st) (st_api_key st) r heavy l w = (inr (v, l'), w') -> v <> Granted /\ w' = w.
Proof.
  intros Hk Hrun. pose proof (authorize_screen (st_sha st) (st_buckets st) (st_api_key st) r heavy l w) as Ha.
  pose proof (screen_passes (st_sha st) (st_buckets st) (st_api_key st) r heavy (w_now w) l) as Hp.
  destruct (screen _ _ _ _ _ _ _) as [[v0|] l0]; destruct Ha as (v1 & w1 & Hrun' & _ & Hv); rewrite Hrun in Hrun'; simplify_eq.
  - by destruct Hv as [-> ->].
  - by destruct Hp as [? _].
Qed.

Lemma gated ep r s w v l w1 k :
  authorize (st_sha st) (st_buckets st) (st_api_key st) (ht_auth r) (heavy_of ep) (sv_limiter s) w = (inr (v, l), w1) ->
  v <> Granted -> authorized st (heavy_of ep) r s k w = (inr (Denied v, set_limiter l s), w1).
Proof. intros E Hv. unfold authorized. rewrite bind_run, E. by destruct v. Qed.

(** C2: nothing is done for a caller the gate refuses. Without the node's key
    (and where no other key has its digest) a request gets a refusal, a missing
    route or the health probe, and leaves the node as it was, whichever route
    and body it chose; and whatever the reason of a refusal is, the handler of
    the route is not entered: the answer is the verdict, the process keeps only
    the counts of the limiter, and the files the lease of the panel. *)
Theorem refused_caller_changes_nothing r s w rep s' w' :
  serve st r s w = (inr (rep, s'), w') ->
  (st_sha st (rq_key (ht_auth r)) <> st_sha st (st_api_key st) ->
   unserved rep /\ w' = w /\ s' = set_limiter (sv_limiter s') s) /\
  (forall ep v l w1, routes (ht_method r) (ht_path r) = inr ep -> ep <> Health ->
   authorize (st_sha st) (st_buckets st) (st_api_key st) (ht_auth r) (heavy_of ep) (sv_limiter s) w = (inr (v, l), w1) ->
   v <> Granted -> rep = Denied v /\ s' = set_limiter l s /\ stays lease_files w w').
Proof.
  intros Hrun. assert (forall s0, s0 = set_limiter (sv_limiter s0) s0) as Heta by (by intros []). rewrite serve_eq in Hrun.
  destruct (routes (ht_method r) (ht_path r)) as [code|ep]; [injection Hrun as <- <- <-; by split|]. split.
  - intros Hk. assert (ep = Health \/ ep <> Health) as [->|Hne] by (destruct ep; first [by left|by right]); [rewrite dispatch_health in Hrun; injection Hrun as <- <- <-; by split|].
    destruct (dispatch_gate ep r s Hne) as [k Hd]. rewrite Hd in Hrun.
    destruct (authorized_run (heavy_of ep) r s k w) as (v & l & w1 & Ha & _).
    destruct (wrong_key_refused _ _ _ _ _ _ _ Hk Ha) as [Hv ->].
    rewrite (gated ep r s w v l w k Ha Hv) in Hrun. injection Hrun as <- <- <-. by destruct s.
  - intros ep' v l w1 [= <-] Hne Ha Hv. destruct (dispatch_gate ep r s Hne) as [k Hd]. rewrite Hd, (gated _ _ _ _ _ _ _ _ Ha Hv) in Hrun.
    injection Hrun as <- <- <-. split; [done|]. split; [done|].
    pose proof (authorize_stays (st_sha st) (st_buckets st) (st_api_key st) (ht_auth r) (heavy_of ep) (sv_limiter s) w) as Hs.
    by rewrite Ha in Hs.
Qed.
End gate.

(** ** Polls *)

(** The files a poll may write: the lease, the counters of the users, the
    lock of a session table, and what the node remembers of the TLS failures. *)
Definition poll_files (e : environ) (l : loc) : Prop :=
  lease_files l \/ (exists f, l = LUsage f) \/ (exists cn, l = LSession (".lock." +:+ cn)) \/ l = tlsSeenPath e \/
  exists k, l = sibling (tlsSeenPath e) (".tls_seen-" +:+ itoa (Z.of_nat k)).

Lemma save_frames (L : loc -> Prop) e next :
  L (tlsSeenPath e) -> (forall k, L (sibling (tlsSeenPath e) (".tls_seen-" +:+ itoa (Z.of_nat k)))) -> evolves (frames L) (saveTLSSeen e next).
Proof.
  intros Hp Ht. unfold saveTLSSeen. apply evolves_bind; [apply _|evolve_solve|]. intros [|]; [evolve_solve|]. intros w.
  apply evolves_bind_at; [apply _|by apply evolves_try, frames_create_temp; first [apply _|done]|].
  intros r w1 Hr. rewrite try_run in Hr. injection Hr as <- _.
  destruct (create_temp (tlsSeenPath e) ".tls_seen-" (encode_seen next) w).1 as [x|tmp] eqn:E; [by apply evolves_ret; apply _|].
  assert (L tmp) as Htmp.
  { unfold create_temp in E. destruct (w_fault w _); [done|]. destruct (parent_ok w _); [|done]. cbn in E. injection E as <-.
    destruct (temp_name_shape (w_files w) (tlsSeenPath e) ".tls_seen-") as [k ->]. apply Ht. }
  match goal with |- frames _ _ (?m w1).2 => assert (evolves (frames L) m) as Hm; [|apply Hm] end.
  evolve_solve.
Qed.

Section polls.
Context `{Crypto} (st : site).
Abbreviation files := (poll_files (st_env st)).

Lemma evolves_touches {A} L (m : M A) : evolves eq m -> touches L m.
Proof. intros Hm w l _. by rewrite <- (Hm w). Qed.
Lemma frames_touches {A} L (m : M A) : evolves (frames L) m -> touches L m.
Proof. intros Hm w. apply Hm. Qed.

Lemma tls_touches hours : touches files (openvpnLogEvents (st_env st) (st_local st) (st_keys st) hours).
Proof.
  assert (forall next, evolves (frames files) (saveTLSSeen (st_env st) next)) as Hs.
  { intros next. apply save_frames; [by do 3 right; left|]. intros k. do 4 right. by exists k. }
  apply frames_touches. unfold openvpnLogEvents, openvpnLogLines, loadTLSSeen. evolve_solve; apply Hs.
Qed.

Lemma usage_files safe : files (LUsage safe) /\ files (usage_lock safe).
Proof. split; right; left; by eexists. Qed.

Lemma readMarkers_polls L : touches L readMarkers.
Proof. apply evolves_touches. intros w. by destruct (readMarkers_run w) as (ms & -> & _). Qed.

Lemma record_users_usage cns sessions u : forall p, touches files (record_users cns sessions u p).
Proof.
  assert (forall cn cands u rows p, touches files (record_rows cn cands u rows p)) as Hr.
  { intros cn cands v rows. induction rows as [|row rows IH]; intros p; cbn [record_rows]; [touch_solve|].
    destruct (row_id row cands v); [|apply IH]. apply touches_bind; [|intros _; apply IH].
    apply RecordSessionUsage_touches. intros safe _. apply usage_files. }
  induction cns as [|cn cns IH]; intros p; cbn [record_users]; [touch_solve|]. apply touches_bind; [|intros ids; apply IH].
  touch_solve; first [apply Hr | apply readMarkers_polls | do 2 right; left; by eexists].
Qed.

Lemma UsersUsage_polls d status order : touches files (UsersUsage d status order).
Proof.
  unfold UsersUsage. touch_solve; first [apply NameMap_touches | apply record_users_usage | apply readMarkers_polls | apply read_totals_touches
    | apply PruneReceipts_touches; intros safe _; apply usage_files].
Qed.

Lemma mgmt_reads e h mc dg : evolves eq (mgmtAvailable e h mc dg).
Proof.
  assert (evolves eq (probeManagement e h mc)) as Hp.
  { unfold probeManagement, TreeOpenVPNRunning, OpenVPNIsRunning, openvpnPIDs.
    repeat first [evolve_rule | apply (read_pid_reads _)]. intros w. unfold dialManagement. by repeat case_match. }
  unfold mgmtAvailable. evolve_solve; apply Hp.
Qed.

Lemma UserDiagnostics_polls dg cn hours :
  touches files (UserDiagnostics (st_env st) (st_host st) (st_mgmt st) (st_status st) (st_users st) (st_local st) (st_keys st) (st_clock st) dg cn hours).
Proof.
  unfold UserDiagnostics, managementAvailable, readHookEvents. touch_solve; first [apply NameMap_touches | apply readMarkers_polls
    | apply tls_touches | apply evolves_touches, mgmt_reads].
Qed.

Lemma authorized_touches L heavy r s k : (forall l, lease_files l -> L l) -> (forall s, touches L (k s)) ->
  touches L (authorized st heavy r s k).
Proof.
  intros HL Hk w l Hl. destruct (authorized_run st heavy r s k w) as (v & lim & w1 & Ha & ->).
  assert (w_files w1 !! l = w_files w !! l) as H1.
  { pose proof (authorize_stays (st_sha st) (st_buckets st) (st_api_key st) (ht_auth r) heavy (sv_limiter s) w) as [[_ Hs] _].
    rewrite Ha in Hs. apply Hs. by intros ?%HL. }
  destruct v; [|done]. rewrite <- H1, <- (Hk (set_limiter lim s) w1 l Hl). unfold recoveryMiddleware.
  destruct (k (set_limiter lim s) w1) as [[[]|] w2]; done.
Qed.

Lemma status_polls r s : touches files (handleStatus st r s).
Proof.
  unfold handleStatus. apply authorized_touches; [by left|]. intros s1.
  unfold Healthy, CertExpiry, OpenVPNIsRunning, openvpnPIDs, read_pid, CRLDaysRemaining, UpdateStatus. touch_solve.
  all: apply evolves_touches; unfold CRLMatchesCA, lift; evolve_solve.
Qed.

(** The endpoints of GET, and the one of them that is no poll. *)
Definition reads (ep : endpoint) : bool :=
  match ep with Health | StatusPoll | UsagePoll | Sessions | Logs | ConfigGet => true | _ => false end.

Lemma reads_touches ep r s : reads ep = true -> touches files (dispatch st ep r s).
Proof.
  destruct ep; try done; intros _; cbn [dispatch].
  - apply status_polls.
  - apply authorized_touches; [by left|]. intros s1. touch_solve. apply UsersUsage_polls.
  - apply authorized_touches; [by left|]. intros s1. touch_solve. apply UserDiagnostics_polls.
  - apply authorized_touches; [by left|]. intros s1. touch_solve.
  - apply authorized_touches; [by left|]. intros s1. unfold ReadConfig. touch_solve.
Qed.

Lemma get_reads method path ep : (method = "GET" \/ method = "HEAD") -> routes method path = inr ep ->
  reads ep = true \/ exists uid, ep = DownloadOVPN uid.
Proof.
  intros Hm Hr. rewrite routes_hit in Hr. destruct (snd <$> hit method path) as [ep'|] eqn:Hh; [|done]. injection Hr as ->.
  apply hit_spec in Hh as (Hs & _). apply serves_iff in Hs. destruct ep; cbn in *; eauto; exfalso; intuition congruence.
Qed.

(** Polling a node changes nothing the panel or the operator decides. A GET
    (or HEAD) of any path but the download of a profile leaves every file as it
    was except the lease, the counters of the usage directory, the lock files of
    the sessions and what is remembered of the TLS failures: no user and no
    policy, no key, certificate or revocation list, no setting of OpenVPN and no
    session is written, whoever asks, whatever the query says and whatever
    fails. *)
Theorem polls_change_no_policy r s w rep s' w' :
  (ht_method r = "GET" \/ ht_method r = "HEAD") ->
  (forall uid, routes (ht_method r) (ht_path r) <> inr (DownloadOVPN uid)) ->
  serve st r s w = (inr (rep, s'), w') ->
  forall l, ~ poll_files (st_env st) l -> w_files w' !! l = w_files w !! l.
Proof.
  intros Hm Hd Hrun l Hl. rewrite serve_eq in Hrun. destruct (routes (ht_method r) (ht_path r)) as [code|ep] eqn:Hr.
  - by injection Hrun as _ _ <-.
  - destruct (get_reads _ _ _ Hm Hr) as [He|[uid ->]]; [|by destruct (Hd uid)].
    pose proof (reads_touches ep r s He w l Hl) as Ht. by rewrite Hrun in Ht.
Qed.
End polls.

(** A caller who guesses the key asks for the deletion of a user. *)
Lemma refused_caller_changes_nothing_witness : exists rep s',
  serve demo_site (ask "guess" "DELETE" ["sync"; "user"; "alice"] "") demo_srv demo_node = (inr (rep, s'), demo_node) /\ unserved rep.
Proof.
  destruct (serve_answers demo_site (ask "guess" "DELETE" ["sync"; "user"; "alice"] "") demo_srv demo_node) as ([rep s'] & w' & E).
  destruct (proj1 (refused_caller_changes_nothing demo_site _ _ _ _ _ _ E)) as (Hu & -> & _); [discriminate|].
  exists rep, s'. by split.
Defined.

(** A poll of the usage leaves a user's policy as it was. *)
Lemma polls_change_no_policy_witness : exists rep s' w',
  serve demo_site (ask demo_api_key "GET" ["sync"; "usage"] "") demo_srv demo_node = (inr (rep, s'), w') /\
  w_files w' !! LUser "alice" "user.conf" = w_files demo_node !! LUser "alice" "user.conf".
Proof.
  destruct (serve_answers demo_site (ask demo_api_key "GET" ["sync"; "usage"] "") demo_srv demo_node) as ([rep s'] & w' & E).
  exists rep, s', w'. split; [exact E|].
  assert (forall uid, routes "GET" ["sync"; "usage"] <> inr (DownloadOVPN uid)) as Hd by (intros uid He; vm_compute in He; discriminate He).
  apply (polls_change_no_policy demo_site (ask demo_api_key "GET" ["sync"; "usage"] "") demo_srv demo_node rep s' w' (or_introl eq_refl) Hd E).
  intros [[|]|[[? ?]|[[? ?]|[?|[? ?]]]]]; discriminate.
Defined.
