(* ===== verification/ApiBulk.v ===== *)
(** * ApiBulk: a sweep of limits is the sequence of its single requests. *)

From S2P Require Import Prelude GoString Json Names Cache World Evolve RateLimit Auth Config Pki PkiDemo UserPolicy Mgmt Disconnect Users UsersProps Perms Control Diag Updater Body Api ApiDemo ApiProps.
From Stdlib Require Import Ascii.

#[local] Set Default Proof Using "Type*".

(** PUT /sync/user/limit for every item, by its id. *)
Section singles.
Context (st : site) (s : srv).

Definition single (item : bulkLimitItem) : M reply :=
  r <- put_limit st s (mkLimitReq (bi_id item) "" (bi_max item)) ;; mret r.1.
Fixpoint singles (items : list bulkLimitItem) : M (list reply) :=
  match items with
  | [] => mret []
  | item :: items' => rep <- single item ;; reps <- singles items' ;; mret (rep :: reps)
  end.

(** The message of the sweep for a refused item: an item without a limit is an
    invalid one. *)
Definition bulk_msg (rep : reply) : string :=
  match rep with
  | Envelope _ msg _ => if String.eqb msg "max_logins is required" then errInvalidUserID else msg
  | _ => ""
  end.
Definition refused (item : bulkLimitItem) (rep : reply) : option (string * string) :=
  if accepted rep then None else Some (bi_id item, bulk_msg rep).
Definition swept_up (items : list bulkLimitItem) (reps : list reply) : Z * list (string * string) :=
  (Z.of_nat (length (filter (fun rep => accepted rep = true) reps)), omap (fun p => refused p.1 p.2) (zip items reps)).

Lemma single_outcome item w :
  let cont (o : option string) w' := match o with
    | Some msg => exists rep, single item w = (inr rep, w') /\ refused item rep = Some (bi_id item, msg)
    | None => exists rep, single item w = (inr rep, w') /\ accepted rep = true
    end in
  match (match bi_max item with
         | Some n =>
             if str_empty (trim_space (bi_id item)) then mret (Some errInvalidUserID)
             else res <- set_limit st (trim_space (bi_id item)) n ;;
                  mret (match res with inl _ => Some "Failed to update user login limit" | inr _ => None end)
         | None => mret (Some errInvalidUserID)
         end) w with
  | (inr o, w') => cont o w'
  | (inl e, w') => single item w = (inl e, w')
  end.
Proof.
  cbv zeta. unfold single, put_limit. cbn [ul_id ul_name ul_max].
  destruct (str_empty (trim_space (bi_id item))) eqn:He.
  - change (str_empty (trim_space "")) with true. cbv iota. destruct (bi_max item); by eexists.
  - rewrite He. destruct (bi_max item) as [n|]; [|by eexists]. rewrite !bind_run.
    destruct (set_limit st (trim_space (bi_id item)) n w) as [[e|[e|[]]] w1]; [done| |]; cbn; by eexists.
Qed.

Lemma swept_up_cons item items rep reps : swept_up (item :: items) (rep :: reps) =
  ((if accepted rep then 1 + (swept_up items reps).1 else (swept_up items reps).1)%Z,
   match refused item rep with Some p => p :: (swept_up items reps).2 | None => (swept_up items reps).2 end).
Proof.
  unfold swept_up. cbn [zip omap list_omap fst snd]. rewrite filter_cons. cbn.
  destruct (accepted rep); [rewrite decide_True by done|rewrite decide_False by done]; cbn [length]; f_equal; try lia.
Qed.

(** C37: a sweep of limits does what its single requests do. Whatever the list
    holds and whatever fails, POST /sync/users leaves the node as the PUT
    requests of its items do, one after the other in the order of the list: an
    item is applied exactly when its own request would be accepted, the refused
    ones are listed in order with their ids and reasons, and every item is
    counted once. *)
Theorem bulk_is_the_single_limits items w :
  match singles items w with
  | (inr reps, w') => bulk_limits st items w = (inr (swept_up items reps), w') /\
      ((swept_up items reps).1 + Z.of_nat (length (swept_up items reps).2) = Z.of_nat (length items))%Z
  | (inl e, w') => bulk_limits st items w = (inl e, w')
  end.
Proof.
  revert w. induction items as [|item items IH]; intros w; [done|]. cbn [singles bulk_limits]. rewrite !bind_run.
  pose proof (single_outcome item w) as Hs. cbv zeta in Hs.
  match type of Hs with match ?x with _ => _ end => destruct x as [[e|o] w1] end; [by rewrite Hs|].
  assert (exists rep, single item w = (inr rep, w1) /\ match o with Some msg => accepted rep = false /\ refused item rep = Some (bi_id item, msg)
    | None => accepted rep = true end) as (rep & -> & Ho).
  { destruct o as [msg|]; destruct Hs as (rep & E & Hr); exists rep; split; try done. split; [|done]. revert Hr. unfold refused.
    by destruct (accepted rep). }
  rewrite bind_run. specialize (IH w1). destruct (singles items w1) as [[e|reps] w2]; [by rewrite bind_run, IH|].
  destruct IH as [IH Hlen]. cbn -[swept_up]. rewrite bind_run, IH, swept_up_cons. cbn -[swept_up]. destruct o as [msg|].
  - destruct Ho as [Ha Hr]. rewrite Ha, Hr. split; [done|]. cbn -[swept_up]. lia.
  - unfold refused. rewrite Ho. split; [done|]. cbn -[swept_up]. lia.
Qed.
End singles.
