(* ===== verification/PushProps.v ===== *)
(** * PushProps: the identity the panel pushes is stored as a whole or not at
    all, and what the node does with it afterwards. *)

From S2P Require Import Prelude GoString Json Names Cache World Evolve Time RateLimit RateProps Pairing Auth Config PkiIndex Pki PkiDemo UserPolicy Status Mgmt Disconnect Users UsersProps Float Ring Perms Migrate Control ControlProps Events Diag ServerConf Updater Body Api ApiDemo ApiProps ApiGate.
From Stdlib Require Import Ascii.

#[local] Set Default Proof Using "Type*".

(** ** Writing the files, and putting them back *)

Definition put_back (m : gmap loc string) (f : pkiFile) : gmap loc string :=
  match pf_old f with Some d => <[pf_path f := d]> m | None => delete (pf_path f) m end.
Definition put (m : gmap loc string) (f : pkiFile) : gmap loc string := <[pf_path f := pf_pem f]> m.

Definition in_conf (l : loc) : Prop := match l with LConf _ => True | _ => False end.

Lemma conf_parent w l : in_conf l -> parent_ok w l = true.
Proof. by destruct l. Qed.

Lemma restore_file_run f w : in_conf (pf_path f) -> w_fault w (OpWrite (pf_path f)) = false ->
  w_fault w (OpRemove (pf_path f)) = false -> restore_file f w = (inr tt, set_files (put_back (w_files w) f) w).
Proof.
  intros Hc Hw Hr. unfold restore_file, put_back, ignore. destruct (pf_old f) as [d|]; rewrite bind_run, try_run.
  - rewrite write_file_ok by (done || by apply conf_parent). done.
  - unfold remove_file. rewrite Hr. destruct (w_files w !! pf_path f) eqn:E; cbn; [done|].
    rewrite delete_id by done. by destruct w.
Qed.

Lemma put_back_all (w0 m : gmap loc string) fs l : (forall f, f ∈ fs -> pf_old f = w0 !! pf_path f) ->
  foldl put_back m fs !! l = if decide (l ∈ map pf_path fs) then w0 !! l else m !! l.
Proof.
  revert m. induction fs as [|f fs IH]; intros m Ho; [done|]. cbn [foldl map].
  rewrite IH by (intros f' Hf'; apply Ho; by right). specialize (Ho f ltac:(left)). unfold put_back. rewrite Ho.
  destruct (decide (l ∈ map pf_path fs)) as [Hin|Hin]; [by rewrite decide_True by (by right)|].
  destruct (decide (l = pf_path f)) as [->|Hne].
  - rewrite decide_True by left. destruct (w0 !! pf_path f); [by rewrite lookup_insert_eq|by rewrite lookup_delete_eq].
  - rewrite decide_False by (intros [?|?]%elem_of_cons; done).
    destruct (w0 !! pf_path f); [by rewrite lookup_insert_ne|by rewrite lookup_delete_ne].
Qed.

(** A world that differs from [w0] in the written files only, which can be put
    back. *)
Record tracking (w0 : World) (written : list pkiFile) (w : World) : Prop := {
  tr_files : forall l, l ∉ map pf_path written -> w_files w !! l = w_files w0 !! l;
  tr_faults : w_fault w = w_fault w0;
  tr_dirs : w_user_dirs w = w_user_dirs w0;
  tr_old : forall f, f ∈ written -> pf_old f = w_files w0 !! pf_path f;
  tr_back : forall f, f ∈ written -> in_conf (pf_path f) /\ w_fault w0 (OpWrite (pf_path f)) = false /\ w_fault w0 (OpRemove (pf_path f)) = false
}.

Lemma restore_files_run w0 written w : tracking w0 written w ->
  exists w', for_each restore_file written w = (inr tt, w') /\ (forall l, w_files w' !! l = w_files w0 !! l) /\ w_user_dirs w' = w_user_dirs w0.
Proof.
  intros [Hf Hfa Hd Ho Hb].
  assert (forall fs w, (forall f, f ∈ fs -> f ∈ written) -> w_fault w = w_fault w0 ->
    for_each restore_file fs w = (inr tt, set_files (foldl put_back (w_files w) fs) w)) as Hrun.
  { clear w Hf Hfa Hd. induction fs as [|f fs IH]; intros w Hin Hfa; [by destruct w|]. cbn [for_each foldl].
    destruct (Hb f) as (H1 & H2 & H3); [apply Hin; left|].
    rewrite bind_run, restore_file_run by (done || by rewrite Hfa). rewrite IH; [done| |done]. intros f' Hf'. apply Hin. by right. }
  eexists. split; [by apply Hrun|]. split; [|done]. intros l. cbn. rewrite (put_back_all (w_files w0)) by done.
  destruct (decide _); [done|by apply Hf].
Qed.

(** What the files of a list must be for their writing to be undone. *)
Definition undoable (w0 : World) (f : pkiFile) : Prop :=
  in_conf (pf_path f) /\ pf_old f = w_files w0 !! pf_path f /\ w_fault w0 (OpRemove (pf_path f)) = false.

Lemma write_files_run w0 todo : forall written w, tracking w0 written w -> (forall f, f ∈ todo -> undoable w0 f) ->
  exists r w', write_files written todo w = (r, w') /\ w_user_dirs w' = w_user_dirs w0 /\
    match r with
    | inr _ => w_files w' = foldl put (w_files w) todo
    | inl _ => forall l, w_files w' !! l = w_files w0 !! l
    end.
Proof.
  induction todo as [|f todo IH]; intros written w Ht Hu; cbn [write_files foldl].
  { eexists _, _. split; [done|]. split; [apply Ht|done]. }
  destruct (Hu f) as (Hc & Ho & Hr); [left|]. rewrite bind_run, try_run.
  assert (forall e, exists r w', (for_each restore_file written ;; throw e : M unit) w = (r, w') /\ w_user_dirs w' = w_user_dirs w0 /\
    match r with inr _ => w_files w' = foldl put (put (w_files w) f) todo | inl _ => forall l, w_files w' !! l = w_files w0 !! l end) as Hundo.
  { intros e. destruct (restore_files_run w0 written w Ht) as (w' & Hrun & Hl & Hd). exists (inl e), w'. rewrite bind_run, Hrun. done. }
  rewrite bind_run. unfold mkdir. destruct (w_fault w (OpMkdir (pf_dir f))); cbn [fst snd]; [apply Hundo|].
  unfold WriteFileAtomic. destruct (w_fault w (OpWrite (pf_path f))) eqn:Hw; cbn [fst snd]; [apply Hundo|].
  rewrite conf_parent by done. cbn [fst snd]. destruct Ht as [Hf Hfa Hd Hold Hb].
  change (put (w_files w) f) with (w_files (set_files (<[pf_path f:=pf_pem f]> (w_files w)) w)).
  apply (IH (written ++ [f]) (set_files (<[pf_path f:=pf_pem f]> (w_files w)) w)).
  - split; cbn; try done.
    + intros l. rewrite map_app, elem_of_app. intros Hl. rewrite lookup_insert_ne; [apply Hf; naive_solver|].
      intros <-. apply Hl. right. left.
    + intros f'. rewrite elem_of_app, list_elem_of_singleton. intros [?| ->]; [by apply Hold|done].
    + intros f'. rewrite elem_of_app, list_elem_of_singleton. rewrite Hfa in Hw. intros [?| ->]; [by apply Hb|done].
  - intros f' Hf'. apply Hu. by right.
Qed.

(** ** The identity *)

Definition identity : list loc := [ServerKey; ServerCert; CACert].

Lemma read_old_run files w : exists r, read_old files w = (r, w) /\
  match r with
  | inr fs => fs = map (fun f => mkFile (pf_path f) (pf_dir f) (pf_label f) (pf_pem f) (w_files w !! pf_path f)) files
  | inl _ => True
  end.
Proof.
  induction files as [|f files IH]; cbn [read_old]; [by eexists|]. rewrite bind_run, try_run, bind_run.
  assert (exists r, (match (read_file (pf_path f) w).1 with
                     | inl e => if IsNotExist e then mret None else throw e | inr data => mret (Some data) end) w = (r, w) /\
                    match r with inr old => old = w_files w !! pf_path f | inl _ => True end) as (r0 & Hr0 & Hold).
  { unfold read_file. destruct (w_fault w _); [by eexists|]. destruct (w_files w !! pf_path f) eqn:E; cbn; by eexists. }
  rewrite read_file_state. cbn [fst snd]. rewrite Hr0. destruct r0 as [e|old]; [by eexists|]. subst old.
  destruct (str_empty (pf_pem f)); [by eexists|]. rewrite bind_run. destruct IH as (r & -> & Hr).
  destruct r as [e|fs]; [by eexists|]. eexists. split; [done|]. cbn. by f_equal.
Qed.

(** What is stored of a body. *)
Definition stored `{Crypto} (body : pushPKIRequest) (l : loc) : string :=
  if decide (l = ServerKey) then cleaned_or_empty (pp_key body)
  else if decide (l = ServerCert) then cleaned_or_empty (pp_cert body)
  else cleaned_or_empty (pp_ca body).

Section store.
Context `{Crypto}.

Lemma identity_apart : IssueLock ∉ identity.
Proof. unfold identity, IssueLock, ServerKey, ServerCert, CACert, pki. rewrite !elem_of_cons, elem_of_nil. intros [[=]|[[=]|[[=]|[]]]]. Qed.

Lemma store_identity_run body w : (forall l, l ∈ identity -> w_fault w (OpRemove l) = false) ->
  exists r w', store_identity body w = (r, w') /\ w_user_dirs w' = w_user_dirs w /\
    match r with
    | inr _ => forall l, l ∈ identity -> w_files w' !! l = Some (stored body l)
    | inl _ => forall l, l ∈ identity -> w_files w' !! l = w_files w !! l
    end.
Proof.
  intros Hrm. unfold store_identity, WithPKILock, Lock. destruct (w_fault w (OpLock IssueLock)).
  { by exists (inl ErrIO), w. }
  change (parent_ok w IssueLock) with true. cbv iota. change (match _ with Some _ => _ | None => _ end) with (lock_files IssueLock (w_files w)).
  set (w1 := set_files _ w).
  assert (forall l, l ∈ identity -> w_files w1 !! l = w_files w !! l) as H1.
  { intros l Hl. apply lock_files_ne. intros ->. by apply identity_apart. }
  rewrite bind_run. destruct (read_old_run (identity_files body) w1) as (r & -> & Hr).
  destruct r as [e|fs]; [by exists (inl e), w1|]. subst fs.
  set (fs := map _ (identity_files body)).
  assert (forall f, f ∈ fs -> undoable w1 f) as Hu.
  { intros f (f0 & -> & Hf)%list_elem_of_fmap. unfold undoable. cbn [pf_path pf_old]. unfold identity_files in Hf.
    repeat (apply elem_of_cons in Hf as [->|Hf]; [split; [done|]; split; [done|]; apply Hrm; cbn [pf_path]; unfold identity; set_solver|]).
    by apply elem_of_nil in Hf. }
  destruct (write_files_run w1 fs [] w1) as (r & w' & -> & Hd & Hw); [|done|].
  { split; try done; by intros f ?%elem_of_nil. }
  exists r, w'. split; [done|]. split; [done|]. destruct r as [e|[]].
  - intros l Hl. by rewrite Hw, H1.
  - intros l Hl. rewrite Hw. unfold identity in Hl. cbn. unfold put. cbn [pf_path pf_pem].
    repeat (apply elem_of_cons in Hl as [->|Hl]; [by simplify_map_eq|]). by apply elem_of_nil in Hl.
Qed.
End store.

Definition off_identity (l : loc) : Prop := l ∉ identity.

Section follow.
Context `{Crypto} (st : site).

Lemma RegenerateCRL_off : evolves (frames off_identity) RegenerateCRL.
Proof.
  assert (off_identity CRLNumber /\ off_identity CRLFile /\ off_identity IssueLock) as (H1 & H2 & H3).
  { split_and!; unfold off_identity; apply (bool_decide_unpack _); vm_compute; exact I. }
  unfold RegenerateCRL, WithPKILock, GenerateCRL, loadCASigner, previousCRL, crl_number, readIndex, readCRL, lift, check.
  evolve_solve; first [assumption | apply frames_write; assumption].
Qed.

Lemma running_reads e h R `{!PreOrder R} : evolves R (OpenVPNIsRunning e h).
Proof. unfold OpenVPNIsRunning, openvpnPIDs. evolve_solve. apply read_pid_reads, _. Qed.
Lemma CRLMatchesCA_reads R `{!PreOrder R} : evolves R CRLMatchesCA.
Proof. unfold CRLMatchesCA, lift. evolve_solve. Qed.
Lemma Healthy_reads R `{!PreOrder R} : evolves R Healthy.
Proof. unfold Healthy. evolve_solve. Qed.
Lemma log_reads R `{!PreOrder R} level where_ msg s : evolves R (log st level where_ msg s).
Proof. unfold log. evolve_solve. Qed.

Lemma follow_off s : evolves (frames off_identity) (follow_push st s).
Proof.
  unfold follow_push. repeat first [evolve_rule | apply (Healthy_reads _) | apply (CRLMatchesCA_reads _) | apply (log_reads _)
    | apply RegenerateCRL_off | apply (running_reads _) | apply (ReloadOpenVPN_reads _)]. all: apply _.
Qed.

Lemma follow_answers s : answers (follow_push st s).
Proof.
  unfold follow_push. answer_solve; first [apply Healthy_answers | apply CRLMatchesCA_answers | apply log_answers
    | apply RegenerateCRL_answers | apply OpenVPNIsRunning_answers | apply ReloadOpenVPN_answers].
Qed.

Lemma follow_reply s w rep s' w' : follow_push st s w = (inr (rep, s'), w') -> exists b, rep = writeOK "PKI stored" (PReloaded b).
Proof.
  intros Hrun. unfold follow_push in Hrun. repeat (apply bind_inr in Hrun as (? & ? & _ & Hrun)). injection Hrun as <- _ _. eauto.
Qed.

Lemma lease_not_identity l : l ∈ identity -> ~ lease_files l.
Proof.
  unfold identity, lease_files. intros Hl. repeat (apply elem_of_cons in Hl as [->|Hl]; [by intros [[=]|[=]]|]). by apply elem_of_nil in Hl.
Qed.

(** What the handler answers, and the identity it leaves. *)
Definition stored_or_kept (body : pushPKIRequest) (w : World) (rep : reply) (w' : World) : Prop :=
  (ValidateServerCert (w_now w) (pp_ca body) (pp_cert body) (pp_key body) = None /\
   (exists b, rep = writeOK "PKI stored" (PReloaded b)) /\ forall l, l ∈ identity -> w_files w' !! l = Some (stored body l)) \/
  ((forall msg p, rep <> Envelope true msg p) /\ forall l, l ∈ identity -> w_files w' !! l = w_files w !! l).

Lemma push_pki_run s body w : (forall l, l ∈ identity -> w_fault w (OpRemove l) = false) ->
  match push_pki st s body w with
  | (inr (rep, _), w') => stored_or_kept body w rep w'
  | (inl _, w') => forall l, l ∈ identity -> w_files w' !! l = w_files w !! l
  end.
Proof.
  intros Hrm. unfold push_pki. rewrite bind_run. cbn [gets]. destruct (ValidateServerCert _ _ _ _) as [e|] eqn:Hv; [by right|].
  rewrite bind_run. unfold try_err. destruct (store_identity_run body w Hrm) as (r0 & w1 & -> & _ & Hw).
  destruct r0 as [e|[]]; [destruct e; cbn; try (by right); done|].
  pose proof (follow_off s w1) as [_ Hoff]. destruct (follow_answers s w1) as ([rep s1] & w2 & Hf). rewrite Hf in Hoff |- *.
  left. split; [done|]. split; [by eapply follow_reply|]. intros l Hl. rewrite Hoff; [by apply Hw|]. unfold off_identity. tauto.
Qed.

End follow.

(** ** Two pushes *)

Definition demo_identity : string := json_print (JObj
  [("ca_pem", JStr (demo_pem "CERTIFICATE" "panel|1|panel|1")); ("server_cert_pem", JStr (demo_pem "CERTIFICATE" "server|7|panel|0"));
   ("server_key_pem", JStr (demo_pem "EC PRIVATE KEY" "k"))]).
Definition demo_push : http := ask demo_api_key "PUT" ["sync"; "pki"] demo_identity.

(** A disk that cannot take the certificate of the authority. *)
Definition full_node : World :=
  let w := demo_node in
  mkWorld (w_files w) (w_users_dir w) (w_user_dirs w) (w_log w) (w_sys w) (w_now w) (w_epochs w) (w_gens w) (w_name_cache w)
    (w_usage_cache w) (fun op => bool_decide (op = OpWrite CACert)).

#[local] Opaque serve.
Definition told (x : (goerr + (reply * srv)) * World) : bool := match x.1 with inr (rep, _) => accepted rep | inl _ => false end.


(** ** The warnings of a push *)

Lemma stat_present w l : w_fault w (OpStat l) = false -> is_Some (w_files w !! l) -> stat_file l w = (inr true, w).
Proof. intros Hf Hl. unfold stat_file. rewrite Hf, bool_decide_true by done. done. Qed.

Lemma healthy_present w : faultless w -> is_Some (w_files w !! CACert) -> is_Some (w_files w !! CAKey) ->
  is_Some (w_files w !! ServerCert) -> Healthy w = (inr true, w).
Proof.
  intros Hf H1 H2 H3. unfold Healthy. rewrite bind_run, (stat_present w CACert) by (done || apply Hf). cbn [negb].
  rewrite bind_run, (stat_present w CAKey) by (done || apply Hf). cbn [negb]. apply stat_present; [apply Hf|done].
Qed.

(** The warnings look for the files of the authority, not for a key that fits
    its certificate: on a node that has its own authority they are never
    given, whatever authority was pushed over it and whoever signed the
    revocation list. *)
Lemma push_warnings_are_dead `{Crypto} st s w rep s' w' :
  faultless w -> (forall l, l ∈ identity -> is_Some (w_files w !! l)) -> is_Some (w_files w !! CAKey) ->
  follow_push st s w = (inr (rep, s'), w') -> s' = s.
Proof.
  intros Hf Hi Hk Hrun. unfold follow_push in Hrun.
  assert (Healthy w = (inr true, w)) as Hh by (apply healthy_present; try done; apply Hi; [by right; right; left|by right; left]).
  rewrite bind_run, (stat_present w CAKey) in Hrun by (done || apply Hf). rewrite bind_run, Hh, bind_run in Hrun. cbn [mret M_ret] in Hrun.
  rewrite bind_run in Hrun. pose proof (CRLMatchesCA_reads eq w) as Hr. destruct (CRLMatchesCA w) as [[e|m] w1]; [done|].
  cbn in Hr. subst w1. apply bind_inr in Hrun as (s1 & w1 & Hs1 & Hrun).
  assert (s1 = s) as ->.
  { destruct m; [by injection Hs1 as -> _|]. rewrite bind_run, Hh in Hs1. apply bind_inr in Hs1 as (b & w2 & _ & [= <- _]). done. }
  repeat (apply bind_inr in Hrun as (? & ? & _ & Hrun)). by injection Hrun as _ <- _.
Qed.
