(* ===== verification/Init.v ===== *)
(** * Init: internal/ovpn/pki.go, internal/pki/easyrsa.go and setup.go.

    The first start of a node: the easy-rsa tree, the folders and files of the
    authority, the authority and the server certificate, the key of the control
    channel, server.conf and the client template.  What the easy-rsa script,
    openvpn and the package of the system do is left to parameters. *)

From S2P Require Import Prelude GoString Names Cache World Config PkiIndex Pki Perms Migrate Control ServerConf.
From Stdlib Require Import Ascii.

(** ** The easy-rsa script *)

Definition easyrsaBin : loc := LConf "easy-rsa/easyrsa".
Definition varsPath : loc := LConf "easy-rsa/vars".
Definition easyrsaLock : loc := pki ".easyrsa.lock".

Section easyrsa.
(** A run of the script with its arguments. *)
Context (e : environ) (exec : list string -> M unit).

(** The text of the arguments in an error. *)
Definition args_text (args : list string) : string := "[" +:+ join " " args +:+ "]".

Definition runEasyRSAWithTimeout (args : list string) : M unit :=
  there <- stat_file easyrsaBin ;;
  if negb there then throw ErrNotExist
  else
    Lock easyrsaLock (
      r <- try (exec (("--pki-dir=" +:+ PKIDir e) :: args)) ;;
      match r with inl x => throw (wrap ("easyrsa " +:+ args_text args) x) | inr _ => mret tt end).
Definition RunEasyRSAChecked (args : list string) : M unit := runEasyRSAWithTimeout args.
Definition RunEasyRSA (args : list string) : M bool :=
  r <- try (RunEasyRSAChecked args) ;; mret (match r with inr _ => true | inl _ => false end).
End easyrsa.

(** ** Its installation *)

Definition vars_text : string :=
  "# Generated by OVNode - ECDSA defaults (safe to edit)" +:+ str1 nl +:+
  join "" (map (fun kv => "set_var " +:+ kv.1 +:+ " " +:+ quoted kv.2 +:+ str1 nl)
    [("EASYRSA_ALGO", "ec"); ("EASYRSA_CURVE", "prime256v1"); ("EASYRSA_BATCH", "1"); ("EASYRSA_NO_PASS", "1");
     ("EASYRSA_CA_EXPIRE", "3650"); ("EASYRSA_CERT_EXPIRE", "1825"); ("EASYRSA_CRL_DAYS", "365")]) +:+
  "# EASYRSA_REQ_CN is intentionally unset: easy-rsa only allows it" +:+ str1 nl +:+
  "# for build-ca. Each server/client cert sets its CN positionally." +:+ str1 nl.

Section setup.
Context (torn : string -> option string).
(** The easy-rsa of the system, [None] when it is not installed: what a walk of
    its folder meets, a folder, or a file that can be read or not. *)
Context (system : option (list (string * option (goerr + string)))).

Definition writeEasyRSAVars : M unit :=
  there <- present_file varsPath ;;
  if there : bool then mret tt
  else
    r <- try (WriteFile torn varsPath vars_text) ;;
    match r with inl x => throw (wrap "failed to write vars file" x) | inr _ => mret tt end.

Definition copyFile (name : string) (content : goerr + string) : M unit :=
  data <- lift content ;; WriteFile torn (LConf ("easy-rsa/" +:+ name)) data.
Definition copyDir (tree : list (string * option (goerr + string))) : M unit :=
  for_each (fun f => match f.2 with None => mkdir ("easy-rsa/" +:+ f.1) | Some content => copyFile f.1 content end) tree.

(** The package manager is asked where the folder is, and can only name the
    folder that was looked at. *)
Definition SetupEasyRSA : M unit :=
  there <- present_file easyrsaBin ;;
  if there : bool then writeEasyRSAVars
  else match system with
       | None => throw (Errorf "easy-rsa not found at /usr/share/easy-rsa")
       | Some tree =>
           r <- try (copyDir tree) ;;
           match r with
           | inl x => throw (wrap "failed to copy easy-rsa" x)
           | inr _ =>
               c <- try (chmod_file easyrsaBin) ;;
               match c with
               | inl x => throw (wrap "failed to make easyrsa executable" x)
               | inr _ => writeEasyRSAVars
               end
           end
       end.

(** ** The folders and files of the authority *)

Definition pki_subdirs : list string :=
  ["private"; "issued"; "reqs"; "certs_by_serial"; "index.txt.attrs"; "inline/private"; "revoked/certs_by_serial";
   "revoked/private"; "revoked/reqs"; "revoked/issued"].
Definition pki_names : list string := ["index.txt"; "index.txt.attr"; "serial"; "serial.old"; "crlnumber"; "crlnumber.old"].
Definition first_text (name : string) : string := if bool_decide (name ∈ ["serial"; "crlnumber"]) then "1000" +:+ str1 nl else "".

(** A file that is there is left alone; an index is only created for an
    authority that is not there either. *)
Definition ensure_pki_file (name : string) : M unit :=
  there <- present_file (pki name) ;;
  if there : bool then mret tt
  else
    ca <- (if String.eqb name "index.txt" then present_file CACert else mret false) ;;
    if ca : bool then throw (Errorf "certificate index is missing for an existing CA")
    else WriteFile torn (pki name) (first_text name).

Definition EnsureDirTree : M unit :=
  mkdir "pki" ;;
  for_each (fun d => mkdir ("pki/" +:+ d)) pki_subdirs ;;
  for_each ensure_pki_file pki_names.

(** ** Modes *)

Definition secret_file (l : loc) : bool := match l with LConf p => has_prefix p "pki/" && has_suffix p ".key" | _ => false end.
Definition EnsureSecretPerms : M unit :=
  ignore (SetPermissions "pki/private") ;;
  files <- gets (fun w => filter (fun l => secret_file l = true) (elements (dom (w_files w)))) ;;
  for_each (fun l => ignore (SetPermissions (path_of l))) files ;;
  ignore (SetPermissions (path_of TLSKey)).

(** ** The key of the control channel *)

(** The command and its older form. *)
Context (openvpn : list string -> M unit).

Definition GenTLSKey (e : environ) : M unit :=
  r <- try (lstat_file TLSKey) ;;
  match r with
  | inr _ =>
      data <- read_file TLSKey ;;
      if str_empty data then throw (Errorf ("invalid TLS key at " +:+ Config.TLSKey e)) else mret tt
  | inl x =>
      if negb (IsNotExist x) then throw x
      else
        mkdir "server" ;;
        made <- try (openvpn ["--genkey"; "secret"; Config.TLSKey e]) ;;
        (match made with
         | inr _ => mret tt
         | inl _ => openvpn ["--genkey"; "--secret"; Config.TLSKey e]
         end) ;;
        chmod_file TLSKey
  end.
End setup.

(** ** The initialisation *)

(** [os.ReadDir] of a folder of the authority: whether it holds anything. *)
Definition holds_files (dir : string) : M bool := fun w =>
  if w_fault w (OpReadDir ("pki/" +:+ dir)) then (inl ErrIO, w)
  else (inr (existsb (fun l => match l with LConf p => has_prefix p ("pki/" +:+ dir +:+ "/") | _ => false end)
               (elements (dom (w_files w)))), w).

Fixpoint no_material (dirs : list string) : M unit :=
  match dirs with
  | [] => mret tt
  | d :: dirs' =>
      some <- holds_files d ;;
      if some : bool then throw (Errorf ("missing CA identity with existing " +:+ d +:+ " material")) else no_material dirs'
  end.

Section init.
Context `{Crypto} (e : environ) (h : HostId) (passFile : loc).
Context (torn : string -> option string) (system : option (list (string * option (goerr + string)))).
Context (exec openvpn : list string -> M unit).

Abbreviation easyrsa := (RunEasyRSAChecked e exec).

(** The authority: one is only made where nothing of one is left. *)
Definition ensure_ca : M unit :=
  caCert <- present_file CACert ;;
  caKey <- present_file CAKey ;;
  if negb (Bool.eqb caCert caKey) then throw (Errorf "incomplete CA identity: restore the missing certificate or key")
  else if caCert : bool then mret tt
  else
    no_material ["private"; "issued"; "reqs"; "certs_by_serial"] ;;
    index <- read_file IndexFile ;;
    if negb (str_empty (trim_space index)) then throw (Errorf "missing CA identity with an existing certificate index")
    else easyrsa ["build-ca"; "nopass"].

Definition ensure_server : M unit :=
  serverCert <- present_file ServerCert ;;
  serverKey <- present_file ServerKey ;;
  if negb (Bool.eqb serverCert serverKey) then throw (Errorf "incomplete server identity: restore the missing certificate or key")
  else if serverCert : bool then mret tt
  else easyrsa ["--subject-alt-name=DNS:server,DNS:localhost"; "build-server-full"; "server"; "nopass"].

Definition validate_identity : M unit :=
  ca <- read_file CACert ;;
  cert <- read_file ServerCert ;;
  key <- read_file ServerKey ;;
  now <- gets w_now ;;
  match ValidateServerCert now ca cert key with
  | Some x => throw (wrap "invalid existing PKI identity" x)
  | None => mret tt
  end.

Definition init_authority : M unit :=
  WithPKILock (ensure_ca ;; ensure_server ;; validate_identity ;; EnsureCRLChecked easyrsa).

Definition InitPKI : M unit :=
  for_each mkdir [joinRoot e ["server"]; joinRoot e ["ccd"]; OVNodeDir e] ;;
  SetupEasyRSA torn system ;;
  EnsureDirTree torn ;;
  init_authority ;;
  GenTLSKey openvpn e ;;
  ensureServerConf e h passFile ;;
  EnsureClientTemplate e ;;
  EnsureSecretPerms.
End init.
