(* ===== verification/InitProps.v ===== *)
(** * InitProps: the first start of a node never harms an authority that is
    there, and ends with an identity that is valid. *)

From S2P Require Import Prelude GoString Json NetIP Names Cache World Evolve Config PkiIndex Pki PkiProps PkiDemo Perms Policy Migrate Control ServerConf ServerConfProps Init.
From Stdlib Require Import Ascii.

#[local] Set Default Proof Using "Type*".

(** ** Where the set-up writes before it looks at the authority *)

Definition setup_loc (l : loc) : bool :=
  match l with
  | LConf p => has_prefix p "easy-rsa/" || bool_decide (l ∈ IssueLock :: map pki pki_names)
  | _ => false
  end.

Definition keypair_files : list loc := [CACert; CAKey; ServerCert; ServerKey].

(** A file of a folder where keys and certificates are kept. *)
Definition leftover (l : loc) : Prop :=
  exists d f, d ∈ ["private"; "issued"; "reqs"; "certs_by_serial"] /\ l = pki (d +:+ "/" +:+ f).

Lemma leftover_is_spared l : leftover l -> setup_loc l = false.
Proof.
  intros (d & f & Hd & ->). repeat (apply elem_of_cons in Hd as [->|Hd]; [|]); [..|by apply elem_of_nil in Hd];
    cbn [setup_loc pki]; apply orb_false_intro; try done; apply bool_decide_eq_false;
    rewrite !elem_of_cons, elem_of_nil; unfold IssueLock, pki; intros H; repeat destruct H as [[=]|H]; done.
Qed.

Lemma keypair_is_leftover l : l ∈ keypair_files -> l = CACert \/ leftover l.
Proof.
  unfold keypair_files. intros Hl. repeat (apply elem_of_cons in Hl as [->|Hl]; [|]); [by left|..|by apply elem_of_nil in Hl]; right.
  - exists "private", "ca.key". split; [left|done].
  - exists "issued", "server.crt". split; [right; left|done].
  - exists "private", "server.key". split; [left|done].
Qed.

Lemma keypair_is_spared l : l ∈ keypair_files -> setup_loc l = false.
Proof. intros [->|Hl]%keypair_is_leftover; [by vm_compute|by apply leftover_is_spared]. Qed.

Lemma frames_write_torn (L : loc -> Prop) torn l d : L l -> evolves (frames L) (WriteFile torn l d).
Proof.
  intros Hl w. unfold WriteFile. destruct (w_fault w _).
  - destruct (torn d); [by apply frames_insert|reflexivity].
  - destruct (parent_ok w l); [by apply frames_insert|reflexivity].
Qed.

Lemma chmod_reads R `{!PreOrder R} l : evolves R (chmod_file l).
Proof. intros w. unfold chmod_file. destruct (w_fault w _); [reflexivity|]. case_bool_decide; reflexivity. Qed.

Lemma holds_reads R `{!PreOrder R} d : evolves R (holds_files d).
Proof. intros w. unfold holds_files. by destruct (w_fault w _). Qed.

#[local] Hint Resolve frames_write_torn chmod_reads holds_reads : evolve.

Section prefix.
Context (torn : string -> option string) (system : option (list (string * option (goerr + string)))).

Abbreviation spared := (frames (fun l => setup_loc l = true)).

Lemma lift_evolves {A} R `{!PreOrder R} (r : goerr + A) : evolves R (lift r).
Proof. destruct r; [apply evolves_throw|apply evolves_ret]; apply _. Qed.

Lemma vars_spares : evolves spared (writeEasyRSAVars torn).
Proof. unfold writeEasyRSAVars. evolve_solve. Qed.

Lemma setup_spares : evolves spared (SetupEasyRSA torn system).
Proof.
  unfold SetupEasyRSA, copyDir, copyFile. repeat first [apply vars_spares | apply lift_evolves; apply _ | apply chmod_reads; apply _ | evolve_rule].
  apply frames_write_torn. cbn [setup_loc]. by rewrite has_prefix_app.
Qed.

Lemma dirs_spare : evolves spared (EnsureDirTree torn).
Proof.
  unfold EnsureDirTree. evolve_solve. unfold ensure_pki_file. evolve_solve.
  apply frames_write_torn. cbn [setup_loc pki]. apply orb_true_intro. right. apply bool_decide_eq_true. right.
  by apply list_elem_of_fmap_2.
Qed.

End prefix.

(** ** What the set-up looks at *)

Definition there (w : World) (l : loc) : bool := bool_decide (is_Some (w_files w !! l)).

Lemma there_ext w w' l : w_files w' !! l = w_files w !! l -> there w' l = there w l.
Proof. unfold there. by intros ->. Qed.

Lemma present_file_run w l :
  present_file l w = (if w_fault w (OpStat l) then inl ErrIO else inr (there w l), w).
Proof.
  unfold present_file, there. rewrite bind_run, try_run. unfold lstat_file. destruct (w_fault w _); [done|].
  by case_bool_decide.
Qed.

(** A certificate without its key, a key without its certificate, or material
    of an authority that is gone. *)
Definition broken (w : World) : Prop :=
  there w CACert <> there w CAKey \/ there w ServerCert <> there w ServerKey \/
  (there w CACert = false /\ there w CAKey = false /\ exists l, leftover l /\ there w l = true).

Lemma broken_frames w w' : frames (fun l => setup_loc l = true) w w' -> broken w -> broken w'.
Proof.
  intros [_ Hf] Hb. assert (forall l, setup_loc l = false -> there w' l = there w l) as Ht.
  { intros l Hl. apply there_ext, Hf. by rewrite Hl. }
  unfold broken. rewrite !Ht by by vm_compute. destruct Hb as [?|[?|(? & ? & l & Hl & Hw)]]; [by left|by right; left|].
  right; right. split; [done|]. split; [done|]. exists l. split; [done|]. rewrite Ht; [done|by apply leftover_is_spared].
Qed.

Lemma holds_files_run d f w : there w (pki (d +:+ "/" +:+ f)) = true ->
  holds_files d w = (if w_fault w (OpReadDir ("pki/" +:+ d)) then inl ErrIO else inr true, w).
Proof.
  intros Hf%bool_decide_eq_true. unfold holds_files. destruct (w_fault w _); [done|]. do 2 f_equal.
  apply existsb_exists. exists (pki (d +:+ "/" +:+ f)). split.
  - by apply list_elem_of_In, elem_of_elements, elem_of_dom.
  - unfold pki. apply has_prefix_spec. exists f. by rewrite !app_assoc_s.
Qed.

Lemma no_material_refuses dirs w :
  (exists d f, d ∈ dirs /\ there w (pki (d +:+ "/" +:+ f)) = true) -> exists x, no_material dirs w = (inl x, w).
Proof.
  intros (d & f & Hd & Hf). induction dirs as [|d' dirs IH]; [by apply elem_of_nil in Hd|]. cbn [no_material].
  rewrite reads_bind by apply holds_reads, _. apply elem_of_cons in Hd as [<-|Hd].
  - rewrite (holds_files_run d f w Hf). destruct (w_fault w _); by eexists.
  - destruct (holds_files d' w).1 as [x|[]]; [by eexists..|by apply IH].
Qed.

Section init.
Context `{Crypto} (e : environ) (h : HostId) (passFile : loc).
Context (torn : string -> option string) (system : option (list (string * option (goerr + string)))).

Abbreviation spared := (frames (fun l => setup_loc l = true)).

(** The steps before and after the ones that run the script. *)
Definition before_authority : M unit :=
  for_each mkdir [joinRoot e ["server"]; joinRoot e ["ccd"]; OVNodeDir e] ;; SetupEasyRSA torn system ;; EnsureDirTree torn.
Definition after_authority (openvpn : list string -> M unit) : M unit :=
  GenTLSKey openvpn e ;; ensureServerConf e h passFile ;; EnsureClientTemplate e ;; EnsureSecretPerms.

Lemma InitPKI_split exec openvpn w : InitPKI e h passFile torn system exec openvpn w =
  (before_authority ;; init_authority e exec ;; after_authority openvpn) w.
Proof.
  unfold InitPKI, before_authority, after_authority. rewrite !bind_run.
  destruct (for_each mkdir _ w) as [[?|[]] w1]; [done|]. rewrite !bind_run.
  destruct (SetupEasyRSA _ _ w1) as [[?|[]] w2]; [done|]. rewrite !bind_run.
  by destruct (EnsureDirTree torn w2) as [[?|[]] w3].
Qed.

Lemma before_spares : evolves spared before_authority.
Proof. unfold before_authority. repeat first [apply setup_spares | apply dirs_spare | evolve_rule]. Qed.

(** ** Nothing is run where the identity is broken *)

Lemma authority_refuses exec w : broken w ->
  exists x w', init_authority e exec w = (inl x, w') /\ spared w w'.
Proof.
  intros Hb. unfold init_authority, WithPKILock, Lock. destruct (w_fault w _); [by exists ErrIO, w|].
  change (parent_ok w IssueLock) with true. cbv iota.
  change (match _ with Some _ => _ | None => _ end) with (lock_files IssueLock (w_files w)). set (w1 := set_files _ w).
  assert (spared w w1) as H1 by by apply frames_lock.
  enough (exists x, (ensure_ca e exec ;; ensure_server e exec) w1 = (inl x, w1)) as [x Hx].
  { exists x, w1. split; [|done]. rewrite bind_run in Hx |- *. destruct (ensure_ca e exec w1) as [[?|[]] ?]; [done|].
    by rewrite bind_run, Hx. }
  apply (broken_frames _ _ H1) in Hb. clearbody w1. clear w H1. unfold ensure_ca, ensure_server.
  rewrite bind_run, reads_bind, present_file_run by apply evolves_reads, _. cbn [fst].
  destruct (w_fault w1 (OpStat CACert)); [by eexists|].
  rewrite reads_bind, present_file_run by apply evolves_reads, _. cbn [fst].
  destruct (w_fault w1 (OpStat CAKey)); [by eexists|].
  assert (there w1 CACert = false -> there w1 CAKey = false -> exists d f, d ∈ ["private"; "issued"; "reqs"; "certs_by_serial"] /\
    there w1 (pki (d +:+ "/" +:+ f)) = true) as Hno.
  { intros Ec Ek. destruct Hb as [Hb|[Hb|(_ & _ & l & (d & f & Hd & ->) & Hl)]]; [congruence| |by exists d, f].
    destruct (there w1 ServerCert) eqn:Es; [exists "issued", "server.crt"; by split; [right; left|]|].
    destruct (there w1 ServerKey) eqn:Et; [exists "private", "server.key"; by split; [left|]|done]. }
  destruct (there w1 CACert) eqn:Ec, (there w1 CAKey) eqn:Ek; cbn [negb Bool.eqb]; [|by eexists..|].
  - cbn [mret M_ret]. rewrite reads_bind, present_file_run by apply evolves_reads, _. cbn [fst].
    destruct (w_fault w1 (OpStat ServerCert)); [by eexists|].
    rewrite reads_bind, present_file_run by apply evolves_reads, _. cbn [fst].
    destruct (w_fault w1 (OpStat ServerKey)); [by eexists|].
    destruct Hb as [?|[Hb|[? _]]]; [congruence| |congruence].
    destruct (there w1 ServerCert), (there w1 ServerKey); try done; by eexists.
  - rewrite bind_run. destruct (no_material_refuses _ w1 (Hno eq_refl eq_refl)) as [x ->]. by eexists.
Qed.

(** ** What is there is not made again *)

Lemma bind_same {A B} (m m' : M A) (k k' : A -> M B) w : m w = m' w ->
  (forall a w1, m w = (inr a, w1) -> k a w1 = k' a w1) -> (x <- m ;; k x) w = (x <- m' ;; k' x) w.
Proof. intros Hm Hk. rewrite !bind_run, <- Hm. destruct (m w) as [[x|a] w1]; [done|by apply Hk]. Qed.

Section two_scripts.
Context (exec exec' : list string -> M unit).

Lemma script_same args w : (forall w, exec (("--pki-dir=" +:+ PKIDir e) :: args) w = exec' (("--pki-dir=" +:+ PKIDir e) :: args) w) ->
  RunEasyRSAChecked e exec args w = RunEasyRSAChecked e exec' args w.
Proof.
  intros Hs. unfold RunEasyRSAChecked, runEasyRSAWithTimeout. apply bind_same; [done|]. intros [] w1 _; [|done].
  cbn [negb]. unfold Lock. destruct (w_fault w1 _); [done|]. destruct (parent_ok w1 _); [|done].
  apply bind_same; [|done]. by rewrite !try_run, Hs.
Qed.

Lemma crl_same w : (forall w, RunEasyRSAChecked e exec ["gen-crl"] w = RunEasyRSAChecked e exec' ["gen-crl"] w) ->
  EnsureCRLChecked (RunEasyRSAChecked e exec) w = EnsureCRLChecked (RunEasyRSAChecked e exec') w.
Proof.
  intros Hs. unfold EnsureCRLChecked. do 4 (apply bind_same; [done|intros ? ? _]).
  apply bind_same; [done|]. intros [x|l] w5 _; [|done]. destruct (negb _); [done|]. by apply bind_same.
Qed.

Lemma authority_same w : there w CACert = true -> there w CAKey = true ->
  (forall w, RunEasyRSAChecked e exec ["gen-crl"] w = RunEasyRSAChecked e exec' ["gen-crl"] w) ->
  (there w ServerCert = true /\ there w ServerKey = true) \/
    (forall w, ensure_server e exec w = ensure_server e exec' w) ->
  init_authority e exec w = init_authority e exec' w.
Proof.
  intros Hc Hk Hs Hserver. unfold init_authority, WithPKILock, Lock. destruct (w_fault w _); [done|].
  destruct (parent_ok w _); [|done]. change (match _ with Some _ => _ | None => _ end) with (lock_files IssueLock (w_files w)).
  set (w1 := set_files _ w).
  assert (forall l, l ∈ keypair_files -> there w1 l = there w l) as Ht.
  { intros l Hl. apply there_ext, lock_files_ne. intros ->. by apply keypair_is_spared in Hl. }
  unfold keypair_files in Ht. rewrite <- Ht in Hc, Hk by set_solver.
  assert (forall ex, ensure_ca e ex w1 = (if w_fault w1 (OpStat CACert) || w_fault w1 (OpStat CAKey) then inl ErrIO else inr tt, w1)) as Hca.
  { intros ex. unfold ensure_ca. rewrite reads_bind, present_file_run by apply evolves_reads, _. cbn [fst].
    destruct (w_fault w1 (OpStat CACert)); [done|].
    rewrite reads_bind, present_file_run by apply evolves_reads, _. cbn [fst].
    destruct (w_fault w1 (OpStat CAKey)); [done|]. by rewrite Hc, Hk. }
  apply bind_same; [by rewrite !Hca|]. intros [] w2. rewrite Hca. destruct (_ || _); [done|]. intros [= <-].
  apply bind_same; [|intros [] w3 _; apply bind_same; [done|]; intros [] w4 _; by apply crl_same].
  destruct Hserver as [[Hsc Hsk]|Hserver]; [|by apply Hserver].
  rewrite <- Ht in Hsc, Hsk by set_solver. unfold ensure_server. apply bind_same; [done|]. intros b w3.
  rewrite present_file_run. destruct (w_fault w1 _); [done|]. intros [= <- <-].
  apply bind_same; [done|]. intros b w3. rewrite present_file_run. destruct (w_fault w1 _); [done|]. intros [= <- <-].
  by rewrite Hsc, Hsk.
Qed.
End two_scripts.

(** ** A start that succeeds *)

(** The identity is left alone and no file goes away. *)
Definition settles (w w' : World) : Prop :=
  frames (fun l => l ∉ keypair_files) w w' /\ forall l, there w l = true -> there w' l = true.

#[local] Instance settles_preorder : PreOrder settles.
Proof.
  split; [by intros w; split|]. intros w1 w2 w3 [F1 H1] [F2 H2]. split; [by etrans|]. intros l Hl. by apply H2, H1.
Qed.

Lemma settles_insert l d w : (l ∉ keypair_files) -> settles w (set_files (<[l:=d]> (w_files w)) w).
Proof.
  intros Hl. split; [by apply frames_insert|]. intros l' Hl'. apply bool_decide_eq_true in Hl'. apply bool_decide_eq_true. cbn.
  destruct (decide (l = l')) as [->|]; [by rewrite lookup_insert_eq|by rewrite lookup_insert_ne].
Qed.

Lemma settles_write l d : (l ∉ keypair_files) -> evolves settles (WriteFileAtomic l d).
Proof. intros Hl. apply evolves_write; [apply _|]. intros w. by apply settles_insert. Qed.

Lemma settles_other : evolves settles entropy /\ (forall m, evolves settles (Event m)).
Proof. split; [|intros m]; intros w; unfold entropy; repeat case_match; simplify_eq/=; by split. Qed.

Lemma settles_lock l w : (l ∉ keypair_files) -> settles w (set_files (lock_files l (w_files w)) w).
Proof.
  intros Hl. unfold lock_files. destruct (w_files w !! l); [|by apply settles_insert].
  split; [by split|done].
Qed.

Lemma write_makes l d w w' : WriteFileAtomic l d w = (inr tt, w') -> there w' l = true.
Proof.
  unfold WriteFileAtomic. repeat case_match; intros [=]; simplify_eq. apply bool_decide_eq_true. cbn. by rewrite lookup_insert_eq.
Qed.

Hypothesis Hpass : passFile ∉ keypair_files.

Ltac settle := repeat first [apply settles_write; (done || (apply (bool_decide_unpack _); vm_compute; exact I)) | apply settles_other
  | apply RuntimeGroupID_reads; apply _ | apply lift_evolves; apply _ | evolve_rule].

Lemma pass_settles : evolves settles (EnsureMgmtPassword e h passFile).
Proof. unfold EnsureMgmtPassword, provide_password, randomHex. settle. Qed.

Lemma hook_env_settles : evolves settles (HookEnvDirectives e).
Proof. unfold HookEnvDirectives, RuntimeGroup, RuntimeUser, runtimeDirective. settle. Qed.

Lemma fresh_conf_settles : evolves settles (FreshServerConf e h passFile).
Proof.
  unfold FreshServerConf, HardeningDirectives, DNSEffective, ReadDNSState, RuntimeGroup, RuntimeUser, runtimeDirective, ipv6Effective.
  repeat first [apply pass_settles | apply hook_env_settles | progress settle].
Qed.

Lemma conf_settles : evolves settles (ensureServerConf e h passFile).
Proof.
  unfold ensureServerConf, HardeningDirectives, RuntimeGroup, RuntimeUser, runtimeDirective.
  repeat first [apply pass_settles | apply hook_env_settles | apply fresh_conf_settles | progress settle].
Qed.

Lemma template_settles : evolves settles (EnsureClientTemplate e).
Proof. unfold EnsureClientTemplate. settle. Qed.

Lemma perms_settle : evolves settles EnsureSecretPerms.
Proof. unfold EnsureSecretPerms. settle. Qed.


Lemma settled {A} (m : M A) w r w' l : evolves settles m -> m w = (r, w') -> there w l = true -> there w' l = true.
Proof. intros Hm Hr. specialize (Hm w). rewrite Hr in Hm. apply Hm. Qed.

Lemma present_inr l w b w' : present_file l w = (inr b, w') -> w' = w /\ b = there w l.
Proof. rewrite present_file_run. destruct (w_fault w _); [done|]. by intros [= <- <-]. Qed.

Lemma conf_makes w b w' : ensureServerConf e h passFile w = (inr b, w') -> there w' settingFile = true.
Proof.
  unfold ensureServerConf. intros (pass & w1 & _ & Hr)%bind_inr. destruct (str_empty pass); [done|].
  apply bind_inr in Hr as (t & w2 & [-> ->]%present_inr & Hr). destruct (there w1 settingFile) eqn:Ht; cbn [negb] in Hr.
  - eapply settled; [|done..]. clear Hr. unfold HardeningDirectives, RuntimeGroup, RuntimeUser, runtimeDirective.
    repeat first [apply pass_settles | apply hook_env_settles | progress settle].
  - apply bind_inr in Hr as (data & w3 & _ & Hr). destruct (str_empty data); [done|].
    apply bind_inr in Hr as ([] & w4 & Hw%write_makes & [= _ <-]). done.
Qed.

Lemma template_makes w w' : EnsureClientTemplate e w = (inr tt, w') -> there w' templateFile = true.
Proof.
  unfold EnsureClientTemplate. intros (t & w1 & [-> ->]%present_inr & Hr)%bind_inr.
  destruct (there w templateFile) eqn:Ht; [by injection Hr as <-|].
  apply bind_inr in Hr as ([] & w2 & _ & Hr). apply bind_inr in Hr as (addr & w3 & _ & Hr). by apply write_makes in Hr.
Qed.

Lemma chmod_inr l w w' : chmod_file l w = (inr tt, w') -> there w' l = true.
Proof. unfold chmod_file, there. destruct (w_fault w _); [done|]. case_bool_decide; [|done]. intros [= <-]. by apply bool_decide_eq_true. Qed.

Lemma tls_makes openvpn w w' : GenTLSKey openvpn e w = (inr tt, w') -> there w' Pki.TLSKey = true.
Proof.
  unfold GenTLSKey. intros (r & w1 & Hl & Hr)%bind_inr. rewrite try_run in Hl. injection Hl as <- <-.
  unfold lstat_file in Hr. destruct (w_fault w _); cbn [fst snd] in Hr; [done|].
  case_bool_decide as Hb; cbn [fst snd] in Hr.
  - apply bind_inr in Hr as (data & w2 & Hrd & Hr). pose proof (read_file_state w Pki.TLSKey) as Hs. rewrite Hrd in Hs.
    simpl in Hs. subst w2. destruct (str_empty data); [done|]. injection Hr as <-. by apply bool_decide_eq_true.
  - cbn [IsNotExist negb] in Hr. apply bind_inr in Hr as ([] & w2 & _ & Hr). apply bind_inr in Hr as (made & w3 & _ & Hr).
    apply bind_inr in Hr as ([] & w4 & _ & Hr). by apply chmod_inr in Hr.
Qed.

Lemma read_inr l w d w' : read_file l w = (inr d, w') -> w' = w /\ w_files w !! l = Some d.
Proof. unfold read_file. destruct (w_fault w _); [done|]. destruct (w_files w !! l); [|done]. by intros [= <- <-]. Qed.

Lemma validated w w' : validate_identity w = (inr tt, w') -> w = w' /\ exists ca cert key,
  w_files w !! CACert = Some ca /\ w_files w !! ServerCert = Some cert /\ w_files w !! ServerKey = Some key /\
  ValidateServerCert (w_now w) ca cert key = None.
Proof.
  unfold validate_identity. intros (ca & w1 & [-> Hca]%read_inr & Hr)%bind_inr. apply bind_inr in Hr as (cert & w2 & [-> Hc]%read_inr & Hr).
  apply bind_inr in Hr as (key & w3 & [-> Hk]%read_inr & Hr). apply bind_inr in Hr as (now & w4 & [= <- <-] & Hr).
  destruct (ValidateServerCert _ _ _ _) eqn:Hv; [done|]. injection Hr as <-. split; [done|]. by exists ca, cert, key.
Qed.

(** What the two programs may do: [gen-crl] leaves the identity alone, and
    [--genkey] writes the key it is told to. *)
Definition gen_crl_spares_identity (exec : list string -> M unit) : Prop :=
  forall args, "gen-crl" ∈ args -> evolves (frames (fun l => l ∉ keypair_files)) (exec args).
Definition genkey_writes_its_key (openvpn : list string -> M unit) : Prop :=
  forall args, evolves (frames (fun l => l = Pki.TLSKey)) (openvpn args).

Abbreviation keeps_identity := (frames (fun l => l ∉ keypair_files)).

Lemma spare_keeps {A} (L : loc -> Prop) (m : M A) : (forall l, L l -> l ∉ keypair_files) -> evolves (frames L) m -> evolves keeps_identity m.
Proof. intros HL. apply evolves_weaken. intros w w' [Hn Hf]. split; [done|]. intros l Hl. apply Hf. intros Hx. by apply Hl, HL. Qed.

Lemma tls_keeps openvpn : genkey_writes_its_key openvpn -> evolves keeps_identity (GenTLSKey openvpn e).
Proof.
  intros Hg. assert (forall args, evolves keeps_identity (openvpn args)) as Ho.
  { intros args. eapply spare_keeps; [|apply Hg]. intros l ->. apply (bool_decide_unpack _). by vm_compute. }
  unfold GenTLSKey. repeat first [apply Ho | apply chmod_reads; apply _ | evolve_rule].
Qed.

Lemma generate_keeps : evolves keeps_identity GenerateCRL.
Proof.
  unfold GenerateCRL, loadCASigner, readIndex, previousCRL, readCRL, crl_number. repeat first [apply lift_evolves; apply _ | evolve_rule];
    apply frames_write, (bool_decide_unpack _); by vm_compute.
Qed.

Lemma crl_keeps exec : gen_crl_spares_identity exec -> evolves keeps_identity (EnsureCRLChecked (RunEasyRSAChecked e exec)).
Proof.
  intros Hx. unfold EnsureCRLChecked, RunEasyRSAChecked, runEasyRSAWithTimeout, readIndex, readCRL, check.
  repeat first [apply generate_keeps | apply lift_evolves; apply _ | apply Hx; right; left | evolve_rule].
  apply (bool_decide_unpack _). by vm_compute.
Qed.

(** C29: an authority that is there is never made again: where the certificate
    and the key of the authority exist, the whole start is the same whatever
    the script would do on build-ca, and where the server has its pair too it is
    the same whatever the script does on anything but gen-crl. *)
Theorem existing_authority_is_kept exec exec' openvpn w :
  there w CACert = true -> there w CAKey = true ->
  ((forall args w, "build-ca" ∉ args -> exec args w = exec' args w) ->
   InitPKI e h passFile torn system exec openvpn w = InitPKI e h passFile torn system exec' openvpn w) /\
  (there w ServerCert = true -> there w ServerKey = true ->
   (forall args w, "gen-crl" ∈ args -> exec args w = exec' args w) ->
   InitPKI e h passFile torn system exec openvpn w = InitPKI e h passFile torn system exec' openvpn w).
Proof using passFile torn system.
  clear Hpass. intros Hc Hk. rewrite !InitPKI_split.
  assert (forall w1, before_authority w = (inr tt, w1) -> forall l, l ∈ keypair_files -> there w1 l = there w l) as Ht.
  { intros w1 Hr l Hl. pose proof (before_spares w) as [_ Hf]. rewrite Hr in Hf. apply there_ext, Hf. by rewrite keypair_is_spared. }
  split; [intros Hx|intros Hsc Hsk Hx]; (apply bind_same; [done|]; intros [] w1 Hr; apply bind_same; [|done];
    specialize (Ht w1 Hr); unfold keypair_files in Ht; apply authority_same; [by rewrite Ht by set_solver..| |]).
  - intros w2. apply script_same. intros w3. apply Hx. rewrite !elem_of_cons, elem_of_nil. intros [[=]|[[=]|[]]].
  - right. intros w2. unfold ensure_server. apply bind_same; [done|]. intros a w3 _. apply bind_same; [done|]. intros b w4 _.
    destruct (negb _); [done|]. destruct a; [done|]. apply script_same. intros w5. apply Hx.
    rewrite !elem_of_cons, elem_of_nil. intros [[=]|[[=]|[[=]|[[=]|[[=]|[]]]]]].
  - intros w2. apply script_same. intros w3. apply Hx. right; left.
  - left. by rewrite !Ht by set_solver.
Qed.

(** C9: the start fails closed: a certificate without its key, a key without
    its certificate, or material of an authority that is gone ends it with an
    error whatever the script and openvpn would do, and no file is touched but
    the folder of easy-rsa, the lock and the counters of the authority. *)
Theorem broken_identity_fails_closed exec openvpn w : broken w ->
  exists x w', InitPKI e h passFile torn system exec openvpn w = (inl x, w') /\
    frames (fun l => setup_loc l = true) w w' /\ forall l, l ∈ keypair_files -> w_files w' !! l = w_files w !! l.
Proof using passFile torn system.
  clear Hpass. intros Hb. enough (exists x w', InitPKI e h passFile torn system exec openvpn w = (inl x, w') /\ spared w w') as (x & w' & Hr & Hf).
  { exists x, w'. split; [done|]. split; [done|]. intros l Hl. apply Hf. by rewrite keypair_is_spared. }
  rewrite InitPKI_split, bind_run. pose proof (before_spares w) as Hs.
  destruct (before_authority w) as [[x|[]] w1]; cbn [snd] in Hs; [by exists x, w1|].
  destruct (authority_refuses exec w1) as (x & w2 & Hr & Hf); [by eapply broken_frames|].
  exists x, w2. rewrite bind_run, Hr. split; [done|]. by etrans.
Qed.

(** A start that succeeds leaves a certificate of the authority, a
    certificate of the server and its key that were found to belong together
    at that time, with the key of the control channel, server.conf and the
    client template in place, as long as gen-crl leaves the identity alone and
    openvpn writes the key it is asked for. *)
Theorem successful_start_has_a_valid_identity exec openvpn w w' :
  gen_crl_spares_identity exec -> genkey_writes_its_key openvpn ->
  InitPKI e h passFile torn system exec openvpn w = (inr tt, w') ->
  (exists ca cert key, w_files w' !! CACert = Some ca /\ w_files w' !! ServerCert = Some cert /\
    w_files w' !! ServerKey = Some key /\ ValidateServerCert (w_now w') ca cert key = None) /\
  forall l, l ∈ [Pki.TLSKey; settingFile; templateFile] -> there w' l = true.
Proof.
  intros Hx Ho Hr. rewrite InitPKI_split in Hr. apply bind_inr in Hr as ([] & w1 & _ & Hr).
  apply bind_inr in Hr as ([] & w2 & Ha & Hr).
  apply bind_inr in Hr as ([] & w3 & Ht & Hr). apply bind_inr in Hr as (b & w4 & Hc & Hr).
  apply bind_inr in Hr as ([] & w5 & Hm & Hp).
  pose proof (tls_keeps openvpn Ho w2) as K3. pose proof (conf_settles w3) as K4. pose proof (template_settles w4) as K5.
  pose proof (perms_settle w5) as K6. rewrite Ht in K3. rewrite Hc in K4. rewrite Hm in K5. rewrite Hp in K6. cbn [snd] in *. split.
  - unfold init_authority, WithPKILock in Ha. apply Lock_inr in Ha. apply bind_inr in Ha as ([] & a1 & _ & Ha).
    apply bind_inr in Ha as ([] & a2 & _ & Ha). apply bind_inr in Ha as ([] & a3 & Hv & Ha).
    pose proof (crl_keeps exec Hx a3) as K2. rewrite Ha in K2. cbn [snd] in K2.
    assert (keeps_identity a3 w') as K.
    { etrans; [exact K2|]. etrans; [exact K3|]. etrans; [apply K4|]. etrans; [apply K5|apply K6]. }
    apply validated in Hv as (<- & ca & cert & key & H1 & H2 & H3 & H4). destruct K as [[Hn _] Hf].
    exists ca, cert, key. unfold keypair_files in Hf. rewrite !Hf, Hn by (rewrite not_elem_of_cons; set_solver). done.
  - apply tls_makes in Ht. apply conf_makes in Hc. apply template_makes in Hm. destruct K4 as [_ K4], K5 as [_ K5], K6 as [_ K6].
    intros l Hl. repeat (apply elem_of_cons in Hl as [->|Hl]; [by auto|]). by apply elem_of_nil in Hl.
Qed.
End init.

(** ** The first start of a node *)

Definition demo_system : option (list (string * option (goerr + string))) := Some [("", None); ("easyrsa", Some (inr "script")); ("x509-types", None)].
Definition demo_script (args : list string) : M unit :=
  if bool_decide ("gen-crl" ∈ args) then WriteFileAtomic Pki.CRLFile (demo_pem "X509 CRL" "node|1")
  else if bool_decide ("build-ca" ∈ args) then
    WriteFileAtomic CACert (demo_pem "CERTIFICATE" "node|1|node|1") ;; WriteFileAtomic CAKey (demo_pem "EC PRIVATE KEY" "secret")
  else WriteFileAtomic ServerCert (demo_pem "CERTIFICATE" "server|2|node|0") ;; WriteFileAtomic ServerKey (demo_pem "EC PRIVATE KEY" "server").
Definition demo_openvpn (args : list string) : M unit := WriteFileAtomic Pki.TLSKey "static key".
Definition whole : string -> option string := fun _ => None.
Definition demo_start (script : list string -> M unit) (w : World) : (goerr + unit) * World :=
  InitPKI plain_env plain_host (LConf "mgmt-pass") whole demo_system script demo_openvpn w.

Lemma demo_script_spares : gen_crl_spares_identity demo_script.
Proof.
  intros args Hg. unfold demo_script. rewrite bool_decide_true by done.
  apply frames_write, (bool_decide_unpack _); by vm_compute.
Qed.

Lemma demo_openvpn_writes : genkey_writes_its_key demo_openvpn.
Proof. intros args. by apply frames_write. Qed.

(** From nothing, and then again: the second start keeps the identity. *)
Example first_start :
  (let '(r1, w1) := demo_start demo_script demo_world in
   let '(r2, w2) := demo_start demo_script w1 in
   (r1, r2, w_files w1 !! SerialFile, there w1 Pki.CRLFile,
    bool_decide (map (fun l => w_files w2 !! l) keypair_files = map (fun l => w_files w1 !! l) keypair_files))) =
  (inr tt, inr tt, Some ("1000" +:+ str1 nl), true, true).
Proof. vm_compute. reflexivity. Qed.

Lemma successful_start_has_a_valid_identity_witness :
  exists w', demo_start demo_script demo_world = (inr tt, w') /\
  (exists ca cert key, w_files w' !! CACert = Some ca /\ w_files w' !! ServerCert = Some cert /\
    w_files w' !! ServerKey = Some key /\ ValidateServerCert (w_now w') ca cert key = None) /\
  forall l, l ∈ [Pki.TLSKey; settingFile; templateFile] -> there w' l = true.
Proof.
  eexists. split; [apply run_eta; vm_compute; reflexivity|].
  apply (successful_start_has_a_valid_identity plain_env plain_host (LConf "mgmt-pass") whole demo_system
    ltac:(apply (bool_decide_unpack _); vm_compute; exact I) demo_script demo_openvpn demo_world _ demo_script_spares demo_openvpn_writes).
  apply run_eta. vm_compute. reflexivity.
Defined.

(** The authority of a tree that was copied without its key. *)
Definition keyless : World := set_files {[CACert := demo_pem "CERTIFICATE" "node|1|node|1"]} demo_world.

Lemma broken_identity_fails_closed_witness :
  exists x w', demo_start demo_script keyless = (inl x, w') /\
    frames (fun l => setup_loc l = true) keyless w' /\ forall l, l ∈ keypair_files -> w_files w' !! l = w_files keyless !! l.
Proof.
  unfold demo_start. apply (broken_identity_fails_closed plain_env plain_host (LConf "mgmt-pass") whole demo_system demo_script demo_openvpn keyless).
  left. vm_compute. discriminate.
Defined.

(** A script that would destroy the tree when told to build an authority. *)
Definition destroyer (args : list string) : M unit :=
  if bool_decide ("build-ca" ∈ args) then modify (set_files ∅) else demo_script args.

Lemma existing_authority_is_kept_witness :
  (demo_start destroyer demo_pki) = (demo_start demo_script demo_pki).
Proof.
  unfold demo_start. refine (proj1 (existing_authority_is_kept plain_env plain_host (LConf "mgmt-pass") whole demo_system destroyer demo_script demo_openvpn demo_pki _ _) _).
  - reflexivity.
  - reflexivity.
  - intros args w Ha. unfold destroyer. by rewrite bool_decide_false.
Defined.

(** A write of the first serial that fails leaves an empty file, which every
    later start takes for the counter of the authority. *)
Lemma torn_serial_is_kept :
  let torn := fun _ : string => Some "" in
  let w := mkWorld ∅ true ∅ [] [] 0 0 [] (newCache nameCacheTTL) (newCache usageCacheTTL) (fun op => bool_decide (op = OpWrite SerialFile)) in
  let w1 := (EnsureDirTree torn w).2 in
  let w2 := mkWorld (w_files w1) true ∅ [] [] 0 0 [] (newCache nameCacheTTL) (newCache usageCacheTTL) (fun _ => false) in
  (EnsureDirTree torn w).1 = inl ErrIO /\ (EnsureDirTree torn w2).1 = inr tt /\
  w_files (EnsureDirTree torn w2).2 !! SerialFile = Some "" /\
  exists x, (nextSerial (EnsureDirTree torn w2).2).1 = inl x.
Proof. cbv zeta. split_and!; [by vm_compute..|]. eexists. vm_compute. reflexivity. Qed.
