(* ===== verification/Installer.v ===== *)
(** * Installer: internal/installer/installer.go and state.go.

    What an update relies on: the journal of its phases, the snapshot of the
    state taken before it and the restore after a failed one.  The files are
    seen at their absolute paths.  The tar and gzip formats and SHA-256 are
    parameters. *)

From S2P Require Import Prelude GoString Json Indent Time Names Cache World Config Pki Migrate Float Body.
From Stdlib Require Import Ascii.

(** ** Archives *)

(** The regular files of an archive, in order, by name; [None] for a file that
    is no archive. *)
Class Archive : Type := {
  pack : list (string * string) -> string;
  unpack : string -> option (list (string * string))
}.

(** A name the format keeps as it is: a last slash would make it a folder. *)
Definition tar_name (name : string) : bool :=
  negb (str_empty name) && no_char "000" name && negb (has_suffix name "/").

Class ArchiveSpec `{Archive} : Prop := {
  unpack_law : forall members, Forall (fun m => tar_name m.1 = true) members -> unpack (pack members) = Some members
}.

(** ** Paths *)

(** The files under a folder in the order of [filepath.Walk]: names are
    compared folder by folder, a slash before every other character. *)
Definition walk_key : string -> string := replace_char "/" "000".
Definition walk_order (paths : list string) : list string :=
  map (replace_char "000" "/") (sort_strings (map walk_key paths)).
Definition under (dir path : string) : bool := has_prefix path (dir +:+ "/").
Definition abs_paths (w : World) : list string :=
  omap (fun l => match l with LAbs p => Some p | _ => None end) (elements (dom (w_files w))).
Definition tree_files (dir : string) (w : World) : list string :=
  walk_order (filter (fun p => under dir p = true) (abs_paths w)).

(** ** Dates *)

Definition stamp_of (t : Z) : string :=
  let c := civil_of_unix (t / second) in
  four_digits (cv_year c) +:+ two_digits (cv_month c) +:+ two_digits (cv_day c) +:+ "_" +:+
  two_digits (cv_hour c) +:+ two_digits (cv_min c) +:+ two_digits (cv_sec c).

(** The digits of the nanoseconds without the zeros at their end. *)
Definition nano_text (n : Z) : string :=
  if (n =? 0)%Z then ""
  else "." +:+ trim_right_set (fun c => Ascii.eqb c "0") (str_drop 1 (itoa (1000000000 + n))).
Definition rfc3339nano (t : Z) : string :=
  let c := civil_of_unix (t / second) in
  format_date t +:+ "T" +:+ two_digits (cv_hour c) +:+ ":" +:+ two_digits (cv_min c) +:+ ":" +:+ two_digits (cv_sec c) +:+
  nano_text (t mod second) +:+ "Z".

(** ** The settings of the node *)

Definition settings_line (out : gmap string string) (line : string) : gmap string string :=
  let line := trim_space line in
  if str_empty line || has_prefix line "#" then out
  else match cut "=" line with
       | (k, v, true) => <[trim_space k := trim_space v]> out
       | _ => out
       end.

(** The scanner stops at a line of a megabyte. *)
Definition max_line : nat := N.to_nat 1048576.
Fixpoint short_lines (lines : list string) : list string :=
  match lines with
  | [] => []
  | l :: lines' => if (max_line <=? String.length l)%nat then [] else l :: short_lines lines'
  end.
Definition readEnv (path : string) : M (gmap string string) :=
  r <- try (read_file (LAbs path)) ;;
  mret (match r with inr data => foldl settings_line ∅ (short_lines (split nl data)) | inl _ => ∅ end).

(** [json.Unmarshal]: one value and nothing but white space after it. *)
Definition Unmarshal (data : string) : option json :=
  match json_decode data with
  | Some (v, rest) => if str_empty (skip_ws rest) then Some v else None
  | None => None
  end.

Section installer.
Context `{Archive} (digest : string -> string).

Definition IdentitySHA (name key : string) : string := digest (name +:+ "|" +:+ key).

(** ** The snapshot *)

Definition left_out (path : string) : bool := bool_decide (Base path ∈ ["update-maintenance"; "update-state.json"]).

(** A file that cannot be looked at is left out. *)
Fixpoint read_members (src prefix : string) (paths : list string) : M (list (string * string)) :=
  match paths with
  | [] => mret []
  | p :: paths' =>
      there <- stat_file (LAbs p) ;;
      if negb there || left_out p then read_members src prefix paths'
      else
        data <- read_file (LAbs p) ;;
        rest <- read_members src prefix paths' ;;
        mret ((Join [prefix; str_drop (String.length src + 1) p], data) :: rest)
  end.
Definition addToArchive (src prefix : string) : M (list (string * string)) :=
  paths <- gets (tree_files (Clean src)) ;; read_members (Clean src) prefix paths.

Definition addFileEntry (path arc : string) : M (list (string * string)) :=
  there <- stat_file (LAbs path) ;;
  if negb there then mret []
  else r <- try (read_file (LAbs path)) ;; mret (match r with inr data => [(arc, data)] | inl _ => [] end).

Definition tls_entry (env : gmap string string) (key : string) : M (list (string * string)) :=
  let target := default "" (env !! key) in
  if str_empty target then mret [] else addFileEntry target (Join ["tls"; Base target]).

(** Everything the snapshot holds but its manifest. *)
Definition members_of (appDir nodeData ovpnRoot : string) : M (list (string * string)) :=
  env <- addFileEntry (Join [appDir; ".env"]) "node.env" ;;
  data <- addToArchive nodeData "data" ;;
  server <- addToArchive (Join [ovpnRoot; "server"]) "openvpn/server" ;;
  ccd <- addToArchive (Join [ovpnRoot; "ccd"]) "openvpn/ccd" ;;
  ovnode <- addToArchive (Join [ovpnRoot; "ovnode"]) "openvpn/ovnode" ;;
  settings <- readEnv (Join [appDir; ".env"]) ;;
  key <- tls_entry settings "SSL_KEYFILE" ;;
  cert <- tls_entry settings "SSL_CERTFILE" ;;
  mret (env ++ data ++ server ++ ccd ++ ovnode ++ key ++ cert).

(** The digest of each name, the last one of a name counting. *)
Definition digests (members : list (string * string)) : gmap string string :=
  foldl (fun m f => <[f.1 := digest f.2]> m) ∅ members.

Definition manifest_of (node fromVersion : string) (now : Z) (members : gmap string string) : string :=
  MarshalIndent (JObj
    [("created_at", JStr (rfc3339nano now)); ("format", JStr "ovnode-state"); ("format_version", JNum (utoa 1));
     ("from_version", JStr fromVersion);
     ("members", JObj (map (fun k => (k, JStr (default "" (members !! k)))) (sort_strings (elements (dom members)))));
     ("node", JStr node)]) +:+ str1 nl.

(** The manifest goes through a file of the temporary folder. *)
Definition stage_manifest (tmpdir data : string) : M string :=
  t <- create_temp (LAbs (tmpdir +:+ "/ovnode-manifest")) "ovnode-manifest-" data ;;
  there <- stat_file t ;;
  if negb there then throw (Panic "invalid memory address or nil pointer dereference")
  else
    r <- try (read_file t) ;;
    ignore (remove_file t) ;;
    match r with
    | inr d => mret d
    | inl _ => throw (Errorf "archive/tar: missed writing the manifest")
    end.

(** ** What a snapshot must be *)

Definition unsafe_name (name : string) : bool := has_prefix name "/" || contains name "..".

(** The content of the last member of that name. *)
Definition last_member (name : string) (members : list (string * string)) : option string :=
  snd <$> last (filter (fun m => m.1 = name) members).

(** The string a map of any values has under a key. *)
Definition any_text (v : json) (key : string) : string :=
  match v with
  | JObj kvs => match last (filter (fun kv => kv.1 = key) kvs) with Some (_, JStr s) => s | _ => "" end
  | _ => ""
  end.

(** The checks of a new snapshot. *)
Definition verify_bundle (data : string) : option goerr :=
  match unpack data with
  | None => Some (Errorf "unexpected EOF")
  | Some members =>
      match last_member "manifest.json" members with
      | None => Some (Errorf "bundle verification failed")
      | Some manifest =>
          if existsb (fun m => unsafe_name m.1) members then Some (Errorf "bundle verification failed")
          else match Unmarshal manifest with
               | Some v => if String.eqb (any_text v "format") "ovnode-state" then None
                           else Some (Errorf "bundle verification failed: bad manifest")
               | None => Some (Errorf "bundle verification failed: bad manifest")
               end
      end
  end.

Definition cleanup_on {A} (tmp : loc) (m : M A) : M A :=
  r <- try m ;;
  match r with inl x => ignore (remove_file tmp) ;; throw x | inr a => mret a end.

(** The snapshots of the folder by age, for the names hold the time. *)
Definition is_snapshot (backupRoot path : string) : bool :=
  match rcut "/" path with
  | Some (d, f) => String.eqb d backupRoot && has_prefix f "ovnode-state-pre-update-" && has_suffix f ".tar.gz"
  | None => false
  end.
Definition snapshots (backupRoot : string) (w : World) : list string :=
  sort_strings (filter (fun p => is_snapshot backupRoot p = true) (abs_paths w)).
Definition retention (backupRoot : string) : M unit :=
  entries <- gets (snapshots backupRoot) ;;
  for_each (fun p => ignore (remove_file (LAbs p))) (take (length entries - 5) entries).

(** The temporary file is made here where it is filled; the folder of the
    snapshots is none of the folders that are read. *)
Section bundle.
Context (tmpdir : string).

Definition Bundle (appDir nodeData ovpnRoot backupRoot node fromVersion : string) : M string :=
  now <- gets w_now ;;
  let final := Join [backupRoot; "ovnode-state-pre-update-" +:+ stamp_of now +:+ ".tar.gz"] in
  mkdir backupRoot ;;
  mkdir nodeData ;;
  members <- members_of appDir nodeData ovpnRoot ;;
  manifest <- stage_manifest tmpdir (manifest_of node fromVersion now (digests members)) ;;
  tmp <- create_temp (LAbs final) ".ovnode-state-" (pack (members ++ [("manifest.json", manifest)])) ;;
  cleanup_on tmp (
    data <- read_file tmp ;;
    match verify_bundle data with
    | Some x => throw x
    | None => rename_file tmp (LAbs final)
    end) ;;
  chmod_file (LAbs final) ;;
  retention backupRoot ;;
  mret final.
End bundle.

(** ** The restore *)

Record manifest : Type := mkManifest { mf_format : string; mf_members : gmap string string }.

Definition member_value (acc : option (gmap string string)) (kv : string * json) : option (gmap string string) :=
  m ← acc;
  match kv.2 with JStr s => Some (<[kv.1 := s]> m) | JNull => Some (<[kv.1 := ""]> m) | _ => None end.
Definition set_manifest (m : manifest) (name : string) (v : json) : option manifest :=
  if String.eqb name "format" then s ← to_string (mf_format m) v; Some (mkManifest s (mf_members m))
  else match v with
       | JNull => Some (mkManifest (mf_format m) ∅)
       | JObj kvs => ms ← foldl member_value (Some (mf_members m)) kvs; Some (mkManifest (mf_format m) ms)
       | _ => None
       end.
Definition decode_manifest (data : string) : option manifest :=
  v ← Unmarshal data; decode_struct ["format"; "members"] set_manifest (mkManifest "" ∅) v.

(** The members and the manifest of a snapshot, or why it is refused. *)
Definition read_bundle (data : string) : goerr + (list (string * string) * manifest) :=
  match unpack data with
  | None => inl (Errorf "unexpected EOF")
  | Some members =>
      match last_member "manifest.json" members with
      | None => inl (Errorf "unsafe state backup: no manifest")
      | Some raw =>
          if existsb (fun m => unsafe_name m.1) members then inl (Errorf "unsafe state backup: unsafe member")
          else match decode_manifest raw with
               | Some mf => if String.eqb (mf_format mf) "ovnode-state" then inr (members, mf)
                            else inl (Errorf "unsafe state backup: bad manifest")
               | None => inl (Errorf "unsafe state backup: bad manifest")
               end
      end
  end.

Definition dir_of (path : string) : string := match rcut "/" path with Some (d, _) => d | None => "." end.

Section restore.
(** The new folder of [os.MkdirTemp], what a failed write leaves of a text and
    the orders in which Go visits the members to check and to apply them. *)
Context (staged : string) (torn : string -> option string) (checked applied : list string -> list string).

Definition staged_file (name : string) : loc := LAbs (Join [staged; name]).
Definition extract (m : string * string) : M unit :=
  let dst := Join [staged; m.1] in
  mkdir (dir_of dst) ;;
  if String.eqb dst (Clean staged) then throw (Errorf "is a directory") else WriteFile torn (LAbs dst) m.2.

Definition check_member (expected : gmap string string) (rel : string) : M unit :=
  let mismatch := Errorf ("state backup checksum mismatch: " +:+ rel) in
  r <- try (read_file (staged_file rel)) ;;
  match r with
  | inl _ => throw mismatch
  | inr data => if String.eqb (digest data) (default "" (expected !! rel)) then mret tt else throw mismatch
  end.

(** Where a member belongs; the files of the API's own TLS are left to the
    repair, and no other name is known. *)
Definition destination (appDir dataBase ovpnRoot rel : string) : goerr + option string :=
  if String.eqb rel "node.env" then inr (Some (Join [appDir; ".env"]))
  else if has_prefix rel "data/" then inr (Some (Join [dataBase; trim_prefix rel "data/"]))
  else if has_prefix rel "openvpn/" then inr (Some (Join [ovpnRoot; trim_prefix rel "openvpn/"]))
  else if has_prefix rel "tls/" then inr None
  else inl (Errorf ("unsafe state backup: unknown member " +:+ rel)).

Definition apply_member (appDir dataBase ovpnRoot rel : string) : M unit :=
  dst <- lift (destination appDir dataBase ovpnRoot rel) ;;
  match dst with
  | None => mret tt
  | Some dst =>
      mkdir (dir_of dst) ;;
      data <- read_file (staged_file rel) ;;
      tmp <- create_temp (LAbs dst) ".ovnode-restore-" data ;;
      (if has_suffix dst ".env" || contains dst "scripts/" || has_suffix dst "/ovnode" then ignore (SetPermissions (path_of tmp))
       else mret tt) ;;
      r <- try (rename_file tmp (LAbs dst)) ;;
      match r with inl x => ignore (remove_file tmp) ;; throw x | inr _ => mret tt end
  end.

Definition below (dir : string) (l : loc) : bool := match l with LAbs p => under dir p | _ => false end.

(** [os.RemoveAll], whose error nobody looks at. *)
Definition remove_tree (dir : string) : M unit := fun w =>
  if w_fault w (OpRemove (LAbs dir)) then (inr tt, w)
  else (inr tt, set_files (filter (fun kv => below dir kv.1 = false) (w_files w)) w).

Definition restore_members (appDir dataBase ovpnRoot : string) (members : list (string * string)) (mf : manifest) : M unit :=
  for_each extract members ;;
  let rels := elements (dom (mf_members mf)) in
  for_each (check_member (mf_members mf)) (checked rels) ;;
  for_each (apply_member appDir dataBase ovpnRoot) (applied rels).

Definition Restore (bundle appDir dataBase ovpnRoot : string) : M unit :=
  data <- read_file (LAbs bundle) ;;
  content <- lift (read_bundle data) ;;
  mkdir staged ;;
  r <- try (restore_members appDir dataBase ovpnRoot content.1 content.2) ;;
  remove_tree staged ;;
  lift r.
End restore.

(** ** The answer of the agent *)

Inductive probed : Type := mkProbed (version : string) (running : option json).
Definition set_status_doc (p : probed) (name : string) (v : json) : option probed :=
  let 'mkProbed version running := p in
  if String.eqb name "version" then s ← to_string version v; Some (mkProbed s running)
  else _ ← to_any v; Some (mkProbed version (Some v)).
Definition set_doc (p : probed) (name : string) (v : json) : option probed :=
  decode_struct ["version"; "openvpn_running"] set_status_doc p v.

Definition running_text (v : option json) : string :=
  match v with
  | Some (JBool b) => if b then "true" else "false"
  | Some (JStr s) => to_lower s
  | Some (JNum lit) =>
      match ParseFloat lit with Some x => if SpecFloat.SFeqb x f_zero then "false" else "true" | None => "" end
  | _ => ""
  end.
(** [None] for an input that cannot be read. *)
Definition ProbeAgentStatus (raw : option string) : string :=
  match (data ← raw; v ← Unmarshal data; decode_struct ["data"] set_doc (mkProbed "" None) v) with
  | Some (mkProbed version running) => version +:+ " " +:+ running_text running
  | None => " "
  end.
End installer.

(** ** The journal of an update (state.go) *)

Definition or_null (s : string) : json := if str_empty s then JNull else JStr s.
Definition state_doc (phase from target backup identity : string) (now ppid : Z) : json :=
  JObj [("from_version", JStr from); ("identity_sha", or_null identity); ("phase", JStr phase); ("pid", JNum (itoa ppid));
        ("safety_backup", or_null backup); ("to_version", JStr target); ("updated_at", JNum (itoa now))].

(** The temporary file is renamed whatever happened to its write: [reaches] is
    what of the text is in it. *)
Definition WriteUpdateState (reaches : string -> string) (ppid : Z) (path phase from target backup identity : string) : M unit :=
  now <- gets now_unix ;;
  ignore (mkdir (dir_of path)) ;;
  tmp <- create_temp (LAbs path) ".update-state-"
           (reaches (MarshalIndent (state_doc phase from target backup identity now ppid) +:+ str1 nl)) ;;
  ignore (SetPermissions (path_of tmp)) ;;
  rename_file tmp (LAbs path).

(** The members of the document; a document that is null has none. *)
Definition ReadUpdateState (path : string) : M (list (string * json)) :=
  data <- read_file (LAbs path) ;;
  match Unmarshal data with
  | Some (JObj kvs) => match to_any (JObj kvs) with Some _ => mret kvs | None => throw (Errorf "json: cannot unmarshal number") end
  | Some JNull => mret []
  | Some _ => throw (Errorf "json: cannot unmarshal value into Go value of type map[string]interface {}")
  | None => throw (Errorf "invalid character in the journal")
  end.
