(* ===== verification/Paths.v ===== *)
(** * Paths: clean paths, on which [path/filepath] does nothing.

    A path with no empty element, no dot and no parent is what [Clean] leaves,
    and joining two of them only puts a slash between them. *)

From S2P Require Import Prelude GoString World Config Migrate Installer.
From Stdlib Require Import Ascii.

Definition plain_names (ns : list string) : Prop := ns <> [] /\ Forall plain_name ns.
Definition rel_plain (r : string) : Prop := exists ns, plain_names ns /\ r = join "/" ns.
Definition abs_plain (p : string) : Prop := exists ns, plain_names ns /\ p = "/" +:+ join "/" ns.

Lemma plain_no_slash ns : Forall plain_name ns -> Forall (fun s => no_char "/" s = true) ns.
Proof. intros H. eapply Forall_impl; [exact H|]. by intros d (_ & _ & _ & Hd). Qed.

Lemma split_names ns : plain_names ns -> split "/" (join "/" ns) = ns.
Proof. intros [Hne Hns]. apply (split_join "/"); [done|by apply plain_no_slash]. Qed.

Lemma join_names_app a b : a <> [] -> b <> [] -> join "/" (a ++ b) = join "/" a +:+ "/" +:+ join "/" b.
Proof.
  intros Ha Hb. induction a as [|x a IH]; [done|]. destruct a as [|y a].
  - destruct b as [|z b]; [done|]. done.
  - change ((x :: y :: a) ++ b) with (x :: y :: (a ++ b)). rewrite !join_cons.
    change (y :: (a ++ b)) with ((y :: a) ++ b). by rewrite IH, !app_assoc_s.
Qed.

Lemma plain_names_app a b : plain_names a -> plain_names b -> plain_names (a ++ b).
Proof. intros [Ha Hfa] [Hb Hfb]. split; [by destruct a|by apply Forall_app]. Qed.

Lemma join_names_head ns : plain_names ns -> exists c s, join "/" ns = String c s /\ c <> "/"%char.
Proof.
  intros [Hne Hns]. destruct Hns as [|n ns (Hn & _ & _ & Hc) _]; [done|]. destruct n as [|c n]; [done|].
  unfold no_char in Hc. simpl in Hc. boolify. destruct ns; [exists c, n|exists c, (n +:+ "/" +:+ join "/" (s :: ns))]; split; try done;
    intros ->; discriminate.
Qed.

Lemma foldl_plain r ns out : Forall plain_name ns -> foldl (clean_step r) out ns = rev ns ++ out.
Proof.
  intros Hns. revert out. induction Hns as [|n ns Hn Hns IH]; intros out; [done|]. cbn [foldl rev].
  by rewrite clean_step_plain, IH, <- app_assoc.
Qed.

Lemma Clean_rel ns : plain_names ns -> Clean (join "/" ns) = join "/" ns.
Proof.
  intros Hp. unfold Clean. destruct (join_names_head ns Hp) as (c & s & Hj & Hc). rewrite split_names by done.
  rewrite foldl_plain, app_nil_r, rev_involutive by apply Hp. rewrite Hj, has_prefix_cons.
  by destruct (Ascii.eqb_spec "/" c) as [<-|].
Qed.

Lemma Clean_abs ns : plain_names ns -> Clean ("/" +:+ join "/" ns) = "/" +:+ join "/" ns.
Proof.
  intros Hp. unfold Clean. change ("/" +:+ join "/" ns) with (String "/" (join "/" ns)).
  assert (has_prefix (String "/" (join "/" ns)) "/" = true) as -> by apply (has_prefix_app "/").
  change (split "/" (String "/" (join "/" ns))) with ("" :: split "/" (join "/" ns)). cbn [foldl].
  change (clean_step true [] "") with (@nil string). rewrite split_names, foldl_plain, app_nil_r, rev_involutive by (done || apply Hp).
  done.
Qed.

Lemma Clean_plain p : abs_plain p -> Clean p = p.
Proof. intros (ns & Hns & ->). by apply Clean_abs. Qed.

Lemma Join_two a b : a <> "" -> b <> "" -> Join [a; b] = Clean (a +:+ "/" +:+ b).
Proof. intros Ha Hb. by destruct a, b. Qed.

Lemma rel_ne r : rel_plain r -> r <> "".
Proof. intros (ns & Hns & ->). by destruct (join_names_head ns Hns) as (c & s & -> & _). Qed.

Lemma Join_abs d r : abs_plain d -> rel_plain r -> Join [d; r] = d +:+ "/" +:+ r /\ abs_plain (d +:+ "/" +:+ r).
Proof.
  intros (a & Ha & ->) Hr. pose proof (rel_ne r Hr) as Hne. destruct Hr as (b & Hb & ->). rewrite Join_two by done.
  assert (("/" +:+ join "/" a) +:+ "/" +:+ join "/" b = "/" +:+ join "/" (a ++ b)) as ->.
  { rewrite join_names_app by (apply Ha || apply Hb). by rewrite !app_assoc_s. }
  pose proof (plain_names_app a b Ha Hb) as Hab. rewrite Clean_abs by done. split; [done|by exists (a ++ b)].
Qed.

Lemma Join_rel d r : rel_plain d -> rel_plain r -> Join [d; r] = d +:+ "/" +:+ r /\ rel_plain (d +:+ "/" +:+ r).
Proof.
  intros Hd Hr. pose proof (rel_ne r Hr). pose proof (rel_ne d Hd). destruct Hd as (a & Ha & ->), Hr as (b & Hb & ->).
  rewrite Join_two by done. assert (join "/" a +:+ "/" +:+ join "/" b = join "/" (a ++ b)) as ->.
  { by rewrite join_names_app by (apply Ha || apply Hb). }
  pose proof (plain_names_app a b Ha Hb) as Hab. rewrite Clean_rel by done. split; [done|by exists (a ++ b)].
Qed.

Lemma rel_plain_name n : plain_name n -> rel_plain n.
Proof. intros Hn. exists [n]. split; [split; [done|by constructor]|done]. Qed.

(** What lies under a folder is named by a plain path. *)
Lemma under_rel d p : abs_plain d -> abs_plain p -> under d p = true ->
  exists r, rel_plain r /\ p = d +:+ "/" +:+ r.
Proof.
  intros (a & Ha & ->) (b & Hb & ->) Hu. unfold under in Hu. apply has_prefix_spec in Hu as [t Ht].
  rewrite !app_assoc_s in Ht. change ("/" +:+ t) with (String "/" t) in Ht.
  assert (join "/" b = join "/" a +:+ String "/" t) as Hj.
  { change ("/" +:+ join "/" b) with (String "/" (join "/" b)) in Ht. rewrite app_cons_s, app_nil_l_s in Ht.
    injection Ht as Ht. by rewrite Ht. }
  assert (b = a ++ split "/" t) as Hbt.
  { rewrite <- (split_names b Hb), Hj, split_app_gen, split_names by done. done. }
  exists t. split; [|by rewrite Ht, !app_assoc_s]. exists (split "/" t). split.
  - split; [apply split_ne|]. destruct Hb as [_ Hb]. rewrite Hbt in Hb. by apply Forall_app in Hb as [_ Hb].
  - by rewrite (join_split "/").
Qed.

Lemma under_app d r : under d (d +:+ "/" +:+ r) = true.
Proof. unfold under. rewrite <- app_assoc_s. apply has_prefix_app. Qed.

Lemma drop_under d r : str_drop (String.length d + 1) (d +:+ "/" +:+ r) = r.
Proof.
  rewrite <- app_assoc_s. replace (String.length d + 1)%nat with (String.length (d +:+ "/")) by by rewrite length_app_s.
  apply str_drop_app.
Qed.

(** A file next to another one is under the same folders. *)
Lemma sibling_under d p f q : rcut "/" p = Some (q, f) -> forall f', no_char "/" f' = true ->
  under d (q +:+ "/" +:+ f') = true -> under d p = true.
Proof.
  intros [-> _]%rcut_Some f' Hf Hu. unfold under in *. apply has_prefix_spec in Hu as [t Ht]. apply has_prefix_spec.
  rewrite !app_assoc_s in Ht. change ("/" +:+ t) with (String "/" t) in Ht. change ("/" +:+ f') with (String "/" f') in Ht.
  destruct (rcut "/" t) as [[t1 t2]|] eqn:Hr.
  - pose proof (rcut_Some _ _ _ _ Hr) as [-> Hn].
    assert (Some (q, f') = Some (d +:+ String "/" t1, t2)) as [= -> _].
    { rewrite <- (rcut_last "/" q f') by done. rewrite Ht. rewrite <- (rcut_last "/" _ t2) by done.
      by rewrite app_assoc_s, app_cons_s. }
    exists (t1 +:+ String "/" f). rewrite !app_assoc_s. done.
  - assert (no_char "/" t = true) as Hn.
    { clear -Hr. induction t as [|c t IH]; [done|]. simpl in Hr. unfold no_char in *. simpl.
      destruct (rcut "/" t) as [[]|]; [done|]. destruct (Ascii.eqb c "/") eqn:E; [done|]. by rewrite IH. }
    assert (Some (q, f') = Some (d, t)) as [= -> _].
    { rewrite <- (rcut_last "/" q f') by done. rewrite Ht. by rewrite rcut_last. }
    exists f. by rewrite app_assoc_s.
Qed.

Lemma trim_right_last p s c : p c = false -> trim_right_set p (s +:+ str1 c) = s +:+ str1 c.
Proof.
  intros Hc. induction s as [|d s IH]; [simpl; by rewrite Hc|]. rewrite app_cons_s. cbn [trim_right_set]. rewrite IH.
  destruct s as [|e s]; [by rewrite app_nil_l_s, andb_false_r|]. by rewrite app_cons_s, andb_false_r.
Qed.

(** The last element of a plain path. *)
Lemma abs_last p : abs_plain p -> exists q f, rcut "/" p = Some (q, f) /\ plain_name f /\ Base p = f.
Proof.
  intros (ns & [Hne Hns] & ->). destruct (List.exists_last Hne) as (ns' & f & ->). apply Forall_app in Hns as [Hns' Hf].
  apply Forall_inv in Hf. pose proof Hf as (Hf0 & _ & _ & Hfs).
  assert (exists q, "/" +:+ join "/" (ns' ++ [f]) = q +:+ String "/" f) as [q Hq].
  { destruct ns' as [|n ns']; [by exists ""|]. rewrite join_names_app by done. exists ("/" +:+ join "/" (n :: ns')). by rewrite !app_assoc_s. }
  rewrite Hq. exists q, f. rewrite rcut_last by done. split; [done|]. split; [done|]. unfold Base.
  assert (trim_right_set (fun c => Ascii.eqb c "/") (q +:+ String "/" f) = q +:+ String "/" f) as ->.
  - destruct (str_snoc f) as [->|(t & c & ->)]; [done|]. rewrite no_char_app in Hfs. boolify.
    change (String "/" (t +:+ str1 c)) with (("/" +:+ t) +:+ str1 c). rewrite <- app_assoc_s. apply trim_right_last.
    unfold no_char in H0. simpl in H0. boolify. done.
  - assert (str_empty (q +:+ String "/" f) = false) as -> by (by destruct q). by rewrite rcut_last.
Qed.

(** A plain path ends in a name, never in a slash. *)
Lemma rel_last r : rel_plain r -> exists q f, r = q +:+ f /\ plain_name f.
Proof.
  intros (ns & [Hne Hns] & ->). destruct (List.exists_last Hne) as (ns' & f & ->). apply Forall_app in Hns as [_ Hf].
  apply Forall_inv in Hf. destruct (join_snoc "/" ns' f) as [q ->]. by exists q, f.
Qed.

Lemma suffix_last s c d : has_suffix (s +:+ str1 c) (str1 d) = Ascii.eqb d c.
Proof.
  unfold has_suffix. rewrite rev_append_s. change (String.rev (str1 c) +:+ String.rev s) with (String c (String.rev s)).
  change (String.rev (str1 d)) with (String d ""). change (has_prefix (String c (String.rev s)) (String d "") = Ascii.eqb d c).
  rewrite has_prefix_cons. destruct (String.rev s); by rewrite andb_true_r.
Qed.

Lemma rel_tar_name r : rel_plain r -> no_char "000" r = true -> tar_name r = true.
Proof.
  intros Hr Hz. pose proof (rel_ne r Hr) as Hne. unfold tar_name. rewrite Hz. assert (str_empty r = false) as -> by by destruct r.
  cbn [negb andb]. destruct (rel_last r Hr) as (q & f & -> & (Hf & _ & _ & Hs)).
  destruct (str_snoc f) as [->|(t & c & ->)]; [done|]. rewrite <- app_assoc_s.
  pose proof (suffix_last (q +:+ t) c "/") as Hl. change (str1 "/") with "/" in Hl. rewrite Hl.
  rewrite no_char_app in Hs. boolify. unfold no_char in H0. simpl in H0. boolify.
  by destruct (Ascii.eqb_spec "/" c) as [<-|].
Qed.
