(* ===== verification/InstallerProps.v ===== *)
(** * InstallerProps: the snapshot of an update brings the state back, and a
    snapshot that was tampered with changes nothing. *)

From S2P Require Import Prelude GoString Json Indent Time Names Cache World Evolve Config Pki Migrate Control ConfText Float Body Installer Paths.
From Stdlib Require Import Ascii.

#[local] Set Default Proof Using "Type*".

(** ** The files of a host *)

(** The names a file system gives: plain, and without a zero byte. *)
Definition path_ok (p : string) : Prop := abs_plain p /\ no_char "000" p = true.
Definition paths_ok (w : World) : Prop := forall p, is_Some (w_files w !! LAbs p) -> path_ok p.

Lemma elem_of_abs_paths w p : p ∈ abs_paths w ↔ is_Some (w_files w !! LAbs p).
Proof.
  unfold abs_paths. rewrite list_elem_of_omap. setoid_rewrite elem_of_elements. setoid_rewrite elem_of_dom. split.
  - intros (l & Hl & Heq). destruct l; simplify_eq. done.
  - intros H. by exists (LAbs p).
Qed.

Lemma replace_char_back p : no_char "000" p = true -> replace_char "000" "/" (walk_key p) = p.
Proof.
  unfold no_char. induction p as [|c p IH]; [done|]. intros H. cbn [str_forall] in H. boolify.
  unfold walk_key, replace_char in *. cbn [str_map]. rewrite IH by done. f_equal.
  destruct (Ascii.eqb_spec c "/") as [->|]; [done|]. destruct (Ascii.eqb_spec c "000"); [subst; done|done].
Qed.

Lemma elem_of_walk_order l p : Forall (fun p => no_char "000" p = true) l -> p ∈ walk_order l ↔ p ∈ l.
Proof.
  intros Hl. unfold walk_order. rewrite list_elem_of_fmap. setoid_rewrite elem_of_sort_strings. setoid_rewrite list_elem_of_fmap.
  rewrite Forall_forall in Hl. split.
  - intros (k & -> & q & -> & Hq). by rewrite replace_char_back by by apply Hl.
  - intros Hp. exists (walk_key p). split; [by rewrite replace_char_back by by apply Hl|eauto].
Qed.

Lemma elem_of_tree_files w dir p : paths_ok w ->
  p ∈ tree_files dir w ↔ under dir p = true /\ is_Some (w_files w !! LAbs p).
Proof.
  intros Hw. unfold tree_files. rewrite elem_of_walk_order.
  - by rewrite list_elem_of_filter, elem_of_abs_paths.
  - apply Forall_forall. intros q [_ Hq]%list_elem_of_filter. by apply Hw, elem_of_abs_paths.
Qed.

Lemma stat_run w l : faultless w -> stat_file l w = (inr (bool_decide (is_Some (w_files w !! l))), w).
Proof. intros Hf. unfold stat_file. by rewrite Hf. Qed.

(** ** What a snapshot holds *)

Section members.
Context (w : World) (Hf : faultless w) (Hw : paths_ok w).

Lemma read_members_run src prefix paths : (forall p, p ∈ paths -> is_Some (w_files w !! LAbs p)) ->
  exists ms, read_members src prefix paths w = (inr ms, w) /\ forall m, m ∈ ms ↔ exists p, p ∈ paths /\ left_out p = false /\
    w_files w !! LAbs p = Some m.2 /\ m.1 = Join [prefix; str_drop (String.length src + 1) p].
Proof.
  induction paths as [|p paths IH]; intros Hp; cbn [read_members].
  { exists []. split; [done|]. intros m. rewrite elem_of_nil. split; [done|]. by intros (p & ?%elem_of_nil & _). }
  destruct IH as (ms & Hrun & Hms); [intros q Hq; apply Hp; by right|]. destruct (Hp p ltac:(left)) as [d Hd].
  rewrite bind_run, stat_run, bool_decide_true by done. cbn [negb orb]. destruct (left_out p) eqn:Hl.
  - exists ms. split; [done|]. intros m. rewrite Hms. split; intros (q & Hq & Hr); exists q; (split; [|done]); [by right|].
    apply elem_of_cons in Hq as [->|Hq]; [destruct Hr; congruence|done].
  - rewrite bind_run, (read_file_ok w (LAbs p) d), bind_run, Hrun by (done || apply Hf). eexists. split; [done|].
    intros m. rewrite elem_of_cons, Hms. split.
    + intros [->|(q & Hq & Hr)]; [exists p; by repeat split; [left|..]|exists q; split; [by right|done]].
    + intros (q & [->|Hq]%elem_of_cons & Hr); [left|right; by exists q].
      destruct m, Hr as (_ & H1 & H2). simpl in *. congruence.
Qed.

Lemma addToArchive_run src prefix : abs_plain src -> exists ms, addToArchive src prefix w = (inr ms, w) /\ forall m, m ∈ ms ↔
  exists p, under src p = true /\ left_out p = false /\ w_files w !! LAbs p = Some m.2 /\ m.1 = Join [prefix; str_drop (String.length src + 1) p].
Proof.
  intros Hsrc. unfold addToArchive. rewrite Clean_plain by done.
  destruct (read_members_run src prefix (tree_files src w)) as (ms & Hrun & Hms).
  { intros p Hp. by apply elem_of_tree_files in Hp as [_ Hp]. }
  exists ms. split; [done|]. intros m. rewrite Hms. split; intros (p & Hp & Hl & Hd & Hn); exists p; (split; [|done]).
  - by apply elem_of_tree_files in Hp as [Hp _].
  - apply elem_of_tree_files; [done|]. by rewrite Hd.
Qed.

Lemma addFileEntry_run path arc : addFileEntry path arc w =
  (inr (match w_files w !! LAbs path with Some d => [(arc, d)] | None => [] end), w).
Proof.
  unfold addFileEntry. rewrite bind_run, stat_run by done. destruct (w_files w !! LAbs path) as [d|] eqn:Hd.
  - rewrite bool_decide_true by done. cbn [negb]. rewrite bind_run, try_run, (read_file_ok w (LAbs path) d) by (done || apply Hf). done.
  - rewrite bool_decide_false by (intros [? ?]; done). done.
Qed.

Lemma tls_entry_run env key : exists ms, tls_entry env key w = (inr ms, w) /\
  forall m, m ∈ ms -> exists f, plain_name f /\ no_char "000" f = true /\ m.1 = "tls/" +:+ f.
Proof.
  unfold tls_entry. destruct (str_empty _); [exists []; split; [done|]; by intros m ?%elem_of_nil|].
  rewrite addFileEntry_run. eexists. split; [done|]. intros m Hm.
  destruct (w_files w !! LAbs _) as [d|] eqn:Hd; [|by apply elem_of_nil in Hm]. apply list_elem_of_singleton in Hm as ->.
  destruct (Hw _ (mk_is_Some _ _ Hd)) as [Hp Hz]. destruct (abs_last _ Hp) as (q & f & [Hq _]%rcut_Some & Hfp & ->). exists f.
  split; [done|]. rewrite Hq in Hz. rewrite no_char_app in Hz. boolify. unfold no_char in H0. simpl in H0. boolify.
  split; [done|]. destruct (Join_rel "tls" f) as [-> _]; [|by apply rel_plain_name|done].
  apply rel_plain_name. split_and!; done.
Qed.
End members.

(** ** Where a member belongs *)

Section destinations.
Context (appDir nodeData ovpnRoot : string).
Context (Happ : abs_plain appDir) (Hdata : abs_plain nodeData) (Hroot : abs_plain ovpnRoot).

Abbreviation dst := (destination appDir nodeData ovpnRoot).

Lemma dst_data r : dst ("data/" +:+ r) = inr (Some (Join [nodeData; r])).
Proof.
  unfold destination. change (String.eqb ("data/" +:+ r) "node.env") with false. cbv iota.
  by rewrite has_prefix_app, trim_prefix_app.
Qed.

Lemma dst_openvpn r : dst ("openvpn/" +:+ r) = inr (Some (Join [ovpnRoot; r])).
Proof.
  unfold destination. change (String.eqb ("openvpn/" +:+ r) "node.env") with false.
  change (has_prefix ("openvpn/" +:+ r) "data/") with false. cbv iota. by rewrite has_prefix_app, trim_prefix_app.
Qed.

Lemma dst_tls r : dst ("tls/" +:+ r) = inr None.
Proof.
  unfold destination. change (String.eqb ("tls/" +:+ r) "node.env") with false.
  change (has_prefix ("tls/" +:+ r) "data/") with false. change (has_prefix ("tls/" +:+ r) "openvpn/") with false.
  cbv iota. by rewrite has_prefix_app.
Qed.

(** The files a snapshot is made of. *)
Definition trees : list string := [nodeData; Join [ovpnRoot; "server"]; Join [ovpnRoot; "ccd"]; Join [ovpnRoot; "ovnode"]].
Definition covers (p : string) : Prop :=
  p = Join [appDir; ".env"] \/ (left_out p = false /\ exists d, d ∈ trees /\ under d p = true).

Lemma plain_word s : plain_name s -> rel_plain s.
Proof. apply rel_plain_name. Qed.

Lemma words_plain : Forall plain_name ["server"; "ccd"; "ovnode"; "data"; "openvpn"; "tls"; "node.env"; ".env"].
Proof. repeat constructor; done. Qed.

Lemma word_plain s : s ∈ ["server"; "ccd"; "ovnode"; "data"; "openvpn"; "tls"; "node.env"; ".env"] -> rel_plain s.
Proof. intros Hs. apply plain_word. pose proof words_plain as H. rewrite Forall_forall in H. by apply H. Qed.

(** A name of the snapshot: kept by the archive, told from the manifest. *)
Definition good_name (name : string) : Prop :=
  rel_plain name /\ tar_name name = true /\ name <> "manifest.json".

Lemma good_sub prefix r : rel_plain prefix -> no_char "000" prefix = true -> rel_plain r -> no_char "000" r = true ->
  good_name (prefix +:+ "/" +:+ r).
Proof.
  intros Hp Hz Hr Hzr. destruct (Join_rel prefix r Hp Hr) as [_ Hj]. split; [done|]. split.
  - apply rel_tar_name; [done|]. change ("/" +:+ r) with (String "/" r). rewrite no_char_app, Hz. done.
  - intros He. assert (no_char "/" (prefix +:+ String "/" r) = true) as Hn by by rewrite (He : prefix +:+ String "/" r = _).
    rewrite no_char_app in Hn. boolify. discriminate.
Qed.

Context (w : World) (Hw : paths_ok w).

(** A member is a file and comes back to where it was, or is left out of the
    restore. *)
Definition sound (m : string * string) : Prop :=
  good_name m.1 /\ (dst m.1 = inr None \/ exists p, dst m.1 = inr (Some p) /\ covers p /\ w_files w !! LAbs p = Some m.2).

Lemma tree_member prefix src p m : src ∈ trees -> abs_plain src -> rel_plain prefix -> no_char "000" prefix = true ->
  (forall r, rel_plain r -> dst (prefix +:+ "/" +:+ r) = inr (Some (src +:+ "/" +:+ r))) ->
  under src p = true -> left_out p = false -> w_files w !! LAbs p = Some m.2 ->
  m.1 = Join [prefix; str_drop (String.length src + 1) p] -> sound m /\ dst m.1 = inr (Some p).
Proof.
  intros Hin Hsrc Hpre Hz Hdst Hu Hl Hd Hn. destruct (Hw p (mk_is_Some _ _ Hd)) as [Hp Hzp].
  destruct (under_rel src p Hsrc Hp Hu) as (r & Hr & ->). rewrite drop_under in Hn.
  destruct (Join_rel prefix r Hpre Hr) as [Hj _]. rewrite Hj in Hn. rewrite Hn. pose proof (Hdst r Hr) as Hdr.
  split; [|done]. split.
  - rewrite Hn. apply good_sub; try done. rewrite !no_char_app in Hzp. by boolify.
  - right. rewrite Hn. exists (src +:+ "/" +:+ r). split; [done|]. split; [|done]. right. split; [done|]. by exists src.
Qed.

Lemma data_prefix r : rel_plain r -> dst ("data" +:+ "/" +:+ r) = inr (Some (nodeData +:+ "/" +:+ r)).
Proof. intros Hr. change ("data" +:+ "/" +:+ r) with ("data/" +:+ r). rewrite dst_data. by destruct (Join_abs nodeData r Hdata Hr) as [-> _]. Qed.

Lemma vpn_dir sub : rel_plain sub -> Join [ovpnRoot; sub] = ovpnRoot +:+ "/" +:+ sub /\ abs_plain (Join [ovpnRoot; sub]).
Proof. intros Hs. destruct (Join_abs ovpnRoot sub Hroot Hs) as [-> ?]. done. Qed.

Lemma vpn_prefix sub r : rel_plain sub -> rel_plain r ->
  dst (("openvpn/" +:+ sub) +:+ "/" +:+ r) = inr (Some (Join [ovpnRoot; sub] +:+ "/" +:+ r)).
Proof.
  intros Hs Hr. rewrite app_assoc_s, dst_openvpn. destruct (Join_rel sub r Hs Hr) as [_ Hsr].
  destruct (vpn_dir sub Hs) as [-> _]. destruct (Join_abs ovpnRoot _ Hroot Hsr) as [-> _]. by rewrite !app_assoc_s.
Qed.

(** One tree of the snapshot. *)
Definition tree_run (src prefix : string) : Prop := exists ms, addToArchive src prefix w = (inr ms, w) /\
  (forall m, m ∈ ms -> sound m) /\
  (forall p d, left_out p = false -> under src p = true -> w_files w !! LAbs p = Some d ->
     exists name, (name, d) ∈ ms /\ dst name = inr (Some p)).

Context (Hf : faultless w).

Lemma tree_runs src prefix : src ∈ trees -> abs_plain src -> rel_plain prefix -> no_char "000" prefix = true ->
  (forall r, rel_plain r -> dst (prefix +:+ "/" +:+ r) = inr (Some (src +:+ "/" +:+ r))) -> tree_run src prefix.
Proof.
  intros Hin Hsrc Hp Hz Hd. destruct (addToArchive_run w Hf Hw src prefix Hsrc) as (ms & Hrun & Hms).
  exists ms. split; [done|]. split.
  - intros m (p & Hu & Hl & Hm & Hn)%Hms. by eapply tree_member.
  - intros p d Hl Hu Hm. set (m := (Join [prefix; str_drop (String.length src + 1) p], d)). exists m.1.
    split; [apply Hms; by exists p|]. by apply (tree_member prefix src p m).
Qed.

Lemma data_runs : tree_run nodeData "data".
Proof. apply tree_runs; [left|done|by apply word_plain; do 3 right; left|done|apply data_prefix]. Qed.

Lemma vpn_runs sub : sub ∈ ["server"; "ccd"; "ovnode"] -> tree_run (Join [ovpnRoot; sub]) ("openvpn/" +:+ sub).
Proof.
  intros Hs. assert (rel_plain sub) as Hp.
  { apply word_plain. repeat (apply elem_of_cons in Hs as [->|Hs]; [rewrite !elem_of_cons; tauto|]). by apply elem_of_nil in Hs. }
  apply tree_runs.
  - unfold trees. repeat (apply elem_of_cons in Hs as [->|Hs]; [rewrite !elem_of_cons; tauto|]). by apply elem_of_nil in Hs.
  - by apply vpn_dir.
  - apply (Join_rel "openvpn" sub); [|done]. apply word_plain. rewrite !elem_of_cons; tauto.
  - repeat (apply elem_of_cons in Hs as [->|Hs]; [done|]). by apply elem_of_nil in Hs.
  - intros r. by apply vpn_prefix.
Qed.

Lemma env_member d : w_files w !! LAbs (Join [appDir; ".env"]) = Some d -> sound ("node.env", d).
Proof.
  intros Hd. split; [split; [apply word_plain; rewrite !elem_of_cons; tauto|done]|]. right.
  exists (Join [appDir; ".env"]). split; [done|]. split; [by left|done].
Qed.

Lemma tls_sound env key : exists ms, tls_entry env key w = (inr ms, w) /\ forall m, m ∈ ms -> sound m.
Proof.
  destruct (tls_entry_run w Hf Hw env key) as (ms & Hrun & Hms). exists ms. split; [done|].
  intros m (f & Hp & Hz & Hn)%Hms. split; [|left; rewrite Hn; apply dst_tls].
  rewrite Hn. apply (good_sub "tls" f); [apply word_plain; rewrite !elem_of_cons; tauto|done|by apply rel_plain_name|done].
Qed.

Lemma readEnv_run path : exists env, readEnv path w = (inr env, w).
Proof. unfold readEnv. rewrite bind_run, try_run, read_file_state. by eexists. Qed.

(** Everything the trees hold is in the snapshot, under a name that leads back
    to it. *)
Lemma members_run : exists ms, members_of appDir nodeData ovpnRoot w = (inr ms, w) /\
  (forall m, m ∈ ms -> sound m) /\
  (forall p d, covers p -> w_files w !! LAbs p = Some d -> exists name, (name, d) ∈ ms /\ dst name = inr (Some p)).
Proof.
  unfold members_of. rewrite bind_run, addFileEntry_run by done.
  destruct data_runs as (m1 & R1 & S1 & C1). rewrite bind_run, R1.
  destruct (vpn_runs "server") as (m2 & R2 & S2 & C2); [left|]. change ("openvpn/" +:+ "server") with "openvpn/server" in R2. rewrite bind_run, R2.
  destruct (vpn_runs "ccd") as (m3 & R3 & S3 & C3); [right; left|]. change ("openvpn/" +:+ "ccd") with "openvpn/ccd" in R3. rewrite bind_run, R3.
  destruct (vpn_runs "ovnode") as (m4 & R4 & S4 & C4); [right; right; left|]. change ("openvpn/" +:+ "ovnode") with "openvpn/ovnode" in R4. rewrite bind_run, R4.
  destruct (readEnv_run (Join [appDir; ".env"])) as [env Re]. rewrite bind_run, Re.
  destruct (tls_sound env "SSL_KEYFILE") as (m5 & R5 & S5). rewrite bind_run, R5.
  destruct (tls_sound env "SSL_CERTFILE") as (m6 & R6 & S6). rewrite bind_run, R6.
  eexists. split; [done|]. split.
  - intros m. rewrite !elem_of_app. intros [H|[H|[H|[H|[H|[H|H]]]]]]; auto.
    destruct (w_files w !! LAbs _) as [d|] eqn:Hd; [|by apply elem_of_nil in H]. apply list_elem_of_singleton in H as ->.
    by apply env_member.
  - intros p d [->|(Hl & t & Ht & Hu)] Hd.
    + exists "node.env". rewrite Hd. split; [left|done].
    + unfold trees in Ht. rewrite !elem_of_cons, elem_of_nil in Ht.
      destruct Ht as [->|[->|[->|[->|[]]]]];
        [destruct (C1 p d) as (name & Hn & Hdst)|destruct (C2 p d) as (name & Hn & Hdst)
        |destruct (C3 p d) as (name & Hn & Hdst)|destruct (C4 p d) as (name & Hn & Hdst)]; try done;
        exists name; rewrite !elem_of_app; tauto.
Qed.
End destinations.

(** ** The manifest *)

Lemma read_back j : printable j -> Unmarshal (MarshalIndent j +:+ str1 nl) = Some j.
Proof. intros Hj. unfold Unmarshal. by rewrite indented_is_read. Qed.

Lemma fold_members (m : gmap string string) l acc : exists r,
  foldl member_value (Some acc) (map (fun k => (k, JStr (default "" (m !! k)))) l) = Some r /\
  forall n, r !! n = if decide (n ∈ l) then Some (default "" (m !! n)) else acc !! n.
Proof.
  revert acc. induction l as [|k l IH]; intros acc; cbn [map foldl].
  - exists acc. split; [done|]. intros n. rewrite decide_False by apply not_elem_of_nil. done.
  - destruct (IH (<[k:=default "" (m !! k)]> acc)) as (r & Hr & Hn). exists r. split; [exact Hr|].
    intros n. rewrite Hn. assert (n ∈ k :: l <-> n = k \/ n ∈ l) as Hc by apply elem_of_cons.
    repeat case_decide; try tauto.
    + destruct (decide (n = k)) as [->|Hk]; [by rewrite lookup_insert_eq|tauto].
    + rewrite lookup_insert_ne; [done|]. intros ->. tauto.
Qed.

Lemma members_back (m : gmap string string) :
  foldl member_value (Some ∅) (map (fun k => (k, JStr (default "" (m !! k)))) (sort_strings (elements (dom m)))) = Some m.
Proof.
  destruct (fold_members m (sort_strings (elements (dom m))) ∅) as (r & -> & Hr). f_equal. apply map_eq. intros n.
  rewrite Hr. destruct (m !! n) as [d|] eqn:Hn.
  - case_decide as Hd; [done|]. destruct Hd. apply elem_of_sort_strings, elem_of_elements, elem_of_dom. by rewrite Hn.
  - case_decide as Hd; [|done]. by apply elem_of_sort_strings, elem_of_elements, not_elem_of_dom in Hd.
Qed.

Definition manifest_tree (node fromVersion : string) (now : Z) (m : gmap string string) : json := JObj
  [("created_at", JStr (rfc3339nano now)); ("format", JStr "ovnode-state"); ("format_version", JNum (utoa 1));
   ("from_version", JStr fromVersion);
   ("members", JObj (map (fun k => (k, JStr (default "" (m !! k)))) (sort_strings (elements (dom m)))));
   ("node", JStr node)].

Lemma manifest_printable node from now m : printable (manifest_tree node from now m).
Proof.
  constructor. repeat constructor. apply Forall_forall. intros [k v] Hk. apply list_elem_of_fmap in Hk as (k' & [= -> ->] & _).
  constructor.
Qed.

Lemma manifest_is_read node from now m : Unmarshal (manifest_of node from now m) = Some (manifest_tree node from now m).
Proof. apply read_back, manifest_printable. Qed.

Lemma manifest_decoded node from now m : decode_manifest (manifest_of node from now m) = Some (mkManifest "ovnode-state" m).
Proof.
  unfold decode_manifest. rewrite manifest_is_read. cbn [mbind option_bind]. unfold manifest_tree, decode_struct. cbn [foldl fst snd].
  change (field_of ["format"; "members"] "created_at") with (@None string).
  change (field_of ["format"; "members"] "format") with (Some "format").
  change (field_of ["format"; "members"] "format_version") with (@None string).
  change (field_of ["format"; "members"] "from_version") with (@None string).
  change (field_of ["format"; "members"] "members") with (Some "members").
  change (field_of ["format"; "members"] "node") with (@None string).
  change (((ms ← foldl member_value (Some ∅) (map (fun k => (k, JStr (default "" (m !! k)))) (sort_strings (elements (dom m))));
    Some (mkManifest "ovnode-state" ms)) ≫= Some) = Some (mkManifest "ovnode-state" m)).
  by rewrite members_back.
Qed.

(** ** The digests *)

Lemma last_member_snoc n ms m : last_member n (ms ++ [m]) = if decide (m.1 = n) then Some m.2 else last_member n ms.
Proof.
  unfold last_member. rewrite filter_app, filter_cons, filter_nil. case_decide.
  - by rewrite last_snoc.
  - by rewrite app_nil_r.
Qed.

Lemma last_member_elem n ms d : last_member n ms = Some d -> (n, d) ∈ ms.
Proof.
  unfold last_member. intros ([n' d'] & Hl & ->)%fmap_Some. apply last_Some_elem_of in Hl.
  by apply list_elem_of_filter in Hl as [<- Hl].
Qed.

Lemma last_member_is_Some n d ms : (n, d) ∈ ms -> is_Some (last_member n ms).
Proof.
  induction ms as [|m ms IH] using rev_ind; [by intros ?%elem_of_nil|]. rewrite last_member_snoc. case_decide as He; [done|].
  rewrite elem_of_app, list_elem_of_singleton. intros [Hin|<-]; [auto|done].
Qed.

Lemma digests_lookup digest n ms : digests digest ms !! n = digest <$> last_member n ms.
Proof.
  induction ms as [|m ms IH] using rev_ind; [done|]. unfold digests in *. rewrite foldl_app. cbn [foldl].
  rewrite last_member_snoc. case_decide as He; [subst; apply lookup_insert_eq|]. by rewrite lookup_insert_ne.
Qed.

(** ** The snapshot *)

Lemma set_files_same w : set_files (w_files w) w = w.
Proof. by destruct w. Qed.

Lemma create_temp_ok w l prefix data : faultless w -> parent_ok w (temp_name (w_files w) l prefix) = true ->
  create_temp l prefix data w = (inr (temp_name (w_files w) l prefix),
    set_files (<[temp_name (w_files w) l prefix := data]> (w_files w)) w).
Proof. intros Hf Hp. unfold create_temp. by rewrite Hf, Hp. Qed.

Lemma temp_abs files p prefix : exists q, temp_name files (LAbs p) prefix = LAbs q.
Proof. destruct (temp_name_shape files (LAbs p) prefix) as [k ->]. by eexists. Qed.

Lemma remove_file_ok w l d : faultless w -> w_files w !! l = Some d ->
  remove_file l w = (inr tt, set_files (delete l (w_files w)) w).
Proof. intros Hf Hd. unfold remove_file. by rewrite Hf, Hd. Qed.

Lemma rename_ok w src p d : faultless w -> w_files w !! src = Some d ->
  rename_file src (LAbs p) w = (inr tt, set_files (<[LAbs p:=d]> (delete src (w_files w))) w).
Proof. intros Hf Hd. unfold rename_file. by rewrite Hf, Hd. Qed.

Lemma stage_manifest_run w tmpdir data : faultless w -> stage_manifest tmpdir data w = (inr data, w).
Proof.
  intros Hf. unfold stage_manifest. destruct (temp_abs (w_files w) (tmpdir +:+ "/ovnode-manifest") "ovnode-manifest-") as [q Hq].
  rewrite bind_run, create_temp_ok by (done || by rewrite Hq). pose proof (temp_name_fresh (w_files w) (LAbs (tmpdir +:+ "/ovnode-manifest")) "ovnode-manifest-") as Hn.
  rewrite Hq in *. set (w1 := set_files _ w). assert (w_files w1 !! LAbs q = Some data) as H1 by apply lookup_insert_eq.
  rewrite bind_run, stat_run, bool_decide_true by (done || by eexists). cbn [negb].
  rewrite bind_run, try_run, (read_file_ok w1 (LAbs q) data) by (done || apply Hf). cbn [fst snd].
  unfold ignore. rewrite !bind_run, try_run, (remove_file_ok w1 (LAbs q) data) by done. cbn [fst snd].
  unfold w1. cbn [w_files set_files]. rewrite delete_insert_id by done. by destruct w.
Qed.
