(* ===== verification/InstallerDemo.v ===== *)
(** * InstallerDemo: a small archive format and a small host for concrete
    snapshots. *)

From S2P Require Import Prelude GoString Json Cache World Evolve Config Migrate Installer Paths InstallerProps.
From Stdlib Require Import Ascii.

(** ** An archive format: the members as one JSON object *)

Definition demo_member (m : string * string) : string * json := (m.1, JStr m.2).
Definition demo_content (kv : string * json) : option (string * string) :=
  match kv.2 with JStr c => Some (kv.1, c) | _ => None end.

#[export] Instance demo_archive : Archive := {
  pack ms := json_print (JObj (map demo_member ms));
  unpack s := match json_decode s with Some (JObj kvs, "") => Some (omap demo_content kvs) | _ => None end
}.

#[export] Instance demo_archive_spec : ArchiveSpec.
Proof.
  constructor. intros ms _. cbn [unpack pack demo_archive]. rewrite json_decode_print.
  - f_equal. induction ms as [|[n c] ms IH]; [done|]. cbn [map omap list_omap]. cbn. by rewrite IH.
  - constructor. apply Forall_forall. intros kv (m & -> & _)%list_elem_of_fmap. constructor.
Qed.

Definition demo_digest (s : string) : string := "sum of " +:+ s.

(** ** A host *)

Definition demo_host (files : list (string * string)) : World :=
  set_files (list_to_map (map (fun f => (LAbs f.1, f.2)) files)) demo_world.

Definition demo_files : list (string * string) :=
  [("/opt/ovnode/.env", "SSL_KEYFILE=/etc/ssl/k.pem"); ("/etc/ssl/k.pem", "KEY");
   ("/var/lib/ovnode/users/alice/name", "Alice"); ("/var/lib/ovnode/update-maintenance", "");
   ("/etc/openvpn/server/server.conf", "port 1194")].

(** Paths are plain when their elements are. *)
Definition plain_nameb (s : string) : bool :=
  negb (str_empty s || String.eqb s "." || String.eqb s "..") && no_char "/" s.
Definition path_okb (p : string) : bool :=
  match p with
  | String "/" r => forallb plain_nameb (split "/" r) && no_char "000" p
  | _ => false
  end.

Lemma plain_nameb_ok s : plain_nameb s = true -> plain_name s.
Proof.
  unfold plain_nameb, plain_name. intros [H1 H2]%andb_prop. apply negb_true_iff in H1.
  apply orb_false_iff in H1 as [[H0 H1]%orb_false_iff H3]. repeat split; try done; intros ->; done.
Qed.

Lemma path_okb_ok p : path_okb p = true -> path_ok p.
Proof.
  unfold path_okb. destruct p as [|[[] [] [] [] [] [] [] []] r]; try done. intros [H Hz]%andb_prop. split; [|done].
  exists (split "/" r). split; [|by rewrite (join_split "/")]. split; [apply split_ne|].
  apply Forall_forall. intros s Hs. apply plain_nameb_ok. rewrite forallb_forall in H. apply H. by apply list_elem_of_In.
Qed.

Lemma paths_okb_ok w : forallb path_okb (abs_paths w) = true -> paths_ok w.
Proof.
  intros H p Hp. apply path_okb_ok. rewrite forallb_forall in H. apply H. apply list_elem_of_In. by apply elem_of_abs_paths.
Qed.
