(* ===== verification/RestoreProps.v ===== *)
(** * RestoreProps: a restore brings back what the snapshot was taken of, and a
    snapshot that was tampered with changes nothing. *)

From S2P Require Import Prelude GoString Json Indent Time Names Cache World Evolve Config Pki Migrate Control ConfText Float Body Installer Paths InstallerProps InstallerDemo.
From Stdlib Require Import Ascii.

#[local] Set Default Proof Using "Type*".

(** ** What a snapshot is *)

(** Files can only go. *)
Definition fewer (w w' : World) : Prop := w_files w' ⊆ w_files w.

#[export] Instance fewer_preorder : PreOrder fewer.
Proof. split; unfold fewer; [by intros w|]. intros w1 w2 w3 H1 H2. by transitivity (w_files w2). Qed.

Lemma fewer_remove l : evolves fewer (remove_file l).
Proof. apply evolves_remove; [apply _|]. intros w. apply delete_subseteq. Qed.

#[local] Hint Resolve fewer_remove : evolve.

Lemma retention_evolves root : evolves fewer (retention root).
Proof. unfold retention. evolve_solve. Qed.

Lemma cleanup_on_ok {A} tmp (m : M A) w a w' : cleanup_on tmp m w = (inr a, w') -> m w = (inr a, w').
Proof.
  unfold cleanup_on. rewrite bind_run, try_run. destruct (m w) as [[x|b] w1]; [|done]. cbn [fst snd].
  rewrite bind_run. by destruct (ignore _ w1) as [[]].
Qed.

Lemma for_each_app {A} (f : A -> M unit) l l' w : for_each f (l ++ l') w = (for_each f l ;; for_each f l') w.
Proof.
  revert w. induction l as [|a l IH]; intros w; [done|]. cbn [app for_each]. rewrite !bind_run.
  destruct (f a w) as [[e|u] w1]; [done|]. by rewrite IH.
Qed.

Lemma for_each_same {A} (f : A -> M unit) l w : (forall a, a ∈ l -> f a w = (inr tt, w)) -> for_each f l w = (inr tt, w).
Proof.
  induction l as [|a l IH]; intros Hl; [done|]. cbn [for_each]. rewrite bind_run, Hl by left. apply IH. intros b Hb. apply Hl. by right.
Qed.

Lemma mkdir_ok d w : faultless w -> mkdir d w = (inr tt, w).
Proof. intros Hf. unfold mkdir. by rewrite Hf. Qed.

Lemma chmod_ok l w : faultless w -> is_Some (w_files w !! l) -> chmod_file l w = (inr tt, w).
Proof. intros Hf Hl. unfold chmod_file. by rewrite Hf, bool_decide_true. Qed.

Section snapshot.
Context `{ArchiveSpec} (digest : string -> string) (tmpdir : string).
Context (appDir nodeData ovpnRoot backupRoot node from : string).
Context (Happ : abs_plain appDir) (Hdata : abs_plain nodeData) (Hroot : abs_plain ovpnRoot).
Context (w : World) (Hf : faultless w) (Hw : paths_ok w).

(** The members of the trees and the manifest that lists them. *)
Definition snapshot_members (ms : list (string * string)) : list (string * string) :=
  ms ++ [("manifest.json", manifest_of node from (w_now w) (digests digest ms))].

Lemma Bundle_content final w' c :
  Bundle digest tmpdir appDir nodeData ovpnRoot backupRoot node from w = (inr final, w') -> w_files w' !! LAbs final = Some c ->
  exists ms, members_of appDir nodeData ovpnRoot w = (inr ms, w) /\ c = pack (snapshot_members ms) /\ verify_bundle c = None.
Proof.
  unfold Bundle. intros (now & w1 & [= <- <-] & Hb)%bind_inr Hc. cbv zeta in Hb. 
  rewrite bind_run, mkdir_ok, bind_run, mkdir_ok in Hb by done.
  destruct (members_run appDir nodeData ovpnRoot Happ Hdata Hroot w Hw Hf) as (ms & Hms & _ & _).
  rewrite bind_run, Hms, bind_run, stage_manifest_run, bind_run in Hb by done.
  exists ms. split; [done|]. fold (snapshot_members ms) in Hb. set (tar := pack (snapshot_members ms)) in *.
  set (fin := Join [backupRoot; _]) in *. destruct (temp_abs (w_files w) fin ".ovnode-state-") as [t Ht].
  rewrite create_temp_ok in Hb by (done || by rewrite Ht). rewrite Ht in Hb. set (w1 := set_files _ w) in *.
  assert (w_files w1 !! LAbs t = Some tar) as H1 by apply lookup_insert_eq.
  apply bind_inr in Hb as ([] & w2 & Hv%cleanup_on_ok & Hb). rewrite bind_run, (read_file_ok w1 _ tar) in Hv by (done || apply Hf).
  destruct (verify_bundle tar) as [x|] eqn:Hver; [done|]. rewrite (rename_ok w1 (LAbs t) fin tar) in Hv by done. injection Hv as <-.
  apply bind_inr in Hb as ([] & w3 & Hch & Hb). rewrite chmod_ok in Hch
    by (done || (cbn [w_files set_files]; by rewrite lookup_insert_eq)). injection Hch as <-.
  apply bind_inr in Hb as ([] & w4 & Hret & [= -> ->]). match type of Hret with retention _ ?w0 = _ => pose proof (retention_evolves backupRoot w0) as Hsub end.
  rewrite Hret in Hsub. apply (lookup_weaken _ _ _ _ Hc) in Hsub. cbn [w_files set_files] in Hsub.
  rewrite lookup_insert_eq in Hsub. injection Hsub as <-. done.
Qed.

Lemma snapshot_is_read ms : Forall (fun m => tar_name m.1 = true) ms -> verify_bundle (pack (snapshot_members ms)) = None ->
  read_bundle (pack (snapshot_members ms)) = inr (snapshot_members ms, mkManifest "ovnode-state" (digests digest ms)).
Proof.
  intros Hms. assert (unpack (pack (snapshot_members ms)) = Some (snapshot_members ms)) as Hu.
  { apply unpack_law. apply Forall_app. split; [done|]. by constructor. }
  assert (last_member "manifest.json" (snapshot_members ms) = Some (manifest_of node from (w_now w) (digests digest ms))) as Hl.
  { unfold snapshot_members. by rewrite last_member_snoc. }
  unfold verify_bundle, read_bundle. rewrite Hu, Hl. destruct (existsb _ _); [done|]. intros _. by rewrite manifest_decoded.
Qed.
End snapshot.

(** ** The parts of a restore *)

Section restore.
Context (digest : string -> string) (staged : string) (torn : string -> option string).
Context (Hst : abs_plain staged).

Lemma staged_path n : rel_plain n -> Join [staged; n] = staged +:+ "/" +:+ n.
Proof. intros Hn. by destruct (Join_abs staged n Hst Hn) as [-> _]. Qed.

Lemma extract_run w m : faultless w -> rel_plain m.1 ->
  extract staged torn m w = (inr tt, set_files (<[staged_file staged m.1 := m.2]> (w_files w)) w).
Proof.
  intros Hf Hn. unfold extract, staged_file. rewrite bind_run, mkdir_ok by done. cbv zeta.
  assert (String.eqb (Join [staged; m.1]) (Clean staged) = false) as ->.
  { apply String.eqb_neq. rewrite staged_path, Clean_plain by done. intros He. apply (f_equal String.length) in He.
    rewrite !length_app_s in He. simpl in He. lia. }
  unfold WriteFile. by rewrite Hf.
Qed.

Lemma staged_inj n n' : rel_plain n -> rel_plain n' -> staged_file staged n = staged_file staged n' -> n = n'.
Proof.
  intros Hn Hn'. unfold staged_file. rewrite !staged_path by done.
  intros [= ?%(inj (String.append staged))%(inj (String.append "/"))]. done.
Qed.

Lemma below_staged n : rel_plain n -> below staged (staged_file staged n) = true.
Proof. intros Hn. unfold staged_file, below. rewrite staged_path by done. apply under_app. Qed.

(** Extracting gives each name its last content and touches nothing else. *)
Lemma extracts_run ms w : faultless w -> Forall (fun m => rel_plain m.1) ms ->
  exists fs, for_each (extract staged torn) ms w = (inr tt, set_files fs w) /\
    (forall n d, rel_plain n -> last_member n ms = Some d -> fs !! staged_file staged n = Some d) /\
    (forall l, below staged l = false -> fs !! l = w_files w !! l).
Proof.
  induction ms as [|m ms IH] using rev_ind; intros Hf Hms.
  { exists (w_files w). split; [by rewrite set_files_same|]. by split. }
  apply Forall_app in Hms as [Hms Hm]. apply Forall_inv in Hm. destruct (IH Hf Hms) as (fs & Hrun & Hlast & Hout).
  exists (<[staged_file staged m.1 := m.2]> fs). split_and!.
  - rewrite for_each_app, bind_run, Hrun. cbn [for_each]. by rewrite bind_run, extract_run.
  - intros n d Hn. rewrite last_member_snoc. case_decide as He; [intros [= <-]; subst; apply lookup_insert_eq|].
    intros Hd. rewrite lookup_insert_ne; [by apply Hlast|]. intros Heq. by apply staged_inj in Heq.
  - intros l Hl. rewrite lookup_insert_ne; [by apply Hout|]. intros <-. by rewrite below_staged in Hl.
Qed.

(** ** Applying *)

Section apply.
Context (appDir dataBase ovpnRoot : string).

Abbreviation dst := (destination appDir dataBase ovpnRoot).

Lemma apply_skip rel w : dst rel = inr None -> apply_member staged appDir dataBase ovpnRoot rel w = (inr tt, w).
Proof. intros Hd. unfold apply_member. by rewrite Hd. Qed.

Lemma apply_one rel p d w : faultless w -> dst rel = inr (Some p) -> w_files w !! staged_file staged rel = Some d ->
  apply_member staged appDir dataBase ovpnRoot rel w = (inr tt, set_files (<[LAbs p := d]> (w_files w)) w).
Proof.
  intros Hf Hd Hs. unfold apply_member. rewrite Hd. rewrite bind_run. cbn [lift mret M_ret].
  rewrite bind_run, mkdir_ok by done. rewrite bind_run, (read_file_ok w _ d) by (done || apply Hf).
  destruct (temp_abs (w_files w) p ".ovnode-restore-") as [t Ht].
  rewrite bind_run, create_temp_ok by (done || by rewrite Ht). rewrite Ht. set (w1 := set_files _ w).
  assert (w_files w1 !! LAbs t = Some d) as H1 by apply lookup_insert_eq.
  rewrite bind_run. assert (forall b : bool, (if b then ignore (SetPermissions (path_of (LAbs t))) else mret tt) w1 = (inr tt, w1)) as ->.
  { intros []; [|done]. unfold ignore. rewrite bind_run, try_run. unfold SetPermissions. by destruct (w_fault w1 _). }
  rewrite bind_run, try_run, (rename_ok w1 (LAbs t) p d) by done. cbn [fst snd]. unfold w1. cbn [w_files set_files].
  pose proof (temp_name_fresh (w_files w) (LAbs p) ".ovnode-restore-") as Hfresh. rewrite Ht in Hfresh.
  rewrite delete_insert_id by done. done.
Qed.

(** The files the members go to get what was staged for them; every other one
    is as it was. *)
Lemma applies_run (want : string -> option string) rels w : faultless w ->
  (forall rel, rel ∈ rels -> rel_plain rel /\ exists d, w_files w !! staged_file staged rel = Some d /\
     (dst rel = inr None \/ exists p, dst rel = inr (Some p) /\ under staged p = false /\ want p = Some d)) ->
  exists fs, for_each (apply_member staged appDir dataBase ovpnRoot) rels w = (inr tt, set_files fs w) /\
    (forall rel p, rel ∈ rels -> dst rel = inr (Some p) -> fs !! LAbs p = want p) /\
    (forall l, (forall rel p, rel ∈ rels -> dst rel = inr (Some p) -> l <> LAbs p) -> fs !! l = w_files w !! l).
Proof.
  intros Hf. induction rels as [|rel rels IH] using rev_ind; intros Hr.
  { exists (w_files w). split; [by rewrite set_files_same|]. split; [by intros ? ? ?%elem_of_nil|done]. }
  destruct IH as (fs & Hrun & Hto & Hout); [intros r Hin; apply Hr; by apply elem_of_app; left|].
  destruct (Hr rel) as (Hp & d & Hd & Hcase); [apply elem_of_app; right; left|].
  rewrite for_each_app, bind_run, Hrun. cbn [for_each]. rewrite bind_run. destruct Hcase as [Hnone|(p & Hdst & Hu & Hw)].
  - rewrite apply_skip by done. exists fs. split; [done|]. split.
    + intros r q Hin. apply elem_of_app in Hin as [Hin|Hin]; [by apply Hto|]. apply list_elem_of_singleton in Hin as ->. congruence.
    + intros l Hl. apply Hout. intros r q Hin. apply Hl. apply elem_of_app. by left.
  - rewrite (apply_one rel p d); [|done|done|].
    2:{ cbn [w_files set_files]. rewrite Hout; [done|]. intros r q Hin Hq He. apply (f_equal (below staged)) in He.
        rewrite below_staged in He by done. cbn [below] in He. destruct (Hr r) as (_ & d' & _ & [Hn|(p' & Hp' & Hu' & _)]);
          [by apply elem_of_app; left|congruence|]. rewrite Hq in Hp'. congruence. }
    exists (<[LAbs p := d]> fs). split; [done|]. split.
    + intros r q Hin Hq. destruct (decide (q = p)) as [->|Hne]; [by rewrite lookup_insert_eq|].
      rewrite lookup_insert_ne by congruence. apply elem_of_app in Hin as [Hin|Hin]; [by apply (Hto r)|].
      apply list_elem_of_singleton in Hin as ->. congruence.
    + intros l Hl. rewrite lookup_insert_ne.
      * apply Hout. intros r q Hin. apply Hl. apply elem_of_app. by left.
      * intros <-. apply (Hl rel p); [apply elem_of_app; right; left|done|done].
Qed.
End apply.
End restore.

(** ** The snapshot and the restore together *)

Section roundtrip.
Context `{ArchiveSpec} (digest : string -> string) (tmpdir staged : string) (torn : string -> option string).
Context (checked applied : list string -> list string) (appDir nodeData ovpnRoot backupRoot node from : string).
Context (Happ : abs_plain appDir) (Hdata : abs_plain nodeData) (Hroot : abs_plain ovpnRoot) (Hst : abs_plain staged).
Context (Hapart : forall p, covers appDir nodeData ovpnRoot p -> under staged p = false).
Context (Hchecked : forall l, checked l ≡ₚ l) (Happlied : forall l, applied l ≡ₚ l).
Context (w : World) (Hf : faultless w) (Hw : paths_ok w).

Abbreviation snap := (snapshot_members digest node from w).

Lemma listed_member ms rel : (forall m, m ∈ ms -> sound appDir nodeData ovpnRoot w m) -> is_Some (digests digest ms !! rel) ->
  exists d, digests digest ms !! rel = Some (digest d) /\ last_member rel (snap ms) = Some d /\ (rel, d) ∈ ms /\
    sound appDir nodeData ovpnRoot w (rel, d).
Proof.
  intros Hms [x Hx]. rewrite digests_lookup in Hx |- *. destruct (last_member rel ms) as [d|] eqn:Hl; [|done]. exists d.
  pose proof (last_member_elem _ _ _ Hl) as Hin. split; [done|]. split; [|auto]. unfold snapshot_members. rewrite last_member_snoc.
  case_decide as He; [|done]. destruct (Hms _ Hin) as [(_ & _ & Hn) _]. cbn [fst] in *. congruence.
Qed.

Lemma elem_of_listed (f : list string -> list string) (m : gmap string string) rel : (forall l, f l ≡ₚ l) ->
  rel ∈ f (elements (dom m)) <-> is_Some (m !! rel).
Proof. intros Hp. by rewrite Hp, elem_of_elements, elem_of_dom. Qed.

Lemma members_restored ms w2 : faultless w2 -> (forall m, m ∈ ms -> sound appDir nodeData ovpnRoot w m) ->
  exists fs, restore_members digest staged torn checked applied appDir nodeData ovpnRoot (snap ms)
      (mkManifest "ovnode-state" (digests digest ms)) w2 = (inr tt, set_files fs w2) /\
    (forall rel d p, (rel, d) ∈ ms -> destination appDir nodeData ovpnRoot rel = inr (Some p) -> fs !! LAbs p = w_files w !! LAbs p) /\
    (forall l, below staged l = false ->
       (forall p, l = LAbs p -> covers appDir nodeData ovpnRoot p -> w_files w !! LAbs p = None) -> fs !! l = w_files w2 !! l).
Proof.
  intros Hf2 Hms. unfold restore_members. destruct (extracts_run staged torn Hst (snap ms) w2 Hf2) as (f1 & Hrun & Hlast & Hout).
  { apply Forall_app. split; [|constructor; [by apply rel_plain_name|done]]. apply Forall_forall. intros m Hm. by apply Hms. }
  rewrite bind_run, Hrun. cbn [mf_members]. rewrite bind_run, for_each_same.
  2:{ intros rel Hrel. apply elem_of_listed in Hrel; [|done]. destruct (listed_member ms rel Hms Hrel) as (d & Hd & Hl & _ & ([Hp _] & _)).
      unfold check_member. rewrite bind_run, try_run, (read_file_ok _ _ d) by (apply Hf2 || by apply Hlast). cbn [fst snd].
      by rewrite Hd, String.eqb_refl. }
  destruct (applies_run staged Hst appDir nodeData ovpnRoot (fun p => w_files w !! LAbs p)
    (applied (elements (dom (digests digest ms)))) (set_files f1 w2) Hf2) as (f2 & Hrun2 & Hto & Hrest).
  { intros rel Hrel. apply elem_of_listed in Hrel; [|done]. destruct (listed_member ms rel Hms Hrel) as (d & _ & Hl & _ & ([Hp _] & Hdst)).
    split; [done|]. exists d. split; [by apply Hlast|]. destruct Hdst as [Hn|(p & Hdp & Hc & Hpd)]; [by left|right]. exists p. auto. }
  exists f2. split; [exact Hrun2|]. split.
  - intros rel d p Hin Hdst. apply (Hto rel p); [|done]. apply elem_of_listed; [done|]. rewrite digests_lookup.
    apply fmap_is_Some. by eapply last_member_is_Some.
  - intros l Hl Hnew. rewrite Hrest; [by apply Hout|]. intros rel p Hrel Hdst ->. apply elem_of_listed in Hrel; [|done].
    destruct (listed_member ms rel Hms Hrel) as (d & _ & _ & _ & (_ & [Hn|(p' & Hdp & Hc & Hpd)])); cbn [fst snd] in *; [congruence|].
    assert (p' = p) as -> by congruence. by rewrite (Hnew p) in Hpd.
Qed.
End roundtrip.


(** A snapshot is taken; then a user file is spoiled and the settings are lost. *)
Definition demo_before : World := demo_host demo_files.
Definition demo_bundle : M string :=
  Bundle demo_digest "/tmp" "/opt/ovnode" "/var/lib/ovnode" "/etc/openvpn" "/var/backups" "node1" "2.0.1".
Definition demo_after : World := let w := (demo_bundle demo_before).2 in
  set_files (<[LAbs "/var/lib/ovnode/users/alice/name" := "spoiled"]> (delete (LAbs "/opt/ovnode/.env") (w_files w))) w.

