(* ===== verification/TamperProps.v ===== *)
(** * TamperProps: a snapshot that fails a check changes nothing, and what the
    checks do not see. *)

From S2P Require Import Prelude GoString Json Indent Time Names Cache World Evolve Config Pki Migrate Control ConfText Float Body Installer Paths InstallerProps InstallerDemo RestoreProps.
From Stdlib Require Import Ascii.

#[local] Set Default Proof Using "Type*".

(** ** Extracting stays in the staging folder *)

Definition telling (s : string) : bool := negb (str_empty s || String.eqb s ".").

Lemma foldl_safe r l out : Forall (fun s => s <> "..") l -> foldl (clean_step r) out l = rev (List.filter telling l) ++ out.
Proof.
  intros Hl. revert out. induction Hl as [|s l Hs Hl IH]; intros out; [done|]. cbn [foldl]. rewrite IH. cbn [List.filter].
  unfold clean_step, telling at 2. destruct (str_empty s || String.eqb s ".") eqn:E; [done|].
  rewrite (proj2 (String.eqb_neq s "..") Hs). cbn [negb rev]. by rewrite <- app_assoc.
Qed.

Lemma contains_of a s b : contains (a +:+ s +:+ b) s = true.
Proof. apply contains_skip, contains_prefix. Qed.

(** A name without two dots has no parent element. *)
Lemma safe_elements n : contains n ".." = false -> Forall (fun s => s <> "..") (split "/" n).
Proof.
  intros Hn. apply Forall_forall. intros s Hs ->. apply list_elem_of_split in Hs as (l1 & l2 & Hs).
  assert (exists a b, n = a +:+ ".." +:+ b) as (a & b & ->); [|by rewrite contains_of in Hn].
  pose proof (join_split "/" n) as Hj. rewrite Hs in Hj. change (str1 "/") with "/" in Hj. rewrite <- Hj. clear.
  assert (forall s l, exists b, join "/" (s :: l) = s +:+ b) as Hhead.
  { intros s [|s' l]; [exists ""; by rewrite app_nil_r_s|by eexists]. }
  destruct (Hhead ".." l2) as [b Hb]. destruct l1 as [|s l1].
  - exists "", b. exact Hb.
  - exists (join "/" (s :: l1) +:+ "/"), b. rewrite join_names_app, Hb by done. by rewrite !app_assoc_s.
Qed.

Lemma safe_join staged n : abs_plain staged -> contains n ".." = false ->
  Join [staged; n] = Clean staged \/ under staged (Join [staged; n]) = true.
Proof.
  intros Hst Hn. pose proof (safe_elements n Hn) as Hs. rewrite Clean_plain by done. pose proof Hst as (ns & Hns & Heq).
  destruct n as [|c n]; [left; rewrite Heq; by apply Clean_abs|]. rewrite Join_two by (rewrite ?Heq; done).
  set (l := split "/" (String c n)) in *.
  assert (Clean (staged +:+ "/" +:+ String c n) = "/" +:+ join "/" (ns ++ List.filter telling l)) as ->.
  { unfold Clean. assert (has_prefix (staged +:+ "/" +:+ String c n) "/" = true) as -> by (rewrite Heq, app_assoc_s; apply has_prefix_app).
    change ("/" +:+ String c n) with (String "/" (String c n)). rewrite split_app_gen, foldl_app. fold l. rewrite Heq.
    change (split "/" ("/" +:+ join "/" ns)) with ("" :: split "/" (join "/" ns)). cbn [foldl].
    change (clean_step true [] "") with (@nil string). rewrite (split_names ns), (foldl_plain true ns []), app_nil_r by (done || apply Hns).
    by rewrite foldl_safe, rev_app_distr, !rev_involutive. }
  destruct (List.filter telling l) as [|t ts].
  - left. by rewrite app_nil_r, Heq.
  - right. rewrite join_names_app by (done || apply Hns). rewrite Heq. unfold under.
    rewrite <- !app_assoc_s. rewrite (app_assoc_s ("/" +:+ join "/" ns) "/"). rewrite <- app_assoc_s. apply has_prefix_app.
Qed.

Lemma remove_tree_frames staged : evolves (frames (fun l => below staged l = true)) (remove_tree staged).
Proof.
  intros w. unfold remove_tree. destruct (w_fault w _); [reflexivity|]. split; [done|]. intros l Hl. cbn [snd set_files w_files].
  apply option_eq. intros d. rewrite map_lookup_filter_Some. cbn. destruct (below staged l); [done|tauto].
Qed.
Section extraction.
Context (staged : string) (torn : string -> option string) (Hst : abs_plain staged).

Abbreviation inside := (frames (fun l => below staged l = true)).

Lemma extract_frames m : unsafe_name m.1 = false -> evolves inside (extract staged torn m).
Proof.
  intros [_ Hn]%orb_false_iff. unfold extract. apply evolves_bind; [apply _|by apply evolves_reads; apply _|]. intros _. cbv zeta.
  destruct (String.eqb (Join [staged; m.1]) (Clean staged)) eqn:E; [apply evolves_throw; apply _|]. apply String.eqb_neq in E.
  destruct (safe_join staged m.1 Hst Hn) as [He|Hu]; [done|]. intros w. unfold WriteFile. cbn [parent_ok].
  destruct (w_fault w _); [destruct (torn m.2); [|reflexivity]|]; by apply frames_insert.
Qed.

Lemma extracts_frames ms : existsb (fun m => unsafe_name m.1) ms = false -> evolves inside (for_each (extract staged torn) ms).
Proof.
  intros Hms. apply evolves_for_each; [apply _|]. intros m Hm. apply extract_frames. destruct (unsafe_name m.1) eqn:E; [|done].
  assert (existsb (fun m => unsafe_name m.1) ms = true); [|congruence]. apply existsb_exists. exists m. split; [by apply list_elem_of_In|done].
Qed.

End extraction.

Lemma read_bundle_safe `{Archive} data ms mf : read_bundle data = inr (ms, mf) -> existsb (fun m => unsafe_name m.1) ms = false.
Proof.
  unfold read_bundle. destruct (unpack data) as [ms'|]; [|done]. destruct (last_member _ ms') as [raw|]; [|done].
  destruct (existsb _ ms') eqn:E; [done|]. destruct (decode_manifest raw) as [mf'|]; [|done]. destruct (String.eqb _ _); [|done].
  by intros [= -> ->].
Qed.

(** Checking reads, and passes only what has its digest. *)
Lemma check_member_reads digest staged expected rel : evolves eq (check_member digest staged expected rel).
Proof. unfold check_member. evolve_solve. Qed.

Lemma check_member_inr digest staged expected rel w u w' : check_member digest staged expected rel w = (inr u, w') ->
  exists d, w_files w !! staged_file staged rel = Some d /\ digest d = default "" (expected !! rel).
Proof.
  unfold check_member. rewrite bind_run, try_run. unfold read_file. destruct (w_fault w _); [done|].
  destruct (w_files w !! _) as [d|]; [|done]. cbn [fst snd]. destruct (String.eqb_spec (digest d) (default "" (expected !! rel))); [|done].
  intros _. by exists d.
Qed.

Lemma checks_inr digest staged expected rels w u w' : for_each (check_member digest staged expected) rels w = (inr u, w') ->
  w' = w /\ forall rel, rel ∈ rels -> exists d, w_files w !! staged_file staged rel = Some d /\ digest d = default "" (expected !! rel).
Proof.
  induction rels as [|rel rels IH]; cbn [for_each].
  { intros [= _ <-]. split; [done|]. by intros rel ?%elem_of_nil. }
  intros ([] & w1 & H1 & H2)%bind_inr. pose proof (check_member_reads digest staged expected rel w) as Hw. rewrite H1 in Hw. cbn in Hw. subst w1.
  destruct (IH H2) as [-> Hall]. split; [done|]. intros r [->|Hr]%elem_of_cons; [by eapply check_member_inr|auto].
Qed.



(** ** What the checks see too much of, and too little *)

(** A user id with two dots is accepted, but the snapshot of its folder is
    not: no update can be made while the user exists. *)
Definition demo_dotted : World := demo_host (("/var/lib/ovnode/users/a..b/name", "Ann") :: demo_files).
Lemma dotted_user_blocks_the_snapshot :
  SafeCN "a..b" = Some "a..b" /\ (demo_bundle demo_dotted).1 = inl (Errorf "bundle verification failed").
Proof. by vm_compute. Qed.

(** The names of the archive are checked, those of the manifest are not: one
    that climbs out of its folder is applied to where it leads. *)
Definition demo_escape : string :=
  pack [("shadow", "root::"); ("manifest.json", json_print (JObj [("format", JStr "ovnode-state");
          ("members", JObj [("openvpn/../shadow", JStr (demo_digest "root::"))])]))].
Lemma manifest_name_escapes :
  let r := Restore demo_digest "/tmp/r" (fun _ => None) id id "/var/backups/b" "/opt/ovnode" "/var/lib/ovnode" "/etc/openvpn"
             (demo_host [("/var/backups/b", demo_escape)]) in
  (r.1, w_files r.2 !! LAbs "/etc/shadow") = (inr tt, Some "root::").
Proof. vm_compute. reflexivity. Qed.
