(* ===== verification/Assets.v ===== *)
(** * Assets: assets.go, the shell files the binary carries and writes out.

    Every file is staged under a temporary name, and renamed once all of them
    are there. *)

From S2P Require Import Prelude GoString Cache World Config.
From Stdlib Require Import Ascii.

Record Asset : Type := mkAsset { a_name : string; a_mode : Z; a_body : string }.

Section assets.
(** The embedded texts. *)
Context (install_sh ovnode_sh lib_sh : string).

Definition Assets : list Asset :=
  [mkAsset "install.sh" 493 install_sh; mkAsset "ovnode.sh" 493 ovnode_sh; mkAsset "lib.sh" 420 lib_sh].

Definition drop_staged (stageds : list (string * loc)) : M unit := for_each (fun st => ignore (remove_file st.2)) stageds.

Definition stage_asset (dir : string) (a : Asset) : M (string * loc) :=
  let p := Join [dir; a_name a] in
  tmp <- create_temp (LAbs p) ("." +:+ a_name a +:+ ".") (a_body a) ;;
  r <- try (chmod_file tmp) ;;
  match r with inl x => ignore (remove_file tmp) ;; throw x | inr _ => mret (p, tmp) end.

Fixpoint stage_assets (dir : string) (l : list Asset) (stageds : list (string * loc)) : M (list (string * loc)) :=
  match l with
  | [] => mret stageds
  | a :: l' =>
      r <- try (stage_asset dir a) ;;
      match r with
      | inl x => drop_staged stageds ;; throw x
      | inr st => stage_assets dir l' (stageds ++ [st])
      end
  end.

Fixpoint rename_staged (all todo : list (string * loc)) (written : list string) : M (list string * option goerr) :=
  match todo with
  | [] => mret (written, None)
  | (p, tmp) :: todo' =>
      r <- try (rename_file tmp (LAbs p)) ;;
      match r with
      | inl x => drop_staged all ;; mret (written, Some x)
      | inr _ => rename_staged all todo' (written ++ [p])
      end
  end.

(** The files written, and the error that stopped it. *)
Definition Write (dir : string) : M (list string * option goerr) :=
  d <- try (mkdir dir) ;;
  match d with
  | inl x => mret ([], Some x)
  | inr _ =>
      r <- try (stage_assets dir Assets []) ;;
      match r with
      | inl x => mret ([], Some x)
      | inr stageds => rename_staged stageds stageds []
      end
  end.
End assets.
