(* ===== verification/Serve.v ===== *)
(** * Serve: the start of the agent, internal/httpapi/server.go, and the
    supervision of OpenVPN, internal/ovpn/daemon.go. *)

From S2P Require Import Prelude GoString Json Time Names Cache World Config Pki Perms Migrate Init Installer.
From Stdlib Require Import Ascii.

(** ** The settings of the server *)

(** A file of the API: its path as it is written and the file it names. *)
Definition material : Type := string * loc.
Record Server : Type := mkServer { sv_addr : string; sv_key : string; sv_cert : material; sv_key_file : material }.

Definition tls_file (e : environ) (name : string) (own : material) : material :=
  let v := EnvOr e name "" in if str_empty v then own else (v, LAbs v).
Definition own_cert (e : environ) : material := (Config.ServerCert e, Pki.ServerCert).
Definition own_key (e : environ) : material := (Config.ServerKey e, Pki.ServerKey).

Definition NewServer (e : environ) : Server :=
  let port := EnvOr e "SERVICE_PORT" "" in
  mkServer (":" +:+ (if str_empty port then "2083" else port)) (EnvOr e "API_KEY" "")
    (tls_file e "SSL_CERTFILE" (own_cert e)) (tls_file e "SSL_KEYFILE" (own_key e)).

(** A file that is not there or cannot be opened stops the agent. *)
Definition readable (label : string) (f : material) : M unit :=
  let refused := Errorf ("TLS " +:+ label +:+ " missing or unreadable: " +:+ f.1 +:+ " — refusing to start without TLS") in
  there <- stat_file f.2 ;;
  if negb there then throw refused
  else r <- try (read_file f.2) ;; match r with inl _ => throw refused | inr _ => mret tt end.

Definition TLSMaterial (e : environ) : M (material * material) :=
  let cert := tls_file e "SSL_CERTFILE" (own_cert e) in
  let key := tls_file e "SSL_KEYFILE" (own_key e) in
  readable "cert" cert ;; readable "key" key ;; mret (cert, key).

(** ** The first start *)

Definition setupPrintedPath (e : environ) : string := Join [EnvOr e "DATA_DIR" "/var/lib/ovnode"; ".setup-printed"].

Definition keyFingerprint (key : string) : string :=
  if (String.length key <? 8)%nat then "****"
  else str_take 4 key +:+ "..." +:+ str_drop (String.length key - 4) key.

(** What is printed at the first start; [ip] is the address the host reports,
    [tty] whether the output is a terminal. *)
Definition setup_lines (e : environ) (ip : string) (tty : bool) (cert : string) : list string :=
  let key := EnvOr e "API_KEY" "" in
  ["# OVNode connection details"; "Address: " +:+ ip; "Port: " +:+ EnvOr e "SERVICE_PORT" "2083"; "Protocol: https";
   if tty then "API Key: " +:+ key else "API Key fingerprint: " +:+ keyFingerprint key; "Certificate:"; cert].

(** [None] when it has been printed before. *)
Definition printSetupIfFirstBoot (e : environ) (ip : string) (tty : bool) : M (option (list string)) :=
  there <- stat_file (LAbs (setupPrintedPath e)) ;;
  if there : bool then mret None
  else
    cert <- try (read_file (tls_file e "SSL_CERTFILE" (own_cert e)).2) ;;
    mret (Some (setup_lines e ip tty (match cert with inr data => data | inl _ => "" end))).

Definition rfc3339 (t : Z) : string := rfc3339nano (t / second * second)%Z.
Definition markSetupPrinted (torn : string -> option string) (e : environ) : M unit :=
  now <- gets w_now ;;
  ignore (mkdir (dir_of (setupPrintedPath e))) ;;
  ignore (WriteFile torn (LAbs (setupPrintedPath e)) (rfc3339 now)).

(** ** Supervision *)

Section supervise.
(** Whether [openvpn] is on the path. *)
Context (installed : bool) (e : environ).

Definition SuperviseOpenVPN : M bool :=
  if negb installed then mret false
  else there <- stat_file settingFile ;; if negb there then mret false else mret (IsInstalledTree e).
End supervise.

(** When the next child starts after one that started at [t] and ran for [d]:
    one that ended within five seconds is not started again at once. *)
Definition crash_window : Z := (5 * second)%Z.
Definition next_start (t d : Z) : Z := (t + d + (if d <? crash_window then crash_window else 0))%Z.
Fixpoint child_starts (t : Z) (runs : list Z) : list Z :=
  t :: match runs with [] => [] | d :: runs' => child_starts (next_start t d) runs' end.

(** ** Responses *)

(** [gzipMiddleware]: the headers it adds and the body it sends. *)
Definition gzipMiddleware (gz : string -> string) (accept path body : string) : list (string * string) * string :=
  if negb (contains accept "gzip") || contains path "/sync/download/ovpn/" then ([], body)
  else ([("Content-Encoding", "gzip"); ("Vary", "Accept-Encoding")], gz body).

(** ** The agent *)

(** How the listener ends: on its own, or by a signal, after which the shutdown
    has its own error. *)
Inductive ending : Type := Broke (x : goerr) | Stopped (shutdown : option goerr).

Record started : Type := mkStarted {
  rs_server : Server; rs_supervised : bool;
  rs_log : list string;      (** the lines for the log ring *)
  rs_out : list string;      (** standard output *)
  rs_error : option goerr    (** what [Run] returns *)
}.

Section run.
Context (e : environ) (h : HostId) (passFile : option loc) (torn : string -> option string).
Context (installed tty : bool) (ip version env_source : string).

(** [tls.LoadX509KeyPair] on the two texts, and the end of the listener. *)
Context (load : string -> string -> option goerr) (ended : ending).

Definition ListenAndServe (s : Server) : M unit :=
  cert <- read_file (sv_cert s).2 ;;
  key <- read_file (sv_key_file s).2 ;;
  match load cert key with
  | Some x => throw x
  | None =>
      match ended with
      | Broke x => throw x
      | Stopped (Some x) => throw x
      | Stopped None => throw (Errorf "http: Server closed")
      end
  end.

Definition start_agent : M started :=
  r <- try (FixRuntimePermissions (OpenVPNRoot e) e h passFile) ;;
  match r with
  | inl x => throw (wrap "runtime permissions" x)
  | inr _ =>
      EnsureSecretPerms ;;
      tls <- TLSMaterial e ;;
      let s := NewServer e in
      let s := mkServer (sv_addr s) (sv_key s) tls.1 tls.2 in
      if (String.length (sv_key s) <? 16)%nat then throw (Errorf "API_KEY must be at least 16 characters")
      else
        supervised <- SuperviseOpenVPN installed e ;;
        setup <- printSetupIfFirstBoot e ip tty ;;
        (match setup with Some _ => markSetupPrinted torn e | None => mret tt end) ;;
        mret (mkStarted s supervised
          ((if str_empty env_source then [] else [".env loaded from " +:+ env_source +:+ " (.env wins over process env)"]) ++
           ["ovnode agent " +:+ version +:+ " starting (addr=" +:+ sv_addr s +:+ ", openvpn_root=" +:+ OpenVPNRoot e +:+ ")"])
          (("ovnode serve listening on " +:+ sv_addr s) :: default [] setup) None)
  end.

(** [Run]: an error before the agent listens, or the agent it started with the
    error its listener ended with. *)
Definition Run : M started :=
  st <- start_agent ;;
  r <- try (ListenAndServe (rs_server st)) ;;
  mret (mkStarted (rs_server st) (rs_supervised st) (rs_log st) (rs_out st)
          (match r with inl x => Some x | inr _ => None end)).
End run.

(** The loop that keeps the revocation list fresh, for a number of days: the
    lines it logs.  It runs beside the listener. *)
Section refresh.
Context `{Crypto} (easyrsa : list string -> M unit).

Fixpoint refresh_steps (n : nat) : M (list string) :=
  match n with
  | O => mret []
  | S n' =>
      fresh <- RefreshCRL easyrsa ;;
      ls <- refresh_steps n' ;;
      mret (if fresh : bool then ls else "CRL refresh failed" :: ls)
  end.
Definition refresh_loop (days : nat) : M (list string) :=
  there <- stat_file (pki "private/ca.key") ;;
  if negb there then mret [] else refresh_steps (S days).
End refresh.
