(* ===== verification/ServeProps.v ===== *)
(** * ServeProps: the agent never serves without TLS and a key, prints its
    connection details once and never in full, and restarts OpenVPN at a
    bounded rate. *)

From S2P Require Import Prelude GoString Json Time Names Cache World Evolve Config Pki Perms Migrate Init Installer InstallerProps Serve.
From Stdlib Require Import Ascii.

#[local] Set Default Proof Using "Type*".

(** ** Reading *)

Lemma readable_inr label f w u w' : readable label f w = (inr u, w') -> w' = w /\ is_Some (w_files w !! f.2).
Proof.
  unfold readable. rewrite bind_run. unfold stat_file. destruct (negb _ && bool_decide _); cbn [negb]; [|done].
  rewrite bind_run, try_run. unfold read_file. destruct (w_fault w _); [done|]. destruct (w_files w !! f.2) as [d|]; [|done].
  intros [= _ <-]. split; [done|]. by exists d.
Qed.

Lemma TLSMaterial_inr e w tls w' : TLSMaterial e w = (inr tls, w') ->
  w' = w /\ is_Some (w_files w !! tls.1.2) /\ is_Some (w_files w !! tls.2.2).
Proof.
  unfold TLSMaterial. intros ([] & w1 & [-> H1]%readable_inr & H)%bind_inr.
  apply bind_inr in H as ([] & w2 & [-> H2]%readable_inr & H). by injection H as <- <-.
Qed.

(** Files are kept or written. *)
Definition still (w w' : World) : Prop := forall l, is_Some (w_files w !! l) -> is_Some (w_files w' !! l).
#[export] Instance still_preorder : PreOrder still.
Proof. split; [by intros w l|]. intros w1 w2 w3 H1 H2 l Hl. by apply H2, H1. Qed.

Lemma mark_still torn e : evolves still (markSetupPrinted torn e).
Proof.
  assert (forall l d, evolves still (WriteFile torn l d)) as Hw.
  { intros l d w. assert (forall c, still w (set_files (<[l:=c]> (w_files w)) w)) as Hi.
    { intros c l' Hl'. cbn. destruct (decide (l' = l)) as [->|Hne]; [by rewrite lookup_insert_eq|by rewrite lookup_insert_ne]. }
    unfold WriteFile. destruct (w_fault w _); [destruct (torn d); [apply Hi|reflexivity]|].
    destruct (parent_ok w l); [apply Hi|reflexivity]. }
  unfold markSetupPrinted. apply evolves_bind; [apply _|apply evolves_gets; apply _|]. intros now.
  apply evolves_bind; [apply _|apply evolves_ignore; [apply _|by apply evolves_reads; apply _]|]. intros _.
  apply evolves_ignore; [apply _|apply Hw].
Qed.

Lemma print_reads e ip tty : evolves eq (printSetupIfFirstBoot e ip tty).
Proof. unfold printSetupIfFirstBoot. evolve_solve. Qed.

Lemma supervise_reads installed e : evolves eq (SuperviseOpenVPN installed e).
Proof. unfold SuperviseOpenVPN. evolve_solve. Qed.

Section agent.
Context (e : environ) (h : HostId) (passFile : option loc) (torn : string -> option string).
Context (installed tty : bool) (ip version env_source : string) (load : string -> string -> option goerr) (ended : ending).

Abbreviation start := (start_agent e h passFile torn installed tty ip version env_source).
Abbreviation run := (Run e h passFile torn installed tty ip version env_source load ended).

Lemma start_inr w st w' : start w = (inr st, w') ->
  (16 <= String.length (sv_key (rs_server st)))%nat /\ sv_key (rs_server st) = EnvOr e "API_KEY" "" /\
  is_Some (w_files w' !! (sv_cert (rs_server st)).2) /\ is_Some (w_files w' !! (sv_key_file (rs_server st)).2) /\
  (rs_supervised st = true -> installed = true /\ IsInstalledTree e = true).
Proof.
  unfold start_agent. intros (r & w1 & _ & H)%bind_inr. destruct r as [x|u]; [done|].
  apply bind_inr in H as ([] & w2 & _ & H). apply bind_inr in H as (tls & w3 & [-> [Hc Hk]]%TLSMaterial_inr & H).
  cbv zeta in H. cbn [sv_key sv_addr] in H. destruct (Nat.ltb_spec (String.length (sv_key (NewServer e))) 16) as [|Hlen]; [done|].
  apply bind_inr in H as (sup & w4 & Hsup & H). pose proof (supervise_reads installed e w2) as E4. rewrite Hsup in E4. cbn in E4. subst w4.
  apply bind_inr in H as (setup & w5 & Hset & H). pose proof (print_reads e ip tty w2) as E5. rewrite Hset in E5. cbn in E5. subst w5.
  apply bind_inr in H as ([] & w6 & Hmark & H). injection H as <- <-. cbn [rs_server rs_supervised sv_key sv_cert sv_key_file].
  assert (still w2 w6) as Hst.
  { destruct setup; [pose proof (mark_still torn e w2) as Hm; by rewrite Hmark in Hm|]. injection Hmark as <-. reflexivity. }
  split; [done|]. split; [done|]. split; [by apply Hst|]. split; [by apply Hst|]. intros ->.
  unfold SuperviseOpenVPN in Hsup. destruct installed; [|done]. cbn [negb] in Hsup. split; [done|].
  rewrite bind_run in Hsup. destruct (stat_file settingFile w2) as [[x|b] w7]; [done|].
  destruct (negb b); [done|]. by injection Hsup as ->.
Qed.
End agent.

(** The listener and the start of the agent end with an error, always. *)
Lemma ListenAndServe_fails load ended s w : exists x, ListenAndServe load ended s w = (inl x, w).
Proof.
  unfold ListenAndServe. rewrite bind_run. pose proof (read_file_state w (sv_cert s).2) as H1.
  destruct (read_file (sv_cert s).2 w) as [[x|c] w1]; cbn in H1; subst w1; [by eexists|]. rewrite bind_run.
  pose proof (read_file_state w (sv_key_file s).2) as H2.
  destruct (read_file (sv_key_file s).2 w) as [[x|k] w2]; cbn in H2; subst w2; [by eexists|].
  destruct (load c k); [by eexists|]. destruct ended as [x|[x|]]; by eexists.
Qed.

Lemma Run_inr e h passFile torn installed tty ip version env_source load ended w st w' :
  Run e h passFile torn installed tty ip version env_source load ended w = (inr st, w') ->
  exists st1, start_agent e h passFile torn installed tty ip version env_source w = (inr st1, w') /\
    rs_server st = rs_server st1 /\ rs_supervised st = rs_supervised st1 /\ rs_error st <> None.
Proof.
  unfold Run. intros (st1 & w1 & Hs & H)%bind_inr. apply bind_inr in H as (r & w2 & Hl & H).
  destruct (ListenAndServe_fails load ended (rs_server st1) w1) as [x Hx]. rewrite try_run, Hx in Hl. injection Hl as <- <-.
  injection H as <- <-. by exists st1.
Qed.


(** ** What is printed *)

(** The key is never printed where it could be kept: when the output is
    not a terminal, two nodes that differ in their API key alone print the same
    lines at their first start, as soon as the keys have at least eight
    characters and agree in the first four and the last four. *)
Theorem first_start_hides_the_key e e' ip cert :
  (forall name d, name <> "API_KEY" -> EnvOr e name d = EnvOr e' name d) ->
  (8 <= String.length (EnvOr e "API_KEY" ""))%nat -> (8 <= String.length (EnvOr e' "API_KEY" ""))%nat ->
  str_take 4 (EnvOr e "API_KEY" "") = str_take 4 (EnvOr e' "API_KEY" "") ->
  str_drop (String.length (EnvOr e "API_KEY" "") - 4) (EnvOr e "API_KEY" "") =
  str_drop (String.length (EnvOr e' "API_KEY" "") - 4) (EnvOr e' "API_KEY" "") ->
  setup_lines e ip false cert = setup_lines e' ip false cert.
Proof.
  intros He H8 H8' Ht Hd. unfold setup_lines, keyFingerprint. rewrite (He "SERVICE_PORT") by done.
  destruct (Nat.ltb_spec (String.length (EnvOr e "API_KEY" "")) 8); [lia|].
  destruct (Nat.ltb_spec (String.length (EnvOr e' "API_KEY" "")) 8); [lia|]. by rewrite Ht, Hd.
Qed.

(** ** Supervision *)

Lemma next_start_later t d : (0 <= d)%Z -> (t + crash_window <= next_start t d)%Z.
Proof. intros Hd. unfold next_start. destruct (Z.ltb_spec d crash_window); lia. Qed.

(** A child that keeps crashing is not started in a loop: however long
    each run of OpenVPN lasts, the start number n is at least 5 n seconds after
    the first one. *)
Theorem restarts_are_spaced t runs n s : Forall (fun d => (0 <= d)%Z) runs -> child_starts t runs !! n = Some s ->
  (t + Z.of_nat n * crash_window <= s)%Z.
Proof.
  intros Hr. revert t n. induction Hr as [|d runs Hd Hr IH]; intros t [|n] H.
  - injection H as <-. lia.
  - discriminate H.
  - injection H as <-. lia.
  - cbn in H. specialize (IH _ _ H). pose proof (next_start_later t d Hd). lia.
Qed.

(** ** A node *)

Definition demo_agent_env : environ := mkEnviron (list_to_map [("API_KEY", "0123456789abcdef"); ("SERVICE_PORT", "2083")]) ∅.
Definition demo_agent_host : HostId := mkHostId true (fun _ => true) None.
Definition demo_agent : World :=
  set_files (list_to_map [(Pki.ServerCert, "CERT"); (Pki.ServerKey, "KEY"); (settingFile, "port 1194")]) demo_world.
(** A certificate that does not go with its key. *)
Definition demo_run : M started :=
  Run demo_agent_env demo_agent_host None (fun _ => None) true false "192.0.2.1" "2.0.2" "" (fun _ _ => Some (Errorf "tls: private key does not match"))
    (Stopped None).


Lemma first_start_hides_the_key_witness :
  setup_lines demo_agent_env "192.0.2.1" false "CERT" =
  setup_lines (mkEnviron (list_to_map [("API_KEY", "0123????????????cdef"); ("SERVICE_PORT", "2083")]) ∅) "192.0.2.1" false "CERT".
Proof.
  apply first_start_hides_the_key; [|vm_compute; lia|vm_compute; lia|vm_compute; reflexivity|vm_compute; reflexivity].
  intros name d Hn. unfold demo_agent_env, EnvOr, envOr. cbn [ev_file ev_proc list_to_map fst snd foldr].
  by rewrite !(lookup_insert_ne _ "API_KEY" name) by congruence.
Defined.

Lemma restarts_are_spaced_witness : (0 + Z.of_nat 2 * crash_window <= 15 * second)%Z.
Proof. apply (restarts_are_spaced 0 [0; 10 * second]%Z 2); [repeat constructor; vm_compute; discriminate|reflexivity]. Defined.

(** The first start counts as done before the listener has started: with a
    certificate that does not go with its key, nothing is ever served, and the
    details of the connection are not printed again. *)
Definition printed (r : goerr + started) : option (nat * option goerr) :=
  match r with inr st => Some (length (rs_out st), rs_error st) | inl _ => None end.
Lemma details_are_lost :
  let '(r, w') := demo_run demo_agent in
  (printed r, printed (demo_run w').1) =
  (Some (8%nat, Some (Errorf "tls: private key does not match")), Some (1%nat, Some (Errorf "tls: private key does not match"))).
Proof. vm_compute. reflexivity. Qed.
