(* ===== verification/Main.v ===== *)
(** * Main: cmd/ovnode/main.go, the commands of the binary.

    A command is its exit code and the lines it prints; what it writes to the
    error stream is not kept.  A panic ends the process with code 2. *)

From S2P Require Import Prelude GoString Json Indent Time Names Cache World Config Pki Perms Init Nat Hooks Accounting Disconnect Body Installer Assets Serve.
From Stdlib Require Import Ascii.

(** Exit code and standard output. *)
Definition outcome : Type := Z * list string.

Definition done_ok (out : list string) : M outcome := mret (0%Z, out).
Definition stop (code : Z) : M outcome := mret (code, []).

(** An error is printed and ends the command with code 1. *)
Definition or_fail {A} (m : M A) (k : A -> list string) : M outcome :=
  r <- try_err m ;;
  match r with inl _ => stop 1 | inr a => done_ok (k a) end.

(** What the process ends with. *)
Definition exit_code (r : goerr + outcome) : Z := match r with inl _ => 2 | inr o => o.1 end.

Section main.
Context `{Archive} `{Crypto} {T : Type} `{Netfilter T}.
Context (digest : string -> string) (e : environ) (h : HostId).

(** The process: its id, its parent, the temporary folder; and what the
    outside answers. *)
Context (pid ppid : Z) (tmpdir staged : string) (torn : string -> option string) (reaches : string -> string).
Context (checked applied : list string -> list string).
Context (passFile : loc) (system : option (list (string * option (goerr + string)))) (exec openvpn : list string -> M unit).
Context (hook_cfg : Hook -> HookCfg) (version contract : string) (install_sh ovnode_sh lib_sh : string).

(** What the start of the agent depends on, the configuration of the firewall
    and the answers to the probe: [None] for a request that fails, or the code
    of the response. *)
Context (installed tty : bool) (ip env_source : string) (load : string -> string -> option goerr) (ended : ending).
Context (nat_file : option string) (answer : string -> string -> string -> string -> option Z).

Definition arg (n : nat) (args : list string) : string := default "" (args !! n).
Definition too_short (n : nat) (args : list string) : bool := (length args <? n)%nat.

(** ** The API *)

Definition runServe : M outcome :=
  r <- try_err (Run e h (Some passFile) torn installed tty ip version env_source load ended) ;;
  match r with
  | inl _ => stop 1
  | inr st => mret (match rs_error st with Some _ => 1%Z | None => 0%Z end, rs_out st)
  end.

(** ** The hooks *)

Definition env_var (name : string) : string := EnvOr e name "".
Definition hook_env : HookEnv :=
  mkEnv (env_var "common_name") (env_var "trusted_ip") (env_var "trusted_port") (env_var "ifconfig_pool_remote_ip")
    (env_var "time_unix") (env_var "bytes_received") (env_var "bytes_sent") pid.

Definition purge_summary (r : Z * Z * Z) : string :=
  let '(removed, kept, scanned) := r in
  json_print (JObj [("removed", JNum (itoa removed)); ("kept", JNum (itoa kept)); ("scanned", JNum (itoa scanned))]).

Definition runHook (args : list string) : M outcome :=
  if too_short 3 args then stop 2
  else
    let a := arg 3 args in
    let '(cfg, lines) := HookFromEnv e in
    for_each Event lines ;;
    let event := arg 2 args in
    if String.eqb event "connect" then code <- Connect (hook_cfg cfg) hook_env a ;; stop code
    else if String.eqb event "disconnect" then code <- Disconnect hook_env a ;; stop code
    else if String.eqb event "purge-stale" then r <- PurgeStale (hook_cfg cfg) ;; done_ok [purge_summary r]
    else stop 2.

(** ** The authority *)

Definition runCA (args : list string) : M outcome :=
  let init := or_fail (InitPKI e h passFile torn system exec openvpn) (fun _ => ["PKI initialized"]) in
  if too_short 3 args then init
  else if String.eqb (arg 2 args) "init" || String.eqb (arg 2 args) "init-pki" then init
  else stop 2.

(** ** The journal of an update *)

Definition journal_line (m : list (string * json)) : string :=
  let text := fun key => any_text (JObj m) key in
  join " " [text "phase"; text "from_version"; text "to_version"; text "safety_backup"; text "identity_sha"].

Definition runState (args : list string) : M outcome :=
  if negb (too_short 3 args) && String.eqb (arg 2 args) "read" then
    if too_short 4 args then stop 2
    else or_fail (ReadUpdateState (arg 3 args)) (fun m => [journal_line m])
  else if too_short 4 args || negb (String.eqb (arg 2 args) "write") then stop 2
  else if too_short 5 args then throw (Panic "index out of range")
  else or_fail (WriteUpdateState reaches ppid (arg 3 args) (arg 4 args) (arg 5 args) (arg 6 args) (arg 7 args) (arg 8 args))
         (fun _ => []).

(** ** The snapshot *)

Definition runInstaller (args : list string) : M outcome :=
  if too_short 3 args then stop 2
  else if String.eqb (arg 2 args) "bundle" then
    if too_short 9 args then stop 2
    else or_fail (Bundle digest tmpdir (arg 3 args) (arg 4 args) (arg 5 args) (arg 6 args) (arg 7 args) (arg 8 args))
           (fun b => [b])
  else if String.eqb (arg 2 args) "restore" then
    if too_short 7 args then stop 2
    else or_fail (Restore digest staged torn checked applied (arg 3 args) (arg 4 args) (arg 5 args) (arg 6 args))
           (fun _ => ["state restored"])
  else stop 2.

(** ** The scripts *)

(** The last [--dest]; [None] for an option that is not known or has no
    folder. *)
Fixpoint dest_of (args : list string) (dest : string) : option string :=
  match args with
  | [] => Some dest
  | a :: args' =>
      if String.eqb a "--dest" then match args' with d :: args'' => dest_of args'' d | [] => None end
      else None
  end.

Definition runAssets (args : list string) : M outcome :=
  if too_short 3 args || negb (String.eqb (arg 2 args) "write") then stop 2
  else match dest_of (drop 3 args) "" with
       | None => stop 2
       | Some dest =>
           if str_empty dest then stop 2
           else
             r <- Write install_sh ovnode_sh lib_sh dest ;;
             match r with (_, Some _) => stop 1 | (written, None) => done_ok written end
       end.

(** ** The probe *)

(** The value of the first line that has exactly this key; a file that cannot
    be read or has no such line leaves it to the next. *)
Definition env_value (key data : string) : option string :=
  match omap (fun line => match cut "=" line with (k, v, true) => if String.eqb k key then Some v else None | _ => None end)
          (split nl data) with
  | v :: _ => Some (trim_space v)
  | [] => None
  end.
Fixpoint envGet (paths : list string) (key : string) : M string :=
  match paths with
  | [] => mret ""
  | p :: paths' =>
      r <- try (read_file (LAbs p)) ;;
      match (match r with inr data => env_value key data | inl _ => None end) with
      | Some v => mret v
      | None => envGet paths' key
      end
  end.

Definition set_row (r : string * string) (name : string) (v : json) : option (string * string) :=
  if String.eqb name "method" then s ← to_string r.1 v; Some (s, r.2) else s ← to_string r.2 v; Some (r.1, s).
Definition contract_rows (data : string) : option (list (string * string)) :=
  v ← Unmarshal data;
  match v with
  | JArr l => mapM (decode_struct ["method"; "path"] set_row ("", "")) l
  | JNull => Some []
  | _ => None
  end.

Definition pad_right (n : nat) (s : string) : string := s +:+ String.concat "" (replicate (n - String.length s) " ").
Definition probe_ok (a : option Z) : bool := match a with Some code => (code <? 500)%Z | None => false end.
Definition probe_line (r : string * string) (ok : bool) : string :=
  "  " +:+ pad_right 7 r.1 +:+ " " +:+ pad_right 32 r.2 +:+ " " +:+ (if ok then "OK" else "FAIL").

Definition runProbeCheck : M outcome :=
  let appDir := EnvOr e "OVN_APP_DIR" "/opt/ovnode" in
  let paths := [appDir +:+ "/.env"; "/etc/openvpn/ovnode/.env"] in
  port <- envGet paths "SERVICE_PORT" ;;
  let port := if str_empty port then "2083" else port in
  key <- envGet paths "API_KEY" ;;
  if str_empty key then stop 1
  else match contract_rows contract with
       | None => stop 1
       | Some rows =>
           let probes := map (fun r => (r, probe_ok (answer port key r.1 r.2)))
                           (filter (fun r => r.2 <> "/sync/download/ovpn/{uid}") rows) in
           let pass := length (filter (fun p => p.2 = true) probes) in
           let fail := length (filter (fun p => p.2 = false) probes) in
           mret ((if (0 <? fail)%nat then 1 else 0)%Z,
                 map (fun p => probe_line p.1 p.2) probes ++
                 ["" ; "  " +:+ itoa (Z.of_nat pass) +:+ " passed, " +:+ itoa (Z.of_nat fail) +:+ " failed"])
       end.

Definition runProbe (args : list string) : M outcome :=
  if too_short 3 args then stop 2
  else if String.eqb (arg 2 args) "contract" then done_ok [contract]
  else if String.eqb (arg 2 args) "check" then runProbeCheck
  else stop 2.

Definition runIdentitySHA (args : list string) : M outcome :=
  if too_short 4 args then stop 2 else done_ok [IdentitySHA digest (arg 2 args) (arg 3 args)].

(** ** The firewall, whose state is its own *)

Definition runNat (args : list string) (t : T) : outcome * T :=
  if too_short 3 args then ((2%Z, []), t)
  else if String.eqb (arg 2 args) "apply" then
    match Apply e nat_file t with (Some _, t') => ((1%Z, []), t') | (None, t') => ((0%Z, []), t') end
  else if String.eqb (arg 2 args) "cleanup" then ((0%Z, []), Cleanup e nat_file t)
  else ((2%Z, []), t).

(** ** The commands *)

Definition command (args : list string) : M outcome :=
  let name := arg 1 args in
  if String.eqb name "version" then done_ok [version]
  else if String.eqb name "hook" then runHook args
  else if String.eqb name "ca" then runCA args
  else if String.eqb name "serve" then runServe
  else if String.eqb name "probe" then runProbe args
  else if String.eqb name "state" then runState args
  else if String.eqb name "identity-sha" then runIdentitySHA args
  else if String.eqb name "installer" then runInstaller args
  else if String.eqb name "assets" then runAssets args
  else stop 2.

Definition main (args : list string) (w : World) (t : T) : (Z * list string) * World * T :=
  if too_short 2 args then ((2%Z, []), w, t)
  else if String.eqb (arg 1 args) "nat" then let '(o, t') := runNat args t in (o, w, t')
  else let '(r, w') := command args w in
       ((exit_code r, match r with inr o => o.2 | inl _ => [] end), w', t).
End main.
