(* ===== verification/MainProps.v ===== *)
(** * MainProps: the journal of an update survives the trip through its file,
    and the scripts the binary writes are whole. *)

From S2P Require Import Prelude GoString Json Indent Time Names Cache World Evolve Config Pki Migrate Perms Init Nat Hooks Accounting Disconnect Control Float Body Installer Assets Paths InstallerProps InstallerDemo RestoreProps HookProps Serve ServeProps Main PkiDemo.
From Stdlib Require Import Ascii.

#[local] Set Default Proof Using "Type*".

(** ** The journal *)

Lemma or_null_printable s : printable (or_null s).
Proof. unfold or_null. destruct (str_empty s); constructor. Qed.

Lemma or_null_any s : is_Some (to_any (or_null s)).
Proof. unfold or_null. destruct (str_empty s); by eexists. Qed.

Lemma state_doc_printable phase from target backup identity now ppid : (0 <= now)%Z -> (0 <= ppid)%Z ->
  printable (state_doc phase from target backup identity now ppid).
Proof.
  intros Hn Hp. unfold state_doc. rewrite !itoa_nonneg by done. constructor.
  repeat (apply Forall_cons; split; [first [apply or_null_printable|constructor]|]). constructor.
Qed.

Lemma state_doc_any phase from target backup identity now ppid : (0 <= now < 2 ^ 53)%Z -> (0 <= ppid < 2 ^ 53)%Z ->
  to_any (state_doc phase from target backup identity now ppid) = Some AOther.
Proof.
  intros Hn Hp. unfold state_doc. cbn [to_any]. rewrite !ParseFloat_itoa by done.
  destruct (or_null_any backup) as [a Ha], (or_null_any identity) as [b Hb]. rewrite Ha, Hb. done.
Qed.

Lemma state_doc_line phase from target backup identity now ppid kvs : state_doc phase from target backup identity now ppid = JObj kvs ->
  journal_line kvs = join " " [phase; from; target; backup; identity].
Proof. intros [= <-]. unfold or_null. destruct backup, identity; reflexivity. Qed.

(** What is written is there, whole; the temporary file is gone. *)
Lemma WriteUpdateState_run reaches ppid path phase from target backup identity w : faultless w ->
  WriteUpdateState reaches ppid path phase from target backup identity w = (inr tt,
    set_files (<[LAbs path := reaches (MarshalIndent (state_doc phase from target backup identity (now_unix w) ppid) +:+ str1 nl)]>
      (w_files w)) w).
Proof.
  intros Hf. unfold WriteUpdateState. rewrite bind_run. cbn [gets]. rewrite bind_run, ignore_mkdir.
  set (text := reaches _). destruct (temp_abs (w_files w) path ".update-state-") as [t Ht].
  rewrite bind_run, create_temp_ok by (done || by rewrite Ht). rewrite Ht. set (w1 := set_files _ w).
  assert (ignore (SetPermissions (path_of (LAbs t))) w1 = (inr tt, w1)) as Hs.
  { unfold ignore. rewrite bind_run, try_run. unfold SetPermissions. by destruct (w_fault w1 _). }
  rewrite bind_run, Hs, (rename_ok w1 (LAbs t) path text) by (done || apply lookup_insert_eq). unfold w1. cbn [w_files set_files].
  pose proof (temp_name_fresh (w_files w) (LAbs path) ".update-state-") as Hfresh. rewrite Ht in Hfresh. by rewrite delete_insert_id.
Qed.

Lemma ReadUpdateState_run path kvs w : faultless w -> printable (JObj kvs) -> to_any (JObj kvs) = Some AOther ->
  w_files w !! LAbs path = Some (MarshalIndent (JObj kvs) +:+ str1 nl) -> ReadUpdateState path w = (inr kvs, w).
Proof.
  intros Hf Hp Ha Hd. unfold ReadUpdateState. rewrite bind_run, (read_file_ok w _ _ (Hf _) Hd), read_back by done. by rewrite Ha.
Qed.

Section journal.
Context `{Archive} `{Crypto} {T : Type} `{Netfilter T}.
Context (digest : string -> string) (e : environ) (h : HostId) (pid ppid : Z) (tmpdir staged : string).
Context (torn : string -> option string) (reaches : string -> string) (checked applied : list string -> list string).
Context (passFile : loc) (system : option (list (string * option (goerr + string)))) (exec openvpn : list string -> M unit).
Context (hook_cfg : Hook -> HookCfg) (version contract install_sh ovnode_sh lib_sh : string).
Context (installed tty : bool) (ip env_source : string) (load : string -> string -> option goerr) (ended : ending).
Context (nat_file : option string) (answer : string -> string -> string -> string -> option Z).

Abbreviation ovnode := (main digest e h pid ppid tmpdir staged torn reaches checked applied passFile system exec openvpn hook_cfg
  version contract install_sh ovnode_sh lib_sh installed tty ip env_source load ended nat_file answer).

(** A command that ends with a result of the node's files. *)
Definition ends {A} (m : M A) (k : A -> list string) (w : World) (t : T) : (Z * list string) * World * T :=
  let '(r, w') := or_fail m k w in ((exit_code r, match r with inr o => o.2 | inl _ => [] end), w', t).

Lemma ends_ok {A} (m : M A) k w t a w' : m w = (inr a, w') -> ends m k w t = ((0%Z, k a), w', t).
Proof. intros Hm. unfold ends, or_fail. rewrite bind_run. unfold try_err. by rewrite Hm. Qed.

Lemma write_runs path phase from target backup identity w t :
  ovnode ["ovnode"; "state"; "write"; path; phase; from; target; backup; identity] w t =
  ends (WriteUpdateState reaches ppid path phase from target backup identity) (fun _ => []) w t.
Proof. reflexivity. Qed.

Lemma read_runs path w t :
  ovnode ["ovnode"; "state"; "read"; path] w t = ends (ReadUpdateState path) (fun m => [journal_line m]) w t.
Proof. reflexivity. Qed.


(** [serve] never ends with code 0: a shutdown that was asked for counts as a
    failure as well. *)
Lemma serve_never_ends_well w t : (ovnode ["ovnode"; "serve"] w t).1.1.1 <> 0%Z.
Proof.
  assert (forall r w', runServe e h torn passFile version installed tty ip env_source load ended w = (r, w') -> exit_code r <> 0%Z) as H2.
  { intros r w'. unfold runServe. rewrite bind_run. unfold try_err.
    destruct (Run e h (Some passFile) torn installed tty ip version env_source load ended w) as [[x|st] w1] eqn:E.
    - destruct x; intros [= <- _]; done.
    - apply Run_inr in E as (st1 & _ & _ & _ & He). intros [= <- _]. cbn. by destruct (rs_error st). }
  change (ovnode ["ovnode"; "serve"] w t) with
    (let '(r, w') := runServe e h torn passFile version installed tty ip env_source load ended w in
     ((exit_code r, match r with inr o => o.2 | inl _ => [] end), w', t)).
  destruct (runServe _ _ _ _ _ _ _ _ _ _ _ w) as [r w'] eqn:E. by eapply H2.
Qed.
End journal.

(** ** A concrete binary *)

Section demo.
Context `{Archive} `{Crypto} (exec openvpn : list string -> M unit) (hook_cfg : Hook -> HookCfg) (e : environ) (h : HostId).

(** The binary on a node without a firewall; [reaches] is what of a text a write
    leaves. *)
Definition demo_ovnode (reaches : string -> string) (args : list string) (w : World) : (Z * list string) * World * unit :=
  main (T:=unit) (H1:=fun _ t => (false, "", t)) (fun s => s) e h 100 99 "/tmp" "/tmp/staged" (fun _ => None) reaches id id
    (LAbs "/etc/openvpn/server/.mgmt-pass") None exec openvpn hook_cfg "2.0.2" "[]" "" "" "" true false "" "" (fun _ _ => None) (Stopped None) None (fun _ _ _ _ => None) args w tt.

(** A write that stops in the middle is renamed into place all the same: the
    journal is lost and the command ends with code 0. *)
Lemma torn_journal :
  let '(o, w1, _) := demo_ovnode (fun _ => "{")
      ["ovnode"; "state"; "write"; "/var/lib/ovnode/update-state.json"; "committed"; "2.0.1"; "2.0.2"] demo_world in
  let '(o', _, _) := demo_ovnode id ["ovnode"; "state"; "read"; "/var/lib/ovnode/update-state.json"] w1 in
  (o, o') = ((0%Z, []), (1%Z, [])).
Proof. vm_compute. reflexivity. Qed.

(** Without a snapshot the identity is the fourth word of the line. *)
Lemma empty_snapshot_shifts_the_line :
  let '(_, w1, _) := demo_ovnode id
      ["ovnode"; "state"; "write"; "/var/lib/ovnode/update-state.json"; "started"; "2.0.1"; "2.0.2"; ""; "5ac1"] demo_world in
  (demo_ovnode id ["ovnode"; "state"; "read"; "/var/lib/ovnode/update-state.json"] w1).1.1 = (0%Z, ["started 2.0.1 2.0.2  5ac1"]).
Proof. vm_compute. reflexivity. Qed.

(** [state write] with a path alone is let through and panics. *)
Lemma state_write_without_phase_panics :
  (demo_ovnode id ["ovnode"; "state"; "write"; "/x"] demo_world).1.1 = (2%Z, []) /\
  (runState 99 id ["ovnode"; "state"; "write"; "/x"] demo_world).1 = inl (Panic "index out of range").
Proof. by vm_compute. Qed.
End demo.

