(* ===== verification/AssetsProps.v ===== *)
(** * AssetsProps: a script the binary writes out is the old one or the new
    one, never a part of it. *)

From S2P Require Import Prelude GoString Json Cache World Evolve Config Migrate Installer Assets Paths InstallerProps RestoreProps.
From Stdlib Require Import Ascii.

#[local] Set Default Proof Using "Type*".

Lemma Forall2_impl_in {A B} (P Q : A -> B -> Prop) l k :
  Forall2 P l k -> (forall x y, x ∈ l -> P x y -> Q x y) -> Forall2 Q l k.
Proof.
  induction 1 as [|x y l k Hxy Hlk IH]; intros HQ; constructor; [apply HQ; [left|done]|].
  apply IH. intros x' y' Hx. apply HQ. by right.
Qed.

(** ** Names *)

Lemma snoc_last s s' c d : s +:+ str1 c = s' +:+ str1 d -> c = d.
Proof.
  intros He. pose proof (suffix_last s c c) as H. rewrite Ascii.eqb_refl, He, suffix_last in H. by apply Ascii.eqb_eq in H.
Qed.

(** A temporary name ends in a digit. *)
Lemma temp_digit files p prefix : exists q c, temp_name files (LAbs p) prefix = LAbs (q +:+ str1 c) /\ is_digit c = true.
Proof.
  destruct (temp_name_shape files (LAbs p) prefix) as [k ->]. cbn [sibling].
  pose proof (utoa_digits (Z.to_N (Z.of_nat k))) as Hd. rewrite itoa_nonneg by lia.
  destruct (str_snoc (utoa (Z.to_N (Z.of_nat k)))) as [He|(t & c & He)]; [by apply utoa_ne in He|]. rewrite He in *.
  rewrite str_forall_app in Hd. simpl in Hd. boolify.
  destruct (rcut "/" p) as [[d f]|]; [exists (d +:+ "/" +:+ prefix +:+ t), c|exists (prefix +:+ t), c]; (split; [by rewrite ?app_assoc_s|done]).
Qed.

Section write.
Context (install_sh ovnode_sh lib_sh dir : string).

Abbreviation assets := (Assets install_sh ovnode_sh lib_sh).
Definition path_in (a : Asset) : string := Join [dir; a_name a].

Lemma asset_names a : a ∈ assets -> exists n, a_name a = n +:+ "h" /\ plain_name (a_name a).
Proof.
  unfold Assets. rewrite !elem_of_cons, elem_of_nil. intros [->|[->|[->|[]]]]; cbn [a_name];
    [exists "install.s"|exists "ovnode.s"|exists "lib.s"]; done.
Qed.

Lemma path_last a : a ∈ assets -> exists q, path_in a = q +:+ a_name a.
Proof.
  intros Ha. destruct (asset_names a Ha) as (_ & _ & Hp). apply (Join_last dir [] (a_name a) Hp). by intros x ?%elem_of_nil.
Qed.

(** No script has a temporary name. *)
Lemma path_not_temp a files p prefix : a ∈ assets -> LAbs (path_in a) <> temp_name files (LAbs p) prefix.
Proof.
  intros Ha. destruct (temp_digit files p prefix) as (q & c & -> & Hc). destruct (path_last a Ha) as [q' Hq].
  destruct (asset_names a Ha) as (n & Hn & _). rewrite Hq, Hn, <- app_assoc_s. intros [= He].
  change "h" with (str1 "h") in He. apply snoc_last in He. by subst c.
Qed.

Lemma paths_distinct : NoDup (map path_in assets).
Proof.
  assert (forall a b, a ∈ assets -> b ∈ assets -> path_in a = path_in b -> a = b) as Hinj.
  { intros a b Ha Hb He. destruct (path_last a Ha) as [q Hq], (path_last b Hb) as [q' Hq']. rewrite Hq, Hq' in He.
    apply (f_equal String.rev) in He. rewrite !rev_append_s in He.
    unfold Assets in Ha, Hb. rewrite !elem_of_cons, elem_of_nil in Ha, Hb.
    destruct Ha as [->|[->|[->|[]]]], Hb as [->|[->|[->|[]]]]; try done. }
  apply (NoDup_fmap_2_strong path_in); [intros a b Ha Hb; by apply Hinj|].
  unfold Assets. repeat (apply NoDup_cons; split; [rewrite ?elem_of_cons, ?elem_of_nil; intros H; naive_solver|]). by apply NoDup_nil.
Qed.

(** ** Staging *)

(** What staging has added to the files of [w0]. *)
Definition staged_for (w0 w : World) (st : string * loc) (a : Asset) : Prop :=
  st.1 = path_in a /\ w_files w0 !! st.2 = None /\ (forall b, b ∈ assets -> LAbs (path_in b) <> st.2) /\
  w_files w !! st.2 = Some (a_body a).

Record staging (w0 w : World) (sts : list (string * loc)) (l : list Asset) : Prop := {
  sg_each : Forall2 (staged_for w0 w) sts l;
  sg_distinct : NoDup (map snd sts);
  sg_rest : forall f, f ∉ map snd sts -> w_files w !! f = w_files w0 !! f
}.

Lemma stage_asset_inr a w st w' : stage_asset dir a w = (inr st, w') ->
  exists t, st = (path_in a, t) /\ t = temp_name (w_files w) (LAbs (path_in a)) ("." +:+ a_name a +:+ ".") /\
    w_files w' = <[t := a_body a]> (w_files w).
Proof.
  unfold stage_asset. intros (t & w1 & Hc & H)%bind_inr. unfold create_temp in Hc. destruct (w_fault w _); [done|].
  destruct (parent_ok w _); [|done]. injection Hc as <- <-. rewrite bind_run, try_run in H. unfold chmod_file in H.
  set (t := temp_name _ _ _) in *. exists t.
  destruct (w_fault _ (OpStat t)); [|destruct (bool_decide _)]; cbn [fst snd] in H; [|by injection H as <- <-|].
  all: rewrite bind_run in H; destruct (ignore (remove_file t) _) as [[]?]; discriminate H.
Qed.

Lemma stage_assets_inr w0 w sts done l sts' w' : (forall a, a ∈ l -> a ∈ assets) -> staging w0 w sts done ->
  stage_assets dir l sts w = (inr sts', w') -> staging w0 w' sts' (done ++ l).
Proof.
  revert w sts done. induction l as [|a l IH]; intros w sts done Hl Hs; cbn [stage_assets].
  { intros [= <- <-]. by rewrite app_nil_r. }
  intros (r & w1 & Hr & H)%bind_inr. rewrite try_run in Hr. destruct (stage_asset dir a w) as [r' w2] eqn:Ha. simplify_eq/=.
  destruct r as [x|st]; [by apply bind_inr in H as (? & ? & _ & H)|].
  apply stage_asset_inr in Ha as (t & -> & Ht & Hw1).
  pose proof (temp_name_fresh (w_files w) (LAbs (path_in a)) ("." +:+ a_name a +:+ ".")) as Hfresh. rewrite <- Ht in Hfresh.
  destruct Hs as [Heach Hnd Hrest].
  assert (t ∉ map snd sts) as Hnew.
  { intros ([p t'] & -> & Hin)%list_elem_of_fmap. apply list_elem_of_lookup in Hin as [i Hi].
    destruct (Forall2_lookup_l _ _ _ _ _ Heach Hi) as (b & _ & _ & _ & _ & Hb). cbn in *. congruence. }
  replace (done ++ a :: l) with ((done ++ [a]) ++ l) by by rewrite <- app_assoc.
  apply (IH w1 (sts ++ [(path_in a, t)])); [intros b Hb; apply Hl; by right| |done]. constructor.
  - apply Forall2_app.
    + eapply Forall2_impl; [exact Heach|]. intros [p t'] b (H1 & H2 & H3 & H4). split_and!; try done. rewrite Hw1.
      rewrite lookup_insert_ne; [done|]. intros ->. cbn in *. congruence.
    + constructor; [|constructor]. split_and!; [done| | |].
      * cbn. by rewrite <- (Hrest t Hnew).
      * intros b Hb. cbn. rewrite Ht. by apply path_not_temp.
      * cbn. rewrite Hw1. apply lookup_insert_eq.
  - rewrite map_app. apply NoDup_app. split_and!; [done| |by apply NoDup_singleton].
    intros f Hf Hin. cbn in Hin. apply list_elem_of_singleton in Hin as ->. done.
  - intros f Hf. rewrite map_app in Hf. cbn [map snd] in Hf. rewrite elem_of_app, list_elem_of_singleton in Hf. rewrite Hw1, lookup_insert_ne by (intros <-; tauto).
    apply Hrest. tauto.
Qed.

(** ** Renaming *)

(** Renaming gives each script its staged text, and takes the staged file away. *)
Lemma rename_step w p tmp d r w' : w_files w !! tmp = Some d -> rename_file tmp (LAbs p) w = (r, w') ->
  (exists x, r = inl x /\ w' = w) \/ (r = inr tt /\ w_files w' = <[LAbs p := d]> (delete tmp (w_files w))).
Proof.
  intros Hd. unfold rename_file. destruct (w_fault w _); [intros [= <- <-]; left; eauto|]. rewrite Hd. cbn [parent_ok].
  intros [= <- <-]. by right.
Qed.

Lemma rename_staged_inr w0 all todo l written w wr w' :
  Forall2 (staged_for w0 w) todo l -> NoDup (map snd todo) -> NoDup (map path_in l) -> (forall a, a ∈ l -> a ∈ assets) ->
  rename_staged all todo written w = (inr (wr, None), w') ->
  wr = written ++ map path_in l /\ (forall a, a ∈ l -> w_files w' !! LAbs (path_in a) = Some (a_body a)) /\
  (forall f, f ∈ map snd todo -> w_files w' !! f = None) /\
  (forall f, f ∉ map snd todo -> (forall a, a ∈ l -> f <> LAbs (path_in a)) -> w_files w' !! f = w_files w !! f).
Proof.
  intros Hall. revert written w Hall. induction todo as [|[p tmp] todo IH] in l |- *; intros written w Hall Hnd Hndp Hin; cbn [rename_staged].
  { intros [= <- <-]. apply Forall2_nil_inv_l in Hall as ->. rewrite app_nil_r. split_and!; try done.
    - by intros a ?%elem_of_nil.
    - by intros f ?%elem_of_nil. }
  apply Forall2_cons_inv_l in Hall as (a & l' & (Hp & H0 & Hne & Hbody) & Hall & ->). cbn [fst snd] in *. subst p.
  cbn [map] in Hnd, Hndp. apply NoDup_cons in Hnd as [Htmp Hnd], Hndp as [Hpa Hndp]. cbn [snd] in Htmp.
  intros (r & w1 & Hr & H)%bind_inr. rewrite try_run in Hr. destruct (rename_file tmp (LAbs (path_in a)) w) as [r' w2] eqn:Hren.
  cbn [fst snd] in Hr. injection Hr as <- <-.
  destruct (rename_step w (path_in a) tmp _ _ _ Hbody Hren) as [(x & -> & ->)|[-> Hw1]].
  { apply bind_inr in H as (? & ? & _ & H). discriminate H. }
  assert (Forall2 (staged_for w0 w2) todo l') as Hall'.
  { eapply Forall2_impl_in; [exact Hall|]. intros st b Hst (H1 & H2 & H3 & H4). split_and!; try done.
    rewrite Hw1, lookup_insert_ne, lookup_delete_ne; [done| |apply H3, Hin; left].
    intros Heq. apply Htmp. rewrite Heq. apply list_elem_of_fmap. by exists st. }
  destruct (IH l' (written ++ [path_in a]) w2 Hall' Hnd Hndp) as (-> & Hb & Hgone & Hrest); [intros b Hb; apply Hin; by right|done|].
  assert (forall b, b ∈ l' -> LAbs (path_in a) <> LAbs (path_in b)) as Hdiff.
  { intros b Hb2 [= He]. apply Hpa. rewrite He. apply list_elem_of_fmap. by exists b. }
  assert (LAbs (path_in a) ∉ map snd todo) as Hpt.
  { intros ([p t'] & He & Hi)%list_elem_of_fmap. apply list_elem_of_lookup in Hi as [i Hi].
    destruct (Forall2_lookup_l _ _ _ _ _ Hall Hi) as (b & _ & _ & _ & H3 & _). apply (H3 a); [apply Hin; left|done]. }
  split_and!.
  - by rewrite <- app_assoc.
  - intros b [->|Hb']%elem_of_cons; [|by apply Hb]. rewrite Hrest by done. rewrite Hw1. apply lookup_insert_eq.
  - intros f [->|Hf]%elem_of_cons; [|by apply Hgone]. rewrite Hrest; [|done|].
    + rewrite Hw1, lookup_insert_ne by (apply Hne, Hin; left). apply lookup_delete_eq.
    + intros b Hb' Heq. apply (Hne b); [apply Hin; by right|done].
  - intros f Hf Hfp. cbn [map snd] in Hf. rewrite not_elem_of_cons in Hf. destruct Hf as [Hf1 Hf2].
    rewrite Hrest; [|done|intros b Hb'; apply Hfp; by right]. rewrite Hw1, lookup_insert_ne, lookup_delete_ne; [done|congruence|].
    intros Heq. by apply (Hfp a); [left|].
Qed.
End write.

(** ** Failing *)

Section failing.
Context (install_sh ovnode_sh lib_sh dir : string) (w0 : World).

Abbreviation assets := (Assets install_sh ovnode_sh lib_sh).
Abbreviation new := (fun f => w_files w0 !! f = None).

(** A file that was there is as it was or a whole script. *)
Definition whole (w : World) : Prop := forall f d, w_files w0 !! f = Some d ->
  w_files w !! f = Some d \/ exists a, a ∈ assets /\ f = LAbs (path_in dir a) /\ w_files w !! f = Some (a_body a).

Lemma whole_frames w w' : whole w -> frames new w w' -> whole w'.
Proof. intros Hw [_ Hfr] f d Hd. rewrite Hfr by congruence. by apply Hw. Qed.

Lemma drop_staged_frames sts : (forall st, st ∈ sts -> new st.2) -> evolves (frames new) (drop_staged sts).
Proof.
  intros Hn. apply evolves_for_each; [apply _|]. intros st Hst. apply evolves_ignore; [apply _|]. by apply frames_remove, Hn.
Qed.

Lemma fresh_is_new w l prefix : frames new w0 w -> new (temp_name (w_files w) l prefix).
Proof.
  intros [_ Hfr]. pose proof (temp_name_fresh (w_files w) l prefix) as Hf. destruct (w_files w0 !! _) eqn:E; [|done].
  rewrite Hfr in Hf by congruence. congruence.
Qed.

Lemma stage_asset_frames a w : frames new w0 w ->
  frames new w0 (stage_asset dir a w).2 /\ (forall st, (stage_asset dir a w).1 = inr st -> new st.2).
Proof.
  intros Hw. split.
  - unfold stage_asset. etransitivity; [exact Hw|]. apply evolves_bind_at; [apply _| |].
    + unfold create_temp. destruct (w_fault w _); [reflexivity|]. destruct (parent_ok w _); [|reflexivity].
      apply frames_insert. by apply fresh_is_new.
    + intros t w1 Hc. unfold create_temp in Hc. destruct (w_fault w _); [done|]. destruct (parent_ok w _); [|done]. injection Hc as <- <-.
      pose proof (fresh_is_new w (LAbs (Join [dir; a_name a])) ("." +:+ a_name a +:+ ".") Hw) as Ht.
      apply evolves_bind; [apply _| |].
      * apply evolves_try; [apply _|]. intros w1. unfold chmod_file. repeat case_match; reflexivity.
      * intros []; [|apply evolves_ret; apply _]. apply evolves_bind; [apply _| |intros; apply evolves_throw; apply _].
        apply evolves_ignore; [apply _|]. by apply frames_remove.
  - intros st Hst. destruct (stage_asset dir a w) as [r w1] eqn:E. cbn in Hst. subst r.
    apply stage_asset_inr in E as (t & -> & -> & _). cbn [snd]. by apply fresh_is_new.
Qed.

Lemma stage_assets_frames l sts w : frames new w0 w -> (forall st, st ∈ sts -> new st.2) ->
  frames new w0 (stage_assets dir l sts w).2 /\
  forall sts', (stage_assets dir l sts w).1 = inr sts' -> forall st, st ∈ sts' -> new st.2.
Proof.
  revert w sts. induction l as [|a l IH]; intros w sts Hw Hsts; cbn [stage_assets]; [split; [done|]; by intros sts' [= <-]|].
  rewrite bind_run, try_run. destruct (stage_asset_frames a w Hw) as [Hw1 Hst]. destruct (stage_asset dir a w) as [[x|st] w1]; cbn [fst snd] in *.
  - pose proof (drop_staged_frames sts Hsts w1) as Hd. rewrite bind_run.
    destruct (drop_staged sts w1) as [[e|[]] w2]; cbn [fst snd] in *; (split; [by etransitivity|done]).
  - apply IH; [done|]. intros st' [Hin|Hin]%elem_of_app; [by apply Hsts|]. apply list_elem_of_singleton in Hin as ->. by apply Hst.
Qed.

Lemma rename_staged_whole all todo l written w : (forall st, st ∈ all -> new st.2) ->
  Forall2 (staged_for install_sh ovnode_sh lib_sh dir w0 w) todo l -> NoDup (map snd todo) -> (forall a, a ∈ l -> a ∈ assets) ->
  whole w -> whole (rename_staged all todo written w).2.
Proof.
  intros Hnew Hall. revert written w Hall. induction todo as [|[p tmp] todo IH] in l |- *; intros written w Hall Hnd Hin Hw; cbn [rename_staged]; [done|].
  apply Forall2_cons_inv_l in Hall as (a & l' & (Hp & H0 & Hne & Hbody) & Hall & ->). cbn [fst snd] in *. subst p.
  cbn [map snd] in Hnd. apply NoDup_cons in Hnd as [Htmp Hnd]. rewrite bind_run, try_run.
  destruct (rename_file tmp (LAbs (path_in dir a)) w) as [r' w2] eqn:Hren. cbn [fst snd].
  destruct (rename_step w (path_in dir a) tmp _ _ _ Hbody Hren) as [(x & -> & ->)|[-> Hw1]].
  - rewrite bind_run. pose proof (drop_staged_frames all Hnew w) as Hd.
    destruct (drop_staged all w) as [[e|[]] w3]; cbn [fst snd] in *; by eapply whole_frames.
  - apply (IH l'); [|done|intros b Hb; apply Hin; by right|].
    + eapply Forall2_impl_in; [exact Hall|]. intros st b Hst (H1 & H2 & H3 & H4). split_and!; try done.
      rewrite Hw1, lookup_insert_ne, lookup_delete_ne; [done| |apply H3, Hin; left].
      intros Heq. apply Htmp. rewrite Heq. apply list_elem_of_fmap. by exists st.
    + intros f d Hd. rewrite Hw1. destruct (decide (f = LAbs (path_in dir a))) as [->|Hf].
      * right. exists a. rewrite lookup_insert_eq. split; [apply Hin; left|done].
      * rewrite lookup_insert_ne, lookup_delete_ne by congruence. by apply Hw.
Qed.
End failing.

(** C26: writing the scripts never tears one: whichever operation fails, every
    file that was there when [ovnode assets write] started is as it was, or is
    one of the scripts with the whole text the binary carries. *)
Theorem scripts_are_never_torn install_sh ovnode_sh lib_sh dir w f d :
  w_files w !! f = Some d ->
  let '(r, w') := Write install_sh ovnode_sh lib_sh dir w in
  w_files w' !! f = Some d \/
  exists a, a ∈ Assets install_sh ovnode_sh lib_sh /\ f = LAbs (path_in dir a) /\ w_files w' !! f = Some (a_body a).
Proof.
  intros Hd. unfold Write. rewrite bind_run, try_run. unfold mkdir. destruct (w_fault w _); [by left|]. cbn [fst snd].
  rewrite bind_run, try_run. assert (frames (fun f => w_files w !! f = None) w w) as Hrefl by reflexivity.
  destruct (stage_assets_frames dir w (Assets install_sh ovnode_sh lib_sh) [] w Hrefl) as [Hfr Hnew]; [by intros st ?%elem_of_nil|].
  destruct (stage_assets dir _ [] w) as [[x|sts] w1] eqn:Hs; cbn [fst snd] in *.
  { left. destruct Hfr as [_ Hfr]. rewrite Hfr by congruence. done. }
  apply (stage_assets_inr install_sh ovnode_sh lib_sh dir w w [] []) in Hs as [Heach Hnd Hrest]; [|done|].
  2:{ constructor; [constructor|by apply NoDup_nil|done]. }
  assert (whole install_sh ovnode_sh lib_sh dir w w1) as Hw1.
  { apply (whole_frames _ _ _ _ w w w1); [|done]. intros g c Hg. by left. }
  pose proof (rename_staged_whole install_sh ovnode_sh lib_sh dir w sts sts _ [] w1 (Hnew sts eq_refl) Heach Hnd) as H.
  destruct (rename_staged sts sts [] w1) as [r w']. by apply H.
Qed.

(** When [ovnode assets write] succeeds it has printed the three scripts,
    each of them has the text the binary carries, and no other file has
    changed: every temporary file is gone. *)
Theorem scripts_are_written install_sh ovnode_sh lib_sh dir w written w' :
  Write install_sh ovnode_sh lib_sh dir w = (inr (written, None), w') ->
  written = map (path_in dir) (Assets install_sh ovnode_sh lib_sh) /\
  (forall a, a ∈ Assets install_sh ovnode_sh lib_sh -> w_files w' !! LAbs (path_in dir a) = Some (a_body a)) /\
  (forall f, (forall a, a ∈ Assets install_sh ovnode_sh lib_sh -> f <> LAbs (path_in dir a)) -> w_files w' !! f = w_files w !! f).
Proof.
  unfold Write. rewrite bind_run, try_run. unfold mkdir. destruct (w_fault w _); [done|]. cbn [fst snd].
  rewrite bind_run, try_run. destruct (stage_assets dir _ [] w) as [[x|sts] w1] eqn:Hs; [done|]. cbn [fst snd]. intros Hr.
  apply (stage_assets_inr install_sh ovnode_sh lib_sh dir w w [] []) in Hs as [Heach Hnd Hrest]; [|done|].
  2:{ constructor; [constructor|by apply NoDup_nil|done]. }
  destruct (rename_staged_inr install_sh ovnode_sh lib_sh dir w sts sts _ [] w1 written w' Heach Hnd) as (-> & Hb & Hgone & Hother);
    [apply paths_distinct|done|done|].
  split; [done|]. split; [done|]. intros f Hf. destruct (decide (f ∈ map snd sts)) as [Hin|Hout].
  - rewrite Hgone by done. apply list_elem_of_fmap in Hin as (st & -> & Hin). apply list_elem_of_lookup in Hin as [i Hi].
    by destruct (Forall2_lookup_l _ _ _ _ _ Heach Hi) as (b & _ & _ & -> & _).
  - rewrite Hother by done. by apply Hrest.
Qed.


(** Three scripts of an older release, and a node on which [ovnode.sh] cannot be
    replaced. *)
Definition demo_scripts : World := set_files (list_to_map
  [(LAbs "/opt/ovnode/install.sh", "old install"); (LAbs "/opt/ovnode/ovnode.sh", "old ovnode"); (LAbs "/opt/ovnode/lib.sh", "old lib")]) demo_world.
Definition demo_stuck : World :=
  mkWorld (w_files demo_scripts) true ∅ [] [] 1700000000000000000 0 [] (newCache nameCacheTTL) (newCache usageCacheTTL)
    (fun op => bool_decide (op = OpRename (LAbs "/opt/ovnode/ovnode.sh"))).

Lemma scripts_are_written_witness :
  let w' := (Write "new install" "new ovnode" "new lib" "/opt/ovnode" demo_scripts).2 in
  forall f, (forall a, a ∈ Assets "new install" "new ovnode" "new lib" -> f <> LAbs (path_in "/opt/ovnode" a)) ->
    w_files w' !! f = w_files demo_scripts !! f.
Proof.
  cbv zeta. apply (scripts_are_written "new install" "new ovnode" "new lib" "/opt/ovnode" demo_scripts
    ["/opt/ovnode/install.sh"; "/opt/ovnode/ovnode.sh"; "/opt/ovnode/lib.sh"]).
  apply run_eta. vm_compute. reflexivity.
Defined.

Lemma scripts_are_never_torn_witness :
  let '(r, w') := Write "new install" "new ovnode" "new lib" "/opt/ovnode" demo_stuck in
  w_files w' !! LAbs "/opt/ovnode/install.sh" = Some "old install" \/
  exists a, a ∈ Assets "new install" "new ovnode" "new lib" /\ LAbs "/opt/ovnode/install.sh" = LAbs (path_in "/opt/ovnode" a) /\
    w_files w' !! LAbs "/opt/ovnode/install.sh" = Some (a_body a).
Proof. apply (scripts_are_never_torn "new install" "new ovnode" "new lib" "/opt/ovnode" demo_stuck). reflexivity. Defined.

(** A rename that fails leaves the scripts before it new and the others old. *)
Lemma half_updated_scripts :
  let '(r, w') := Write "new install" "new ovnode" "new lib" "/opt/ovnode" demo_stuck in
  (r, w_files w' !! LAbs "/opt/ovnode/install.sh", w_files w' !! LAbs "/opt/ovnode/ovnode.sh", w_files w' !! LAbs "/opt/ovnode/lib.sh") =
  (inr (["/opt/ovnode/install.sh"], Some ErrIO), Some "new install", Some "old ovnode", Some "old lib").
Proof. vm_compute. reflexivity. Qed.
