(* ===== verification/Fs.v ===== *)
(** * Fs: the doors to the file system of internal/fsx/permissions.go, the event
    file of internal/logging/logging.go and the atomic write of
    internal/fsx/atomic.go.

    The tree of the node can be written by the runtime user, so the agent opens
    every folder on the way itself, follows no link and checks what it opened.
    Here the files are inodes with an owner, a mode and a number of links;
    [fs_seen] keeps every state of an inode another process can have seen.
    [World.WriteFileAtomic] is what the rest of the development uses; AtomicProps
    shows that [WriteFileAtomic] implements it. *)

From S2P Require Import Prelude GoString Names Cache World Config.
From Stdlib Require Import Ascii.

(** ** The kernel *)

Inductive kind : Type := Dir | Reg | Link (target : string) | Special.

#[export] Instance kind_eq_dec : EqDecision kind.
Proof. solve_decision. Defined.

Record inode : Type := mkInode {
  i_kind : kind; i_uid : Z; i_gid : Z;
  i_mode : Z;       (** the permissions, and the set-user, set-group and sticky bits *)
  i_links : Z; i_data : string
}.

Inductive kerr : Type := ENOENT | EEXIST | ENOTDIR | ELOOP | EISDIR | EIO | EREFUSED (msg : string).

#[export] Instance kerr_eq_dec : EqDecision kerr.
Proof. solve_decision. Defined.

(** The calls that can fail. *)
Inductive sysop : Type :=
| SOpen (dir : N) (name : string) | SMkdir (dir : N) (name : string)
| SStat (i : N) | SChmod (i : N) | SChown (i : N) | SWrite (i : N) | SSync (i : N) | SClose (i : N)
| SRename (dir : N) (name : string) | SUnlink (dir : N) (name : string).

#[export] Instance sysop_eq_dec : EqDecision sysop.
Proof. solve_decision. Defined.

Record Fs : Type := mkFs {
  fs_nodes : gmap N inode;
  fs_entries : gmap (N * string) N;
  fs_next : N;                      (** the next inode *)
  fs_seen : list (N * inode);       (** the newest first *)
  fs_dirty : gset N;                (** the contents not all on the disk *)
  fs_part : nat;                    (** the bytes a failed write has written *)
  fs_fault : sysop -> bool
}.

Definition root : N := 0.

(** The process and the kernel it runs on. *)
Record proc : Type := mkProc {
  pr_euid : Z; pr_egid : Z; pr_umask : Z; pr_cwd : string;
  pr_chown_mode : Z -> Z            (** what a change of owner leaves of a mode *)
}.

Definition K (A : Type) : Type := Fs -> (kerr + A) * Fs.

#[export] Instance K_ret : MRet K := fun A a s => (inr a, s).
#[export] Instance K_bind : MBind K := fun A B k m s =>
  match m s with (inl e, s') => (inl e, s') | (inr a, s') => k a s' end.

Definition kfail {A} (e : kerr) : K A := fun s => (inl e, s).
Definition kcatch {A} (m : K A) : K (kerr + A) := fun s => let '(r, s') := m s in (inr r, s').
Definition kgets {A} (f : Fs -> A) : K A := fun s => (inr (f s), s).
Definition kcheck (op : sysop) : K unit := fun s => if fs_fault s op then (inl EIO, s) else (inr tt, s).

Notation "'let!' x := m 'in' k" := (mbind (M:=K) (fun x => k) m) (at level 10, x pattern, m at level 100, k at level 200).

Definition put (i : N) (n : inode) : K unit := fun s =>
  (inr tt, mkFs (<[i := n]> (fs_nodes s)) (fs_entries s) (fs_next s) ((i, n) :: fs_seen s) (fs_dirty s) (fs_part s) (fs_fault s)).
Definition fresh (dir : N) (name : string) (n : inode) : K N := fun s =>
  let i := fs_next s in
  (inr i, mkFs (<[i := n]> (fs_nodes s)) (<[(dir, name) := i]> (fs_entries s)) (i + 1) ((i, n) :: fs_seen s)
    (fs_dirty s) (fs_part s) (fs_fault s)).
Definition set_entries (e : gmap (N * string) N) : K unit := fun s =>
  (inr tt, mkFs (fs_nodes s) e (fs_next s) (fs_seen s) (fs_dirty s) (fs_part s) (fs_fault s)).
Definition set_dirty (f : gset N -> gset N) : K unit := fun s =>
  (inr tt, mkFs (fs_nodes s) (fs_entries s) (fs_next s) (fs_seen s) (f (fs_dirty s)) (fs_part s) (fs_fault s)).

Definition node (i : N) : K inode := let! n := kgets (fun s => fs_nodes s !! i) in
  match n with Some n => mret n | None => kfail ENOENT end.

Definition fstat (i : N) : K inode := let! _ := kcheck (SStat i) in node i.

Definition with_mode (m : Z) (n : inode) : inode := mkInode (i_kind n) (i_uid n) (i_gid n) m (i_links n) (i_data n).
Definition with_owner (uid gid m : Z) (n : inode) : inode :=
  mkInode (i_kind n) (if (uid <? 0)%Z then i_uid n else uid) (if (gid <? 0)%Z then i_gid n else gid) m (i_links n) (i_data n).
Definition with_data (d : string) (n : inode) : inode :=
  mkInode (i_kind n) (i_uid n) (i_gid n) (i_mode n) (i_links n) d.

Definition fchmod (i : N) (m : Z) : K unit := let! _ := kcheck (SChmod i) in let! n := node i in put i (with_mode m n).
(** A write that fails may have written a part of the text. *)
Definition append (i : N) (text : string) : K unit :=
  let! n := node i in
  let! r := kcatch (kcheck (SWrite i)) in
  let! part := kgets (fun s => match r with inl _ => str_take (fs_part s) text | inr _ => text end) in
  let! _ := put i (with_data (i_data n +:+ part) n) in
  let! _ := set_dirty (fun d => {[ i ]} ∪ d) in
  match r with inl e => kfail e | inr _ => mret tt end.
Definition fsync (i : N) : K unit := let! _ := kcheck (SSync i) in set_dirty (fun d => d ∖ {[ i ]}).
Definition close (i : N) : K unit := kcheck (SClose i).

(** A name less for an inode. *)
Definition with_links (l : Z) (n : inode) : inode := mkInode (i_kind n) (i_uid n) (i_gid n) (i_mode n) l (i_data n).
Definition drop_link (i : N) : K unit := let! n := node i in put i (with_links (i_links n - 1) n).

Definition unlinkat (dir : N) (name : string) : K unit :=
  let! _ := kcheck (SUnlink dir name) in
  let! es := kgets fs_entries in
  match es !! (dir, name) with
  | None => kfail ENOENT
  | Some i =>
      let! n := node i in
      match i_kind n with
      | Dir => kfail EISDIR
      | _ => let! _ := set_entries (delete (dir, name) es) in drop_link i
      end
  end.

(** [rename] of a file that is no folder, in one folder: the target goes in the
    same step, a link is replaced and not followed, a folder is refused (by
    [os.Rename]); two names of one file both stay. *)
Definition renameat (dir : N) (old new : string) : K unit :=
  let! _ := kcheck (SRename dir new) in
  let! es := kgets fs_entries in
  match es !! (dir, old) with
  | None => kfail ENOENT
  | Some i =>
      let moved := set_entries (<[(dir, new) := i]> (delete (dir, old) es)) in
      match es !! (dir, new) with
      | None => moved
      | Some j =>
          let! n := node j in
          match i_kind n with
          | Dir => kfail EEXIST
          | _ => if (i =? j)%N then mret tt else let! _ := moved in drop_link j
          end
      end
  end.

(** ** Paths *)

(** The folder a path leads to, links followed; the entry [..] of a folder is an
    entry like any other.  [fuel] bounds the steps, as the kernel bounds the
    links of a path. *)
Fixpoint namei (fuel : nat) (s : Fs) (dir : N) (parts : list string) : option N :=
  match fuel with
  | O => None
  | S fuel' =>
      match parts with
      | [] => Some dir
      | part :: parts' =>
          if str_empty part || String.eqb part "." then namei fuel' s dir parts'
          else
            i ← fs_entries s !! (dir, part);
            n ← fs_nodes s !! i;
            match i_kind n with
            | Dir => namei fuel' s i parts'
            | Link t => namei fuel' s (if has_prefix t "/" then root else dir) (split "/" t ++ parts')
            | _ => None
            end
      end
  end.
Definition namei_fuel : nat := 4096.

Section process.
Context (p : proc).

Definition masked (m : Z) : Z := Z.land m (Z.lnot (pr_umask p)).
Definition fchown (i : N) (uid gid : Z) : K unit :=
  let! _ := kcheck (SChown i) in let! n := node i in put i (with_owner uid gid (pr_chown_mode p (i_mode n)) n).
Definition mkdirat (dir : N) (name : string) (mode : Z) : K unit :=
  let! _ := kcheck (SMkdir dir name) in
  let! e := kgets (fun s => fs_entries s !! (dir, name)) in
  match e with
  | Some _ => kfail EEXIST
  | None => let! _ := fresh dir name (mkInode Dir (pr_euid p) (pr_egid p) (masked mode) 2 "") in mret tt
  end.

(** [openat] of a folder that is no link. *)
Definition open_dir (dir : N) (name : string) : K N :=
  let! _ := kcheck (SOpen dir name) in
  let! e := kgets (fun s => fs_entries s !! (dir, name)) in
  match e with
  | None => kfail ENOENT
  | Some i => let! n := node i in match i_kind n with Dir => mret i | _ => kfail ENOTDIR end
  end.

Record oflags : Type := mkFlags { of_create : bool; of_excl : bool; of_write : bool }.
Definition O_RDONLY : oflags := mkFlags false false false.

(** [openat] of a name that is no link. *)
Definition open_file (dir : N) (name : string) (fl : oflags) (mode : Z) : K N :=
  let! _ := kcheck (SOpen dir name) in
  let! e := kgets (fun s => fs_entries s !! (dir, name)) in
  match e with
  | None => if of_create fl then fresh dir name (mkInode Reg (pr_euid p) (pr_egid p) (masked mode) 1 "") else kfail ENOENT
  | Some i =>
      if of_create fl && of_excl fl then kfail EEXIST
      else
        let! n := node i in
        match i_kind n with
        | Link _ => kfail ELOOP
        | Dir => if of_write fl || of_create fl then kfail EISDIR else mret i
        | _ => mret i
        end
  end.

(** ** permissions.go *)

(** [os.ModePerm] and the bits [SetPermissions] compares. *)
Definition ModePerm : Z := 511.
Definition ModeBits : Z := 4095.
Definition Abs (path : string) : string := if has_prefix path "/" then Clean path else Join [pr_cwd p; path].

(** The folder made for a missing one: only below a folder of our own that
    nobody else writes, and with its mode set before it is used. *)
Definition make_dir (dir : N) (part : string) (mode : Z) : K N :=
  let! parent := fstat dir in
  let! r := kcatch (
    if negb (i_uid parent =? pr_euid p)%Z || negb (Z.land (i_mode parent) 18 =? 0)%Z
    then kfail (EREFUSED "cannot safely create a directory under a writable or unowned parent")
    else mkdirat dir part mode) in
  match r with
  | inl EEXIST => open_dir dir part
  | inl x => kfail x
  | inr _ =>
      let! fd := open_dir dir part in
      let! created := fstat fd in
      if negb (i_uid created =? pr_euid p)%Z then kfail (EREFUSED "new directory ownership changed during creation")
      else let! _ := fchmod fd mode in mret fd
  end.

(** One folder after the other; [last] tells the mode of the last one. *)
Fixpoint open_parts (dir : N) (parts : list string) (create : bool) (perm : Z) : K N :=
  match parts with
  | [] => mret dir
  | part :: parts' =>
      if str_empty part then open_parts dir parts' create perm
      else
        let! r := kcatch (open_dir dir part) in
        let! fd := match r with
                   | inl ENOENT =>
                       if create then make_dir dir part (match parts' with [] => Z.land perm ModePerm | _ => 493 end)
                       else kfail ENOENT
                   | inl x => kfail x
                   | inr fd => mret fd
                   end in
        open_parts fd parts' create perm
  end.

Definition openDirectory (path : string) (create : bool) (perm : Z) : K N :=
  open_parts root (split "/" (trim_prefix (Abs path) "/")) create perm.

Definition MkdirAllNoFollow (path : string) (perm : Z) : K unit :=
  let! _ := openDirectory path true perm in mret tt.

(** [filepath.Dir]. *)
Definition DirOf (path : string) : string := match rcut "/" path with Some (d, _) => Clean (d +:+ "/") | None => "." end.
Definition openPathNoFollow (path : string) (fl : oflags) (perm : Z) : K N :=
  let! dir := openDirectory (DirOf path) false 0 in
  open_file dir (Base path) fl (Z.land perm ModePerm).

Definition regular (n : inode) : bool := match i_kind n with Reg => true | _ => false end.
Definition OpenFileNoFollow (path : string) (fl : oflags) (perm : Z) : K N :=
  let! fd := openPathNoFollow path fl perm in
  let! n := fstat fd in
  if regular n && (i_links n =? 1)%Z then mret fd
  else kfail (EREFUSED (path +:+ " is not a single-link regular file")).

(** The owner and the mode of an open file: bits the new mode does not have
    go before the owner changes, the others come after. *)
Definition settle (fd : N) (perm uid gid : Z) (n : inode) : K unit :=
  let! n := (if ((0 <=? uid)%Z && negb (i_uid n =? uid)%Z) || ((0 <=? gid)%Z && negb (i_gid n =? gid)%Z) then
    let current := Z.land (i_mode n) ModeBits in
    let restricted := Z.land current perm in
    let! _ := (if (restricted =? current)%Z then mret tt else fchmod fd restricted) in
    let! _ := fchown fd uid gid in
    fstat fd
  else mret n) in
  if (Z.land (i_mode n) ModeBits =? perm)%Z then mret tt else fchmod fd perm.

Definition SetPermissions (path : string) (perm uid gid : Z) : K unit :=
  let! fd := openPathNoFollow path O_RDONLY 0 in
  let! n := fstat fd in
  if regular n && (i_links n =? 0)%Z then kfail ENOENT
  else if negb (match i_kind n with Dir => true | _ => false end) && (negb (regular n) || negb (i_links n =? 1)%Z)
  then kfail (EREFUSED (path +:+ " is not a directory or single-link regular file"))
  else settle fd perm uid gid n.

(** ** logging.go *)

Definition Tag : string := "ovnode-mlogin".

(** The line of an event at a time. *)
Definition event_line (now : Z) (msg : string) : string :=
  itoa now +:+ " [" +:+ Tag +:+ "] " +:+ strip_crlf msg +:+ str1 nl.

(** The event file, open and with its owner and mode; [gid] is the runtime
    group, [None] where it is not known. *)
Definition open_log (gid : option Z) (path : string) : K N :=
  let! _ := MkdirAllNoFollow (DirOf path) 493 in
  let! f := OpenFileNoFollow path (mkFlags true false true) 432 in
  let! info := fstat f in
  let! _ := (if (Z.land (i_mode info) ModePerm =? 432)%Z then mret tt else fchmod f 432) in
  let! _ := (if (pr_euid p =? 0)%Z then
    match gid with
    | None => kfail (EREFUSED "runtime group")
    | Some g => if (i_gid info =? g)%Z then mret tt else fchown f 0 g
    end
  else mret tt) in
  mret f.

Definition write_event (gid : option Z) (now : Z) (path msg : string) : K unit :=
  let! f := open_log gid path in append f (event_line now msg).

(** Every failure loses the line and nothing else. *)
Definition Event (gid : option Z) (now : Z) (path msg : string) : K unit :=
  if str_empty path then mret tt else let! _ := kcatch (write_event gid now path msg) in mret tt.
End process.

(** ** atomic.go *)

Section atomic.
Context (p : proc) (rnd : nat -> Z).     (** the numbers [os.CreateTemp] draws *)

Definition folder (path : string) : K N :=
  let! r := kgets (fun s => namei namei_fuel s root (split "/" (if has_prefix path "/" then path else pr_cwd p +:+ "/" +:+ path))) in
  match r with Some d => mret d | None => kfail ENOENT end.

Definition temp_name (k : nat) : string := ".tmp-" +:+ itoa (rnd k).

(** [os.CreateTemp]: another number while the name is taken. *)
Fixpoint CreateTemp (tries : nat) (dir : string) : K (string * N) :=
  match tries with
  | O => kfail EEXIST
  | S tries' =>
      let! r := kcatch (let! d := folder dir in open_file p d (temp_name tries') (mkFlags true true true) 384) in
      match r with
      | inr fd => mret (temp_name tries', fd)
      | inl EEXIST => CreateTemp tries' dir
      | inl e => kfail e
      end
  end.
Definition temp_tries : nat := Z.to_nat 10000.

Definition Remove (dir name : string) : K unit := let! d := folder dir in unlinkat d name.
Definition Rename (dir old new : string) : K unit := let! d := folder dir in renameat d old new.

(** A failure closes the file. *)
Definition or_close (f : N) (m : K unit) : K unit :=
  let! r := kcatch m in
  match r with inl e => let! _ := kcatch (close f) in kfail e | inr _ => mret tt end.

Definition write_temp (f : N) (data : string) (perm : Z) : K unit :=
  let! _ := or_close f (append f data) in
  let! _ := or_close f (fchmod f perm) in
  let! _ := or_close f (fsync f) in
  close f.

Definition WriteFileAtomic (path data : string) (perm : Z) : K unit :=
  let dir := DirOf path in
  let! t := CreateTemp temp_tries dir in
  let! r := kcatch (let! _ := write_temp t.2 data perm in Rename dir t.1 (Base path)) in
  let! _ := kcatch (Remove dir t.1) in
  match r with inl e => kfail e | inr _ => mret tt end.
End atomic.
