(* ===== verification/FsProps.v ===== *)
(** * FsProps: the agent follows no link, makes no folder others can write to,
    and never shows a file to a new owner with more than it should have. *)

From S2P Require Import Prelude GoString Names Cache World Config EventProps Fs.
From Stdlib Require Import Ascii.

#[local] Set Default Proof Using "Type*".

(** ** Runs *)

Lemma kbind_run {A B} (m : K A) (k : A -> K B) s :
  (let! x := m in k x) s = match m s with (inl e, s') => (inl e, s') | (inr a, s') => k a s' end.
Proof. done. Qed.

Lemma kbind_inr {A B} (m : K A) (k : A -> K B) s b s' :
  (let! x := m in k x) s = (inr b, s') -> exists a s1, m s = (inr a, s1) /\ k a s1 = (inr b, s').
Proof. rewrite kbind_run. destruct (m s) as [[e|a] s1]; [done|eauto]. Qed.

(** However an operation ends, the state it leaves follows its start in [R]. *)
Definition moves {A} (R : Fs -> Fs -> Prop) (m : K A) : Prop := forall s, R s (m s).2.

Section moves.
Context {A B : Type} (R : Fs -> Fs -> Prop) `{!PreOrder R}.

Lemma moves_ret (a : A) : moves R (mret a : K A).
Proof. intros s. reflexivity. Qed.
Lemma moves_fail e : moves R (kfail e : K A).
Proof. intros s. reflexivity. Qed.
Lemma moves_gets (f : Fs -> A) : moves R (kgets f).
Proof. intros s. reflexivity. Qed.
Lemma moves_check op : moves R (kcheck op).
Proof. intros s. unfold kcheck. by destruct (fs_fault s op). Qed.
Lemma moves_catch (m : K A) : moves R m -> moves R (kcatch m).
Proof. intros Hm s. specialize (Hm s). unfold kcatch. by destruct (m s). Qed.
Lemma moves_bind_at (m : K A) (k : A -> K B) s :
  R s (m s).2 -> (forall a s1, m s = (inr a, s1) -> R s1 (k a s1).2) -> R s ((let! x := m in k x) s).2.
Proof.
  intros Hm Hk. rewrite kbind_run. destruct (m s) as [[e|a] s1]; simpl in *; [done|]. etrans; [done|by apply Hk].
Qed.
Lemma moves_bind (m : K A) (k : A -> K B) : moves R m -> (forall a, moves R (k a)) -> moves R (let! x := m in k x).
Proof. intros Hm Hk s. apply moves_bind_at; [apply Hm|]. intros a s1 _. apply Hk. Qed.
End moves.

Create HintDb moves.
Ltac move_rule :=
  match goal with
  | |- moves _ (mbind _ _) => apply moves_bind; [apply _| |intro]
  | |- moves _ (mret _) => apply moves_ret; apply _
  | |- moves _ (kfail _) => apply moves_fail; apply _
  | |- moves _ (kgets _) => apply moves_gets; apply _
  | |- moves _ (kcheck _) => apply moves_check; apply _
  | |- moves _ (kcatch _) => apply moves_catch; [apply _|]
  | |- moves _ (match ?x with _ => _ end) => destruct x
  | |- moves _ _ => solve [eauto with moves typeclass_instances]
  end.
Ltac move_solve := repeat move_rule.

Lemma node_moves R `{!PreOrder R} i : moves R (node i).
Proof. unfold node. move_solve. Qed.
#[export] Hint Resolve node_moves : moves.
Lemma fstat_moves R `{!PreOrder R} i : moves R (fstat i).
Proof. unfold fstat. move_solve. Qed.
Lemma open_dir_moves R `{!PreOrder R} d name : moves R (open_dir d name).
Proof. unfold open_dir. move_solve. Qed.
#[export] Hint Resolve fstat_moves open_dir_moves : moves.

(** ** Looking up *)

(** A path that goes through real folders only. *)
Inductive reach (s : Fs) : N -> list string -> N -> Prop :=
| R_here d : reach s d [] d
| R_skip d part parts e : str_empty part = true -> reach s d parts e -> reach s d (part :: parts) e
| R_step d part parts i n e : str_empty part = false -> fs_entries s !! (d, part) = Some i ->
    fs_nodes s !! i = Some n -> i_kind n = Dir -> reach s i parts e -> reach s d (part :: parts) e.

Lemma node_run i s : node i s = (match fs_nodes s !! i with Some n => inr n | None => inl ENOENT end, s).
Proof. unfold node. rewrite kbind_run. cbn [kgets]. by destruct (fs_nodes s !! i). Qed.

Lemma open_dir_run d name s : fs_fault s (SOpen d name) = false ->
  open_dir d name s = (match fs_entries s !! (d, name) with
    | Some i => match fs_nodes s !! i with
                | Some n => match i_kind n with Dir => inr i | _ => inl ENOTDIR end
                | None => inl ENOENT
                end
    | None => inl ENOENT
    end, s).
Proof.
  intros Hf. unfold open_dir, kcheck. rewrite kbind_run, Hf, kbind_run. cbn [kgets].
  destruct (fs_entries s !! _) as [i|]; [|done]. rewrite kbind_run, node_run. destruct (fs_nodes s !! i) as [n|]; [|done].
  by destruct (i_kind n).
Qed.

Lemma open_dir_inr d name s i s' : open_dir d name s = (inr i, s') ->
  s' = s /\ fs_entries s !! (d, name) = Some i /\ exists n, fs_nodes s !! i = Some n /\ i_kind n = Dir.
Proof.
  intros H. destruct (fs_fault s (SOpen d name)) eqn:Hf.
  { unfold open_dir, kcheck in H. by rewrite kbind_run, Hf in H. }
  rewrite open_dir_run in H by done. destruct (fs_entries s !! _) as [j|]; [|done]. destruct (fs_nodes s !! j) as [n|] eqn:Hn; [|done].
  destruct (i_kind n) eqn:Hk; simplify_eq. eauto.
Qed.

Section lookup.
Context (p : proc).

Lemma open_parts_reads d parts perm : moves eq (open_parts p d parts false perm).
Proof.
  revert d. induction parts as [|part parts IH]; intros d; cbn [open_parts]; [move_solve|].
  destruct (str_empty part); [done|]. apply moves_bind; [apply _|apply moves_catch; [apply _|by apply open_dir_moves; apply _]|].
  intros r. apply moves_bind; [apply _| |intros; apply IH]. move_solve.
Qed.

Lemma open_parts_reach d parts perm s e s' : open_parts p d parts false perm s = (inr e, s') -> reach s d parts e.
Proof.
  revert d. induction parts as [|part parts IH]; intros d; cbn [open_parts]; [intros [= <- _]; constructor|].
  destruct (str_empty part) eqn:He; [intros H; apply R_skip; [done|by apply IH]|].
  intros (r & s1 & Hr & H)%kbind_inr. unfold kcatch in Hr. destruct (open_dir d part s) as [r' s2] eqn:Ho.
  injection Hr as <- <-. apply kbind_inr in H as (fd & s3 & Hfd & H).
  destruct r' as [x|i]; [by destruct x|]. injection Hfd as <- <-. apply open_dir_inr in Ho as (-> & Hi & n & Hn & Hk).
  eapply R_step; [done|exact Hi|exact Hn|exact Hk|]. by apply IH.
Qed.

Lemma reach_opens d parts perm s e : (forall op, fs_fault s op = false) -> reach s d parts e ->
  open_parts p d parts false perm s = (inr e, s).
Proof.
  intros Hf. induction 1 as [d|d part parts e He Hr IH|d part parts i n e He Hi Hn Hk Hr IH]; cbn [open_parts]; [done| |].
  - by rewrite He.
  - rewrite He, kbind_run. unfold kcatch. rewrite open_dir_run by apply Hf. rewrite Hi, Hn, Hk, kbind_run. exact IH.
Qed.
End lookup.

(** C28: opening a folder follows no link: whatever fails, [openDirectory]
    without [create] changes nothing, and what it opens is reached from the
    root through entries that are real folders; when no call fails it opens
    exactly the folders that can be reached this way. *)
Theorem directories_are_reached_without_links p path perm s :
  (openDirectory p path false perm s).2 = s /\
  (forall d, (openDirectory p path false perm s).1 = inr d -> reach s root (split "/" (trim_prefix (Abs p path) "/")) d) /\
  ((forall op, fs_fault s op = false) ->
   forall d, (openDirectory p path false perm s).1 = inr d <-> reach s root (split "/" (trim_prefix (Abs p path) "/")) d).
Proof.
  unfold openDirectory. set (parts := split _ _). pose proof (open_parts_reads p root parts perm s) as He.
  assert (forall d, (open_parts p root parts false perm s).1 = inr d -> reach s root parts d) as Hr.
  { intros d Hd. destruct (open_parts p root parts false perm s) as [r s'] eqn:E. cbn in Hd. subst r. by eapply open_parts_reach. }
  split; [done|]. split; [done|]. intros Hf d. split; [apply Hr|]. intros Hd. by rewrite (reach_opens p root parts perm s d).
Qed.

(** ** Making folders *)

(** [a] has no bit that [b] does not have. *)
Definition within (a b : Z) : Prop := Z.land a (Z.lnot b) = 0%Z.

Lemma within_refl a : within a a.
Proof. apply Z.land_lnot_diag. Qed.

Lemma within_land_l a b : within (Z.land a b) a.
Proof. unfold within. by rewrite (Z.land_comm a b), <- Z.land_assoc, Z.land_lnot_diag, Z.land_0_r. Qed.

Lemma within_land_r a b : within (Z.land a b) b.
Proof. rewrite Z.land_comm. apply within_land_l. Qed.

Lemma within_bits a b : within a b <-> forall i, (0 <= i)%Z -> Z.testbit a i = true -> Z.testbit b i = true.
Proof.
  unfold within. split.
  - intros H i Hi Ha. apply (f_equal (fun z => Z.testbit z i)) in H. rewrite Z.land_spec, Z.lnot_spec, Z.bits_0, Ha in H by done.
    by destruct (Z.testbit b i).
  - intros H. apply Z.bits_inj'. intros i Hi. rewrite Z.land_spec, Z.lnot_spec, Z.bits_0 by done. specialize (H i Hi).
    destruct (Z.testbit a i), (Z.testbit b i); try done. by discriminate H.
Qed.

Lemma within_trans a b c : within a b -> within b c -> within a c.
Proof. rewrite !within_bits. auto. Qed.

Section make.
Context (p : proc) (perm : Z).

(** A folder of this process that nobody else can write. *)
Definition guarded (n : inode) : Prop := i_uid n = pr_euid p /\ Z.land (i_mode n) 18 = 0%Z.
(** A folder it makes. *)
Definition own_dir (n : inode) : Prop :=
  i_kind n = Dir /\ i_uid n = pr_euid p /\ (within (i_mode n) (Z.land perm ModePerm) \/ within (i_mode n) 493).

Definition fs_ok (s : Fs) : Prop := forall i, is_Some (fs_nodes s !! i) -> (i < fs_next s)%N.

Record growth (s s' : Fs) : Prop := {
  gr_ok : fs_ok s';
  gr_nodes : forall i n, fs_nodes s !! i = Some n -> fs_nodes s' !! i = Some n;
  gr_entries : forall k i, fs_entries s !! k = Some i -> fs_entries s' !! k = Some i;
  gr_dirs : forall i n, fs_nodes s !! i = None -> fs_nodes s' !! i = Some n -> own_dir n;
  gr_parents : forall d name i, fs_entries s !! (d, name) = None -> fs_entries s' !! (d, name) = Some i ->
    exists n, fs_nodes s' !! d = Some n /\ guarded n
}.
Definition grows (s s' : Fs) : Prop := fs_ok s -> growth s s'.

#[global] Instance grows_preorder : PreOrder grows.
Proof.
  split.
  - intros s Hs. constructor; try done; intros; simplify_eq.
  - intros s1 s2 s3 H1 H2 Hs. destruct (H1 Hs) as [O1 N1 E1 D1 P1], (H2 O1) as [O2 N2 E2 D2 P2]. constructor; eauto.
    + intros i n Hn1 Hn3. destruct (fs_nodes s2 !! i) as [n2|] eqn:Hn2; [|by eapply D2].
      pose proof (N2 _ _ Hn2). simplify_eq. by eapply D1.
    + intros d name i He1 He3. destruct (fs_entries s2 !! (d, name)) as [j|] eqn:He2; [|by eapply P2].
      destruct (P1 _ _ _ He1 He2) as (n & Hn & Hg). exists n. eauto.
Qed.

Lemma growth_one s d name n nd seen : fs_ok s -> fs_entries s !! (d, name) = None -> fs_nodes s !! d = Some nd -> guarded nd -> own_dir n ->
  growth s (mkFs (<[fs_next s := n]> (fs_nodes s)) (<[(d, name) := fs_next s]> (fs_entries s)) (fs_next s + 1) seen (fs_dirty s)
    (fs_part s) (fs_fault s)).
Proof.
  intros Hs He Hd Hg Hn. assert (fs_nodes s !! fs_next s = None) as Hfresh.
  { destruct (fs_nodes s !! fs_next s) as [m|] eqn:E; [|done]. pose proof (Hs _ (mk_is_Some _ _ E)). lia. }
  constructor; cbn [fs_nodes fs_entries fs_next].
  - intros i. cbn. destruct (decide (i = fs_next s)) as [->|Hi]; [lia|]. rewrite lookup_insert_ne by done. intros Hi'. specialize (Hs _ Hi'). lia.
  - intros i m Hm. rewrite lookup_insert_ne; [done|]. congruence.
  - intros k i Hk. rewrite lookup_insert_ne; [done|]. congruence.
  - intros i m Hi Hm. destruct (decide (i = fs_next s)) as [->|Hne]; [rewrite lookup_insert_eq in Hm; by simplify_eq|].
    rewrite lookup_insert_ne in Hm by done. congruence.
  - intros d' name' i Hi Hi'. destruct (decide ((d', name') = (d, name))) as [[= -> ->]|Hne].
    + exists nd. rewrite lookup_insert_ne by congruence. done.
    + rewrite lookup_insert_ne in Hi' by congruence. congruence.
Qed.

Lemma fstat_run i s : fstat i s = (if fs_fault s (SStat i) then inl EIO
  else match fs_nodes s !! i with Some n => inr n | None => inl ENOENT end, s).
Proof. unfold fstat, kcheck. rewrite kbind_run. destruct (fs_fault s _); [done|]. apply node_run. Qed.

Lemma fchmod_run i m s : fchmod i m s = (if fs_fault s (SChmod i) then (inl EIO, s)
  else match fs_nodes s !! i with Some n => put i (with_mode m n) s | None => (inl ENOENT, s) end).
Proof.
  unfold fchmod, kcheck. rewrite kbind_run. destruct (fs_fault s _); [done|]. rewrite kbind_run, node_run.
  by destruct (fs_nodes s !! i).
Qed.

Lemma make_dir_grows d part mode : mode = Z.land perm ModePerm \/ mode = 493%Z -> moves grows (make_dir p d part mode).
Proof.
  intros Hmode s. unfold make_dir. rewrite kbind_run, fstat_run. destruct (fs_fault s _); [reflexivity|].
  destruct (fs_nodes s !! d) as [nd|] eqn:Hd; [|reflexivity]. rewrite kbind_run. unfold kcatch.
  destruct (negb (i_uid nd =? pr_euid p)%Z || negb (Z.land (i_mode nd) 18 =? 0)%Z) eqn:Hg; [reflexivity|].
  assert (guarded nd) as Hguard.
  { apply orb_false_iff in Hg as [H1%negb_false_iff H2%negb_false_iff]. split; [by apply Z.eqb_eq|by apply Z.eqb_eq]. }
  unfold mkdirat. rewrite !kbind_run. unfold kcheck. destruct (fs_fault s (SMkdir d part)); [reflexivity|].
  rewrite kbind_run. cbn [kgets]. destruct (fs_entries s !! (d, part)) as [e|] eqn:He.
  { cbn [kfail]. pose proof (open_dir_moves grows d part s) as Ho. by destruct (open_dir d part s). }
  rewrite kbind_run. cbn [fresh mret K_ret]. set (new := mkInode Dir _ _ _ _ _). set (s1 := mkFs _ _ _ _ _ _ _).
  assert (within (masked p mode) mode) as Hm by apply within_land_l.
  assert (forall m, within m mode -> own_dir (with_mode m new)) as Hown.
  { intros m Hw. split; [done|]. split; [done|]. destruct Hmode as [->| ->]; [by left|by right]. }
  assert (grows s s1) as H1. { intros Hs. apply (growth_one s d part new nd); try done. by apply (Hown (masked p mode)). }
  rewrite kbind_run. destruct (open_dir d part s1) as [r s2] eqn:Ho.
  pose proof (open_dir_moves eq d part s1) as Hs2. rewrite Ho in Hs2. cbn in Hs2. subst s2. destruct r as [x|fd]; [done|].
  apply open_dir_inr in Ho as (_ & Hfd & _). unfold s1 in Hfd. cbn [fs_entries] in Hfd. rewrite lookup_insert_eq in Hfd. injection Hfd as <-.
  rewrite kbind_run, fstat_run. destruct (fs_fault s1 _); [done|].
  assert (fs_nodes s1 !! fs_next s = Some new) as Hnew by apply lookup_insert_eq. rewrite Hnew.
  destruct (negb (i_uid new =? pr_euid p)%Z); [done|].
  rewrite kbind_run, fchmod_run. destruct (fs_fault s1 _); [done|]. rewrite Hnew. cbn [put snd mret K_ret].
  intros Hs. unfold s1. cbn [fs_nodes fs_entries fs_next fs_seen fs_fault]. rewrite insert_insert_eq.
  apply (growth_one s d part _ nd); try done. apply Hown, within_refl.
Qed.

Lemma open_parts_grow d parts : moves grows (open_parts p d parts true perm).
Proof.
  revert d. induction parts as [|part parts IH]; intros d; cbn [open_parts]; [move_solve|].
  destruct (str_empty part); [apply IH|]. apply moves_bind; [apply _|move_solve|]. intros r.
  apply moves_bind; [apply _| |intros; apply IH]. destruct r as [[]|]; move_solve.
  apply make_dir_grows. destruct parts; tauto.
Qed.
End make.

Lemma MkdirAll_grows p path perm : moves (grows p perm) (MkdirAllNoFollow p path perm).
Proof. apply moves_bind; [apply _|apply open_parts_grow|intros; move_solve]. Qed.


(** ** Owners and modes *)

Section settle.
Context (p : proc) (perm uid gid : Z) (fd : N) (n0 : inode).
Context (Hdrop : forall m, within (pr_chown_mode p m) m).

(** The owner asked for: a negative number asks for none. *)
Definition owned (n : inode) : Prop := ((0 <= uid)%Z -> i_uid n = uid) /\ ((0 <= gid)%Z -> i_gid n = gid).

(** What may be seen of the file: its old owner with no more than it had, or the
    owner asked for with no more than the mode asked for. *)
Definition seemly (n : inode) : Prop :=
  i_kind n = i_kind n0 /\ i_links n = i_links n0 /\ i_data n = i_data n0 /\
  ((i_uid n = i_uid n0 /\ i_gid n = i_gid n0 /\ within (i_mode n) (i_mode n0)) \/ (owned n /\ within (i_mode n) perm)).

Record settling (s s' : Fs) : Prop := {
  st_entries : fs_entries s' = fs_entries s;
  st_others : forall i, i <> fd -> fs_nodes s' !! i = fs_nodes s !! i;
  st_seen : exists l, fs_seen s' = l ++ fs_seen s /\ Forall (fun x => x.1 = fd /\ seemly x.2) l
}.

#[local] Instance settling_preorder : PreOrder settling.
Proof.
  split.
  - intros s. constructor; try done. by exists [].
  - intros s1 s2 s3 [E1 O1 (l1 & L1 & F1)] [E2 O2 (l2 & L2 & F2)]. constructor; [congruence|intros i Hi; by rewrite O2, O1|].
    exists (l2 ++ l1). rewrite L2, L1, app_assoc. split; [done|]. by apply Forall_app.
Qed.

Lemma put_settles n s : seemly n -> settling s (put fd n s).2.
Proof.
  intros Hn. constructor; cbn [put snd fs_entries fs_nodes fs_seen]; [done|intros i Hi; by rewrite lookup_insert_ne|].
  exists [(fd, n)]. split; [done|]. by constructor.
Qed.

Lemma fchown_run i u g s : fchown p i u g s = (if fs_fault s (SChown i) then (inl EIO, s)
  else match fs_nodes s !! i with Some n => put i (with_owner u g (pr_chown_mode p (i_mode n)) n) s | None => (inl ENOENT, s) end).
Proof using.
  unfold fchown, kcheck. rewrite kbind_run. destruct (fs_fault s _); [done|]. rewrite kbind_run, node_run.
  by destruct (fs_nodes s !! i).
Qed.

(** The last step: the mode asked for, on a file of the owner asked for. *)
Definition final (n : inode) : K unit := if (Z.land (i_mode n) ModeBits =? perm)%Z then mret tt else fchmod fd perm.

Lemma final_settles n s r s' : fs_nodes s !! fd = Some n -> seemly n -> owned n -> Z.land perm ModeBits = perm -> final n s = (r, s') ->
  settling s s' /\ (r = inr tt -> exists n', fs_nodes s' !! fd = Some n' /\ owned n' /\ Z.land (i_mode n') ModeBits = perm).
Proof.
  intros Hn Hs Ho Hp. unfold final. destruct (Z.eqb_spec (Z.land (i_mode n) ModeBits) perm) as [He|He].
  { intros [= <- <-]. split; [reflexivity|]. intros _. by exists n. }
  rewrite fchmod_run. destruct (fs_fault s _); [intros [= <- <-]; split; [reflexivity|done]|]. rewrite Hn.
  pose proof (put_settles (with_mode perm n) s) as Hput. intros H. injection H as <- <-. split.
  - apply Hput. destruct Hs as (H1 & H2 & H3 & _). split_and!; try done. right. split; [done|]. apply within_refl.
  - intros _. exists (with_mode perm n). cbn [fs_nodes]. by rewrite lookup_insert_eq.
Qed.

Lemma settle_safe s r s' : fs_nodes s !! fd = Some n0 -> Z.land (i_mode n0) ModeBits = i_mode n0 -> Z.land perm ModeBits = perm ->
  settle p fd perm uid gid n0 s = (r, s') ->
  settling s s' /\ (r = inr tt -> exists n', fs_nodes s' !! fd = Some n' /\ owned n' /\ Z.land (i_mode n') ModeBits = perm).
Proof using Hdrop.
  intros Hn Hbits Hp. unfold settle. fold (final).
  assert (seemly n0) as H0 by (split_and!; try done; left; split_and!; try done; apply within_refl).
  destruct (((0 <=? uid)%Z && negb (i_uid n0 =? uid)%Z) || ((0 <=? gid)%Z && negb (i_gid n0 =? gid)%Z)) eqn:Hc.
  2:{ rewrite kbind_run. cbn [mret K_ret]. apply final_settles; try done. apply orb_false_iff in Hc as [H1 H2]. split; intros Hpos.
      - destruct (Z.eqb_spec (i_uid n0) uid); [done|]. apply Z.leb_le in Hpos. by rewrite Hpos in H1.
      - destruct (Z.eqb_spec (i_gid n0) gid); [done|]. apply Z.leb_le in Hpos. by rewrite Hpos in H2. }
  cbv zeta. rewrite Hbits. set (m := Z.land (i_mode n0) perm).
  assert (forall n, i_kind n = i_kind n0 /\ i_links n = i_links n0 /\ i_data n = i_data n0 -> i_mode n = m -> forall r1 s1 s2,
    fs_nodes s1 !! fd = Some n -> settling s s1 ->
    (let! n := (let! _ := fchown p fd uid gid in fstat fd) in final n) s1 = (r1, s2) ->
    settling s s2 /\ (r1 = inr tt -> exists n', fs_nodes s2 !! fd = Some n' /\ owned n' /\ Z.land (i_mode n') ModeBits = perm)) as Hrest.
  { intros n (K1 & K2 & K3) Hm r1 s1 s2 Hn1 Hs1. rewrite !kbind_run, fchown_run. destruct (fs_fault s1 _); [intros [= <- <-]; split; [done|done]|].
    rewrite Hn1. set (n1 := with_owner _ _ _ n). cbn [put].
    assert (owned n1) as Ho.
    { split; intros Hpos; cbn; apply Z.ltb_ge in Hpos; by rewrite Hpos. }
    assert (seemly n1) as Hs.
    { split_and!; try done. right. split; [done|]. cbn. rewrite Hm. eapply within_trans; [apply Hdrop|]. apply within_land_r. }
    pose proof (put_settles n1 s1 Hs) as Hput. cbn [put snd] in Hput. set (s3 := mkFs _ _ _ _ _ _ _) in *.
    assert (settling s s3) as Hs3 by by etransitivity. rewrite fstat_run.
    destruct (fs_fault s3 _); [intros [= <- <-]; split; [done|done]|].
    assert (fs_nodes s3 !! fd = Some n1) as Hn3 by apply lookup_insert_eq. rewrite Hn3. intros Hf.
    destruct (final_settles n1 s3 r1 s2 Hn3 Hs Ho Hp Hf) as [H1 H2]. split; [by etransitivity|done]. }
  destruct (Z.eqb_spec m (i_mode n0)) as [He|He].
  - intros H. apply (Hrest n0) with (s1 := s); try done; reflexivity.
  - rewrite kbind_run. intros H. rewrite kbind_run, fchmod_run in H. destruct (fs_fault s _).
    { injection H as <- <-. split; [reflexivity|done]. }
    rewrite Hn in H. cbn [put] in H. set (s1 := mkFs _ _ _ _ _ _ _) in *.
    apply (Hrest (with_mode m n0)) with (s1 := s1); try done; [apply lookup_insert_eq|].
    apply (put_settles (with_mode m n0) s). split_and!; try done. left. split_and!; try done. apply within_land_l.
Qed.
End settle.

Lemma open_file_reads p d name perm : moves eq (open_file p d name O_RDONLY perm).
Proof. unfold open_file. cbn [of_create of_excl of_write O_RDONLY andb orb]. move_solve. Qed.

Lemma open_path_reads p path perm : moves eq (openPathNoFollow p path O_RDONLY perm).
Proof.
  unfold openPathNoFollow, openDirectory. apply moves_bind; [apply _|apply open_parts_reads|intros; apply open_file_reads].
Qed.

(** C12: no owner sees a file with more than it should have: whatever call
    fails, [SetPermissions] either changes nothing and reports it, or works on
    one folder or single-link regular file it has opened; every state of that
    file another process can have seen has the old owner and no bit the old
    mode did not have, or the owner asked for and no bit beyond the mode asked
    for; its content and every other file stay; and when it succeeds the file
    has the owner and exactly the mode asked for. *)
Theorem owners_never_see_more p path perm uid gid s :
  (forall m, within (pr_chown_mode p m) m) -> (forall i n, fs_nodes s !! i = Some n -> Z.land (i_mode n) ModeBits = i_mode n) ->
  Z.land perm ModeBits = perm ->
  let '(r, s') := SetPermissions p path perm uid gid s in
  (s' = s /\ r <> inr tt) \/
  exists fd n, fs_nodes s !! fd = Some n /\ (i_kind n = Dir \/ (i_kind n = Reg /\ i_links n = 1%Z)) /\
    settling perm uid gid fd n s s' /\
    (r = inr tt -> exists n', fs_nodes s' !! fd = Some n' /\ owned uid gid n' /\ Z.land (i_mode n') ModeBits = perm).
Proof.
  intros Hdrop Hmodes Hperm. unfold SetPermissions. rewrite kbind_run. pose proof (open_path_reads p path 0 s) as Ho.
  destruct (openPathNoFollow p path O_RDONLY 0 s) as [[x|fd] s1]; cbn in Ho; subst s1; [by left|].
  rewrite kbind_run, fstat_run. destruct (fs_fault s _); [by left|]. destruct (fs_nodes s !! fd) as [n|] eqn:Hn; [|by left].
  destruct (regular n && (i_links n =? 0)%Z); [by left|].
  destruct (negb (match i_kind n with Dir => true | _ => false end) && (negb (regular n) || negb (i_links n =? 1)%Z)) eqn:Hk; [by left|].
  destruct (settle p fd perm uid gid n s) as [r s'] eqn:Hs. right. exists fd, n. split; [done|]. split.
  - unfold regular in Hk. destruct (i_kind n); [by left|right|discriminate Hk|discriminate Hk]. split; [done|]. cbn in Hk.
    apply negb_false_iff in Hk. by apply Z.eqb_eq.
  - by apply (settle_safe p perm uid gid fd n Hdrop s r s' Hn (Hmodes _ _ Hn) Hperm).
Qed.

(** Which calls fail does not change. *)
Definition same_faults (s s' : Fs) : Prop := fs_fault s' = fs_fault s /\ fs_part s' = fs_part s.
#[export] Instance same_faults_preorder : PreOrder same_faults.
Proof. split; [done|]. intros s1 s2 s3 [] []. split; congruence. Qed.
Lemma put_faults i n : moves same_faults (put i n).
Proof. done. Qed.
Lemma fresh_faults d name n : moves same_faults (fresh d name n).
Proof. done. Qed.
Lemma set_dirty_faults f : moves same_faults (set_dirty f).
Proof. done. Qed.
#[export] Hint Resolve put_faults fresh_faults set_dirty_faults : moves.

(** ** The event file *)

Section event.
Context (p : proc).

(** What was there keeps its kind, its links and its content. *)
Record keeping (s s' : Fs) : Prop := {
  kp_ok : fs_ok s';
  kp_nodes : forall i n, fs_nodes s !! i = Some n ->
    exists n', fs_nodes s' !! i = Some n' /\ i_kind n' = i_kind n /\ i_links n' = i_links n /\ i_data n' = i_data n
}.
Definition keeps (s s' : Fs) : Prop := fs_ok s -> keeping s s'.

#[local] Instance keeps_preorder : PreOrder keeps.
Proof.
  split.
  - intros s Hs. constructor; [done|]. intros i n Hn. by exists n.
  - intros s1 s2 s3 H1 H2 Hs. destruct (H1 Hs) as [O1 N1], (H2 O1) as [O2 N2]. constructor; [done|]. intros i n Hn.
    destruct (N1 _ _ Hn) as (n2 & Hn2 & K2 & L2 & D2). destruct (N2 _ _ Hn2) as (n3 & Hn3 & K3 & L3 & D3). exists n3.
    split_and!; congruence.
Qed.

Lemma grows_keeps perm s s' : grows p perm s s' -> keeps s s'.
Proof. intros H Hs. destruct (H Hs) as [O N _ _ _]. constructor; [done|]. intros i n Hn. exists n. auto. Qed.

Lemma put_keeps i n n' s : fs_nodes s !! i = Some n -> i_kind n' = i_kind n -> i_links n' = i_links n -> i_data n' = i_data n ->
  keeps s (put i n' s).2.
Proof.
  intros Hn K L D Hs. constructor; cbn.
  - intros j. cbn. destruct (decide (j = i)) as [->|Hj]; [intros _; apply Hs; by rewrite Hn|]. rewrite lookup_insert_ne by done. apply Hs.
  - intros j m Hm. destruct (decide (j = i)) as [->|Hj]; [rewrite lookup_insert_eq|rewrite lookup_insert_ne by done].
    + exists n'. simplify_eq. done.
    + exists m. done.
Qed.

Lemma fchmod_keeps i m : moves keeps (fchmod i m).
Proof.
  intros s. rewrite fchmod_run. destruct (fs_fault s _); [reflexivity|]. destruct (fs_nodes s !! i) as [n|] eqn:Hn; [|reflexivity].
  by apply (put_keeps i n).
Qed.

Lemma fchown_keeps i u g : moves keeps (fchown p i u g).
Proof.
  intros s. rewrite fchown_run. destruct (fs_fault s _); [reflexivity|]. destruct (fs_nodes s !! i) as [n|] eqn:Hn; [|reflexivity].
  by apply (put_keeps i n).
Qed.

Lemma fresh_keeps d name n : moves keeps (fresh d name n).
Proof.
  intros s Hs. constructor; cbn.
  - intros i. cbn. destruct (decide (i = fs_next s)) as [->|Hi]; [lia|]. rewrite lookup_insert_ne by done. intros H. specialize (Hs _ H). lia.
  - intros i m Hm. rewrite lookup_insert_ne; [by exists m|]. intros <-. pose proof (Hs _ (mk_is_Some _ _ Hm)). lia.
Qed.

Lemma open_file_keeps d name fl perm : moves keeps (open_file p d name fl perm).
Proof.
  unfold open_file. apply moves_bind; [apply _|move_solve|]. intros _. apply moves_bind; [apply _|move_solve|]. intros [i|].
  - move_solve.
  - destruct (of_create fl); [apply fresh_keeps|move_solve].
Qed.

Lemma MkdirAll_keeps path perm : moves keeps (MkdirAllNoFollow p path perm).
Proof. intros s. apply (grows_keeps perm). apply MkdirAll_grows. Qed.

Lemma eq_keeps {A} (m : K A) : moves eq m -> moves keeps m.
Proof. intros Hm s. specialize (Hm s). cbn in Hm. rewrite <- Hm. reflexivity. Qed.

Lemma OpenFile_keeps path fl perm : moves keeps (OpenFileNoFollow p path fl perm).
Proof.
  unfold OpenFileNoFollow, openPathNoFollow, openDirectory. apply moves_bind; [apply _| |intros; move_solve].
  apply moves_bind; [apply _|apply eq_keeps, open_parts_reads|intros; apply open_file_keeps].
Qed.

(** What is opened is a regular file with one name. *)
Lemma OpenFile_inr path fl perm s fd s' : OpenFileNoFollow p path fl perm s = (inr fd, s') ->
  exists n, fs_nodes s' !! fd = Some n /\ i_kind n = Reg /\ i_links n = 1%Z.
Proof.
  unfold OpenFileNoFollow. intros (i & s1 & _ & H)%kbind_inr. apply kbind_inr in H as (n & s2 & Hst & H).
  rewrite fstat_run in Hst. destruct (fs_fault s1 _); [done|]. destruct (fs_nodes s1 !! i) as [m|] eqn:Hm; [|done].
  injection Hst as <- <-. destruct (regular m && (i_links m =? 1)%Z) eqn:Hr; [|done]. injection H as <- <-.
  apply andb_prop in Hr as [Hr Hl]. exists m. split; [done|]. unfold regular in Hr. destruct (i_kind m); try done. split; [done|].
  by apply Z.eqb_eq.
Qed.

Lemma open_log_faults gid path : moves same_faults (open_log p gid path).
Proof.
  assert (forall i m, moves same_faults (fchmod i m)) as Hmod by (intros; unfold fchmod; move_solve).
  assert (forall d part m, moves same_faults (make_dir p d part m)) as Hmake by (intros; unfold make_dir, mkdirat; move_solve).
  assert (forall perm parts d c, moves same_faults (open_parts p d parts c perm)) as Hparts.
  { intros perm parts. induction parts as [|x l IH]; intros d c; cbn [open_parts]; [move_solve|]. destruct (str_empty x); [done|]. move_solve. }
  unfold open_log, MkdirAllNoFollow, OpenFileNoFollow, openPathNoFollow, openDirectory, open_file, fchown. move_solve.
Qed.

(** What a write of a text leaves of it. *)
Definition written (s : Fs) (i : N) (text : string) : string :=
  if fs_fault s (SWrite i) then str_take (fs_part s) text else text.

Lemma append_run i text s : append i text s =
  match fs_nodes s !! i with
  | None => (inl ENOENT, s)
  | Some n =>
      let n' := with_data (i_data n +:+ written s i text) n in
      (if fs_fault s (SWrite i) then inl EIO else inr tt,
       mkFs (<[i := n']> (fs_nodes s)) (fs_entries s) (fs_next s) ((i, n') :: fs_seen s) ({[ i ]} ∪ fs_dirty s) (fs_part s) (fs_fault s))
  end.
Proof.
  unfold append, kcheck, kcatch, written. rewrite kbind_run, node_run. destruct (fs_nodes s !! i) as [n|]; [|done].
  rewrite !kbind_run. by destruct (fs_fault s (SWrite i)).
Qed.

Lemma str_take_rest n s : exists rest, s = str_take n s +:+ rest.
Proof.
  unfold str_take. revert n. induction s as [|c s IH]; intros [|n]; [by exists ""|by exists ""|by exists (String c s)|].
  destruct (IH n) as [rest H]. exists rest. exact (f_equal (String c) H).
Qed.

Lemma written_part s i text : exists rest, text = written s i text +:+ rest /\ (fs_fault s (SWrite i) = false -> rest = "").
Proof.
  unfold written. destruct (fs_fault s _); [|exists ""; by rewrite app_nil_r_s].
  destruct (str_take_rest (fs_part s) text) as [rest H]. by exists rest.
Qed.

Lemma open_log_keeps gid path : moves keeps (open_log p gid path).
Proof.
  unfold open_log. apply moves_bind; [apply _|apply MkdirAll_keeps|]. intros _.
  apply moves_bind; [apply _|apply OpenFile_keeps|]. intros f. apply moves_bind; [apply _|move_solve|]. intros info.
  apply moves_bind; [apply _|destruct (_ =? 432)%Z; [move_solve|apply fchmod_keeps]|]. intros _.
  apply moves_bind; [apply _| |intros; move_solve]. destruct (pr_euid p =? 0)%Z; [|move_solve]. destruct gid as [g|]; [|move_solve].
  destruct (_ =? g)%Z; [move_solve|apply fchown_keeps].
Qed.

Lemma log_inr gid path s f s' : fs_ok s -> open_log p gid path s = (inr f, s') ->
  exists n, fs_nodes s' !! f = Some n /\ i_kind n = Reg /\ i_links n = 1%Z.
Proof.
  intros Hs H. unfold open_log in H. apply kbind_inr in H as (? & s1 & H1 & H). pose proof (MkdirAll_keeps (DirOf path) 493 s Hs) as O1.
  rewrite H1 in O1. cbn in O1. apply kbind_inr in H as (g & s2 & H2 & H). pose proof (OpenFile_keeps path (mkFlags true false true) 432 s1 (kp_ok _ _ O1)) as O2.
  rewrite H2 in O2. cbn in O2. destruct (OpenFile_inr _ _ _ _ _ _ H2) as (n & Hn & K & L).
  assert (keeps s2 s') as Hk.
  { apply kbind_inr in H as (info & s3 & H3 & H). pose proof (fstat_moves eq g s2) as E3. rewrite H3 in E3. cbn in E3. subst s3.
    apply kbind_inr in H as (u & s4 & H4 & H). apply kbind_inr in H as (v & s5 & H5 & H). injection H as <- <-. etransitivity.
    - assert (moves keeps (if (Z.land (i_mode info) ModePerm =? 432)%Z then mret tt else fchmod g 432)) as Hm
        by (destruct (_ =? 432)%Z; [move_solve|apply fchmod_keeps]). specialize (Hm s2). rewrite H4 in Hm. exact Hm.
    - assert (moves keeps (if (pr_euid p =? 0)%Z then match gid with None => kfail (EREFUSED "runtime group")
        | Some g' => if (i_gid info =? g')%Z then mret tt else fchown p g 0 g' end else mret tt)) as Hm.
      { destruct (pr_euid p =? 0)%Z; [|move_solve]. destruct gid as [g'|]; [|move_solve]. destruct (_ =? g')%Z; [move_solve|apply fchown_keeps]. }
      specialize (Hm s4). rewrite H5 in Hm. exact Hm. }
  assert (f = g) as ->.
  { apply kbind_inr in H as (? & ? & _ & H). apply kbind_inr in H as (? & ? & _ & H). apply kbind_inr in H as (? & ? & _ & H).
    by injection H as <- _. }
  destruct (Hk (kp_ok _ _ O2)) as [_ N]. destruct (N _ _ Hn) as (n' & Hn' & K' & L' & _). exists n'. split_and!; congruence.
Qed.
End event.

(** What was there keeps its content, but that one regular file with a single
    name may have the text at its end, or as much of it as a failed write left. *)
Definition adds_line (text : string) (s s' : Fs) : Prop :=
  exists f, forall i n, fs_nodes s !! i = Some n -> exists n', fs_nodes s' !! i = Some n' /\
    (i_data n' = i_data n \/
     (i = f /\ i_kind n = Reg /\ i_links n = 1%Z /\ i_data n' = i_data n +:+ written s f text /\
      exists rest, text = written s f text +:+ rest /\ (fs_fault s (SWrite f) = false -> rest = ""))).

(** C30: an event is never more than one line: whatever fails and whatever the
    message holds, [Event] never fails; what it adds to the files that were
    there is at most one text at the end of one regular file with a single
    name, and that text is a line, with a line break at its end and nowhere
    else, or the beginning of one where the write itself fails; so no client
    can forge a second one. *)
Theorem an_event_is_one_line p gid now path msg s : fs_ok s ->
  let '(r, s') := Event p gid now path msg s in
  r = inr tt /\
  (exists body, event_line now msg = body +:+ str1 nl /\ no_char nl body = true) /\
  adds_line (event_line now msg) s s'.
Proof.
  intros Hs. assert (exists body, event_line now msg = body +:+ str1 nl /\ no_char nl body = true) as Hline.
  { exists (itoa now +:+ " [" +:+ Tag +:+ "] " +:+ strip_crlf msg). unfold event_line. split; [by rewrite !app_assoc_s|].
    rewrite !no_char_app, strip_crlf_no_nl, itoa_no_char by done. done. }
  unfold Event. destruct (str_empty path).
  { split; [done|]. split; [done|]. exists 0%N. intros i n Hn. exists n. auto. }
  rewrite kbind_run. unfold kcatch. destruct (write_event p gid now path msg s) as [r s'] eqn:Hw. cbn [mret K_ret].
  split; [done|]. split; [done|]. unfold write_event in Hw. rewrite kbind_run in Hw.
  pose proof (open_log_keeps p gid path s Hs) as [Ok Hk]. destruct (open_log p gid path s) as [[x|f] s1] eqn:Hb; cbn [snd] in *.
  { injection Hw as <- <-. exists 0%N. intros i n Hn. destruct (Hk _ _ Hn) as (n' & Hn' & _ & _ & D). exists n'. auto. }
  exists f. destruct (log_inr p gid path s f s1 Hs Hb) as (m & Hm & K & L). rewrite append_run, Hm in Hw.
  pose proof (open_log_faults p gid path s) as [Hfault Hpart]. rewrite Hb in Hfault, Hpart. cbn in Hfault, Hpart.
  assert (written s1 f (event_line now msg) = written s f (event_line now msg)) as Hsame by (unfold written; by rewrite Hfault, Hpart).
  injection Hw as <- <-. cbn [fs_nodes]. intros i n Hn. destruct (Hk _ _ Hn) as (n' & Hn' & Kn & Ln & D).
  destruct (decide (i = f)) as [->|Hi]; [|exists n'; rewrite lookup_insert_ne by done; auto].
  exists (with_data (i_data m +:+ written s1 f (event_line now msg)) m). rewrite lookup_insert_eq. split; [done|]. right. simplify_eq.
  split; [done|]. split; [congruence|]. split; [congruence|]. destruct (written_part s1 f (event_line now msg)) as (rest & Hrest & Hall).
  rewrite <- Hsame. split; [unfold with_data; cbn [i_data]; by rewrite D|]. exists rest. by rewrite Hfault in Hall.
Qed.

(** ** A small tree *)

(** [/var] with a link and a file with set-user bits, and [/tmp]. *)
Definition demo_fs : Fs := mkFs
  (list_to_map [(0%N, mkInode Dir 0 0 493 3 ""); (1%N, mkInode Dir 0 0 493 3 ""); (2%N, mkInode (Link "/etc") 1000 1000 511 1 "");
                (3%N, mkInode Reg 1000 1000 3583 1 "text"); (4%N, mkInode Dir 0 0 1023 2 "")])
  (list_to_map [((0%N, "var"), 1%N); ((1%N, "link"), 2%N); ((1%N, "file"), 3%N); ((0%N, "tmp"), 4%N)]) 5 [] ∅ 0 (fun _ => false).
Definition demo_proc : proc := mkProc 0 0 63 "/" (fun m => Z.land m 1023).

Lemma fs_ok_check s : bool_decide (map_Forall (fun i _ => (i < fs_next s)%N) (fs_nodes s)) = true -> fs_ok s.
Proof. intros H%bool_decide_eq_true i [n Hn]. by apply (H i n). Qed.

Lemma modes_check s : bool_decide (map_Forall (fun _ n => Z.land (i_mode n) ModeBits = i_mode n) (fs_nodes s)) = true ->
  forall i n, fs_nodes s !! i = Some n -> Z.land (i_mode n) ModeBits = i_mode n.
Proof. intros H%bool_decide_eq_true i n Hn. by apply (H i n). Qed.

(** A link on the way is refused, a folder others can write as well. *)
Example links_are_refused : (openDirectory demo_proc "/var/link" false 0 demo_fs).1 = inl ENOTDIR.
Proof. reflexivity. Qed.
Example open_folders_are_refused :
  (MkdirAllNoFollow demo_proc "/tmp/ovnode" 493 demo_fs).1 =
  inl (EREFUSED "cannot safely create a directory under a writable or unowned parent").
Proof. reflexivity. Qed.
(** The states of the file: without the bits it must not keep, with its new
    owner, with its new mode. *)
Example states_of_a_change :
  map (fun x => (x.1, i_uid x.2, i_gid x.2, i_mode x.2)) (fs_seen (SetPermissions demo_proc "/var/file" 2472 0 65533 demo_fs).2) =
  [(3%N, 0%Z, 65533%Z, 2472%Z); (3%N, 0%Z, 65533%Z, 424%Z); (3%N, 1000%Z, 1000%Z, 2472%Z)].
Proof. reflexivity. Qed.


Lemma owners_never_see_more_witness :
  let '(r, s') := SetPermissions demo_proc "/var/file" 416 0 65533 demo_fs in
  (s' = demo_fs /\ r <> inr tt) \/
  exists fd n, fs_nodes demo_fs !! fd = Some n /\ (i_kind n = Dir \/ (i_kind n = Reg /\ i_links n = 1%Z)) /\
    settling 416 0 65533 fd n demo_fs s' /\
    (r = inr tt -> exists n', fs_nodes s' !! fd = Some n' /\ owned 0 65533 n' /\ Z.land (i_mode n') ModeBits = 416%Z).
Proof.
  apply (owners_never_see_more demo_proc "/var/file" 416 0 65533 demo_fs).
  - intros m. apply within_land_l.
  - by apply modes_check.
  - reflexivity.
Defined.

Lemma an_event_is_one_line_witness :
  let '(r, s') := Event demo_proc (Some 65533%Z) 1700000000 "/var/file" (String nl "1 [ovnode-mlogin] forged") demo_fs in
  r = inr tt /\
  (exists body, event_line 1700000000 (String nl "1 [ovnode-mlogin] forged") = body +:+ str1 nl /\ no_char nl body = true) /\
  adds_line (event_line 1700000000 (String nl "1 [ovnode-mlogin] forged")) demo_fs s'.
Proof.
  apply (an_event_is_one_line demo_proc (Some 65533%Z) 1700000000 "/var/file" (String nl "1 [ovnode-mlogin] forged") demo_fs).
  by apply fs_ok_check.
Defined.
