(* ===== verification/AtomicProps.v ===== *)
(** * AtomicProps: a file is written whole or not at all, wherever the process
    stops, and the calls of Fs implement the one step of World. *)

From S2P Require Import Prelude GoString Names Cache World Config Fs FsProps.
From Stdlib Require Import Ascii.

#[local] Set Default Proof Using "Type*".

(** ** Folders stay where they are *)

Definition extends (s s' : Fs) : Prop :=
  (forall k i, fs_entries s !! k = Some i -> fs_entries s' !! k = Some i) /\
  (forall i n, fs_nodes s !! i = Some n -> exists n', fs_nodes s' !! i = Some n' /\ i_kind n' = i_kind n).

Lemma walk_extends s s' fuel d parts e : extends s s' -> namei fuel s d parts = Some e -> namei fuel s' d parts = Some e.
Proof.
  intros [He Hn]. revert d parts. induction fuel as [|fuel IH]; intros d parts; cbn [namei]; [done|].
  destruct parts as [|part parts]; [done|]. destruct (str_empty part || String.eqb part "."); [apply IH|].
  destruct (fs_entries s !! (d, part)) as [i|] eqn:Hi; [|done]. rewrite (He _ _ Hi). cbn.
  destruct (fs_nodes s !! i) as [n|] eqn:Hin; [|done]. destruct (Hn _ _ Hin) as (n' & -> & Hk). cbn. rewrite Hk.
  destruct (i_kind n); auto.
Qed.

#[local] Opaque namei_fuel temp_tries.

Section run.
Context (p : proc) (rnd : nat -> Z).

(** The folder a path leads to. *)
Definition leads (s : Fs) (path : string) : option N :=
  namei namei_fuel s root (split "/" (if has_prefix path "/" then path else pr_cwd p +:+ "/" +:+ path)).

Lemma folder_run path s : folder p path s = (match leads s path with Some d => inr d | None => inl ENOENT end, s).
Proof. unfold folder. rewrite kbind_run. cbn [kgets]. unfold leads. by destruct (namei _ _ _ _). Qed.

(** Every entry is one of an inode. *)
Definition closed (s : Fs) : Prop := forall k i, fs_entries s !! k = Some i -> is_Some (fs_nodes s !! i).

(** [s1] is [s] with a new inode under a name nobody had. *)
Record staged (s : Fs) (d : N) (tmp : string) (n : inode) (s1 : Fs) : Prop := {
  sg_new : fs_entries s !! (d, tmp) = None;
  sg_entries : fs_entries s1 = <[(d, tmp) := fs_next s]> (fs_entries s);
  sg_nodes : fs_nodes s1 = <[fs_next s := n]> (fs_nodes s);
  sg_dirty : forall j, j <> fs_next s -> j ∈ fs_dirty s1 <-> j ∈ fs_dirty s;
  sg_faults : same_faults s s1
}.
Arguments sg_nodes {_ _ _ _ _}.

Definition own_file (m : Z) (data : string) : inode := mkInode Reg (pr_euid p) (pr_egid p) m 1 data.

Lemma open_temp s d name r s1 : open_file p d name (mkFlags true true true) 384 s = (r, s1) ->
  match r with
  | inl e => s1 = s
  | inr f => f = fs_next s /\ staged s d name (own_file (masked p 384) "") s1
  end.
Proof.
  unfold open_file, kcheck. rewrite kbind_run. destruct (fs_fault s _); [by intros [= <- <-]|].
  rewrite kbind_run. cbn [kgets of_create of_excl andb]. destruct (fs_entries s !! (d, name)) as [i|] eqn:Hi; [by intros [= <- <-]|].
  intros [= <- <-]. split; [done|]. by constructor.
Qed.

Lemma CreateTemp_run tries dir s r s1 : CreateTemp p rnd tries dir s = (r, s1) ->
  match r with
  | inl e => s1 = s
  | inr t => exists d k, leads s dir = Some d /\ t = (temp_name rnd k, fs_next s) /\ staged s d (temp_name rnd k) (own_file (masked p 384) "") s1
  end.
Proof.
  revert r s1. induction tries as [|k IH]; intros r s1; cbn [CreateTemp]; [by intros [= <- <-]|]. rewrite kbind_run. unfold kcatch.
  rewrite kbind_run, folder_run. destruct (leads s dir) as [d|] eqn:Hd; [|by intros [= <- <-]].
  destruct (open_file p d (temp_name rnd k) _ _ s) as [r0 s0] eqn:Ho. apply open_temp in Ho. destruct r0 as [e|f].
  - subst s0. destruct e; try (by intros [= <- <-]). apply IH.
  - destruct Ho as [-> Hst]. intros [= <- <-]. by exists d, k.
Qed.

(** *** Filling the temporary file *)

Section filling.
Context (s : Fs) (d : N) (tmp : string).

(** A step that keeps the rest of the file system. *)
Definition steps (m : K unit) (n : inode) (P : inode -> Fs -> Prop) : Prop :=
  forall s1 r s2, staged s d tmp n s1 -> m s1 = (r, s2) ->
  exists n', staged s d tmp n' s2 /\ i_kind n' = Reg /\ (r = inr tt -> P n' s2).

Lemma close_same f s1 r s2 : close f s1 = (r, s2) -> s2 = s1.
Proof. unfold close, kcheck. by destruct (fs_fault s1 _); intros [= <- <-]. Qed.

Lemma or_close_steps f m n P : steps m n P -> steps (or_close f m) n P.
Proof.
  intros Hm s1 r s2 Hs. unfold or_close, kcatch. rewrite kbind_run. destruct (m s1) as [r1 s3] eqn:Hr.
  destruct (Hm _ _ _ Hs Hr) as (n' & Hst & Hk & HP). destruct r1 as [e|[]].
  - rewrite kbind_run. destruct (close f s3) as [r4 s4] eqn:Hc. apply close_same in Hc as ->. intros [= <- <-]. by exists n'.
  - intros [= <- <-]. exists n'. auto.
Qed.

Lemma append_steps n text : i_kind n = Reg ->
  steps (append (fs_next s) text) n (fun n' _ => n' = with_data (i_data n +:+ text) n).
Proof.
  intros Hk s1 r s2 Hst. rewrite append_run, (sg_nodes Hst), lookup_insert_eq. intros [= <- <-].
  exists (with_data (i_data n +:+ written s1 (fs_next s) text) n). destruct Hst as [H1 H2 H3 H4 H5]. split; [|split; [done|]].
  - constructor; try done; [apply insert_insert_eq|]. cbn [fs_dirty]. set_solver.
  - unfold written. by destruct (fs_fault s1 _).
Qed.

Lemma fchmod_steps n m : i_kind n = Reg -> steps (fchmod (fs_next s) m) n (fun n' _ => n' = with_mode m n).
Proof.
  intros Hk s1 r s2 Hst. rewrite fchmod_run. destruct (fs_fault s1 _); [intros [= <- <-]; by exists n|].
  rewrite (sg_nodes Hst), lookup_insert_eq. intros [= <- <-]. exists (with_mode m n). split; [|done].
  destruct Hst as [H1 H2 H3 H4 H5]. constructor; try done. cbn [fs_nodes]. by rewrite H3, insert_insert_eq.
Qed.

Lemma fsync_steps n : i_kind n = Reg -> steps (fsync (fs_next s)) n (fun n' s2 => n' = n /\ fs_next s ∉ fs_dirty s2).
Proof.
  intros Hk s1 r s2 Hst. unfold fsync, kcheck. rewrite kbind_run. destruct (fs_fault s1 _); [intros [= <- <-]; by exists n|].
  intros [= <- <-]. exists n. destruct Hst as [H1 H2 H3 H4 H5]. split; [constructor; try done; cbn [fs_dirty]; set_solver|].
  split; [done|]. cbn [fs_dirty]. set_solver.
Qed.

Lemma fill_steps data perm : steps (write_temp (fs_next s) data perm) (own_file (masked p 384) "")
  (fun n' s2 => n' = own_file perm data /\ fs_next s ∉ fs_dirty s2).
Proof.
  intros s1 r s2 Hst. unfold write_temp. set (n0 := own_file _ _) in *.
  rewrite kbind_run. destruct (or_close _ (append _ _) s1) as [r1 s3] eqn:H1.
  destruct (or_close_steps _ _ n0 _ (append_steps n0 data eq_refl) _ _ _ Hst H1) as (n1 & Hst1 & K1 & E1).
  destruct r1 as [e|[]]; [intros [= <- <-]; by exists n1|]. specialize (E1 eq_refl).
  rewrite kbind_run. destruct (or_close _ (fchmod _ _) s3) as [r2 s4] eqn:H2.
  destruct (or_close_steps _ _ n1 _ (fchmod_steps n1 perm K1) _ _ _ Hst1 H2) as (n2 & Hst2 & K2 & E2).
  destruct r2 as [e|[]]; [intros [= <- <-]; by exists n2|]. specialize (E2 eq_refl).
  rewrite kbind_run. destruct (or_close _ (fsync _) s4) as [r3 s5] eqn:H3.
  destruct (or_close_steps _ _ n2 _ (fsync_steps n2 K2) _ _ _ Hst2 H3) as (n3 & Hst3 & K3 & E3).
  destruct r3 as [e|[]]; [intros [= <- <-]; by exists n3|]. destruct (E3 eq_refl) as [-> Hd].
  intros Hc. pose proof (close_same _ _ _ _ Hc) as ->. exists n2. split; [done|]. split; [done|]. intros _. split; [|done]. by subst.
Qed.
End filling.

(** ** What the call leaves *)

Definition untouched (n n' : inode) : Prop :=
  i_kind n' = i_kind n /\ i_uid n' = i_uid n /\ i_gid n' = i_gid n /\ i_mode n' = i_mode n /\ i_data n' = i_data n.

(** Every inode that was there stays, its content as safe on the disk as it was,
    and only the one that had the name of [target] may lose that name. *)
Definition spares (target : N * string) (s s' : Fs) : Prop := forall i n, fs_nodes s !! i = Some n ->
  (exists n', fs_nodes s' !! i = Some n' /\ untouched n n' /\ (i_links n' = i_links n \/ fs_entries s !! target = Some i)) /\
  (i ∈ fs_dirty s' -> i ∈ fs_dirty s).

(** All or nothing: the entries are those that were there, with the temporary
    one where it could not be removed, or the target is one new file with one
    name and the whole text, on the disk. *)
Definition all_or_nothing (d : N) (base data : string) (perm : Z) (s s' : Fs) (r : kerr + unit) : Prop :=
  match r with
  | inl _ =>
      fs_entries s' = fs_entries s \/
      exists k, fs_fault s (SUnlink d (temp_name rnd k)) = true /\ fs_entries s !! (d, temp_name rnd k) = None /\
        fs_entries s' = <[(d, temp_name rnd k) := fs_next s]> (fs_entries s)
  | inr _ =>
      fs_entries s' = <[(d, base) := fs_next s]> (fs_entries s) /\
      fs_nodes s' !! fs_next s = Some (own_file perm data) /\ fs_next s ∉ fs_dirty s'
  end.

Lemma untouched_refl n : untouched n n.
Proof. done. Qed.

Lemma staged_spares s d tmp n s1 target : fs_ok s -> staged s d tmp n s1 -> spares target s s1.
Proof.
  intros Hs Hst i m Hi. pose proof (Hs _ (mk_is_Some _ _ Hi)). assert (i <> fs_next s) as Hne by lia. split.
  - exists m. rewrite (sg_nodes Hst), lookup_insert_ne by done. auto using untouched_refl.
  - by apply (sg_dirty _ _ _ _ _ Hst).
Qed.

Lemma staged_extends s d tmp n s1 : fs_ok s -> staged s d tmp n s1 -> extends s s1.
Proof.
  intros Hs Hst. split.
  - intros k i Hk. rewrite (sg_entries _ _ _ _ _ Hst), lookup_insert_ne; [done|]. intros <-. rewrite (sg_new _ _ _ _ _ Hst) in Hk. done.
  - intros i m Hi. pose proof (Hs _ (mk_is_Some _ _ Hi)). exists m. rewrite (sg_nodes Hst), lookup_insert_ne by lia. done.
Qed.

(** The rename happens as a whole or not at all. *)
Lemma rename_run s d tmp base n s2 r s3 : fs_ok s -> closed s -> base <> tmp -> staged s d tmp n s2 -> renameat d tmp base s2 = (r, s3) ->
  match r with
  | inl _ => s3 = s2
  | inr _ => fs_entries s3 = <[(d, base) := fs_next s]> (fs_entries s) /\ fs_nodes s3 !! fs_next s = Some n /\
      fs_dirty s3 = fs_dirty s2 /\ spares (d, base) s s3
  end.
Proof.
  intros Hok Hc Hb Hst. pose proof (staged_spares s d tmp n s2 (d, base) Hok Hst) as Hsp.
  unfold renameat, kcheck. rewrite kbind_run. destruct (fs_fault s2 _); [by intros [= <- <-]|]. rewrite kbind_run. cbn [kgets].
  pose proof (sg_new _ _ _ _ _ Hst) as Hnew. rewrite (sg_entries _ _ _ _ _ Hst), lookup_insert_eq. cbv zeta.
  rewrite lookup_insert_ne by congruence. rewrite (delete_insert_id (fs_entries s) (d, tmp)) by done.
  assert (fs_nodes s2 !! fs_next s = Some n) as Hn2 by (rewrite (sg_nodes Hst); apply lookup_insert_eq).
  destruct (fs_entries s !! (d, base)) as [j|] eqn:Hj; [|by intros [= <- <-]].
  destruct (Hc _ _ Hj) as [m Hm]. pose proof (Hok _ (mk_is_Some _ _ Hm)) as Hlt. assert (j <> fs_next s) as Hne by lia.
  assert (fs_nodes s2 !! j = Some m) as Hm2 by (rewrite (sg_nodes Hst), lookup_insert_ne; [done|lia]).
  rewrite kbind_run, node_run, Hm2. destruct (i_kind m) eqn:Hk; [by intros [= <- <-]| | |].
  all: rewrite (proj2 (N.eqb_neq _ _)) by lia; rewrite kbind_run; cbn [set_entries]; unfold drop_link; rewrite kbind_run, node_run;
    cbn [fs_nodes]; rewrite Hm2; cbn [put]; intros [= <- <-]; cbn [fs_entries fs_nodes fs_dirty];
    (split; [done|]; split; [by rewrite lookup_insert_ne by lia|]; split; [done|]);
    intros i k Hi; destruct (Hsp i k Hi) as [(k' & Hk' & Hu) Hd]; (split; [|exact Hd]); cbn [fs_nodes];
    (destruct (decide (i = j)) as [->|Hij]; [|rewrite lookup_insert_ne by done; eauto]);
    rewrite lookup_insert_eq; exists (with_links (i_links m - 1) m); simplify_eq; (split; [done|]); (split; [done|]); by right.
Qed.

(** Removing the temporary file. *)
Lemma unlink_run s d tmp n s2 target r s3 : fs_ok s -> staged s d tmp n s2 -> i_kind n = Reg -> unlinkat d tmp s2 = (r, s3) ->
  spares target s s3 /\
  ((fs_fault s (SUnlink d tmp) = true /\ fs_entries s3 = <[(d, tmp) := fs_next s]> (fs_entries s)) \/ fs_entries s3 = fs_entries s).
Proof.
  intros Hok Hst Hk. pose proof (staged_spares s d tmp n s2 target Hok Hst) as Hsp. destruct (sg_faults _ _ _ _ _ Hst) as [Hf _].
  unfold unlinkat, kcheck. rewrite kbind_run, Hf. destruct (fs_fault s _) eqn:E.
  { intros [= <- <-]. split; [done|]. left. split; [done|apply Hst]. }
  rewrite kbind_run. cbn [kgets]. rewrite (sg_entries _ _ _ _ _ Hst), lookup_insert_eq, kbind_run, node_run, (sg_nodes Hst), lookup_insert_eq, Hk.
  rewrite kbind_run. cbn [set_entries]. unfold drop_link. rewrite kbind_run, node_run. cbn [fs_nodes]. rewrite (sg_nodes Hst), lookup_insert_eq.
  cbn [put]. intros [= <- <-]. cbn [fs_entries fs_nodes fs_dirty]. split.
  - intros i m Hi. pose proof (Hok _ (mk_is_Some _ _ Hi)). destruct (Hsp i m Hi) as [(m' & Hm' & Hu) Hd]. split; [|exact Hd].
    exists m'. cbn [fs_nodes]. rewrite insert_insert_eq, lookup_insert_ne by lia. rewrite (sg_nodes Hst), lookup_insert_ne in Hm' by lia. done.
  - right. apply delete_insert_id. apply Hst.
Qed.

(** A walk that worked ends in the same folder when files took the place of
    some entries, or fails. *)
Lemma walk_same s s' fuel d parts e e' :
  (forall k i, fs_entries s !! k = Some i -> fs_entries s' !! k = Some i \/
     exists j n, fs_entries s' !! k = Some j /\ fs_nodes s' !! j = Some n /\ i_kind n = Reg) ->
  (forall i n, fs_nodes s !! i = Some n -> exists n', fs_nodes s' !! i = Some n' /\ i_kind n' = i_kind n) ->
  namei fuel s d parts = Some e -> namei fuel s' d parts = Some e' -> e' = e.
Proof.
  intros He Hn. revert d parts. induction fuel as [|fuel IH]; intros d parts; cbn [namei]; [done|].
  destruct parts as [|part parts]; [by intros [= <-] [= <-]|]. destruct (str_empty part || String.eqb part "."); [apply IH|].
  destruct (fs_entries s !! (d, part)) as [i|] eqn:Hi; [|done]. cbn. destruct (fs_nodes s !! i) as [n|] eqn:Hin; [|done]. cbn.
  destruct (He _ _ Hi) as [->|(j & m & -> & Hj & Hm)]; cbn; [|by rewrite Hj; cbn; rewrite Hm].
  destruct (Hn _ _ Hin) as (n' & -> & Hk). cbn. rewrite Hk. destruct (i_kind n); [apply IH|done|apply IH|done].
Qed.

Lemma unlink_missing s d name : fs_entries s !! (d, name) = None -> (unlinkat d name s).2 = s.
Proof.
  intros Hi. unfold unlinkat, kcheck. rewrite kbind_run. destruct (fs_fault s _); [done|]. rewrite kbind_run. cbn [kgets]. by rewrite Hi.
Qed.

Lemma temp_name_not base k : has_prefix base ".tmp-" = false -> base <> temp_name rnd k.
Proof. intros Hb ->. unfold temp_name in Hb. by rewrite has_prefix_app in Hb. Qed.

Lemma WriteFileAtomic_run path data perm s r s' : fs_ok s -> closed s -> has_prefix (Base path) ".tmp-" = false ->
  WriteFileAtomic p rnd path data perm s = (r, s') ->
  (s' = s /\ r <> inr tt) \/
  exists d, leads s (DirOf path) = Some d /\ spares (d, Base path) s s' /\ all_or_nothing d (Base path) data perm s s' r.
Proof.
  intros Hok Hc Hb. unfold WriteFileAtomic. cbv zeta. set (dir := DirOf path). set (base := Base path) in *. rewrite kbind_run.
  destruct (CreateTemp p rnd temp_tries dir s) as [rt s1] eqn:Ht. apply CreateTemp_run in Ht.
  destruct rt as [e|t]; [subst s1; intros [= <- <-]; by left|]. destruct Ht as (d & k & Hd & -> & Hst). cbn [fst snd]. intros H. right.
  exists d. split; [done|]. pose proof (temp_name_not base k Hb) as Hne. set (tmp := temp_name rnd k) in *.
  rewrite kbind_run in H. unfold kcatch in H. rewrite kbind_run in H. destruct (write_temp (fs_next s) data perm s1) as [rf s2] eqn:Hf.
  destruct (fill_steps s d tmp data perm s1 rf s2 Hst Hf) as (n & Hst2 & Hk & Hfull).
  assert (forall e s3, s3 = s2 -> (let! _ := (fun s => let '(r, s') := Remove p dir tmp s in (inr r, s')) in kfail e) s3 = (r, s') ->
    spares (d, base) s s' /\ all_or_nothing d base data perm s s' r) as Hfail.
  { intros e s3 -> Hr. unfold Remove in Hr. rewrite !kbind_run, folder_run in Hr.
    assert (leads s2 dir = Some d) as Hl by (eapply walk_extends; [by eapply staged_extends|exact Hd]). rewrite Hl in Hr.
    destruct (unlinkat d tmp s2) as [ru s4] eqn:Hu. injection Hr as <- <-.
    destruct (unlink_run s d tmp n s2 (d, base) ru s4 Hok Hst2 Hk Hu) as [Hsp Hen]. split; [done|].
    cbn. destruct Hen as [[Hff Hen]|Hen]; [right|by left]. exists k. split; [done|]. split; [apply Hst|done]. }
  destruct rf as [e|[]]; [by apply (Hfail e s2)|]. destruct (Hfull eq_refl) as [-> Hclean].
  unfold Rename in H. rewrite kbind_run, folder_run in H.
  assert (leads s2 dir = Some d) as Hl2 by (eapply walk_extends; [by eapply staged_extends|exact Hd]).
  rewrite Hl2 in H. destruct (renameat d tmp base s2) as [rr s3] eqn:Hren.
  pose proof (rename_run s d tmp base _ s2 rr s3 Hok Hc Hne Hst2 Hren) as Hr.
  destruct rr as [e|[]]; [by apply (Hfail e s3)|]. destruct Hr as (He & Hn & Hdirty & Hsp).
  assert (s' = s3 /\ r = inr tt) as [-> ->]; [|split; [done|]; split_and!; [done|done|by rewrite Hdirty]].
  rewrite kbind_run in H. unfold Remove in H. rewrite kbind_run, folder_run in H.
  destruct (leads s3 dir) as [d'|] eqn:Hl3; [|by injection H as <- <-]. assert (d' = d) as ->.
  { eapply (walk_same s s3); [| |exact Hd|exact Hl3].
    - intros q i Hq. rewrite He. destruct (decide (q = (d, base))) as [->|Hqne]; [|left; by rewrite lookup_insert_ne].
      right. rewrite lookup_insert_eq. eauto.
    - intros i m Hm. destruct (Hsp i m Hm) as [(m' & Hm' & Hu & _) _]. exists m'. split; [done|apply Hu]. }
  pose proof (unlink_missing s3 d tmp) as Hu. destruct (unlinkat d tmp s3) as [ru s4]. injection H as <- <-. split; [|done].
  apply Hu. rewrite He, lookup_insert_ne by congruence. apply Hst.
Qed.

(** *** A call that can work does *)

Definition faults_none (s : Fs) : Prop := forall op, fs_fault s op = false.

Lemma CreateTemp_works tries dir d s k : faults_none s -> leads s dir = Some d -> (k < tries)%nat -> fs_entries s !! (d, temp_name rnd k) = None ->
  exists t s1, CreateTemp p rnd tries dir s = (inr t, s1).
Proof.
  intros Hf Hd Hk He. induction tries as [|j IH]; [lia|]. cbn [CreateTemp]. rewrite kbind_run. unfold kcatch.
  rewrite kbind_run, folder_run, Hd. unfold open_file, kcheck. rewrite !kbind_run, Hf, kbind_run. cbn [kgets of_create of_excl andb].
  destruct (fs_entries s !! (d, temp_name rnd j)) as [i|] eqn:Hj; [|by eexists _, _]. apply IH.
  destruct (decide (k = j)) as [->|]; [congruence|lia].
Qed.

Lemma or_close_works f m s s' : m s = (inr tt, s') -> or_close f m s = (inr tt, s').
Proof. intros H. unfold or_close, kcatch. by rewrite kbind_run, H. Qed.

Lemma fill_works s d tmp n s1 data perm : staged s d tmp n s1 -> faults_none s1 -> (write_temp (fs_next s) data perm s1).1 = inr tt.
Proof.
  intros Hst Hf. unfold write_temp. assert (fs_nodes s1 !! fs_next s = Some n) as Hn by (rewrite (sg_nodes Hst); apply lookup_insert_eq).
  assert (exists s2, append (fs_next s) data s1 = (inr tt, s2) /\ faults_none s2 /\ is_Some (fs_nodes s2 !! fs_next s)) as (s2 & H2 & F2 & m & N2).
  { rewrite append_run, Hn, Hf. eexists. split; [done|]. split; [done|]. cbn [fs_nodes]. rewrite lookup_insert_eq. eauto. }
  rewrite kbind_run, (or_close_works _ _ _ _ H2).
  assert (exists s3, fchmod (fs_next s) perm s2 = (inr tt, s3) /\ faults_none s3) as (s3 & H3 & F3) by (rewrite fchmod_run, F2, N2; eauto).
  rewrite kbind_run, (or_close_works _ _ _ _ H3).
  assert (exists s4, fsync (fs_next s) s3 = (inr tt, s4) /\ faults_none s4) as (s4 & H4 & F4)
    by (unfold fsync, kcheck; rewrite kbind_run, F3; eexists; done).
  rewrite kbind_run, (or_close_works _ _ _ _ H4). unfold close, kcheck. by rewrite F4.
Qed.

(** The target is no folder. *)
Definition no_folder (s : Fs) (d : N) (base : string) : Prop :=
  forall i n, fs_entries s !! (d, base) = Some i -> fs_nodes s !! i = Some n -> i_kind n <> Dir.

Lemma rename_works s d tmp base n s2 : fs_ok s -> closed s -> base <> tmp -> staged s d tmp n s2 -> faults_none s2 -> no_folder s d base ->
  (renameat d tmp base s2).1 = inr tt.
Proof.
  intros Hok Hc Hb Hst Hf Hdir. unfold renameat, kcheck. rewrite kbind_run, Hf, kbind_run. cbn [kgets].
  rewrite (sg_entries _ _ _ _ _ Hst), lookup_insert_eq. cbv zeta. rewrite lookup_insert_ne by congruence.
  destruct (fs_entries s !! (d, base)) as [j|] eqn:Hj; [|done]. destruct (Hc _ _ Hj) as [m Hm]. pose proof (Hok _ (mk_is_Some _ _ Hm)).
  assert (fs_nodes s2 !! j = Some m) as Hm2 by (rewrite (sg_nodes Hst), lookup_insert_ne; [done|lia]).
  rewrite kbind_run, node_run, Hm2. pose proof (Hdir _ _ Hj Hm) as Hk. destruct (i_kind m) eqn:E; [by destruct Hk| | |].
  all: rewrite (proj2 (N.eqb_neq _ _)) by lia; rewrite kbind_run; cbn [set_entries]; unfold drop_link; rewrite kbind_run, node_run;
    cbn [fs_nodes]; by rewrite Hm2.
Qed.

Lemma fill_faults f data perm : moves same_faults (write_temp f data perm).
Proof.
  unfold write_temp, or_close, append, fchmod, fsync, close. move_solve.
Qed.

Lemma WriteFileAtomic_works path data perm s d k : fs_ok s -> closed s -> has_prefix (Base path) ".tmp-" = false ->
  faults_none s -> leads s (DirOf path) = Some d -> no_folder s d (Base path) ->
  (k < temp_tries)%nat -> fs_entries s !! (d, temp_name rnd k) = None ->
  (WriteFileAtomic p rnd path data perm s).1 = inr tt.
Proof.
  intros Hok Hc Hb Hf Hd Hdir Hk He. unfold WriteFileAtomic. cbv zeta.
  destruct (CreateTemp_works temp_tries (DirOf path) d s k Hf Hd Hk He) as (t & s1 & Ht). rewrite kbind_run, Ht.
  apply CreateTemp_run in Ht as (d' & j & Hd' & -> & Hst). simplify_eq. cbn [fst snd]. rewrite kbind_run. unfold kcatch. rewrite kbind_run.
  assert (faults_none s1) as F1 by (intros op; destruct (sg_faults _ _ _ _ _ Hst) as [-> _]; apply Hf).
  pose proof (fill_works s d _ _ s1 data perm Hst F1) as Hr. pose proof (fill_faults (fs_next s) data perm s1) as [F2 _].
  destruct (write_temp (fs_next s) data perm s1) as [rf s2] eqn:Hfill. cbn [fst snd] in *. subst rf.
  destruct (fill_steps s d _ data perm s1 _ s2 Hst Hfill) as (n & Hst2 & _). unfold Rename. rewrite kbind_run, folder_run.
  assert (leads s2 (DirOf path) = Some d) as -> by (eapply walk_extends; [by eapply staged_extends|exact Hd]).
  assert (faults_none s2) as Hf2 by (intros op; by rewrite F2, F1).
  pose proof (rename_works s d _ (Base path) n s2 Hok Hc (temp_name_not _ j Hb) Hst2 Hf2 Hdir) as Hr.
  destruct (renameat _ _ _ s2) as [rr s3]. cbn in Hr. subst rr. rewrite kbind_run. by destruct (Remove _ _ _ s3).
Qed.

(** C11: a file is written whole or not at all, wherever the writing stops:
    whichever calls fail (and, when all calls after some point fail, whenever
    the process dies), every inode that was there keeps its owner, its mode
    and its content; on an error each entry of the tree is the one it was, and
    only a temporary name that could not be removed is left over; on success
    the only change is that the target is one new regular file of this
    process, with one name, the mode asked for and the whole text, all of it
    on the disk before it got its name. *)
Theorem a_file_is_written_whole path data perm s : fs_ok s -> closed s -> has_prefix (Base path) ".tmp-" = false ->
  let '(r, s') := WriteFileAtomic p rnd path data perm s in
  (s' = s /\ r <> inr tt) \/
  exists d, leads s (DirOf path) = Some d /\ spares (d, Base path) s s' /\ all_or_nothing d (Base path) data perm s s' r.
Proof.
  intros Hok Hc Hb. destruct (WriteFileAtomic p rnd path data perm s) as [r s'] eqn:H. by apply WriteFileAtomic_run.
Qed.

(** ** The atomic write of World *)

(** The text of a regular file. *)
Definition text_at (s : Fs) (k : N * string) : option string :=
  i ← fs_entries s !! k; n ← fs_nodes s !! i; match i_kind n with Reg => Some (i_data n) | _ => None end.

(** Where the files of the world are in the tree. *)
Definition represents (at_ : loc -> option (N * string)) (w : World) (s : Fs) : Prop :=
  forall l k, at_ l = Some k -> w_files w !! l = text_at s k.

Definition with_fault (f : ioop -> bool) (w : World) : World :=
  mkWorld (w_files w) (w_users_dir w) (w_user_dirs w) (w_log w) (w_sys w) (w_now w) (w_epochs w) (w_gens w) (w_name_cache w) (w_usage_cache w) f.

Lemma text_at_spared target s s' k : closed s -> spares target s s' -> fs_entries s' !! k = fs_entries s !! k -> text_at s' k = text_at s k.
Proof.
  intros Hc Hsp He. unfold text_at. rewrite He. destruct (fs_entries s !! k) as [i|] eqn:Hi; [|done]. cbn.
  destruct (Hc _ _ Hi) as [n Hn]. destruct (Hsp _ _ Hn) as [(n' & -> & (Hk & _ & _ & _ & Hd) & _) _]. rewrite Hn. cbn. by rewrite Hk, Hd.
Qed.

(** C3: [WriteFileAtomic] of the file system is the atomic write of World:
    whenever the files of a world are in the tree (each under an entry of its
    own, none of them temporary), the call on the inodes, whichever of its
    steps fail, and the one step of [World.WriteFileAtomic], with or without a
    failure, agree on success and leave trees that agree again; and where no
    step fails, the target is no folder and one of the names drawn is free,
    it succeeds. *)
Theorem atomic_write_is_refined at_ w l path data perm s d : fs_ok s -> closed s ->
  (forall l1 l2 k, at_ l1 = Some k -> at_ l2 = Some k -> l1 = l2) ->
  (forall l e name, at_ l = Some (e, name) -> has_prefix name ".tmp-" = false) ->
  at_ l = Some (d, Base path) -> leads s (DirOf path) = Some d -> parent_ok w l = true -> represents at_ w s ->
  let '(r, s') := WriteFileAtomic p rnd path data perm s in
  (exists fault, let '(r0, w') := World.WriteFileAtomic l data (with_fault fault w) in
     represents at_ w' s' /\ (r = inr tt <-> r0 = inr tt)) /\
  ((forall op, fs_fault s op = false) -> no_folder s d (Base path) ->
   (exists k, (k < temp_tries)%nat /\ fs_entries s !! (d, temp_name rnd k) = None) -> r = inr tt).
Proof.
  intros Hok Hc Hinj Htemp Hl Hd Hp Hrep. pose proof (Htemp _ _ _ Hl) as Hb.
  pose proof (fun k => WriteFileAtomic_works path data perm s d k Hok Hc Hb) as Hworks.
  destruct (WriteFileAtomic p rnd path data perm s) as [r s'] eqn:H. split; [|intros Hf Hn (k & Hk & He); by apply (Hworks k)].
  assert (r <> inr tt -> (forall l' k, at_ l' = Some k -> text_at s' k = text_at s k) ->
    exists fault, let '(r0, w') := World.WriteFileAtomic l data (with_fault fault w) in represents at_ w' s' /\ (r = inr tt <-> r0 = inr tt)) as Hfail.
  { intros Hr Hsame. exists (fun _ => true). cbn. split; [|done]. intros l' k Hk. by rewrite (Hsame _ _ Hk), <- (Hrep _ _ Hk). }
  destruct (WriteFileAtomic_run path data perm s r s' Hok Hc Hb H) as [[-> Hr]|(d' & Hd' & Hsp & Hall)]; [by apply Hfail|].
  simplify_eq. destruct r as [e|[]].
  - apply Hfail; [done|]. intros l' [e' name] Hk. apply (text_at_spared _ _ _ _ Hc Hsp). destruct Hall as [->|(k & _ & _ & ->)]; [done|].
    rewrite lookup_insert_ne; [done|]. intros [= _ Hname]. by apply (temp_name_not name k (Htemp _ _ _ Hk)).
  - destruct Hall as (He & Hn & _). exists (fun _ => false). unfold World.WriteFileAtomic. cbn [w_fault with_fault].
    assert (parent_ok (with_fault (fun _ => false) w) l = true) as -> by by destruct l. split; [|done]. intros l' k Hk. cbn [w_files set_files with_fault].
    destruct (decide (l' = l)) as [->|Hne].
    + rewrite lookup_insert_eq. simplify_eq. unfold text_at. rewrite He, lookup_insert_eq. cbn. by rewrite Hn.
    + rewrite lookup_insert_ne by done. rewrite (Hrep _ _ Hk). symmetry. apply (text_at_spared _ _ _ _ Hc Hsp). rewrite He, lookup_insert_ne; [done|].
      intros <-. apply Hne. by eapply Hinj.
Qed.
End run.

#[local] Transparent namei_fuel temp_tries.

(** ** A small tree *)

Lemma closed_check s : bool_decide (map_Forall (fun _ i => is_Some (fs_nodes s !! i)) (fs_entries s)) = true -> closed s.
Proof. intros H%bool_decide_eq_true k i Hk. by apply (H k i). Qed.

Definition failing (bad : list sysop) (part : nat) (s : Fs) : Fs :=
  mkFs (fs_nodes s) (fs_entries s) (fs_next s) (fs_seen s) (fs_dirty s) part (fun op => bool_decide (op ∈ bad)).
Definition demo_write (s : Fs) : (kerr + unit) * Fs := WriteFileAtomic demo_proc Z.of_nat "/var/file" "new text" 416 s.

(** A disk that fills up, and a process that dies before the rename. *)
Definition left_by (s : Fs) : (kerr + unit) * option string * option string * option string :=
  let '(r, s') := demo_write s in
  (r, text_at s' (1%N, "file"), text_at s' (1%N, ".tmp-9999"), option_map i_data (fs_nodes s' !! 5%N)).
Example full_disk : left_by (failing [SWrite 5] 3 demo_fs) = (inl EIO, Some "text", None, Some "new").
Proof. vm_compute. reflexivity. Qed.
Example died_before_the_rename :
  left_by (failing [SRename 1 "file"; SUnlink 1 ".tmp-9999"] 0 demo_fs) = (inl EIO, Some "text", Some "new text", Some "new text").
Proof. vm_compute. reflexivity. Qed.
Example the_file_is_replaced : left_by demo_fs = (inr tt, Some "new text", None, Some "new text").
Proof. vm_compute. reflexivity. Qed.

Lemma a_file_is_written_whole_witness : let '(r, s') := demo_write demo_fs in
  (s' = demo_fs /\ r <> inr tt) \/
  exists d, leads demo_proc demo_fs (DirOf "/var/file") = Some d /\ spares (d, Base "/var/file") demo_fs s' /\
    all_or_nothing demo_proc Z.of_nat d (Base "/var/file") "new text" 416 demo_fs s' r.
Proof.
  apply (a_file_is_written_whole demo_proc Z.of_nat "/var/file" "new text" 416 demo_fs);
    [by apply fs_ok_check|by apply closed_check|reflexivity].
Defined.

Definition demo_at (l : loc) : option (N * string) := if decide (l = LAbs "/var/file") then Some (1%N, "file") else None.
Definition demo_files : World := set_files {[ LAbs "/var/file" := "text" ]} demo_world.

Lemma demo_at_inv l k : demo_at l = Some k -> l = LAbs "/var/file" /\ k = (1%N, "file").
Proof. unfold demo_at. destruct (decide _); [|done]. by intros [= <-]. Qed.

Lemma atomic_write_is_refined_witness : let '(r, s') := demo_write demo_fs in
  (exists fault, let '(r0, w') := World.WriteFileAtomic (LAbs "/var/file") "new text" (with_fault fault demo_files) in
     represents demo_at w' s' /\ (r = inr tt <-> r0 = inr tt)) /\
  ((forall op, fs_fault demo_fs op = false) -> no_folder demo_fs 1 (Base "/var/file") ->
   (exists k, (k < temp_tries)%nat /\ fs_entries demo_fs !! (1%N, temp_name Z.of_nat k) = None) -> r = inr tt).
Proof.
  apply (atomic_write_is_refined demo_proc Z.of_nat demo_at demo_files (LAbs "/var/file") "/var/file" "new text" 416 demo_fs 1).
  - by apply fs_ok_check.
  - by apply closed_check.
  - by intros l1 l2 k [-> _]%demo_at_inv [-> _]%demo_at_inv.
  - by intros l e name [_ [= _ ->]]%demo_at_inv.
  - reflexivity.
  - vm_compute. reflexivity.
  - reflexivity.
  - intros l k [-> ->]%demo_at_inv. reflexivity.
Defined.
